(** * ExcelCompare: the matching / diff engine

    A shallow embedding of the comparison code of the repository
    ([src/models], [src/services/compare_service.py],
    [src/services/smart_compare_service.py], the compare handlers and
    the navigation of [src/views/main_window.py], the texts read by
    [src/views/config_panel.py] and the escaping of
    [src/services/report_service.py]) together with the properties of
    the specification that are settled against it and further
    properties of the code.

    Conventions of the embedding.
    - Python values that a cell can hold are the inductive [pyval].
    - Python [str] is [string]; a character is a code point below 256.
    - Python [float] is an IEEE binary64 number, [spec_float] with
      precision 53 and maximal exponent 1024; a statement that needs
      the mantissa and the exponent to be those of the format says so
      ([binary64]).  [float] of a text skips the white space that
      CPython skips there, which is not that of [str.strip].
    - A [dict] is an association list in insertion order (the order in
      which CPython iterates it).  A key is found by [==]; a NaN, which
      is equal to nothing, is found as the object it is: the value of
      one cell of one of the two workbooks ([key_obj]).
    - The iteration order of a [set] is not fixed by the language: every
      function that iterates a set takes the enumeration as a parameter.
    - A Python exception is a value of [exn]; a function that can raise
      returns a [result]. *)

From Stdlib Require Import ZArith NArith List String Ascii Bool Lia.
From Stdlib Require Import Permutation Sorted DecimalString.
From Stdlib Require Import SpecFloat.
From Stdlib Require DecimalPos.
Import ListNotations.
Open Scope string_scope.
Open Scope list_scope.
Open Scope nat_scope.

(** ** Part I. Python builtins *)

Module Py.

(** *** Exceptions *)

Inductive exn : Type :=
| ValueError
| TypeError
| IndexError
| AttributeError
| OverflowError.

Inductive result (A : Type) : Type :=
| Ok (a : A)
| Raise (e : exn).

Arguments Ok {A} a.
Arguments Raise {A} e.

Definition bind {A B : Type} (c : result A) (k : A -> result B) : result B :=
  match c with
  | Ok a => k a
  | Raise e => Raise e
  end.

Definition fmap {A B : Type} (f : A -> B) (c : result A) : result B :=
  bind c (fun a => Ok (f a)).

(** [for x in l: acc = body(acc, x)], stopping at the first exception. *)
Fixpoint foldM {A B : Type} (body : B -> A -> result B) (l : list A) (acc : B)
  : result B :=
  match l with
  | [] => Ok acc
  | x :: l' => bind (body acc x) (foldM body l')
  end.

(** [[f(x) for x in l]], stopping at the first exception. *)
Fixpoint mapM {A B : Type} (f : A -> result B) (l : list A) : result (list B) :=
  match l with
  | [] => Ok []
  | x :: l' => bind (f x) (fun y => bind (mapM f l') (fun ys => Ok (y :: ys)))
  end.

(** *** Strings *)

Definition code (c : ascii) : N := N_of_ascii c.

(** [str.isspace] on the code points below 256. *)
Definition is_space (c : ascii) : bool :=
  let n := code c in
  ((9 <=? n) && (n <=? 13) || (28 <=? n) && (n <=? 32)
   || (n =? 133) || (n =? 160))%N.

Fixpoint lstrip (s : string) : string :=
  match s with
  | EmptyString => EmptyString
  | String c s' => if is_space c then lstrip s' else s
  end.

Fixpoint rev_append_string (s acc : string) : string :=
  match s with
  | EmptyString => acc
  | String c s' => rev_append_string s' (String c acc)
  end.

Definition rev_string (s : string) : string := rev_append_string s EmptyString.

Definition rstrip (s : string) : string := rev_string (lstrip (rev_string s)).

(** [s.strip()] *)
Definition strip (s : string) : string := rstrip (lstrip s).

(** [str.lower] on one code point below 256: the ASCII capitals and the
    Latin-1 capitals (U+00C0 to U+00DE, the multiplication sign apart). *)
Definition lower_char (c : ascii) : ascii :=
  let n := code c in
  if ((65 <=? n) && (n <=? 90)
      || (192 <=? n) && (n <=? 222) && negb (n =? 215))%N
  then ascii_of_N (n + 32) else c.

(** [s.lower()] *)
Fixpoint lower (s : string) : string :=
  match s with
  | EmptyString => EmptyString
  | String c s' => String (lower_char c) (lower s')
  end.

(** *** Floats: builtin [float] on numbers and strings *)

Local Open Scope Z_scope.

Definition prec : Z := 53.
Definition emax : Z := 1024.

Definition float_is_inf (f : spec_float) : bool :=
  match f with S754_infinity _ => true | _ => false end.

(** [float(n)] for an [int]: the nearest binary64, ties to even;
    [OverflowError] beyond the range. *)
Definition float_of_Z (n : Z) : result spec_float :=
  let f := binary_normalize prec emax n 0 false in
  if float_is_inf f then Raise OverflowError else Ok f.

(** The binary64 nearest to [n / d] ([n], [d] positive): the quotient is
    taken with at least 64 bits and a sticky bit, then rounded once. *)
Definition float_of_ratio (n d : Z) : spec_float :=
  let s := Z.max 0 (Z.log2 d + 66 - Z.log2 n) in
  let q := (n * 2 ^ s) / d in
  let r := (n * 2 ^ s) mod d in
  binary_normalize prec emax (2 * q + (if r =? 0 then 0 else 1)) (- s - 1) false.

(** The binary64 nearest to [m * 10 ^ e], [m >= 0]; overflow gives [inf]. *)
Definition float_of_decimal (m e : Z) : spec_float :=
  if m =? 0 then S754_zero false
  else if 0 <=? e then binary_normalize prec emax (m * 10 ^ e) 0 false
  else float_of_ratio m (10 ^ (- e)).

Definition is_digit (c : ascii) : bool :=
  ((48 <=? code c)%N && (code c <=? 57)%N)%bool.

Definition digit_val (c : ascii) : Z := Z.of_N (code c) - 48.

(** An underscore is accepted only between two digits; the accepted
    underscores are dropped before the number is read. *)
Fixpoint drop_underscores (prev : option ascii) (s : list ascii)
  : option (list ascii) :=
  match s with
  | [] => match prev with
          | Some c => if Ascii.eqb c "_" then None else Some []
          | None => Some []
          end
  | c :: s' =>
      let prev_digit := match prev with Some p => is_digit p | None => false end in
      let prev_us := match prev with Some p => Ascii.eqb p "_" | None => false end in
      if Ascii.eqb c "_" then
        if prev_digit then drop_underscores (Some c) s' else None
      else if prev_us && negb (is_digit c) then None
      else option_map (cons c) (drop_underscores (Some c) s')
  end.

(** Reads a maximal run of digits: its value after [acc], its length and
    the rest of the input. *)
Fixpoint read_digits (s : list ascii) (acc : Z) (cnt : Z) : Z * Z * list ascii :=
  match s with
  | c :: s' => if is_digit c then read_digits s' (acc * 10 + digit_val c) (cnt + 1)
               else (acc, cnt, s)
  | [] => (acc, cnt, [])
  end.

Definition read_sign (s : list ascii) : bool * list ascii :=
  match s with
  | c :: s' => if Ascii.eqb c "-" then (true, s')
               else if Ascii.eqb c "+" then (false, s') else (false, s)
  | [] => (false, [])
  end.

(** The exponent part: empty, or [e]/[E], an optional sign and digits up
    to the end of the input. *)
Definition read_exponent (s : list ascii) : option Z :=
  match s with
  | [] => Some 0%Z
  | c :: s' =>
      if Ascii.eqb (lower_char c) "e" then
        let '(neg, s1) := read_sign s' in
        match read_digits s1 0 0 with
        | (x, cnt, []) => if 0 <? cnt then Some (if neg then - x else x)%Z else None
        | _ => None
        end
      else None
  end.

(** [digits [. digits] [exponent]] or [. digits [exponent]], read to the
    end: the mantissa as an integer and the power of ten. *)
Definition read_number (s : list ascii) : option (Z * Z) :=
  let '(ip, icnt, s1) := read_digits s 0 0 in
  let '(m, fcnt, s2) :=
    match s1 with
    | c :: s1' => if Ascii.eqb c "." then read_digits s1' ip 0 else (ip, 0%Z, s1)
    | [] => (ip, 0%Z, [])
    end in
  if (icnt + fcnt =? 0)%Z then None
  else match read_exponent s2 with
       | Some x => Some (m, (x - fcnt)%Z)
       | None => None
       end.

Definition cond_neg (neg : bool) (f : spec_float) : spec_float :=
  if neg then SFopp f else f.

(** The white space that [float] skips around a number.  In a text of
    ASCII characters these are the characters of the C [isspace], tab to
    carriage return and the space.  A text with a character beyond
    U+007F is rewritten first, its white space beyond U+007F (below 256:
    U+0085 and U+00A0) becoming spaces.  The separators U+001C to
    U+001F, which [str.strip] removes, are kept: with one of them the
    text is no number. *)
Definition is_float_space (c : ascii) : bool :=
  let n := code c in
  ((9 <=? n) && (n <=? 13) || (n =? 32) || (n =? 133) || (n =? 160))%N.

Fixpoint float_lstrip (s : string) : string :=
  match s with
  | EmptyString => EmptyString
  | String c s' => if is_float_space c then float_lstrip s' else s
  end.

Definition float_strip (s : string) : string :=
  rev_string (float_lstrip (rev_string (float_lstrip s))).

(** [float(s)] for a [str]: the white space around the number is
    skipped; [inf], [infinity] and [nan] are read in any letter case;
    anything else that is not a decimal literal raises [ValueError]. *)
Definition float_of_string (s : string) : result spec_float :=
  match drop_underscores None (list_ascii_of_string (float_strip s)) with
  | None => Raise ValueError
  | Some cs =>
      let '(neg, body) := read_sign cs in
      let word := lower (string_of_list_ascii body) in
      if String.eqb word "inf" || String.eqb word "infinity"
      then Ok (S754_infinity neg)
      else if String.eqb word "nan" then Ok S754_nan
      else match read_number body with
           | Some (m, e) => Ok (cond_neg neg (float_of_decimal m e))
           | None => Raise ValueError
           end
  end.

(** *** Values *)

(** [datetime.datetime], naive. *)
Record datetime : Type := mk_datetime {
  year : nat; month : nat; day : nat;
  hour : nat; minute : nat; second : nat; microsecond : nat
}.

(** The values a cell can hold: [None], [str], [int], [float], [bool]
    and [datetime]. *)
Inductive pyval : Type :=
| PNone
| PStr (s : string)
| PInt (n : Z)
| PFloat (f : spec_float)
| PBool (b : bool)
| PDate (d : datetime).

(** [isinstance(v, str)] *)
Definition is_str (v : pyval) : bool :=
  match v with PStr _ => true | _ => false end.

(** [v is None] *)
Definition is_none (v : pyval) : bool :=
  match v with PNone => true | _ => false end.

Definition datetime_eqb (a b : datetime) : bool :=
  (Nat.eqb (year a) (year b) && Nat.eqb (month a) (month b)
   && Nat.eqb (day a) (day b) && Nat.eqb (hour a) (hour b)
   && Nat.eqb (minute a) (minute b) && Nat.eqb (second a) (second b)
   && Nat.eqb (microsecond a) (microsecond b))%bool.

(** An [int] and a [float] are equal when they denote the same number:
    the comparison is exact. *)
Definition float_eq_Z (f : spec_float) (n : Z) : bool :=
  match f with
  | S754_zero _ => n =? 0
  | S754_finite s m e =>
      let v := if s then Z.neg m else Z.pos m in
      if 0 <=? e then n =? v * 2 ^ e else n * 2 ^ (- e) =? v
  | _ => false
  end.

Definition Z_of_bool (b : bool) : Z := if b then 1 else 0.

(** [a == b].  [bool] is a subclass of [int]; numbers of different types
    compare by value; values of unrelated types are different. *)
Definition py_eqb (a b : pyval) : bool :=
  match a, b with
  | PNone, PNone => true
  | PStr s, PStr t => String.eqb s t
  | PDate d, PDate e => datetime_eqb d e
  | PInt n, PInt m => n =? m
  | PInt n, PBool c => n =? Z_of_bool c
  | PBool c, PInt n => Z_of_bool c =? n
  | PBool c, PBool d => Bool.eqb c d
  | PFloat f, PFloat g => SFeqb f g
  | PFloat f, PInt n => float_eq_Z f n
  | PInt n, PFloat f => float_eq_Z f n
  | PFloat f, PBool c => float_eq_Z f (Z_of_bool c)
  | PBool c, PFloat f => float_eq_Z f (Z_of_bool c)
  | _, _ => false
  end.

(** [a != b] *)
Definition py_neqb (a b : pyval) : bool := negb (py_eqb a b).

(** [bool(v)], the truth value used by [if v] and by [and] / [or]. *)
Definition truthy (v : pyval) : bool :=
  match v with
  | PNone => false
  | PStr s => negb (String.eqb s "")
  | PInt n => negb (n =? 0)
  | PFloat (S754_zero _) => false
  | PFloat _ => true
  | PBool b => b
  | PDate _ => true
  end.

(** [float(v)] *)
Definition py_float (v : pyval) : result spec_float :=
  match v with
  | PFloat f => Ok f
  | PInt n => float_of_Z n
  | PBool b => float_of_Z (Z_of_bool b)
  | PStr s => float_of_string s
  | PNone => Raise TypeError
  | PDate _ => Raise TypeError
  end.

(** [str(n)] for an [int]. *)
Definition str_of_Z (n : Z) : string := NilZero.string_of_int (Z.to_int n).

Definition str_of_nat (n : nat) : string := str_of_Z (Z.of_nat n).

Fixpoint zeros (n : nat) : string :=
  match n with
  | O => ""
  | S n' => String "0" (zeros n')
  end.

(** [n] in decimal, padded with zeros on the left to [w] digits. *)
Definition pad (w n : nat) : string :=
  let s := str_of_nat n in (zeros (w - String.length s) ++ s)%string.

(** [str(d)] for a [datetime]: ISO format with a space separator, the
    microseconds only when they are not zero. *)
Definition str_of_datetime (d : datetime) : string :=
  (pad 4 (year d) ++ "-" ++ pad 2 (month d) ++ "-" ++ pad 2 (day d) ++ " "
   ++ pad 2 (hour d) ++ ":" ++ pad 2 (minute d) ++ ":" ++ pad 2 (second d)
   ++ (if Nat.eqb (microsecond d) 0 then ""
       else "." ++ pad 6 (microsecond d)))%string.

Section Str.

(** [repr] of a [float] (the shortest decimal string that reads back as
    the same number) is left as a parameter: everything proved below
    holds whatever it is. *)
Variable float_repr : spec_float -> string.

(** [str(v)] *)
Definition py_str (v : pyval) : string :=
  match v with
  | PNone => "None"
  | PStr s => s
  | PInt n => str_of_Z n
  | PFloat f => float_repr f
  | PBool true => "True"
  | PBool false => "False"
  | PDate d => str_of_datetime d
  end.

End Str.

(** *** Lists *)

Local Close Scope Z_scope.

(** [range(n)] *)
Definition range (n : nat) : list nat := seq 0 n.

(** [range(a, b)] *)
Definition range2 (a b : nat) : list nat := seq a (b - a).

(** [enumerate(l)] *)
Definition enumerate {A : Type} (l : list A) : list (nat * A) :=
  combine (seq 0 (List.length l)) l.

(** [l[i] if i < len(l) else default] for an index that is not negative. *)
Definition get_or {A : Type} (l : list A) (i : nat) (default : A) : A :=
  nth i l default.

(** [l[k]] for an index [k] already known to be below [len(l)]: a
    negative [k] counts from the end, and one below [-len(l)] raises
    [IndexError]. *)
Definition py_index {A : Type} (l : list A) (k : Z) : result A :=
  let i := if (k <? 0)%Z then (Z.of_nat (List.length l) + k)%Z else k in
  if (i <? 0)%Z then Raise IndexError
  else match nth_error l (Z.to_nat i) with
       | Some x => Ok x
       | None => Raise IndexError
       end.

(** [l[k] if k < len(l) else None] *)
Definition index_or_none (l : list pyval) (k : Z) : result pyval :=
  if (k <? Z.of_nat (List.length l))%Z then py_index l k else Ok PNone.

(** [if x: l.append(x)] for an optional record. *)
Definition opt_list {A : Type} (o : option A) : list A :=
  match o with Some x => [x] | None => [] end.

(** [sorted(l, key=...)] / [l.sort(key=...)], for the order [leb] on the
    keys: a stable sort (an element goes before the first one that is
    not smaller, so equal keys keep their order). *)
Fixpoint insert_sorted {A : Type} (leb : A -> A -> bool) (x : A) (l : list A)
  : list A :=
  match l with
  | [] => [x]
  | y :: l' => if leb x y then x :: l else y :: insert_sorted leb x l'
  end.

Fixpoint sorted_by {A : Type} (leb : A -> A -> bool) (l : list A) : list A :=
  match l with
  | [] => []
  | x :: l' => insert_sorted leb x (sorted_by leb l')
  end.

(** *** Dictionaries *)

Section Dict.

Variables K V : Type.
Variable keq : K -> K -> bool.

Definition dict : Type := list (K * V).

(** [d.get(k)] *)
Fixpoint dict_get (d : dict) (k : K) : option V :=
  match d with
  | [] => None
  | (k', v) :: d' => if keq k' k then Some v else dict_get d' k
  end.

(** [k in d] *)
Definition dict_mem (d : dict) (k : K) : bool :=
  match dict_get d k with Some _ => true | None => false end.

(** [d[k] = v]: a key already present keeps its place (and its first
    spelling); a new key goes last. *)
Fixpoint dict_set (d : dict) (k : K) (v : V) : dict :=
  match d with
  | [] => [(k, v)]
  | (k', v') :: d' => if keq k' k then (k', v) :: d' else (k', v') :: dict_set d' k v
  end.

(** [list(d.keys())] *)
Definition dict_keys (d : dict) : list K := map fst d.

End Dict.

Arguments dict_get {K V} keq d k.
Arguments dict_mem {K V} keq d k.
Arguments dict_set {K V} keq d k v.
Arguments dict_keys {K V} d.

End Py.

(** ** Part II. Data model ([src/models]) *)

Module Model.

Import Py.

(** *** [excel_model.py] *)

Inductive CellType : Type :=
| EMPTY | STRING | NUMBER | BOOLEAN | DATE | FORMULA | ERROR.

Record CellStyle : Type := mk_style {
  font_name : option string;
  font_size : option spec_float;
  font_bold : bool;
  font_italic : bool;
  font_color : option string;
  bg_color : option string;
  border : option string;
  alignment : option string;
  number_format : option string
}.

Record CellData : Type := mk_cell {
  value : pyval;
  formula : option string;
  cell_type : CellType;
  style : option CellStyle;
  comment : option string
}.

(** [CellData.is_empty] *)
Definition is_empty (c : CellData) : bool :=
  is_none (value c) || py_eqb (value c) (PStr "").

Record SheetData : Type := mk_sheet {
  name : string;
  rows : list (list CellData);
  row_count : nat;
  col_count : nat
}.

(** [SheetData.get_cell] *)
Definition get_cell (sheet : SheetData) (row col : Z) : option CellData :=
  if ((0 <=? row) && (row <? Z.of_nat (List.length (rows sheet))))%Z then
    let r := nth (Z.to_nat row) (rows sheet) [] in
    if ((0 <=? col) && (col <? Z.of_nat (List.length r)))%Z
    then nth_error r (Z.to_nat col)
    else None
  else None.

(** [get_cell] at an index of a loop over [range]. *)
Definition cell_at (sheet : SheetData) (row col : nat) : option CellData :=
  get_cell sheet (Z.of_nat row) (Z.of_nat col).

(** [cell.value if cell else None] *)
Definition value_of (cell : option CellData) : pyval :=
  match cell with Some c => value c | None => PNone end.

Record WorkbookData : Type := mk_workbook {
  file_path : string;
  file_name : string;
  file_size : nat;
  modified_time : string;
  sheets : list SheetData;
  sheet_names : list string
}.

(** [WorkbookData.get_sheet] *)
Definition get_sheet (wb : WorkbookData) (n : string) : option SheetData :=
  find (fun sheet => String.eqb (name sheet) n) (sheets wb).

(** *** [diff_model.py] *)

Inductive DiffType : Type :=
| MODIFIED | ADDED | DELETED | FORMAT_CHANGED.

Definition DiffType_eqb (a b : DiffType) : bool :=
  match a, b with
  | MODIFIED, MODIFIED | ADDED, ADDED | DELETED, DELETED
  | FORMAT_CHANGED, FORMAT_CHANGED => true
  | _, _ => false
  end.

Record DiffResult : Type := mk_diff {
  sheet : string;
  row : nat;
  col : nat;
  diff_type : DiffType;
  old_value : pyval;
  new_value : pyval;
  old_formula : option string;
  new_formula : option string;
  row_b : option nat;
  col_b : option nat
}.

(** The constructor call with the keyword arguments the comparison code
    uses; the fields left out take their default [None]. *)
Definition DiffResult_ (sh : string) (r c : nat) (t : DiffType)
  (old new : pyval) (rb cb : option nat) : DiffResult :=
  mk_diff sh r c t old new None None rb cb.

Record DiffSummary : Type := mk_summary {
  total : nat;
  modified : nat;
  added : nat;
  deleted : nat;
  format_changed : nat
}.

(** [DiffSummary()] *)
Definition empty_summary : DiffSummary := mk_summary 0 0 0 0 0.

(** [DiffSummary.add_diff] *)
Definition add_diff (s : DiffSummary) (t : DiffType) : DiffSummary :=
  match t with
  | MODIFIED =>
      mk_summary (total s + 1) (modified s + 1) (added s) (deleted s) (format_changed s)
  | ADDED =>
      mk_summary (total s + 1) (modified s) (added s + 1) (deleted s) (format_changed s)
  | DELETED =>
      mk_summary (total s + 1) (modified s) (added s) (deleted s + 1) (format_changed s)
  | FORMAT_CHANGED =>
      mk_summary (total s + 1) (modified s) (added s) (deleted s) (format_changed s + 1)
  end.

(** [for diff in diffs: summary.add_diff(diff.diff_type)] *)
Definition summarize (s : DiffSummary) (diffs : list DiffResult) : DiffSummary :=
  fold_left (fun acc d => add_diff acc (diff_type d)) diffs s.

(** [CompareResult]: the file names, the records and the counts (the
    grouping by sheet and the report configuration are derived data and
    are not modelled). *)
Record CompareResult : Type := mk_result {
  file_a : string;
  file_b : string;
  diffs : list DiffResult;
  summary : DiffSummary
}.

End Model.

(** ** Part III. [compare_service.py] *)

Module CompareService.

Import Py Model.

Inductive CompareMode : Type :=
| EXACT | NUMERIC | STRUCTURE | FORMULA_MODE.

Record CompareOptions : Type := mk_options {
  ignore_format : bool;
  ignore_empty_rows : bool;
  ignore_empty_cols : bool;
  ignore_case : bool;
  ignore_whitespace : bool;
  ignore_hidden : bool;
  ignore_comments : bool
}.

(** [CompareOptions()] *)
Definition default_options : CompareOptions :=
  mk_options true false false false false false true.

(** [v.lower() if isinstance(v, str)] *)
Definition lower_val (v : pyval) : pyval :=
  match v with PStr s => PStr (lower s) | _ => v end.

(** [v.strip() if isinstance(v, str)] *)
Definition strip_val (v : pyval) : pyval :=
  match v with PStr s => PStr (strip s) | _ => v end.

(** [v is None or v == ""] *)
Definition empty_val (v : pyval) : bool :=
  is_none v || py_eqb v (PStr "").

Definition opt_neqb {A : Type} (eqb : A -> A -> bool) (a b : option A) : bool :=
  match a, b with
  | None, None => false
  | Some x, Some y => negb (eqb x y)
  | _, _ => true
  end.

(** [_compare_styles] *)
Definition _compare_styles (cell_a cell_b : option CellData) : bool :=
  let style_a := match cell_a with Some c => style c | None => None end in
  let style_b := match cell_b with Some c => style c | None => None end in
  match style_a, style_b with
  | None, None => false
  | None, Some _ | Some _, None => true
  | Some sa, Some sb =>
      opt_neqb String.eqb (font_name sa) (font_name sb)
      || opt_neqb SFeqb (font_size sa) (font_size sb)
      || negb (Bool.eqb (font_bold sa) (font_bold sb))
      || opt_neqb String.eqb (bg_color sa) (bg_color sb)
  end.

(** The two values of [_compare_cells] after the ignore options. *)
Definition normalize_pair (options : CompareOptions) (val_a val_b : pyval)
  : pyval * pyval :=
  let '(val_a, val_b) :=
    if ignore_case options && is_str val_a && is_str val_b
    then (lower_val val_a, lower_val val_b) else (val_a, val_b) in
  if ignore_whitespace options then (strip_val val_a, strip_val val_b)
  else (val_a, val_b).

(** The kind chosen by [_compare_cells] for two unequal values. *)
Definition classify (is_empty_a is_empty_b : bool) : DiffType :=
  if is_empty_a && negb is_empty_b then ADDED
  else if negb is_empty_a && is_empty_b then DELETED
  else MODIFIED.

(** [_compare_cells] *)
Definition _compare_cells (sheet_name : string) (row col : nat)
  (cell_a cell_b : option CellData) (options : CompareOptions)
  : option DiffResult :=
  let '(val_a, val_b) := normalize_pair options (value_of cell_a) (value_of cell_b) in
  let is_empty_a := empty_val val_a in
  let is_empty_b := empty_val val_b in
  if is_empty_a && is_empty_b then None
  else if py_eqb val_a val_b then
    if negb (ignore_format options) && _compare_styles cell_a cell_b
    then Some (DiffResult_ sheet_name row col FORMAT_CHANGED val_a val_b None None)
    else None
  else
    Some (DiffResult_ sheet_name row col (classify is_empty_a is_empty_b)
            (value_of cell_a) (value_of cell_b) None None).

(** [_is_row_empty] *)
Definition _is_row_empty (sheet : SheetData) (row : nat) : bool :=
  if List.length (rows sheet) <=? row then true
  else forallb is_empty (nth row (rows sheet) []).

(** [_compare_exact] *)
Definition _compare_exact (sheet_a sheet_b : SheetData) (options : CompareOptions)
  : list DiffResult :=
  let max_rows := Nat.max (row_count sheet_a) (row_count sheet_b) in
  let max_cols := Nat.max (col_count sheet_a) (col_count sheet_b) in
  flat_map (fun row =>
    if ignore_empty_rows options
       && _is_row_empty sheet_a row && _is_row_empty sheet_b row
    then []
    else
      flat_map (fun col =>
        opt_list (_compare_cells (name sheet_a) row col
                    (cell_at sheet_a row col) (cell_at sheet_b row col) options))
        (range max_cols))
    (range max_rows).

(** [_to_numeric] *)
Definition _to_numeric (cell : option CellData) : result (option spec_float) :=
  match cell with
  | None => Ok None
  | Some c =>
      match cell_type c with
      | NUMBER => fmap Some (py_float (value c))
      | STRING =>
          match py_float (value c) with
          | Ok f => Ok (Some f)
          | Raise ValueError | Raise TypeError => Ok None
          | Raise e => Raise e
          end
      | _ => Ok None
      end
  end.

(** A parsed number as the value stored in a record. *)
Definition num_val (v : option spec_float) : pyval :=
  match v with Some f => PFloat f | None => PNone end.

(** The body of the loop of [_compare_numeric] once both sides are
    converted. *)
Definition numeric_diff (sheet_name : string) (row col : nat)
  (val_a val_b : option spec_float) : option DiffResult :=
  if opt_neqb SFeqb val_a val_b then
    let diff_type :=
      match val_a, val_b with
      | None, Some _ => ADDED
      | Some _, None => DELETED
      | _, _ => MODIFIED
      end in
    Some (DiffResult_ sheet_name row col diff_type (num_val val_a) (num_val val_b)
            None None)
  else None.

(** [_compare_numeric] *)
Definition _compare_numeric (sheet_a sheet_b : SheetData) (options : CompareOptions)
  : result (list DiffResult) :=
  let max_rows := Nat.max (row_count sheet_a) (row_count sheet_b) in
  let max_cols := Nat.max (col_count sheet_a) (col_count sheet_b) in
  fmap (@List.concat _)
    (mapM (fun row =>
       fmap (@List.concat _)
         (mapM (fun col =>
            bind (_to_numeric (cell_at sheet_a row col)) (fun val_a =>
            bind (_to_numeric (cell_at sheet_b row col)) (fun val_b =>
            Ok (opt_list (numeric_diff (name sheet_a) row col val_a val_b)))))
            (range max_cols)))
       (range max_rows)).

(** [_compare_formula] *)
Definition _compare_formula (sheet_a sheet_b : SheetData) (options : CompareOptions)
  : list DiffResult :=
  let max_rows := Nat.max (row_count sheet_a) (row_count sheet_b) in
  let max_cols := Nat.max (col_count sheet_a) (col_count sheet_b) in
  flat_map (fun row =>
    flat_map (fun col =>
      let cell_a := cell_at sheet_a row col in
      let cell_b := cell_at sheet_b row col in
      let formula_a := match cell_a with Some c => formula c | None => None end in
      let formula_b := match cell_b with Some c => formula c | None => None end in
      match formula_a, formula_b with
      | None, None =>
          opt_list (_compare_cells (name sheet_a) row col cell_a cell_b options)
      | _, _ =>
          if opt_neqb String.eqb formula_a formula_b then
            let diff_type :=
              match formula_a, formula_b with
              | None, Some _ => ADDED
              | Some _, None => DELETED
              | _, _ => MODIFIED
              end in
            [mk_diff (name sheet_a) row col diff_type
               (value_of cell_a) (value_of cell_b) formula_a formula_b None None]
          else []
      end)
      (range max_cols))
    (range max_rows).

(** The non-empty cells of the rows [lo .. hi - 1] of a sheet, each as a
    record of kind [t]: the two loops of [_compare_structure] over the
    rows that only one sheet has. *)
Definition mark_rows (sheet_name : string) (sheet : SheetData) (t : DiffType)
  (is_new : bool) (lo hi : nat) : list DiffResult :=
  flat_map (fun row =>
    flat_map (fun col =>
      match cell_at sheet row col with
      | Some cell =>
          if negb (is_empty cell) then
            [DiffResult_ sheet_name row col t
               (if is_new then PNone else value cell)
               (if is_new then value cell else PNone) None None]
          else []
      | None => []
      end)
      (range (col_count sheet)))
    (range2 lo hi).

(** [_compare_structure] *)
Definition _compare_structure (sheet_a sheet_b : SheetData) (options : CompareOptions)
  : list DiffResult :=
  let delta :=
    if row_count sheet_a <? row_count sheet_b then
      mark_rows (name sheet_a) sheet_b ADDED true (row_count sheet_a) (row_count sheet_b)
    else if row_count sheet_b <? row_count sheet_a then
      mark_rows (name sheet_a) sheet_a DELETED false (row_count sheet_b) (row_count sheet_a)
    else [] in
  let common_rows := Nat.min (row_count sheet_a) (row_count sheet_b) in
  let common_cols := Nat.min (col_count sheet_a) (col_count sheet_b) in
  delta ++
  flat_map (fun row =>
    flat_map (fun col =>
      opt_list (_compare_cells (name sheet_a) row col
                  (cell_at sheet_a row col) (cell_at sheet_b row col) options))
      (range common_cols))
    (range common_rows).

(** [_mark_all_cells] *)
Definition _mark_all_cells (sheet : SheetData) (diff_type : DiffType) (is_new : bool)
  : list DiffResult :=
  mark_rows (name sheet) sheet diff_type is_new 0 (row_count sheet).

Definition mem_str (s : string) (l : list string) : bool :=
  existsb (String.eqb s) l.

Section Compare.

(** The order in which the interpreter enumerates the set built from a
    list of names. *)
Variable set_iter : list string -> list string.

(** The differences of one sheet name, as the body of the loop of
    [compare] computes them. *)
Definition compare_sheet (workbook_a workbook_b : WorkbookData)
  (mode : CompareMode) (options : CompareOptions) (sheet_name : string)
  : result (list DiffResult) :=
  match get_sheet workbook_a sheet_name, get_sheet workbook_b sheet_name with
  | None, Some sheet_b => Ok (_mark_all_cells sheet_b ADDED true)
  | Some sheet_a, None => Ok (_mark_all_cells sheet_a DELETED false)
  | Some sheet_a, Some sheet_b =>
      match mode with
      | EXACT => Ok (_compare_exact sheet_a sheet_b options)
      | NUMERIC => _compare_numeric sheet_a sheet_b options
      | FORMULA_MODE => Ok (_compare_formula sheet_a sheet_b options)
      | STRUCTURE => Ok (_compare_structure sheet_a sheet_b options)
      end
  | None, None => Raise AttributeError
  end.

(** [sheets_to_compare] *)
Definition sheets_to_compare (workbook_a workbook_b : WorkbookData)
  (selected_sheets : option (list string)) : list string :=
  let all := sheet_names workbook_a ++ sheet_names workbook_b in
  match selected_sheets with
  | Some (s :: sel) => set_iter (filter (fun n => mem_str n all) (s :: sel))
  | _ => set_iter all
  end.

(** One turn of the loop of [compare]: the records of the sheet are
    counted into the summary and appended to the list. *)
Definition compare_body (workbook_a workbook_b : WorkbookData)
  (mode : CompareMode) (options : CompareOptions)
  (acc : list DiffResult * DiffSummary) (sheet_name : string)
  : result (list DiffResult * DiffSummary) :=
  bind (compare_sheet workbook_a workbook_b mode options sheet_name)
    (fun sheet_diffs => Ok (fst acc ++ sheet_diffs, summarize (snd acc) sheet_diffs)).

(** [CompareService.compare] *)
Definition compare (workbook_a workbook_b : WorkbookData) (mode : CompareMode)
  (options : option CompareOptions) (selected_sheets : option (list string))
  : result CompareResult :=
  let options := match options with Some o => o | None => default_options end in
  bind
    (foldM (compare_body workbook_a workbook_b mode options)
       (sheets_to_compare workbook_a workbook_b selected_sheets)
       ([], empty_summary))
    (fun acc =>
       Ok (mk_result (file_name workbook_a) (file_name workbook_b) (fst acc) (snd acc))).

End Compare.

End CompareService.

(** ** Part IV. [smart_compare_service.py] *)

Module SmartCompareService.

Import Py Model.

(** [CellRange], 0-indexed and inclusive. *)
Record CellRange : Type := mk_range {
  start_row : nat;
  start_col : nat;
  end_row : nat;
  end_col : nat
}.

Record SmartCompareOptions : Type := mk_smart_options {
  range_a : option CellRange;
  range_b : option CellRange;
  use_header_row : bool;
  header_row_index : nat;
  use_key_column : bool;
  key_column_index : Z;
  ignore_case : bool;
  ignore_whitespace : bool;
  ignore_empty_rows : bool
}.

(** [SmartCompareOptions()] *)
Definition default_smart_options : SmartCompareOptions :=
  mk_smart_options None None false 0 false 0%Z false false false.

(** [_extract_range_data] *)
Definition _extract_range_data (sheet : SheetData) (cell_range : option CellRange)
  : list (list pyval) :=
  match cell_range with
  | None => map (map value) (rows sheet)
  | Some r =>
      map (fun row_idx =>
             map (fun col_idx => value_of (cell_at sheet row_idx col_idx))
               (range2 (start_col r) (end_col r + 1)))
        (range2 (start_row r) (end_row r + 1))
  end.

Definition lower_val (v : pyval) : pyval :=
  match v with PStr s => PStr (lower s) | _ => v end.

Definition strip_val (v : pyval) : pyval :=
  match v with PStr s => PStr (strip s) | _ => v end.

(** [v is None or v == ""] *)
Definition empty_val (v : pyval) : bool :=
  is_none v || py_eqb v (PStr "").

(** The comparison value of the three cell loops (the block
    [cmp_a, cmp_b = val_a, val_b; if options.ignore_case: ...]). *)
Definition cmp_val (options : SmartCompareOptions) (v : pyval) : pyval :=
  let v := if ignore_case options then lower_val v else v in
  if ignore_whitespace options then strip_val v else v.

(** The kind the three cell loops give to two values that differ. *)
Definition cell_kind (val_a val_b : pyval) : DiffType :=
  if empty_val val_a && negb (is_none val_b) then ADDED
  else if negb (is_none val_a) && empty_val val_b then DELETED
  else MODIFIED.

(** The record, if any, of the three cell loops for one pair of values. *)
Definition cell_diff (options : SmartCompareOptions) (sheet_name : string)
  (r c : nat) (val_a val_b : pyval) : option DiffResult :=
  if py_neqb (cmp_val options val_a) (cmp_val options val_b)
  then Some (DiffResult_ sheet_name r c (cell_kind val_a val_b) val_a val_b None None)
  else None.

(** The records of a row that only one side has: one per value that is
    neither [None] nor [""]. *)
Definition whole_row (sheet_name : string) (t : DiffType) (is_new : bool)
  (r col_offset : nat) (row_data : list pyval) : list DiffResult :=
  flat_map (fun '(col_idx, v) =>
    if negb (is_none v) && py_neqb v (PStr "") then
      [DiffResult_ sheet_name r (col_idx + col_offset) t
         (if is_new then PNone else v) (if is_new then v else PNone) None None]
    else [])
    (enumerate row_data).

(** A key of [_compare_by_key] as the object it is.  A [dict] and a
    [set] find a key by identity or by [==].  A value that is equal to
    itself is found by [==], whichever object holds it.  A NaN is equal
    to no value, itself included: it is found by identity only.  The
    value of a cell is an object of its own (the loader makes one for
    each cell) and the two blocks come from two workbooks loaded one
    after the other, so a NaN key is the key of one row of one block. *)
Inductive key_obj : Type :=
| KeyVal (v : pyval)
| KeyNan (in_b : bool) (row_idx : nat).

(** The value of a key object. *)
Definition key_value (k : key_obj) : pyval :=
  match k with
  | KeyVal v => v
  | KeyNan _ _ => PFloat S754_nan
  end.

(** [list(key_map.keys())] as objects; [in_b] tells the block the map
    was built from. *)
Definition key_objects (in_b : bool) (key_map : dict pyval (nat * list pyval))
  : list key_obj :=
  map (fun '(k, (i, _)) => if py_eqb k k then KeyVal k else KeyNan in_b i) key_map.

(** [key_map.get(key)] for a key object: a NaN is found in the map of
    its own block, at its own row. *)
Definition key_get (in_b : bool) (key_map : dict pyval (nat * list pyval))
  (key : key_obj) : option (nat * list pyval) :=
  match key with
  | KeyVal v => dict_get py_eqb key_map v
  | KeyNan b i =>
      if Bool.eqb b in_b then
        option_map snd
          (find (fun '(k, (j, _)) => negb (py_eqb k k) && Nat.eqb j i) key_map)
      else None
  end.

Section Service.

Variable float_repr : spec_float -> string.

(** The orders in which the interpreter enumerates a set of strings and
    a set of keys built from the given elements. *)
Variable set_iter : list string -> list string.
Variable set_iter_val : list key_obj -> list key_obj.

(** [build_key_map] of [_compare_by_key]: key -> (row index, row). *)
Definition build_key_map (options : SmartCompareOptions)
  (data : list (list pyval)) (skip_header : bool)
  : result (dict pyval (nat * list pyval)) :=
  let key_col := key_column_index options in
  let start_row := if skip_header then header_row_index options + 1 else 0 in
  foldM (fun key_map '(i, row) =>
    if (key_col <? Z.of_nat (List.length row))%Z then
      bind (py_index row key_col) (fun key =>
        if negb (is_none key) && py_neqb key (PStr "") then
          let key := if ignore_case options then lower_val key else key in
          let key := if ignore_whitespace options then strip_val key else key in
          Ok (dict_set py_eqb key_map key (i, row))
        else Ok key_map)
    else Ok key_map)
    (skipn start_row (enumerate data)) [].

(** [sorted(all_keys, key=lambda x: str(x))] *)
Definition sorted_keys (keys : list key_obj) : list key_obj :=
  sorted_by (fun x y => String.leb (py_str float_repr (key_value x))
                          (py_str float_repr (key_value y))) keys.

(** The records of one key of [_compare_by_key].  A key of the set is
    in one of the two maps: the case in which both lookups give [None]
    is not reached by the loop. *)
Definition key_diffs (options : SmartCompareOptions) (sheet_name : string)
  (row_offset col_offset : nat)
  (map_a map_b : dict pyval (nat * list pyval)) (key : key_obj) : list DiffResult :=
  match key_get false map_a key, key_get true map_b key with
  | None, None => []
  | None, Some (row_idx, row_data) =>
      whole_row sheet_name ADDED true (row_idx + row_offset) col_offset row_data
  | Some (row_idx, row_data), None =>
      whole_row sheet_name DELETED false (row_idx + row_offset) col_offset row_data
  | Some (row_idx_a, row_data_a), Some (row_idx_b, row_data_b) =>
      let max_cols := Nat.max (List.length row_data_a) (List.length row_data_b) in
      flat_map (fun col_idx =>
        opt_list (cell_diff options sheet_name
                    (row_idx_a + row_offset) (col_idx + col_offset)
                    (get_or row_data_a col_idx PNone)
                    (get_or row_data_b col_idx PNone)))
        (range max_cols)
  end.

(** [_compare_by_key] *)
Definition _compare_by_key (sheet_name : string) (data_a data_b : list (list pyval))
  (options : SmartCompareOptions) (row_offset col_offset : nat)
  : result (list DiffResult) :=
  bind (build_key_map options data_a (use_header_row options)) (fun map_a =>
  bind (build_key_map options data_b (use_header_row options)) (fun map_b =>
  let all_keys := set_iter_val (key_objects false map_a ++ key_objects true map_b) in
  Ok (flat_map (key_diffs options sheet_name row_offset col_offset map_a map_b)
        (sorted_keys all_keys)))).

(** [build_header_map] of [_compare_by_header]: name -> column index. *)
Definition build_header_map (options : SmartCompareOptions) (headers : list pyval)
  : dict string nat :=
  fold_left (fun header_map '(idx, h) =>
    if negb (is_none h) && py_neqb h (PStr "") then
      let key := py_str float_repr h in
      let key := if ignore_case options then lower key else key in
      let key := if ignore_whitespace options then strip key else key in
      dict_set String.eqb header_map key idx
    else header_map)
    (enumerate headers) [].

(** [data[row_idx][col] if row_idx < len(data) and col < len(data[row_idx])
    else None] *)
Definition data_at (data : list (list pyval)) (row_idx col : nat) : pyval :=
  get_or (nth row_idx data []) col PNone.

(** [set(map_a.keys()) & set(map_b.keys())] *)
Definition common_headers (map_a map_b : dict string nat) : list string :=
  set_iter (filter (dict_mem String.eqb map_b) (dict_keys map_a)).

(** [_compare_by_header] *)
Definition _compare_by_header (sheet_name : string) (data_a data_b : list (list pyval))
  (options : SmartCompareOptions) (row_offset col_offset : nat)
  : result (list DiffResult) :=
  let header_row := header_row_index options in
  if (List.length data_a <=? header_row) || (List.length data_b <=? header_row)
  then Raise ValueError
  else
    let map_a := build_header_map options (nth header_row data_a []) in
    let map_b := build_header_map options (nth header_row data_b []) in
    let data_start := header_row + 1 in
    let max_rows := Nat.max (List.length data_a) (List.length data_b) - data_start in
    Ok (flat_map (fun header =>
          match dict_get String.eqb map_a header, dict_get String.eqb map_b header with
          | Some col_a, Some col_b =>
              flat_map (fun row_offset_local =>
                let row_idx := data_start + row_offset_local in
                let val_a := data_at data_a row_idx col_a in
                let val_b := data_at data_b row_idx col_b in
                if ignore_empty_rows options && empty_val val_a && empty_val val_b
                then []
                else opt_list (cell_diff options sheet_name
                                 (row_idx + row_offset) (col_a + col_offset) val_a val_b))
                (range max_rows)
          | _, _ => []
          end)
          (common_headers map_a map_b)).

(** [max(len(row) for row in data) if data else 0] *)
Definition max_len (data : list (list pyval)) : nat :=
  fold_right (fun row m => Nat.max (List.length row) m) 0 data.

(** [_compare_by_position] *)
Definition _compare_by_position (sheet_name : string) (data_a data_b : list (list pyval))
  (options : SmartCompareOptions) (row_offset col_offset : nat)
  : list DiffResult :=
  let max_rows := Nat.max (List.length data_a) (List.length data_b) in
  let max_cols := Nat.max (max_len data_a) (max_len data_b) in
  flat_map (fun row_idx =>
    let row_a := nth row_idx data_a [] in
    let row_b := nth row_idx data_b [] in
    flat_map (fun col_idx =>
      let val_a := get_or row_a col_idx PNone in
      let val_b := get_or row_b col_idx PNone in
      if ignore_empty_rows options && empty_val val_a && empty_val val_b
      then []
      else opt_list (cell_diff options sheet_name
                       (row_idx + row_offset) (col_idx + col_offset) val_a val_b))
      (range max_cols))
    (range max_rows).

(** [compare_with_range] *)
Definition compare_with_range (workbook_a workbook_b : WorkbookData)
  (sheet_name : string) (options : SmartCompareOptions) : result CompareResult :=
  match get_sheet workbook_a sheet_name, get_sheet workbook_b sheet_name with
  | Some sheet_a, Some sheet_b =>
      let row_offset_a := match range_a options with Some r => start_row r | None => 0 end in
      let col_offset_a := match range_a options with Some r => start_col r | None => 0 end in
      let data_a := _extract_range_data sheet_a (range_a options) in
      let data_b := _extract_range_data sheet_b (range_b options) in
      bind
        (if use_key_column options then
           _compare_by_key sheet_name data_a data_b options row_offset_a col_offset_a
         else if use_header_row options then
           _compare_by_header sheet_name data_a data_b options row_offset_a col_offset_a
         else
           Ok (_compare_by_position sheet_name data_a data_b options
                 row_offset_a col_offset_a))
        (fun diffs =>
           Ok (mk_result (file_name workbook_a) (file_name workbook_b) diffs
                 (summarize empty_summary diffs)))
  | _, _ => Raise ValueError
  end.

End Service.

End SmartCompareService.

(** ** Part V. The compare handlers of [main_window.py] *)

Module MainWindow.

Import Py Model.
Import CompareService (CompareOptions, ignore_case, ignore_whitespace,
  ignore_empty_rows, ignore_format, lower_val, strip_val, empty_val, mem_str).

(** [_values_differ] *)
Definition _values_differ (val_a val_b : pyval) (options : CompareOptions) : bool :=
  let cmp_a := if ignore_case options then lower_val val_a else val_a in
  let cmp_b := if ignore_case options then lower_val val_b else val_b in
  let cmp_a := if ignore_whitespace options then strip_val cmp_a else cmp_a in
  let cmp_b := if ignore_whitespace options then strip_val cmp_b else cmp_b in
  if ignore_empty_rows options && empty_val cmp_a && empty_val cmp_b then false
  else py_neqb cmp_a cmp_b.

(** [_get_diff_type] *)
Definition _get_diff_type (val_a val_b : pyval) : DiffType :=
  if empty_val val_a && truthy val_b then ADDED
  else if truthy val_a && empty_val val_b then DELETED
  else MODIFIED.

(** A row of a key map: its row index in the sheet and its values. *)
Definition keyed_row : Type := nat * list pyval.

(** [abs(a - b)] *)
Definition abs_diff (a b : nat) : nat := (a - b) + (b - a).

(** *** Greedy matching of the rows that share a key *)

(** A candidate [(dist, i, j)]. *)
Definition candidate : Type := nat * nat * nat.

Definition dist (p : candidate) : nat := fst (fst p).
Definition idx_a (p : candidate) : nat := snd (fst p).
Definition idx_b (p : candidate) : nat := snd p.

(** The two nested [enumerate] loops that fill [pairs]. *)
Definition candidate_pairs (list_a list_b : list keyed_row) : list candidate :=
  flat_map (fun '(i, (row_idx_a, _)) =>
    map (fun '(j, (row_idx_b, _)) => (abs_diff row_idx_a row_idx_b, i, j))
      (enumerate list_b))
    (enumerate list_a).

(** [pairs.sort(key=lambda x: x[0])] *)
Definition sort_pairs (pairs : list candidate) : list candidate :=
  sorted_by (fun p q => dist p <=? dist q) pairs.

(** The state of the greedy loop: the accepted index pairs in the order
    of acceptance, [used_a] and [used_b]. *)
Record greedy_state : Type := mk_greedy {
  matches : list (nat * nat);
  used_a : list nat;
  used_b : list nat
}.

Definition mem_nat (n : nat) (l : list nat) : bool := existsb (Nat.eqb n) l.

(** One turn of [for _, i, j in pairs]. *)
Definition greedy_step (st : greedy_state) (p : candidate) : greedy_state :=
  if negb (mem_nat (idx_a p) (used_a st)) && negb (mem_nat (idx_b p) (used_b st))
  then mk_greedy (matches st ++ [(idx_a p, idx_b p)])
         (idx_a p :: used_a st) (idx_b p :: used_b st)
  else st.

Definition greedy (pairs : list candidate) : greedy_state :=
  fold_left greedy_step pairs (mk_greedy [] [] []).

(** The whole matching of the rows of one key. *)
Definition match_rows (list_a list_b : list keyed_row) : greedy_state :=
  greedy (sort_pairs (candidate_pairs list_a list_b)).

(** [(list_a[i], list_b[j])] for the accepted pairs. *)
Definition matched_rows (list_a list_b : list keyed_row) (st : greedy_state)
  : list (keyed_row * keyed_row) :=
  map (fun '(i, j) => (nth i list_a (0, []), nth j list_b (0, []))) (matches st).

(** The rows whose index is not in [used]. *)
Definition unmatched (l : list keyed_row) (used : list nat) : list keyed_row :=
  flat_map (fun '(i, r) => if mem_nat i used then [] else [r]) (enumerate l).

(** [col == key_col] for a column index and an optional key column. *)
Definition is_key_col (col : nat) (key_col : option Z) : bool :=
  match key_col with
  | Some k => (Z.of_nat col =? k)%Z
  | None => false
  end.

(** [rows[key].append(r)], creating the list when the key is new. *)
Definition dict_append (d : dict string (list keyed_row)) (key : string) (r : keyed_row)
  : dict string (list keyed_row) :=
  match dict_get String.eqb d key with
  | Some l => dict_set String.eqb d key (l ++ [r])
  | None => dict_set String.eqb d key [r]
  end.

(** [d.get(key, [])] *)
Definition rows_of (d : dict string (list keyed_row)) (key : string) : list keyed_row :=
  match dict_get String.eqb d key with
  | Some l => l
  | None => []
  end.

Section Handlers.

Variable float_repr : spec_float -> string.

(** The order in which the interpreter enumerates the set of keys built
    from the keys of the two maps. *)
Variable set_iter : list string -> list string.

(** [str(v).strip()] *)
Definition str_strip (v : pyval) : string := strip (py_str float_repr v).

(** [v is not None and str(v).strip() != ""] *)
Definition non_blank (v : pyval) : bool :=
  negb (is_none v) && negb (String.eqb (str_strip v) "").

(** [str(val).strip().lower()], the key of a header cell. *)
Definition header_key (v : pyval) : string := lower (str_strip v).

(** The loop that fills [headers_a] / [headers_b] from (column, value)
    pairs. *)
Definition header_map (cells : list (nat * pyval)) : dict string nat :=
  fold_left (fun headers '(col_idx, val) =>
    if non_blank val then dict_set String.eqb headers (header_key val) col_idx
    else headers)
    cells [].

(** [for header, col_a in headers_a.items(): if header in headers_b:
    col_map_a_to_b[col_a] = headers_b[header]] *)
Definition column_map (headers_a headers_b : dict string nat) : dict nat nat :=
  fold_left (fun col_map '(header, col_a) =>
    match dict_get String.eqb headers_b header with
    | Some col_b => dict_set Nat.eqb col_map col_a col_b
    | None => col_map
    end)
    headers_a [].

(** [make_key]: the composite key of a row, [None] when the first key
    value is blank. *)
Definition make_key (options : CompareOptions) (row_data : list pyval)
  (col1 col2 : option Z) : result (option string) :=
  match col1 with
  | None => Raise TypeError
  | Some actual_col1 =>
      bind (index_or_none row_data actual_col1) (fun val1 =>
      if is_none val1 || String.eqb (str_strip val1) "" then Ok None
      else
        let key := str_strip val1 in
        bind
          (match col2 with
           | None => Ok key
           | Some actual_col2 =>
               bind (index_or_none row_data actual_col2) (fun val2 =>
               if non_blank val2 then Ok (key ++ "|" ++ str_strip val2)%string
               else Ok key)
           end)
          (fun key => Ok (Some (if ignore_case options then lower key else key))))
  end.

(** The loop that fills [rows_a] / [rows_b]: every row with a key is
    appended to the list of its key. *)
Definition build_rows (options : CompareOptions) (col1 col2 : option Z)
  (data : list keyed_row) : result (dict string (list keyed_row)) :=
  foldM (fun rows_map '(row_idx, row_data) =>
    bind (make_key options row_data col1 col2) (fun norm_key =>
    match norm_key with
    | Some k => if negb (String.eqb k "") then Ok (dict_append rows_map k (row_idx, row_data))
                else Ok rows_map
    | None => Ok rows_map
    end))
    data [].

(** The records of a row that has no partner: one per value that is not
    blank.  [col0] is the sheet column of the first value. *)
Definition deleted_row (sheet_name : string) (col0 : nat) (r : keyed_row)
  : list DiffResult :=
  flat_map (fun '(col_idx, val) =>
    if non_blank val
    then [DiffResult_ sheet_name (fst r) (col0 + col_idx) DELETED val PNone None None]
    else [])
    (enumerate (snd r)).

Definition added_row (sheet_name : string) (col0 : nat) (r : keyed_row)
  : list DiffResult :=
  flat_map (fun '(col_idx, val) =>
    if non_blank val
    then [DiffResult_ sheet_name (fst r) (col0 + col_idx) ADDED PNone val
            (Some (fst r)) (Some (col0 + col_idx))]
    else [])
    (enumerate (snd r)).

(** The record, if any, for the values of two paired cells. *)
Definition pair_diff (options : CompareOptions) (sheet_name : string)
  (row_a col_a row_b col_b : nat) (val_a val_b : pyval) : list DiffResult :=
  if _values_differ val_a val_b options
  then [DiffResult_ sheet_name row_a col_a (_get_diff_type val_a val_b) val_a val_b
          (Some row_b) (Some col_b)]
  else [].

(** *** [_compare_with_smart_match] *)

(** [extract_row_data] *)
Definition extract_row_data (sheet : SheetData) (row_idx : nat) : list pyval :=
  map (fun col_idx => value_of (cell_at sheet row_idx col_idx)) (range (col_count sheet)).

(** The header cells of a sheet at a row index: (column, value). *)
Definition sheet_header_cells (sheet : SheetData) (header_row : Z) : list (nat * pyval) :=
  map (fun col_idx => (col_idx, value_of (get_cell sheet header_row (Z.of_nat col_idx))))
    (range (col_count sheet)).

(** [row_idx == header_row] for the optional header row. *)
Definition is_header_row (header_row : option Z) (row_idx : nat) : bool :=
  match header_row with
  | Some h => (Z.of_nat row_idx =? h)%Z
  | None => false
  end.

(** The rows of a sheet offered to the key map: all but the header row. *)
Definition data_rows (sheet : SheetData) (header_row : option Z) : list keyed_row :=
  flat_map (fun row_idx =>
    if is_header_row header_row row_idx then []
    else [(row_idx, extract_row_data sheet row_idx)])
    (range (row_count sheet)).

Section SmartMatch.

Variables key_col1_a key_col2_a key_col1_b key_col2_b : option Z.
Variable options : CompareOptions.
Variable sheet_name : string.
Variable col_map_a_to_b : dict nat nat.

(** The records of one pair of matched rows. *)
Definition matched_diffs (m : keyed_row * keyed_row) : list DiffResult :=
  let '((row_idx_a, row_data_a), (row_idx_b, row_data_b)) := m in
  match col_map_a_to_b with
  | _ :: _ =>
      flat_map (fun '(col_a, col_b) =>
        if is_key_col col_a key_col1_a || is_key_col col_a key_col2_a
           || is_key_col col_b key_col1_b || is_key_col col_b key_col2_b
        then []
        else pair_diff options sheet_name row_idx_a col_a row_idx_b col_b
               (get_or row_data_a col_a PNone) (get_or row_data_b col_b PNone))
        col_map_a_to_b
  | [] =>
      flat_map (fun col_idx =>
        if is_key_col col_idx key_col1_a || is_key_col col_idx key_col2_a
           || is_key_col col_idx key_col1_b || is_key_col col_idx key_col2_b
        then []
        else pair_diff options sheet_name row_idx_a col_idx row_idx_b col_idx
               (get_or row_data_a col_idx PNone) (get_or row_data_b col_idx PNone))
        (range (Nat.max (List.length row_data_a) (List.length row_data_b)))
  end.

(** The body of [for key in all_keys]. *)
Definition key_diffs (rows_a rows_b : dict string (list keyed_row)) (key : string)
  : list DiffResult :=
  let list_a := rows_of rows_a key in
  let list_b := rows_of rows_b key in
  let st := match_rows list_a list_b in
  flat_map matched_diffs (matched_rows list_a list_b st)
  ++ flat_map (deleted_row sheet_name 0) (unmatched list_a (used_a st))
  ++ flat_map (added_row sheet_name 0) (unmatched list_b (used_b st)).

(** The branch without key columns: rows by position, columns by the
    header map only. *)
Definition header_only_diffs (sheet_a sheet_b : SheetData) (header_row : option Z)
  : list DiffResult :=
  flat_map (fun row_idx =>
    if is_header_row header_row row_idx then []
    else
      let row_data_a :=
        if row_idx <? row_count sheet_a then extract_row_data sheet_a row_idx else [] in
      let row_data_b :=
        if row_idx <? row_count sheet_b then extract_row_data sheet_b row_idx else [] in
      flat_map (fun '(col_a, col_b) =>
        pair_diff options sheet_name row_idx col_a row_idx col_b
          (get_or row_data_a col_a PNone) (get_or row_data_b col_b PNone))
        col_map_a_to_b)
    (range (Nat.max (row_count sheet_a) (row_count sheet_b))).

End SmartMatch.

(** [col_map_a_to_b] of a pair of sheets. *)
Definition sheet_columns (sheet_a sheet_b : SheetData) (header_row : option Z)
  : dict nat nat :=
  match header_row with
  | Some h => column_map (header_map (sheet_header_cells sheet_a h))
                (header_map (sheet_header_cells sheet_b h))
  | None => []
  end.

(** The body of [for sheet_name in sheets_to_compare] for two sheets
    that exist. *)
Definition smart_match_sheet (key_col1_a key_col2_a key_col1_b key_col2_b : option Z)
  (header_row : option Z) (options : CompareOptions) (sheet_name : string)
  (sheet_a sheet_b : SheetData) : result (list DiffResult) :=
  let col_map_a_to_b := sheet_columns sheet_a sheet_b header_row in
  match key_col1_a with
  | Some _ =>
      bind (build_rows options key_col1_a key_col2_a (data_rows sheet_a header_row))
        (fun rows_a =>
      bind (build_rows options key_col1_b key_col2_b (data_rows sheet_b header_row))
        (fun rows_b =>
      let all_keys := set_iter (dict_keys rows_a ++ dict_keys rows_b) in
      Ok (flat_map
            (key_diffs key_col1_a key_col2_a key_col1_b key_col2_b options sheet_name
               col_map_a_to_b rows_a rows_b)
            all_keys)))
  | None =>
      Ok (header_only_diffs options sheet_name col_map_a_to_b sheet_a sheet_b header_row)
  end.

(** [_compare_with_smart_match] *)
Definition _compare_with_smart_match (workbook_a workbook_b : WorkbookData)
  (key_col1_a key_col2_a key_col1_b key_col2_b : option Z) (header_row : option Z)
  (options : CompareOptions) (selected_sheets : option (list string))
  : result CompareResult :=
  let sheets_a := sheet_names workbook_a in
  let sheets_b := sheet_names workbook_b in
  let sheets_to_compare :=
    match selected_sheets with
    | Some (s :: sel) =>
        filter (fun n => mem_str n sheets_a && mem_str n sheets_b) (s :: sel)
    | _ => filter (fun n => mem_str n sheets_b) sheets_a
    end in
  bind
    (mapM (fun sheet_name =>
       match get_sheet workbook_a sheet_name, get_sheet workbook_b sheet_name with
       | Some sheet_a, Some sheet_b =>
           smart_match_sheet key_col1_a key_col2_a key_col1_b key_col2_b header_row
             options sheet_name sheet_a sheet_b
       | _, _ => Ok []
       end)
       sheets_to_compare)
    (fun per_sheet =>
       let all_diffs := List.concat per_sheet in
       Ok (mk_result (file_name workbook_a) (file_name workbook_b) all_diffs
             (summarize empty_summary all_diffs))).

(** *** [_compare_selection_smart] *)

(** A selection [(min_row, min_col, max_row, max_col)], 0-indexed. *)
Record Rect : Type := mk_rect {
  min_row : nat;
  min_col : nat;
  max_row : nat;
  max_col : nat
}.

(** [extract_range_data]: the rows of a selection with their sheet row
    index. *)
Definition extract_range_data (sheet : SheetData) (rng : Rect) : list keyed_row :=
  map (fun row_idx =>
         (row_idx,
          map (fun col_idx => value_of (cell_at sheet row_idx col_idx))
            (range2 (min_col rng) (max_col rng + 1))))
    (range2 (min_row rng) (max_row rng + 1)).

(** The cells of the external header row over the columns of a
    selection: (column offset, value).  The number of offsets is the
    column span of the selection of A. *)
Definition external_header_cells (sheet : SheetData) (span_rng rng : Rect)
  (external_header_row : Z) : list (nat * pyval) :=
  map (fun col_offset =>
         (col_offset,
          value_of (get_cell sheet external_header_row
                      (Z.of_nat (min_col rng + col_offset)))))
    (range (max_col span_rng + 1 - min_col span_rng)).

(** [col_map_a_to_b] and [data_start_offset]. *)
Definition selection_columns (sheet_a sheet_b : SheetData) (range_a range_b : Rect)
  (data_a data_b : list keyed_row) (header_row : option nat)
  (external_header_row : option Z) : dict nat nat * nat :=
  match external_header_row with
  | Some ext =>
      (column_map (header_map (external_header_cells sheet_a range_a range_a ext))
         (header_map (external_header_cells sheet_b range_a range_b ext)), 0)
  | None =>
      match header_row with
      | Some h =>
          if (h <? List.length data_a) && (h <? List.length data_b) then
            (column_map (header_map (enumerate (snd (nth h data_a (0, [])))))
               (header_map (enumerate (snd (nth h data_b (0, []))))), h + 1)
          else ([], 0)
      | None => ([], 0)
      end
  end.

Section SelectionSmart.

Variables key_col1 key_col2 : option Z.
Variable options : CompareOptions.
Variable sheet_name : string.
Variables range_a range_b : Rect.
Variable col_map_a_to_b : dict nat nat.

(** The records of one pair of matched rows of a selection. *)
Definition sel_matched_diffs (m : keyed_row * keyed_row) : list DiffResult :=
  let '((row_idx_a, row_data_a), (row_idx_b, row_data_b)) := m in
  match col_map_a_to_b with
  | _ :: _ =>
      flat_map (fun '(col_a, col_b) =>
        if is_key_col col_a key_col1 || is_key_col col_a key_col2 then []
        else pair_diff options sheet_name
               row_idx_a (min_col range_a + col_a) row_idx_b (min_col range_b + col_b)
               (get_or row_data_a col_a PNone) (get_or row_data_b col_b PNone))
        col_map_a_to_b
  | [] =>
      flat_map (fun col_offset =>
        if is_key_col col_offset key_col1 || is_key_col col_offset key_col2 then []
        else pair_diff options sheet_name
               row_idx_a (min_col range_a + col_offset)
               row_idx_b (min_col range_b + col_offset)
               (get_or row_data_a col_offset PNone) (get_or row_data_b col_offset PNone))
        (range (Nat.max (List.length row_data_a) (List.length row_data_b)))
  end.

(** The body of [for key in all_keys] of a selection. *)
Definition sel_key_diffs (rows_a rows_b : dict string (list keyed_row)) (key : string)
  : list DiffResult :=
  let list_a := rows_of rows_a key in
  let list_b := rows_of rows_b key in
  let st := match_rows list_a list_b in
  flat_map sel_matched_diffs (matched_rows list_a list_b st)
  ++ flat_map (deleted_row sheet_name (min_col range_a)) (unmatched list_a (used_a st))
  ++ flat_map (added_row sheet_name (min_col range_b)) (unmatched list_b (used_b st)).

(** The branch without key column: rows by position from
    [data_start_offset]. *)
Definition sel_header_only_diffs (data_a data_b : list keyed_row)
  (data_start_offset : nat) : list DiffResult :=
  flat_map (fun i =>
    let '(row_idx_a, row_data_a) := nth i data_a (min_row range_a + i, []) in
    let '(row_idx_b, row_data_b) := nth i data_b (min_row range_b + i, []) in
    flat_map (fun '(col_a, col_b) =>
      pair_diff options sheet_name
        row_idx_a (min_col range_a + col_a) row_idx_b (min_col range_b + col_b)
        (get_or row_data_a col_a PNone) (get_or row_data_b col_b PNone))
      col_map_a_to_b)
    (range2 data_start_offset (Nat.max (List.length data_a) (List.length data_b))).

End SelectionSmart.

(** [_compare_selection_smart] *)
Definition _compare_selection_smart (sheet_name : string) (sheet_a sheet_b : SheetData)
  (range_a range_b : Rect) (key_col1 key_col2 : option Z) (header_row : option nat)
  (options : CompareOptions) (external_header_row : option Z)
  : result (list DiffResult) :=
  let data_a := extract_range_data sheet_a range_a in
  let data_b := extract_range_data sheet_b range_b in
  let '(col_map_a_to_b, data_start_offset) :=
    selection_columns sheet_a sheet_b range_a range_b data_a data_b
      header_row external_header_row in
  match key_col1 with
  | Some _ =>
      bind (build_rows options key_col1 key_col2 (skipn data_start_offset data_a))
        (fun rows_a =>
      bind (build_rows options key_col1 key_col2 (skipn data_start_offset data_b))
        (fun rows_b =>
      let all_keys := set_iter (dict_keys rows_a ++ dict_keys rows_b) in
      Ok (flat_map
            (sel_key_diffs key_col1 key_col2 options sheet_name range_a range_b
               col_map_a_to_b rows_a rows_b)
            all_keys)))
  | None =>
      Ok (sel_header_only_diffs options sheet_name range_a range_b col_map_a_to_b
            data_a data_b data_start_offset)
  end.

(** [_compare_by_position] of the window: the selection of A against the
    cells of B at the same offsets. *)
Definition _compare_by_position (sheet_name : string) (sheet_a sheet_b : SheetData)
  (range_a range_b : Rect) (options : CompareOptions) : list DiffResult :=
  let rows := max_row range_a + 1 - min_row range_a in
  let cols := max_col range_a + 1 - min_col range_a in
  flat_map (fun row_offset =>
    flat_map (fun col_offset =>
      let row_a := min_row range_a + row_offset in
      let col_a := min_col range_a + col_offset in
      let row_b := min_row range_b + row_offset in
      let col_b := min_col range_b + col_offset in
      pair_diff options sheet_name row_a col_a row_b col_b
        (value_of (cell_at sheet_a row_a col_a))
        (value_of (cell_at sheet_b row_b col_b)))
      (range cols))
    (range rows).

(** *** [_compare_selection] *)

(** The message boxes with which the handler gives up. *)
Inductive warning : Type :=
| FilesNotLoaded
| NothingSelected
| ColumnCountMismatch
| KeyColumnOutsideSelection
| RowCountMismatch
| SheetMissing.

(** What the handler ends with: a warning box and no result, an error
    box for an exception caught by its [try], or a stored result. *)
Inductive outcome : Type :=
| Warned (w : warning)
| Failed (e : exn)
| Compared (r : CompareResult).

(** [max - min + 1], the span of a selection along one axis. *)
Definition span (lo hi : nat) : Z := (Z.of_nat hi - Z.of_nat lo + 1)%Z.

(** [_compare_selection]: the loaded workbooks, the sheet and the two
    selections of the view, and the key columns, header row and options
    of the configuration panel. *)
Definition _compare_selection (workbook_a workbook_b : option WorkbookData)
  (sheet_name : string) (sel_a sel_b : option Rect)
  (key_a key_b : option Z * option Z) (header_row_abs : option Z)
  (options : CompareOptions) : outcome :=
  match workbook_a, workbook_b with
  | Some wa, Some wb =>
      match sel_a, sel_b with
      | Some range_a, Some range_b =>
          let rows_a := span (min_row range_a) (max_row range_a) in
          let cols_a := span (min_col range_a) (max_col range_a) in
          let rows_b := span (min_row range_b) (max_row range_b) in
          let cols_b := span (min_col range_b) (max_col range_b) in
          if negb (cols_a =? cols_b)%Z then Warned ColumnCountMismatch
          else
            let key_col1 := option_map (fun k => k - Z.of_nat (min_col range_a))%Z (fst key_a) in
            let key_col2 := option_map (fun k => k - Z.of_nat (min_col range_a))%Z (snd key_a) in
            let use_external_header :=
              match header_row_abs with
              | Some h => (h <? Z.of_nat (min_row range_a))%Z || (Z.of_nat (max_row range_a) <? h)%Z
              | None => false
              end in
            let header_row :=
              match header_row_abs with
              | Some h => if use_external_header then None
                          else Some (Z.to_nat (h - Z.of_nat (min_row range_a)))
              | None => None
              end in
            if match key_col1 with
               | Some k => (k <? 0)%Z || (cols_a <=? k)%Z
               | None => false
               end
            then Warned KeyColumnOutsideSelection
            else if match key_col1 with None => negb (rows_a =? rows_b)%Z | Some _ => false end
            then Warned RowCountMismatch
            else
              match get_sheet wa sheet_name, get_sheet wb sheet_name with
              | Some sheet_a, Some sheet_b =>
                  let smart :=
                    match key_col1, header_row with
                    | None, None => use_external_header
                    | _, _ => true
                    end in
                  match
                    (if smart then
                       _compare_selection_smart sheet_name sheet_a sheet_b range_a range_b
                         key_col1 key_col2 header_row options
                         (if use_external_header then header_row_abs else None)
                     else
                       Ok (_compare_by_position sheet_name sheet_a sheet_b
                             range_a range_b options))
                  with
                  | Ok diffs =>
                      Compared (mk_result (file_name wa) (file_name wb) diffs
                                  (summarize empty_summary diffs))
                  | Raise e => Failed e
                  end
              | _, _ => Warned SheetMissing
              end
      | _, _ => Warned NothingSelected
      end
  | _, _ => Warned FilesNotLoaded
  end.

End Handlers.

End MainWindow.

(** ** Part VI. Notions used in the statements, and sample workbooks *)

Import Py Model.

(** *** Orders on candidates *)

(** The position of a candidate in the list before sorting: first by its
    index in [list_a], then by its index in [list_b]. *)
Definition pos_lt (p q : MainWindow.candidate) : Prop :=
  MainWindow.idx_a p < MainWindow.idx_a q
  \/ (MainWindow.idx_a p = MainWindow.idx_a q /\ MainWindow.idx_b p < MainWindow.idx_b q).

(** Ascending distance, ties in the original position. *)
Definition cand_lt (p q : MainWindow.candidate) : Prop :=
  MainWindow.dist p < MainWindow.dist q
  \/ (MainWindow.dist p = MainWindow.dist q /\ pos_lt p q).

(** *** Enumerations of a set *)

(** [enum] lists each element of the set built from [l] once: what is
    known of the order in which a set is iterated. *)
Definition enumerates {A : Type} (enum l : list A) : Prop :=
  NoDup enum /\ forall x, In x enum <-> In x l.

Definition is_set_iter (set_iter : list string -> list string) : Prop :=
  forall l, enumerates (set_iter l) l.

(** Two enumerations: in the order of first insertion, and in the
    reverse of it. *)
Fixpoint first_seen (l : list string) : list string :=
  match l with
  | [] => []
  | x :: l' => x :: filter (fun y => negb (String.eqb x y)) (first_seen l')
  end.

Definition last_seen_first (l : list string) : list string := rev (first_seen l).

(** A [repr] for the examples, none of which holds a [float]. *)
Definition no_float_repr (f : spec_float) : string := "".

(** *** Sample cells and sheets *)

Definition text_cell (s : string) : CellData := mk_cell (PStr s) None STRING None None.
Definition int_cell (n : Z) : CellData := mk_cell (PInt n) None NUMBER None None.
Definition blank_cell : CellData := mk_cell PNone None EMPTY None None.

(** A sheet whose counts are those of its rows. *)
Definition sheet_of (n : string) (cols : nat) (rs : list (list CellData)) : SheetData :=
  mk_sheet n rs (List.length rs) cols.

Definition workbook_of (n : string) (shs : list SheetData) : WorkbookData :=
  mk_workbook n n 0 "" shs (map name shs).

Definition blank_row3 : list CellData := [blank_cell; blank_cell; blank_cell].

(** Key "x|1" at rows 0 and 5 of A and at row 1 of B. *)
Definition greedy_sheet_a : SheetData :=
  sheet_of "S" 3
    [[text_cell "x"; int_cell 1; text_cell "a0"];
     blank_row3; blank_row3; blank_row3; blank_row3;
     [text_cell "x"; int_cell 1; blank_cell]].

Definition greedy_sheet_b : SheetData :=
  sheet_of "S" 3 [blank_row3; [text_cell "x"; int_cell 1; text_cell "b1"]].

(** The sheet A with a text of one space in the last cell of row 5. *)
Definition greedy_sheet_space_a : SheetData :=
  sheet_of "S" 3
    [[text_cell "x"; int_cell 1; text_cell "a0"];
     blank_row3; blank_row3; blank_row3; blank_row3;
     [text_cell "x"; int_cell 1; text_cell " "]].

(** Key "x|1" at row 4 of B: nearer to row 5 of A than to row 0. *)
Definition greedy_sheet_near_b : SheetData :=
  sheet_of "S" 3
    [blank_row3; blank_row3; blank_row3; blank_row3;
     [text_cell "x"; int_cell 1; text_cell "b4"]].

(** *** Notions for the greedy matching *)

(** [abs(a - b)] on the integers. *)
Definition row_distance (a b : nat) : Z := Z.abs (Z.of_nat a - Z.of_nat b).

(** The order of a stable sort on a key: the key first, then the order
    [T] in which the elements stood. *)
Definition key_leb {A : Type} (key : A -> nat) (x y : A) : bool := key x <=? key y.

Definition key_lex {A : Type} (key : A -> nat) (T : A -> A -> Prop) (x y : A) : Prop :=
  key x < key y \/ (key x = key y /\ T x y).

Definition row0 : MainWindow.keyed_row := (0, []).

(** The two list indices of a candidate. *)
Definition ij (p : MainWindow.candidate) : nat * nat :=
  (MainWindow.idx_a p, MainWindow.idx_b p).

(** What the greedy loop keeps true: the consumed rows are those of the
    accepted pairs, and no row is in two pairs. *)
Record greedy_inv (st : MainWindow.greedy_state) : Prop := {
  inv_used_a : forall i, In i (MainWindow.used_a st) <-> In i (map fst (MainWindow.matches st));
  inv_used_b : forall j, In j (MainWindow.used_b st) <-> In j (map snd (MainWindow.matches st));
  inv_nodup_a : NoDup (map fst (MainWindow.matches st));
  inv_nodup_b : NoDup (map snd (MainWindow.matches st))
}.

(** The records expected for the two sample sheets: rows 0 and 1 are
    paired and compared, row 5 of A is deleted as a whole. *)
Definition greedy_expected : list DiffResult :=
  [DiffResult_ "S" 0 2 MODIFIED (PStr "a0") (PStr "b1") (Some 1) (Some 2);
   DiffResult_ "S" 5 0 DELETED (PStr "x") PNone None None;
   DiffResult_ "S" 5 1 DELETED (PInt 1) PNone None None].

(** The records expected with the space in row 5: the cell that holds
    it gives no record. *)
Definition greedy_space_expected : list DiffResult :=
  [DiffResult_ "S" 0 2 MODIFIED (PStr "a0") (PStr "b1") (Some 1) (Some 2);
   DiffResult_ "S" 5 0 DELETED (PStr "x") PNone None None;
   DiffResult_ "S" 5 1 DELETED (PInt 1) PNone None None].

(** The records expected with the key at row 4 of B: rows 5 and 4 are
    paired, row 0 of A is deleted as a whole. *)
Definition greedy_near_expected : list DiffResult :=
  [DiffResult_ "S" 5 2 ADDED PNone (PStr "b4") (Some 4) (Some 2);
   DiffResult_ "S" 0 0 DELETED (PStr "x") PNone None None;
   DiffResult_ "S" 0 1 DELETED (PInt 1) PNone None None;
   DiffResult_ "S" 0 2 DELETED (PStr "a0") PNone None None].

(** *** Sample sheets: two keys, each with one changed value *)

Definition order_sheet_a : SheetData :=
  sheet_of "S" 2 [[text_cell "a"; text_cell "1"]; [text_cell "b"; text_cell "2"]].

Definition order_sheet_b : SheetData :=
  sheet_of "S" 2 [[text_cell "a"; text_cell "9"]; [text_cell "b"; text_cell "8"]].

Definition order_diff_a : DiffResult :=
  DiffResult_ "S" 0 1 MODIFIED (PStr "1") (PStr "9") (Some 0) (Some 1).

Definition order_diff_b : DiffResult :=
  DiffResult_ "S" 1 1 MODIFIED (PStr "2") (PStr "8") (Some 1) (Some 1).

(** *** Notions for the numeric mode *)

(** The body of the inner loop of [_compare_numeric] for one cell. *)
Definition numeric_cell (sheet_a sheet_b : SheetData) (row col : nat)
  : result (list DiffResult) :=
  bind (CompareService._to_numeric (cell_at sheet_a row col)) (fun val_a =>
  bind (CompareService._to_numeric (cell_at sheet_b row col)) (fun val_b =>
  Ok (opt_list (CompareService.numeric_diff (name sheet_a) row col val_a val_b)))).



(** *** Notions for whole workbooks *)

(** Row first, then column. *)
Definition pos_lex (p q : nat * nat) : Prop :=
  fst p < fst q \/ (fst p = fst q /\ snd p < snd q).

(** The cell of A a record points to. *)
Definition diff_pos (d : DiffResult) : nat * nat := (row d, col d).

(** [if options is None: options = CompareOptions()] *)
Definition options_or_default (options : option CompareService.CompareOptions)
  : CompareService.CompareOptions :=
  match options with Some o => o | None => CompareService.default_options end.

(** Two workbooks: the sheet "Extra" is in the new one only. *)
Definition wb_old : WorkbookData :=
  workbook_of "old.xlsx" [sheet_of "Data" 1 [[text_cell "v"]]].

Definition wb_new : WorkbookData :=
  workbook_of "new.xlsx"
    [sheet_of "Data" 1 [[text_cell "v"]]; sheet_of "Extra" 2 [[text_cell "p"; blank_cell]]].

(** *** Sample sheets: two ranges of unequal width *)




(** *** Notions for the header row *)

(** Key columns that are configured and not negative: reading the key of
    a row then raises nothing. *)
Definition key_cols_ok (col1 col2 : option Z) : Prop :=
  match col1 with Some k => (0 <= k)%Z | None => False end
  /\ match col2 with Some k => (0 <= k)%Z | None => True end.

(** A header row index beyond a block of one row. *)
Definition header_beyond : SmartCompareService.SmartCompareOptions :=
  SmartCompareService.mk_smart_options None None true 1 false 0%Z false false false.

(** A header row below the last row of the sample sheets. *)
Definition header_far : Z := 7%Z.

(** Two sheets with the same two columns in exchanged order, named in
    row 1, and the selection of row 2 of both. *)
Definition named_sheet_a : SheetData :=
  sheet_of "S" 2 [[text_cell "id"; text_cell "v"]; [text_cell "k"; text_cell "1"]].

Definition named_sheet_b : SheetData :=
  sheet_of "S" 2 [[text_cell "v"; text_cell "id"]; [text_cell "2"; text_cell "k"]].

Definition second_row : MainWindow.Rect := MainWindow.mk_rect 1 0 1 1.

(** *** Notions for the header maps *)

(** The loop that fills a header map, for any key and any test of the
    cells that count. *)
Definition keyed_map (keyfn : pyval -> string) (ok : pyval -> bool)
  (cells : list (nat * pyval)) : dict string nat :=
  fold_left (fun headers '(col_idx, val) =>
    if ok val then dict_set String.eqb headers (keyfn val) col_idx else headers)
    cells [].

(** The column of the last cell that counts and has the key [k]. *)
Definition last_col (keyfn : pyval -> string) (ok : pyval -> bool)
  (cells : list (nat * pyval)) (k : string) : option nat :=
  fold_left (fun acc '(col_idx, val) =>
    if ok val && String.eqb (keyfn val) k then Some col_idx else acc)
    cells None.

(** The key of a header in SmartCompareService.build_header_map. *)
Definition smart_key (float_repr : spec_float -> string)
  (options : SmartCompareService.SmartCompareOptions) (h : pyval) : string :=
  let key := py_str float_repr h in
  let key := if SmartCompareService.ignore_case options then lower key else key in
  if SmartCompareService.ignore_whitespace options then strip key else key.

(** [h is not None and h != ""] *)
Definition not_empty (h : pyval) : bool := negb (is_none h) && py_neqb h (PStr "").

(** Sample sheets: the column "Name" of A is the column " name " of B. *)
Definition name_sheet_a : SheetData :=
  sheet_of "S" 1 [[text_cell "Name"]; [text_cell "1"]].

Definition name_sheet_b : SheetData :=
  sheet_of "S" 2 [[text_cell "id"; text_cell " name "]; [text_cell "7"; text_cell "2"]].

Definition name_diff : DiffResult :=
  DiffResult_ "S" 1 0 MODIFIED (PStr "1") (PStr "2") (Some 1) (Some 1).

(** *** Notions for the key maps *)

(** The key under which [build_rows] files a row, if any. *)
Definition key_of (float_repr : spec_float -> string)
  (options : CompareService.CompareOptions) (col1 col2 : option Z) (r : MainWindow.keyed_row)
  : option string :=
  match MainWindow.make_key float_repr options (snd r) col1 col2 with
  | Ok (Some k) => if String.eqb k "" then None else Some k
  | _ => None
  end.

Definition has_key (float_repr : spec_float -> string)
  (options : CompareService.CompareOptions) (col1 col2 : option Z) (key : string)
  (r : MainWindow.keyed_row) : bool :=
  match key_of float_repr options col1 col2 r with
  | Some k => String.eqb k key
  | None => false
  end.

(** The key under which [build_key_map] files a row, if any. *)
Definition smart_row_key (options : SmartCompareService.SmartCompareOptions) (row : list pyval)
  : result (option pyval) :=
  if (SmartCompareService.key_column_index options <? Z.of_nat (List.length row))%Z then
    bind (py_index row (SmartCompareService.key_column_index options)) (fun key =>
      if negb (is_none key) && py_neqb key (PStr "") then
        let key := if SmartCompareService.ignore_case options then SmartCompareService.lower_val key else key in
        Ok (Some (if SmartCompareService.ignore_whitespace options then SmartCompareService.strip_val key else key))
      else Ok None)
  else Ok None.

(** The rows [build_key_map] goes through, with their indices. *)
Definition offered (options : SmartCompareService.SmartCompareOptions) (data : list (list pyval))
  (skip_header : bool) : list (nat * list pyval) :=
  skipn (if skip_header then SmartCompareService.header_row_index options + 1 else 0) (enumerate data).

(** One turn of the loop of [build_key_map], through [smart_row_key]. *)
Definition key_map_step (options : SmartCompareService.SmartCompareOptions)
  (key_map : dict pyval (nat * list pyval))
  (item : nat * list pyval) : result (dict pyval (nat * list pyval)) :=
  bind (smart_row_key options (snd item)) (fun key =>
    match key with
    | Some k => Ok (dict_set py_eqb key_map k item)
    | None => Ok key_map
    end).

(** The same key for a [set]: the same object, or equal values. *)
Definition key_eqb (a b : SmartCompareService.key_obj) : bool :=
  match a, b with
  | SmartCompareService.KeyVal v, SmartCompareService.KeyVal w => py_eqb v w
  | SmartCompareService.KeyNan s i, SmartCompareService.KeyNan t j =>
      Bool.eqb s t && Nat.eqb i j
  | _, _ => false
  end.

(** An enumeration of a set of keys: in the order of first insertion. *)
Fixpoint first_seen_val (l : list SmartCompareService.key_obj)
  : list SmartCompareService.key_obj :=
  match l with
  | [] => []
  | x :: l' => x :: filter (fun y => negb (key_eqb x y)) (first_seen_val l')
  end.

(** Two rows of A with the key "k", one of B. *)
Definition dup_data_a : list (list pyval) :=
  [[PStr "k"; PStr "a"]; [PStr "k"; PStr "b"]].

Definition dup_data_b : list (list pyval) := [[PStr "k"; PStr "a"]].

Definition key_column_0 : SmartCompareService.SmartCompareOptions :=
  SmartCompareService.mk_smart_options None None false 0 true 0%Z false false false.

(** *** Floats of the format *)

(** A [float] of Python is a binary64 number: a [spec_float] whose
    mantissa and exponent are those of the format. *)
Definition binary64 (f : spec_float) : bool := valid_binary 53 1024 f.

Definition binary64_val (v : pyval) : bool :=
  match v with PFloat f => binary64 f | _ => true end.

(** The float 1.0. *)
Definition one_float : spec_float := S754_finite false 4503599627370496 (-52).

(** Two rows with equal keys of different types: the [int] 1 and the
    [float] 1.0. *)
Definition num_key_data : list (list pyval) :=
  [[PInt 1; PStr "a"]; [PFloat one_float; PStr "b"]].

(** *** What a record carries *)


(** [v is None or v == ""] *)
Definition empty (v : pyval) : bool := CompareService.empty_val v.












(** *** Sample sheets: one cell that changes *)



Definition changed_in_place : DiffResult :=
  mk_diff "S" 0 0 MODIFIED (PStr "1") (PStr "2") None None (Some 0) (Some 0).

Definition changed_cell : DiffResult :=
  mk_diff "S" 0 0 MODIFIED (PStr "1") (PStr "2") None None None None.

(** *** The order of the keys in SmartCompareService *)

(** [str(x) <= str(y)], the order of [sorted(all_keys, key=str)]. *)
Definition str_le (float_repr : spec_float -> string)
  (x y : SmartCompareService.key_obj) : Prop :=
  String.leb (py_str float_repr (SmartCompareService.key_value x))
    (py_str float_repr (SmartCompareService.key_value y)) = true.

(** A key that is a text. *)
Definition is_text_key (k : SmartCompareService.key_obj) : bool :=
  match k with
  | SmartCompareService.KeyVal v => is_str v
  | SmartCompareService.KeyNan _ _ => false
  end.

(** A block whose cells are all texts or [None]. *)
Definition text_data (data : list (list pyval)) : bool :=
  forallb (forallb (fun v => is_str v || is_none v)) data.

(** An enumeration of a set of keys: the reverse of the order of first
    insertion. *)
Definition last_seen_first_val (l : list SmartCompareService.key_obj)
  : list SmartCompareService.key_obj := rev (first_seen_val l).

(** The order in which the interpreter enumerates a set of texts: each
    element once. *)
Definition is_text_set_iter
  (set_iter_val : list SmartCompareService.key_obj -> list SmartCompareService.key_obj)
  : Prop :=
  forall l, Forall (fun k => is_text_key k = true) l -> enumerates (set_iter_val l) l.

(** *** Counting the records *)

(** The number of records of one kind. *)
Definition count_type (t : DiffType) (ds : list DiffResult) : nat :=
  List.length (filter (fun d => DiffType_eqb (diff_type d) t) ds).

(** The summary that counts a list of records. *)
Definition counted (ds : list DiffResult) : DiffSummary :=
  mk_summary (List.length ds) (count_type MODIFIED ds) (count_type ADDED ds)
    (count_type DELETED ds) (count_type FORMAT_CHANGED ds).

(** *** Sheets without NaN *)

Definition not_nan (f : spec_float) : bool :=
  match f with S754_nan => false | _ => true end.

Definition no_nan_val (v : pyval) : bool :=
  match v with PFloat f => not_nan f | _ => true end.

(** Neither the value nor the font size of the cell is a NaN. *)
Definition no_nan_cell (c : CellData) : bool :=
  no_nan_val (value c)
  && match style c with
     | Some s => match font_size s with Some f => not_nan f | None => true end
     | None => true
     end.

Definition no_nan_sheet (s : SheetData) : bool :=
  forallb (forallb no_nan_cell) (rows s).

(** *** Options that differ in the flags the comparison does not read *)

(** Two option sets with the same [ignore_format], [ignore_case] and
    [ignore_whitespace]. *)
Definition same_cell_options (o o' : CompareService.CompareOptions) : Prop :=
  CompareService.ignore_format o = CompareService.ignore_format o'
  /\ CompareService.ignore_case o = CompareService.ignore_case o'
  /\ CompareService.ignore_whitespace o = CompareService.ignore_whitespace o'.

(** ** Part VI-b. Texts of columns and ranges *)

(** *** More builtins on [str] *)

Module PyText.

(** [str.upper] on one code point below 256: it gives one character,
    but for the sharp s, which gives "SS".  The micro sign and the y
    with diaeresis, whose capitals lie beyond the code points of the
    embedding, are kept: like their capitals they are no ASCII letter,
    no digit and no white space, which is all that the callers test. *)
Definition upper_char (c : ascii) : string :=
  let n := code c in
  if ((97 <=? n) && (n <=? 122)
      || (224 <=? n) && (n <=? 254) && negb (n =? 247))%N
  then String (ascii_of_N (n - 32)) ""
  else if (n =? 223)%N then "SS"
  else String c "".

(** [s.upper()] *)
Fixpoint upper (s : string) : string :=
  match s with
  | EmptyString => EmptyString
  | String c s' => (upper_char c ++ upper s')%string
  end.

(** [c.isdigit()] on one code point below 256: the ASCII digits and the
    superscripts one, two and three. *)
Definition isdigit_char (c : ascii) : bool :=
  is_digit c || (code c =? 178)%N || (code c =? 179)%N || (code c =? 185)%N.

Fixpoint all_chars (p : ascii -> bool) (s : string) : bool :=
  match s with
  | EmptyString => true
  | String c s' => p c && all_chars p s'
  end.

(** [s.isdigit()]: false on the empty text. *)
Definition isdigit (s : string) : bool :=
  match s with
  | EmptyString => false
  | _ => all_chars isdigit_char s
  end.

(** The number read from a run of ASCII digits, after [acc]. *)
Fixpoint digits_value (acc : Z) (s : string) : Z :=
  match s with
  | EmptyString => acc
  | String c s' => digits_value (acc * 10 + digit_val c) s'
  end.

(** [int(s)] for a text without sign, blank or underscore: the value of
    a non-empty run of ASCII digits; [ValueError] otherwise (a
    superscript digit is no decimal digit). *)
Definition int_of_digits (s : string) : result Z :=
  match s with
  | EmptyString => Raise ValueError
  | _ => if all_chars is_digit s then Ok (digits_value 0 s) else Raise ValueError
  end.

(** ['A' <= c <= 'Z'] *)
Definition is_capital (c : ascii) : bool :=
  ((65 <=? code c) && (code c <=? 90))%N.

(** [chr(n)] for a code point below 256. *)
Definition chr (n : Z) : ascii := ascii_of_N (Z.to_N n).

(** [ord(c)] *)
Definition ord (c : ascii) : Z := Z.of_N (code c).

(** The longest prefix of characters that pass [p], and the rest. *)
Fixpoint split_run (p : ascii -> bool) (s : string) : string * string :=
  match s with
  | EmptyString => (EmptyString, EmptyString)
  | String c s' =>
      if p c then let '(a, b) := split_run p s' in (String c a, b)
      else (EmptyString, s)
  end.

(** [s.replace(old, new)] for a pattern [old] of one character. *)
Fixpoint replace_char (old : ascii) (new : string) (s : string) : string :=
  match s with
  | EmptyString => EmptyString
  | String c s' =>
      ((if Ascii.eqb c old then new else String c "") ++ replace_char old new s')%string
  end.

End PyText.

(** *** Column letters: [DiffResult._col_to_letter],
    [CellRange._index_to_col] and [col_to_letter] of [_format_range] *)

Module Columns.

Import PyText.
Local Open Scope Z_scope.

(** [while col >= 0: result = chr(col % 26 + ord('A')) + result;
    col = col // 26 - 1], for at most [fuel] turns. *)
Fixpoint letters_loop (fuel : nat) (col : Z) (result : string) : string :=
  match fuel with
  | O => result
  | S fuel' =>
      if (0 <=? col)%Z
      then letters_loop fuel' (col / 26 - 1)%Z (String (chr (col mod 26 + ord "A")) result)
      else result
  end.

(** The loop from the empty text; [col + 1] turns are more than it
    takes. *)
Definition _col_to_letter (col : Z) : string :=
  letters_loop (Z.to_nat (col + 1)) col ""%string.

(** [CellRange._index_to_col] *)
Definition _index_to_col (index : Z) : string := _col_to_letter index.

(** [CellRange._col_to_index] *)
Definition _col_to_index (col_str : string) : Z :=
  (fix loop (s : string) (result : Z) : Z :=
     match s with
     | EmptyString => result
     | String char s' => loop s' (result * 26 + (ord char - ord "A" + 1))%Z
     end) col_str 0%Z - 1.

(** [DiffResult.position] *)
Definition position (d : DiffResult) : string :=
  (_col_to_letter (Z.of_nat (col d)) ++ str_of_Z (Z.of_nat (row d) + 1))%string.

End Columns.

(** *** [CellRange]: its text form *)

Module Range.

Import PyText Columns.
Local Open Scope Z_scope.

(** A [CellRange] with the integers [from_string] gives to its fields
    (the row 0 of a text gives the index -1). *)
Record t : Type := mk {
  start_row : Z;
  start_col : Z;
  end_row : Z;
  end_col : Z
}.

Definition of_CellRange (r : SmartCompareService.CellRange) : t :=
  mk (Z.of_nat (SmartCompareService.start_row r)) (Z.of_nat (SmartCompareService.start_col r))
     (Z.of_nat (SmartCompareService.end_row r)) (Z.of_nat (SmartCompareService.end_col r)).

(** [CellRange.row_count] and [CellRange.col_count] *)
Definition row_count (r : t) : Z := end_row r - start_row r + 1.
Definition col_count (r : t) : Z := end_col r - start_col r + 1.

(** [CellRange.__str__] *)
Definition to_string (r : t) : string :=
  (_index_to_col (start_col r) ++ str_of_Z (start_row r + 1) ++ ":"
   ++ _index_to_col (end_col r) ++ str_of_Z (end_row r + 1))%string.

Definition nonempty (s : string) : bool :=
  match s with EmptyString => false | _ => true end.

(** [re.match(r'^([A-Z]+)(\d+):([A-Z]+)(\d+)$', s)] on a trimmed text:
    the four groups.  The classes of the pattern are disjoint, so each
    group is the longest run of its class. *)
Definition match_range (s : string) : option (string * string * string * string) :=
  let '(col1, s1) := split_run is_capital s in
  let '(row1, s2) := split_run is_digit s1 in
  match s2 with
  | String c s3 =>
      if Ascii.eqb c ":" then
        let '(col2, s4) := split_run is_capital s3 in
        let '(row2, s5) := split_run is_digit s4 in
        if nonempty col1 && nonempty row1 && nonempty col2 && nonempty row2
           && negb (nonempty s5)
        then Some (col1, row1, col2, row2)
        else None
      else None
  | EmptyString => None
  end.

(** [CellRange.from_string] *)
Definition from_string (range_str : string) : result t :=
  let range_str := upper (strip range_str) in
  match match_range range_str with
  | None => Raise ValueError
  | Some (col1, row1, col2, row2) =>
      let start_col := _col_to_index col1 in
      bind (int_of_digits row1) (fun n1 =>
      let start_row := n1 - 1 in
      let end_col := _col_to_index col2 in
      bind (int_of_digits row2) (fun n2 =>
      let end_row := n2 - 1 in
      if (end_row <? start_row) || (end_col <? start_col) then Raise ValueError
      else Ok (mk start_row start_col end_row end_col)))
  end.

End Range.

(** *** The getters of [config_panel.py] *)

Module ConfigPanel.

Import PyText.
Local Open Scope Z_scope.

(** [parse_col] of [get_key_column_config] *)
Definition parse_col (text : string) : result (option Z) :=
  let key_str := upper (strip text) in
  match key_str with
  | EmptyString => Ok None
  | _ =>
      if isdigit key_str then fmap (fun n => Some (n - 1)) (int_of_digits key_str)
      else
        let col_idx :=
          (fix loop (s : string) (col_idx : Z) : Z :=
             match s with
             | EmptyString => col_idx
             | String char s' =>
                 loop s' (if is_capital char
                          then col_idx * 26 + (ord char - ord "A" + 1)
                          else col_idx)
             end) key_str 0 in
        Ok (if 0 <? col_idx then Some (col_idx - 1) else None)
  end.

(** [get_key_column_config]: the state of the check box and the four
    input texts give the key columns of A and of B. *)
Definition get_key_column_config (use_key_match : bool)
  (col1_a col2_a col1_b col2_b : string)
  : result ((option Z * option Z) * (option Z * option Z)) :=
  if negb use_key_match then Ok ((None, None), (None, None))
  else
    bind (parse_col col1_a) (fun key_col1_a =>
    bind (parse_col col2_a) (fun key_col2_a =>
    bind (match strip col1_b with
          | EmptyString => Ok key_col1_a
          | key_col1_b_text => parse_col key_col1_b_text
          end) (fun key_col1_b =>
    bind (match strip col2_b with
          | EmptyString => Ok key_col2_a
          | key_col2_b_text => parse_col key_col2_b_text
          end) (fun key_col2_b =>
    Ok ((key_col1_a, key_col2_a), (key_col1_b, key_col2_b)))))).

(** [get_header_row_config] *)
Definition get_header_row_config (use_header_match : bool) (text : string)
  : result (option Z) :=
  if negb use_header_match then Ok None
  else
    let row_str := strip text in
    if negb (Range.nonempty row_str) || negb (isdigit row_str) then Ok (Some 0)
    else fmap (fun n => Some (n - 1)) (int_of_digits row_str).

End ConfigPanel.

(** [_format_range] of the window, for a selection
    [(min_row, min_col, max_row, max_col)]. *)
Definition _format_range (r : MainWindow.Rect) : string :=
  (Columns._col_to_letter (Z.of_nat (MainWindow.min_col r))
   ++ str_of_Z (Z.of_nat (MainWindow.min_row r) + 1)%Z ++ ":"
   ++ Columns._col_to_letter (Z.of_nat (MainWindow.max_col r))
   ++ str_of_Z (Z.of_nat (MainWindow.max_row r) + 1)%Z)%string.

(** *** [CompareResult.__post_init__]: the records by sheet *)

Module DiffModel.

(** [if diff.sheet not in d: d[diff.sheet] = []] followed by
    [d[diff.sheet].append(diff)] *)
Definition group_append (d : dict string (list DiffResult)) (diff : DiffResult)
  : dict string (list DiffResult) :=
  match dict_get String.eqb d (sheet diff) with
  | Some l => dict_set String.eqb d (sheet diff) (l ++ [diff])
  | None => dict_set String.eqb d (sheet diff) [diff]
  end.

(** [diffs_by_sheet] as [__post_init__] fills it. *)
Definition diffs_by_sheet (diffs : list DiffResult) : dict string (list DiffResult) :=
  fold_left group_append diffs [].

End DiffModel.

(** The records of one sheet, in their order. *)
Definition on_sheet (sh : string) (diffs : list DiffResult) : list DiffResult :=
  filter (fun d => String.eqb (sheet d) sh) diffs.

(** *** Stepping through the records: [_prev_diff], [_next_diff] *)

Module Navigation.

Local Open Scope Z_scope.

(** What the window keeps: the result of the last comparison (its
    records), if any, and the index of the current record. *)
Record state : Type := mk_state {
  _compare_result : option (list DiffResult);
  _current_diff_index : Z
}.

(** The state after a comparison ([_current_diff_index = 0 if
    result.diffs else -1]). *)
Definition compared (diffs : list DiffResult) : state :=
  mk_state (Some diffs) (match diffs with [] => -1 | _ => 0 end).

(** [not self._compare_result or not self._compare_result.diffs] *)
Definition nothing_to_show (st : state) : bool :=
  match _compare_result st with
  | None | Some [] => true
  | Some _ => false
  end.

Definition n_diffs (st : state) : Z :=
  match _compare_result st with
  | Some diffs => Z.of_nat (List.length diffs)
  | None => 0
  end.

(** [_navigate_to_current_diff]: the record the views are scrolled to,
    none for a negative index; an index beyond the list raises
    [IndexError], and without a result [None.diffs] raises
    [AttributeError]. *)
Definition _navigate_to_current_diff (st : state) : result (option DiffResult) :=
  if _current_diff_index st <? 0 then Ok None
  else
    match _compare_result st with
    | None => Raise AttributeError
    | Some diffs =>
        match nth_error diffs (Z.to_nat (_current_diff_index st)) with
        | Some diff => Ok (Some diff)
        | None => Raise IndexError
        end
    end.

(** [_prev_diff]: the new state and the record shown. *)
Definition _prev_diff (st : state) : result (state * option DiffResult) :=
  if nothing_to_show st then Ok (st, None)
  else
    let i := _current_diff_index st - 1 in
    let i := if i <? 0 then n_diffs st - 1 else i in
    let st' := mk_state (_compare_result st) i in
    fmap (fun shown => (st', shown)) (_navigate_to_current_diff st').

(** [_next_diff] *)
Definition _next_diff (st : state) : result (state * option DiffResult) :=
  if nothing_to_show st then Ok (st, None)
  else
    let i := _current_diff_index st + 1 in
    let i := if n_diffs st <=? i then 0 else i in
    let st' := mk_state (_compare_result st) i in
    fmap (fun shown => (st', shown)) (_navigate_to_current_diff st').

(** [_on_diff_selected] *)
Definition _on_diff_selected (st : state) (index : Z)
  : result (state * option DiffResult) :=
  let st' := mk_state (_compare_result st) index in
  fmap (fun shown => (st', shown)) (_navigate_to_current_diff st').

(** The two numbers of the label of [_update_diff_position]:
    current and total. *)
Definition _update_diff_position (st : state) : Z * Z :=
  if nothing_to_show st then (0, 0)
  else (if 0 <=? _current_diff_index st then _current_diff_index st + 1 else 0, n_diffs st).

End Navigation.

(** The states the window can be in after a comparison: no record and
    the index -1, or an index of a record. *)
Definition nav_ok (st : Navigation.state) : Prop :=
  match Navigation._compare_result st with
  | None => False
  | Some [] => Navigation._current_diff_index st = (-1)%Z
  | Some diffs =>
      (0 <= Navigation._current_diff_index st < Z.of_nat (List.length diffs))%Z
  end.

(** *** [ReportService._escape_html] *)

Module ReportService.

Import PyText.

(** The double quote. *)
Definition dquote : ascii := ascii_of_nat 34.

(** [_escape_html] *)
Definition _escape_html (text : string) : string :=
  replace_char "'" "&#39;"
    (replace_char dquote "&quot;"
       (replace_char ">" "&gt;"
          (replace_char "<" "&lt;"
             (replace_char "&" "&amp;" text)))).

End ReportService.

(** What [_escape_html] puts for one character. *)
Definition html_entity (c : ascii) : string :=
  if Ascii.eqb c "&" then "&amp;"
  else if Ascii.eqb c "<" then "&lt;"
  else if Ascii.eqb c ">" then "&gt;"
  else if Ascii.eqb c ReportService.dquote then "&quot;"
  else if Ascii.eqb c "'" then "&#39;"
  else String c "".

Fixpoint escaped (s : string) : string :=
  match s with
  | EmptyString => EmptyString
  | String c s' => (html_entity c ++ escaped s')%string
  end.

(** One of the four characters that must not stay in an HTML text. *)
Definition html_special (c : ascii) : bool :=
  Ascii.eqb c "<" || Ascii.eqb c ">" || Ascii.eqb c ReportService.dquote
  || Ascii.eqb c "'".

(** *** Notions used in the properties of the texts *)

(** The loop of [_col_to_index]. *)
Definition index_loop : string -> Z -> Z :=
  fix loop (s : string) (result : Z) : Z :=
    match s with
    | EmptyString => result
    | String char s' => loop s' (result * 26 + (PyText.ord char - PyText.ord "A" + 1))%Z
    end.

(** A capital, a digit or a colon. *)
Definition plain_char (c : ascii) : bool :=
  PyText.is_capital c || is_digit c || Ascii.eqb c ":".

(** The loop of [parse_col] over the letters of a text. *)
Definition filter_loop : string -> Z -> Z :=
  fix loop (s : string) (col_idx : Z) : Z :=
    match s with
    | EmptyString => col_idx
    | String char s' =>
        loop s' (if PyText.is_capital char
                 then col_idx * 26 + (PyText.ord char - PyText.ord "A" + 1)
                 else col_idx)%Z
    end.

(** The entry of a sheet in the grouping of a list of records. *)
Definition group_of (sh : string) (ds : list DiffResult) : option (list DiffResult) :=
  match on_sheet sh ds with [] => None | l => Some l end.

(** *** The two files exchanged *)

Definition swap_type (t : DiffType) : DiffType :=
  match t with
  | ADDED => DELETED
  | DELETED => ADDED
  | MODIFIED => MODIFIED
  | FORMAT_CHANGED => FORMAT_CHANGED
  end.

(** The record read from B to A: Added and Deleted exchanged, the old
    and the new value and formula exchanged. *)
Definition mirror (d : DiffResult) : DiffResult :=
  mk_diff (sheet d) (row d) (col d) (swap_type (diff_type d))
    (new_value d) (old_value d) (new_formula d) (old_formula d) (row_b d) (col_b d).

(** ** Part VII. Properties *)

(** *** Lists *)

Lemma flat_map_map {A B C : Type} (f : B -> list C) (g : A -> B) (l : list A) :
  flat_map f (map g l) = flat_map (fun x => f (g x)) l.
Proof.
  induction l as [|x l IH]; simpl; [reflexivity|]. now rewrite IH.
Qed.

Lemma combine_seq_nth {A : Type} (d : A) (l : list A) (k : nat) :
  combine (seq k (List.length l)) l
  = map (fun i => (i, nth (i - k) l d)) (seq k (List.length l)).
Proof.
  revert k. induction l as [|x l IH]; intro k; simpl; [reflexivity|].
  rewrite Nat.sub_diag. f_equal.
  rewrite IH. apply map_ext_in. intros i Hi. apply in_seq in Hi.
  replace (i - k) with (S (i - S k)) by lia. reflexivity.
Qed.

Lemma enumerate_nth {A : Type} (d : A) (l : list A) :
  enumerate l = map (fun i => (i, nth i l d)) (seq 0 (List.length l)).
Proof.
  unfold enumerate. rewrite (combine_seq_nth d).
  apply map_ext. intro i. now rewrite Nat.sub_0_r.
Qed.

Lemma in_enumerate {A : Type} (l : list A) (i : nat) (x : A) :
  In (i, x) (enumerate l) <-> nth_error l i = Some x.
Proof.
  rewrite (enumerate_nth x). rewrite in_map_iff. split.
  - intros (k & Hk & Hin). inversion Hk; subst. apply in_seq in Hin.
    rewrite (nth_error_nth' l x); [reflexivity | lia].
  - intro H. exists i. split.
    + f_equal. now apply nth_error_nth.
    + apply in_seq. assert (i < List.length l) by (apply nth_error_Some; congruence).
      lia.
Qed.

Lemma length_flat_map_const {A B : Type} (f : A -> list B) (n : nat) (l : list A) :
  (forall x, In x l -> List.length (f x) = n) ->
  List.length (flat_map f l) = List.length l * n.
Proof.
  induction l as [|x l IH]; intro H; simpl; [reflexivity|].
  rewrite length_app, H, IH; auto with datatypes.
Qed.

Lemma StronglySorted_app {A : Type} (R : A -> A -> Prop) (l1 l2 : list A) :
  StronglySorted R l1 -> StronglySorted R l2 ->
  (forall x y, In x l1 -> In y l2 -> R x y) ->
  StronglySorted R (l1 ++ l2).
Proof.
  induction l1 as [|a l1 IH]; intros H1 H2 H; simpl; [assumption|].
  inversion H1; subst. constructor.
  - apply IH; auto with datatypes.
  - apply Forall_app. split; [assumption|].
    apply Forall_forall. intros y Hy. apply H; auto with datatypes.
Qed.

Lemma StronglySorted_map {A B : Type} (R0 : A -> A -> Prop) (R : B -> B -> Prop)
  (g : A -> B) (l : list A) :
  (forall x y, R0 x y -> R (g x) (g y)) ->
  StronglySorted R0 l -> StronglySorted R (map g l).
Proof.
  intros Hg H. induction H as [|a l Hs IH Hall]; simpl; constructor; auto.
  apply Forall_map. eapply Forall_impl; [|exact Hall]. auto.
Qed.

Lemma StronglySorted_flat_map {A B : Type} (R0 : A -> A -> Prop) (R : B -> B -> Prop)
  (f : A -> list B) (l : list A) :
  StronglySorted R0 l ->
  (forall x, In x l -> StronglySorted R (f x)) ->
  (forall x y u v, R0 x y -> In u (f x) -> In v (f y) -> R u v) ->
  StronglySorted R (flat_map f l).
Proof.
  intros H Hin Hcross. induction H as [|a l Hs IH Hall]; simpl; [constructor|].
  apply StronglySorted_app.
  - apply Hin. now left.
  - apply IH. intros x Hx. apply Hin. now right.
  - intros u v Hu Hv. apply in_flat_map in Hv. destruct Hv as (y & Hy & Hv).
    rewrite Forall_forall in Hall. eapply Hcross; eauto.
Qed.

Lemma StronglySorted_seq (a n : nat) : StronglySorted lt (seq a n).
Proof.
  revert a. induction n as [|n IH]; intro a; simpl; constructor; auto.
  apply Forall_forall. intros x Hx. apply in_seq in Hx. lia.
Qed.

(** *** Stable sorting *)

Section StableSort.

Variable A : Type.
Variable key : A -> nat.
Variable T : A -> A -> Prop.

Local Abbreviation leb := (key_leb key).
Local Abbreviation lex := (key_lex key T).

Lemma insert_sorted_perm (x : A) (l : list A) :
  Permutation (insert_sorted leb x l) (x :: l).
Proof.
  induction l as [|y l IH]; simpl; [reflexivity|].
  destruct (leb x y); [reflexivity|].
  rewrite IH. apply perm_swap.
Qed.

Lemma sorted_by_perm (l : list A) : Permutation (sorted_by leb l) l.
Proof.
  induction l as [|x l IH]; simpl; [reflexivity|].
  rewrite insert_sorted_perm. now constructor.
Qed.

Lemma insert_sorted_lex (x : A) (l : list A) :
  StronglySorted lex l -> (forall y, In y l -> T x y) ->
  StronglySorted lex (insert_sorted leb x l).
Proof.
  intros Hs. induction Hs as [|y l Hs IH Hall]; intro HT; simpl.
  - repeat constructor.
  - unfold key_leb at 1. destruct (Nat.leb_spec (key x) (key y)) as [Hle|Hgt].
    + constructor; [now constructor|].
      assert (Hxy : lex x y).
      { unfold key_lex. destruct (Nat.eq_dec (key x) (key y)); [right|left; lia].
        split; [assumption|]. apply HT. now left. }
      constructor; [assumption|].
      apply Forall_forall. intros z Hz. rewrite Forall_forall in Hall.
      specialize (Hall z Hz). unfold key_lex in *.
      destruct (Nat.eq_dec (key x) (key z)); [right|left; lia].
      split; [assumption|]. apply HT. now right.
    + constructor.
      * apply IH. intros z Hz. apply HT. now right.
      * apply Forall_forall. intros z Hz.
        apply (Permutation_in _ (insert_sorted_perm x l)) in Hz.
        destruct Hz as [<-|Hz]; [left; lia|].
        rewrite Forall_forall in Hall. now apply Hall.
Qed.

(** A stable sort of a list that is sorted for [T] is sorted for the
    key first and for [T] among equal keys. *)
Lemma sorted_by_lex (l : list A) :
  StronglySorted T l -> StronglySorted lex (sorted_by leb l).
Proof.
  intro Hs. induction Hs as [|x l Hs IH Hall]; simpl; [constructor|].
  apply insert_sorted_lex; [assumption|].
  intros y Hy. apply (Permutation_in _ (sorted_by_perm l)) in Hy.
  rewrite Forall_forall in Hall. now apply Hall.
Qed.

End StableSort.

(** *** The candidates of a key *)

Import MainWindow.

Lemma candidate_pairs_index (list_a list_b : list keyed_row) :
  candidate_pairs list_a list_b
  = flat_map (fun i =>
      map (fun j => (abs_diff (fst (nth i list_a row0)) (fst (nth j list_b row0)), i, j))
        (seq 0 (List.length list_b)))
      (seq 0 (List.length list_a)).
Proof.
  unfold candidate_pairs.
  rewrite (enumerate_nth row0 list_a), (enumerate_nth row0 list_b), flat_map_map.
  apply flat_map_ext. intro i. destruct (nth i list_a row0) as [ra da]. simpl.
  rewrite map_map. apply map_ext. intro j.
  now destruct (nth j list_b row0).
Qed.

Lemma candidate_pairs_length (list_a list_b : list keyed_row) :
  List.length (candidate_pairs list_a list_b)
  = List.length list_a * List.length list_b.
Proof.
  rewrite candidate_pairs_index.
  rewrite (length_flat_map_const _ (List.length list_b)).
  - now rewrite length_seq.
  - intros i _. now rewrite length_map, length_seq.
Qed.

Lemma in_candidate_pairs (list_a list_b : list keyed_row) (p : candidate) :
  In p (candidate_pairs list_a list_b) <->
  exists ra rb, nth_error list_a (idx_a p) = Some ra
                /\ nth_error list_b (idx_b p) = Some rb
                /\ dist p = abs_diff (fst ra) (fst rb).
Proof.
  rewrite candidate_pairs_index, in_flat_map. split.
  - intros (i & Hi & Hp). apply in_map_iff in Hp. destruct Hp as (j & <- & Hj).
    apply in_seq in Hi, Hj. unfold idx_a, idx_b, dist. simpl.
    exists (nth i list_a row0), (nth j list_b row0).
    repeat split; apply nth_error_nth'; lia.
  - intros (ra & rb & Ha & Hb & Hd). destruct p as [[d i] j].
    unfold idx_a, idx_b, dist in *. simpl in *.
    exists i. split.
    + apply in_seq. assert (i < List.length list_a) by (apply nth_error_Some; congruence). lia.
    + apply in_map_iff. exists j. split.
      * rewrite (nth_error_nth _ _ row0 Ha), (nth_error_nth _ _ row0 Hb). now subst d.
      * apply in_seq. assert (j < List.length list_b) by (apply nth_error_Some; congruence). lia.
Qed.

Lemma candidate_pairs_sorted (list_a list_b : list keyed_row) :
  StronglySorted pos_lt (candidate_pairs list_a list_b).
Proof.
  rewrite candidate_pairs_index.
  apply (StronglySorted_flat_map lt).
  - apply StronglySorted_seq.
  - intros i _. apply (StronglySorted_map lt); [|apply StronglySorted_seq].
    intros j j' Hj. right. unfold idx_a, idx_b. simpl. lia.
  - intros i i' u v Hi Hu Hv.
    apply in_map_iff in Hu, Hv. destruct Hu as (j & <- & _), Hv as (j' & <- & _).
    left. unfold idx_a. simpl. exact Hi.
Qed.

Lemma sort_pairs_perm (pairs : list candidate) : Permutation (sort_pairs pairs) pairs.
Proof. apply sorted_by_perm. Qed.

Lemma sort_pairs_sorted (list_a list_b : list keyed_row) :
  StronglySorted cand_lt (sort_pairs (candidate_pairs list_a list_b)).
Proof.
  apply (sorted_by_lex candidate dist pos_lt), candidate_pairs_sorted.
Qed.

(** *** The greedy loop *)

Lemma mem_nat_In (n : nat) (l : list nat) : mem_nat n l = true <-> In n l.
Proof.
  unfold mem_nat. rewrite existsb_exists. split.
  - intros (x & Hx & He). apply Nat.eqb_eq in He. now subst.
  - intro H. exists n. split; [assumption | apply Nat.eqb_refl].
Qed.

Lemma mem_nat_not_In (n : nat) (l : list nat) : mem_nat n l = false <-> ~ In n l.
Proof.
  rewrite <- mem_nat_In. destruct (mem_nat n l); split; congruence.
Qed.

Lemma greedy_app (l1 l2 : list candidate) :
  greedy (l1 ++ l2) = fold_left greedy_step l2 (greedy l1).
Proof. unfold greedy. apply fold_left_app. Qed.

(** A turn accepts the pair exactly when neither row is consumed. *)
Lemma greedy_step_accept (st : greedy_state) (p : candidate) :
  ~ In (idx_a p) (used_a st) -> ~ In (idx_b p) (used_b st) ->
  greedy_step st p
  = mk_greedy (matches st ++ [(idx_a p, idx_b p)])
      (idx_a p :: used_a st) (idx_b p :: used_b st).
Proof.
  intros Ha Hb. unfold greedy_step.
  apply mem_nat_not_In in Ha, Hb. now rewrite Ha, Hb.
Qed.

Lemma greedy_step_skip (st : greedy_state) (p : candidate) :
  In (idx_a p) (used_a st) \/ In (idx_b p) (used_b st) ->
  greedy_step st p = st.
Proof.
  intros H. unfold greedy_step.
  destruct (mem_nat (idx_a p) (used_a st)) eqn:Ea; [reflexivity|].
  destruct (mem_nat (idx_b p) (used_b st)) eqn:Eb; [reflexivity|].
  apply mem_nat_not_In in Ea, Eb. tauto.
Qed.

Lemma NoDup_snoc {A : Type} (l : list A) (x : A) :
  NoDup l -> ~ In x l -> NoDup (l ++ [x]).
Proof.
  intros Hl Hx. apply NoDup_rev in Hl.
  rewrite <- (rev_involutive (l ++ [x])). apply NoDup_rev.
  rewrite rev_app_distr. simpl. constructor; [|assumption].
  now rewrite <- in_rev.
Qed.

Lemma greedy_inv_init : greedy_inv (mk_greedy [] [] []).
Proof. split; simpl; try tauto; constructor. Qed.

Lemma greedy_inv_step (st : greedy_state) (p : candidate) :
  greedy_inv st -> greedy_inv (greedy_step st p).
Proof.
  intros [Ha Hb Na Nb]. unfold greedy_step.
  destruct (mem_nat (idx_a p) (used_a st)) eqn:Ea; simpl; [now split|].
  destruct (mem_nat (idx_b p) (used_b st)) eqn:Eb; simpl; [now split|].
  apply mem_nat_not_In in Ea, Eb.
  split; simpl; rewrite ?map_app; simpl.
  - intro i. rewrite in_app_iff, <- Ha. simpl. tauto.
  - intro j. rewrite in_app_iff, <- Hb. simpl. tauto.
  - apply NoDup_snoc; [assumption | now rewrite <- Ha].
  - apply NoDup_snoc; [assumption | now rewrite <- Hb].
Qed.

Lemma greedy_inv_fold (l : list candidate) (st : greedy_state) :
  greedy_inv st -> greedy_inv (fold_left greedy_step l st).
Proof.
  revert st. induction l as [|p l IH]; intros st H; simpl; [assumption|].
  apply IH, greedy_inv_step, H.
Qed.

Lemma greedy_inv_greedy (l : list candidate) : greedy_inv (greedy l).
Proof. apply greedy_inv_fold, greedy_inv_init. Qed.

Lemma greedy_step_mono (st : greedy_state) (p : candidate) (m : nat * nat) :
  In m (matches st) -> In m (matches (greedy_step st p)).
Proof.
  intro H. unfold greedy_step.
  destruct (negb _ && negb _); simpl; [apply in_or_app; now left | assumption].
Qed.

Lemma greedy_fold_mono (l : list candidate) (st : greedy_state) (m : nat * nat) :
  In m (matches st) -> In m (matches (fold_left greedy_step l st)).
Proof.
  revert st. induction l as [|p l IH]; intros st H; simpl; [assumption|].
  apply IH, greedy_step_mono, H.
Qed.

(** An accepted pair that was not there before comes from a candidate. *)
Lemma greedy_fold_origin (l : list candidate) (st : greedy_state) (m : nat * nat) :
  In m (matches (fold_left greedy_step l st)) ->
  In m (matches st) \/ exists p, In p l /\ m = (idx_a p, idx_b p).
Proof.
  revert st. induction l as [|p l IH]; intros st H; simpl in *; [now left|].
  apply IH in H. destruct H as [H|(q & Hq & ->)].
  - unfold greedy_step in H.
    destruct (negb _ && negb _); simpl in H; [|now left].
    apply in_app_iff in H. destruct H as [H|[<-|[]]]; [now left|].
    right. exists p. split; [now left | reflexivity].
  - right. exists q. split; [now right | reflexivity].
Qed.

Lemma greedy_origin (l : list candidate) (m : nat * nat) :
  In m (matches (greedy l)) -> In m (map ij l).
Proof.
  intro H. apply greedy_fold_origin in H. simpl in H.
  destruct H as [[]|(q & Hq & ->)]. apply in_map_iff. now exists q.
Qed.

(** The acceptance test, for a list that holds each index pair once. *)
Lemma greedy_accepts (pre post : list candidate) (p : candidate) :
  NoDup (map ij (pre ++ p :: post)) ->
  (In (ij p) (matches (greedy (pre ++ p :: post))) <->
   ~ In (idx_a p) (used_a (greedy pre)) /\ ~ In (idx_b p) (used_b (greedy pre))).
Proof.
  intro Hnd. rewrite greedy_app. simpl. split.
  - intro Hin.
    assert (Hdec : (~ In (idx_a p) (used_a (greedy pre))
                    /\ ~ In (idx_b p) (used_b (greedy pre)))
                   \/ (In (idx_a p) (used_a (greedy pre))
                       \/ In (idx_b p) (used_b (greedy pre)))).
    { destruct (in_dec Nat.eq_dec (idx_a p) (used_a (greedy pre)));
        destruct (in_dec Nat.eq_dec (idx_b p) (used_b (greedy pre))); tauto. }
    destruct Hdec as [Hfree|Hused]; [assumption|exfalso].
    rewrite greedy_step_skip in Hin by assumption.
    rewrite map_app in Hnd. simpl in Hnd. apply NoDup_remove_2 in Hnd.
    apply Hnd, in_or_app.
    apply greedy_fold_origin in Hin. destruct Hin as [Hin|(q & Hq & Hij)].
    + left. now apply greedy_origin.
    + right. apply in_map_iff. exists q. now split.
  - intros [Ha Hb]. apply greedy_fold_mono.
    rewrite greedy_step_accept by assumption. simpl.
    apply in_or_app. right. now left.
Qed.

Lemma candidate_pairs_nodup (list_a list_b : list keyed_row) :
  NoDup (map ij (candidate_pairs list_a list_b)).
Proof.
  assert (H : StronglySorted (fun u v : nat * nat => u <> v)
                (map ij (candidate_pairs list_a list_b))).
  { apply (StronglySorted_map pos_lt); [|apply candidate_pairs_sorted].
    intros p q [H|[H1 H2]] E; unfold ij in E; inversion E; lia. }
  induction H as [|x l Hs IH Hall]; constructor; [|assumption].
  intro Hin. rewrite Forall_forall in Hall. now apply (Hall x Hin).
Qed.

Lemma sort_pairs_nodup (list_a list_b : list keyed_row) :
  NoDup (map ij (sort_pairs (candidate_pairs list_a list_b))).
Proof.
  eapply Permutation_NoDup; [|apply candidate_pairs_nodup].
  apply Permutation_map, Permutation_sym, sort_pairs_perm.
Qed.

Lemma used_a_spec (l : list candidate) (i : nat) :
  In i (used_a (greedy l)) <-> exists j, In (i, j) (matches (greedy l)).
Proof.
  rewrite (inv_used_a _ (greedy_inv_greedy l)), in_map_iff. split.
  - intros ([i' j] & <- & H). now exists j.
  - intros (j & H). now exists (i, j).
Qed.

Lemma used_b_spec (l : list candidate) (j : nat) :
  In j (used_b (greedy l)) <-> exists i, In (i, j) (matches (greedy l)).
Proof.
  rewrite (inv_used_b _ (greedy_inv_greedy l)), in_map_iff. split.
  - intros ([i j'] & <- & H). now exists i.
  - intros (i & H). now exists (i, j).
Qed.

Lemma flat_map_filter_map {A B : Type} (P : A -> bool) (g : A -> B) (l : list A) :
  flat_map (fun x => if P x then [g x] else []) l = map g (filter P l).
Proof.
  induction l as [|x l IH]; simpl; [reflexivity|].
  destruct (P x); simpl; now rewrite IH.
Qed.

Lemma enumerates_singleton {A : Type} (enum l : list A) (a : A) :
  enumerates enum l -> In a l -> (forall x, In x l -> x = a) -> enum = [a].
Proof.
  intros [Hnd Hin] Ha Hall.
  destruct enum as [|x enum].
  - apply Hin in Ha. destruct Ha.
  - assert (x = a) by (apply Hall, Hin; now left). subst x.
    destruct enum as [|y enum]; [reflexivity|].
    assert (y = a) by (apply Hall, Hin; right; now left). subst y.
    inversion Hnd; subst. exfalso. apply H1. now left.
Qed.

Lemma deleted_row_spec (float_repr : spec_float -> string) (sh : string) (c0 : nat)
  (r : keyed_row) :
  deleted_row float_repr sh c0 r
  = map (fun cv => DiffResult_ sh (fst r) (c0 + fst cv) DELETED (snd cv) PNone None None)
      (filter (fun cv => non_blank float_repr (snd cv)) (enumerate (snd r))).
Proof.
  unfold deleted_row. rewrite <- flat_map_filter_map.
  apply flat_map_ext. now intros [c v].
Qed.

Lemma abs_diff_distance (a b : nat) : Z.of_nat (abs_diff a b) = row_distance a b.
Proof. unfold abs_diff, row_distance. lia. Qed.

Lemma greedy_fold_prefix (l : list candidate) (st : greedy_state) :
  exists more, matches (fold_left greedy_step l st) = matches st ++ more.
Proof.
  revert st. induction l as [|p l IH]; intro st; simpl.
  - exists []. now rewrite app_nil_r.
  - destruct (IH (greedy_step st p)) as (more & ->). unfold greedy_step.
    destruct (negb _ && negb _); simpl.
    + exists ((idx_a p, idx_b p) :: more). now rewrite <- app_assoc.
    + now exists more.
Qed.

(** The first pair accepted is a pair of rows at the least distance. *)
Lemma closest_pair_first (list_a list_b : list keyed_row) :
  list_a <> [] -> list_b <> [] ->
  exists i j more ra rb,
    matches (match_rows list_a list_b) = (i, j) :: more
    /\ nth_error list_a i = Some ra /\ nth_error list_b j = Some rb
    /\ forall ra' rb', In ra' list_a -> In rb' list_b ->
         (row_distance (fst ra) (fst rb) <= row_distance (fst ra') (fst rb'))%Z.
Proof.
  intros Ha Hb. unfold match_rows.
  pose proof (sort_pairs_perm (candidate_pairs list_a list_b)) as Hperm.
  pose proof (sort_pairs_sorted list_a list_b) as Hsorted.
  destruct (sort_pairs (candidate_pairs list_a list_b)) as [|p post] eqn:E.
  - apply Permutation_length in Hperm. rewrite candidate_pairs_length in Hperm.
    destruct list_a, list_b; simpl in Hperm; congruence.
  - assert (Hp : In p (candidate_pairs list_a list_b))
      by (apply (Permutation_in _ Hperm); now left).
    apply in_candidate_pairs in Hp. destruct Hp as (ra & rb & Hra & Hrb & Hd).
    unfold greedy. simpl fold_left.
    destruct (greedy_fold_prefix post (greedy_step (mk_greedy [] [] []) p)) as (more & Hm).
    exists (idx_a p), (idx_b p), more, ra, rb.
    split; [rewrite Hm; reflexivity|]. split; [exact Hra|]. split; [exact Hrb|].
    intros ra' rb' Hina Hinb.
    apply In_nth_error in Hina, Hinb. destruct Hina as (i' & Hi'), Hinb as (j' & Hj').
    set (q := (abs_diff (fst ra') (fst rb'), i', j') : candidate).
    assert (Hq : In q (p :: post)).
    { apply (Permutation_in _ (Permutation_sym Hperm)). apply in_candidate_pairs.
      exists ra', rb'. repeat split; assumption. }
    rewrite <- !abs_diff_distance, <- Hd.
    change (abs_diff (fst ra') (fst rb')) with (dist q).
    destruct Hq as [<-|Hq]; [lia|].
    inversion Hsorted as [|? ? _ Hall]; subst.
    rewrite Forall_forall in Hall. specialize (Hall q Hq).
    destruct Hall as [Hlt|[Heq _]]; lia.
Qed.

(** The handlers give no record to the cell of an unmatched row that
    holds a text of one space, though the cell is not empty: row 5 of A
    has three cells that are not empty and gets two Deleted records. *)
Lemma C2_space_cell_not_reported :
  forallb (fun c => negb (is_empty c)) (nth 5 (rows greedy_sheet_space_a) []) = true
  /\ smart_match_sheet no_float_repr first_seen (Some 0%Z) (Some 1%Z) (Some 0%Z) (Some 1%Z)
       None CompareService.default_options "S" greedy_sheet_space_a greedy_sheet_b
     = Ok greedy_space_expected
  /\ _compare_selection_smart no_float_repr first_seen "S" greedy_sheet_space_a greedy_sheet_b
       (mk_rect 0 0 5 2) (mk_rect 0 0 1 2) (Some 0%Z) (Some 1%Z) None
       CompareService.default_options None
     = Ok greedy_space_expected.
Proof. repeat split; vm_compute; reflexivity. Qed.

(** C2 (amended). For the rows [list_a] and [list_b] that share a key,
    key matching builds all the m x n candidates, each with the distance
    |row_a - row_b| of its two row indices, sorts them by ascending
    distance (ties in the order of the list indices) and accepts a
    candidate exactly when neither of its rows is consumed yet; the
    first pair accepted is a pair at the least distance.  A row of A
    without partner gives one Deleted record per value that is not
    [None] and not blank once converted to text and trimmed, key columns
    included.  With the key at rows 0 and 5 of A and at row 1 of B,
    rows 0 and 1 are paired and row 5 is deleted; with the key at row 4
    of B, rows 5 and 4 are paired and row 0 is deleted.  This holds in
    both handlers and for every iteration order of the key set. *)
Theorem C2_greedy_key_matching :
  forall (float_repr : spec_float -> string) (set_iter : list string -> list string),
  is_set_iter set_iter ->
  (forall list_a list_b : list keyed_row,
     let pairs := candidate_pairs list_a list_b in
     let sorted := sort_pairs pairs in
     List.length pairs = List.length list_a * List.length list_b
     /\ (forall p, In p pairs <->
           exists ra rb, nth_error list_a (idx_a p) = Some ra
                         /\ nth_error list_b (idx_b p) = Some rb
                         /\ Z.of_nat (dist p)
                            = Z.abs (Z.of_nat (fst ra) - Z.of_nat (fst rb)))
     /\ Permutation sorted pairs
     /\ StronglySorted cand_lt sorted
     /\ (forall pre p post, sorted = pre ++ p :: post ->
           (In (idx_a p, idx_b p) (matches (match_rows list_a list_b)) <->
            ~ In (idx_a p) (used_a (greedy pre))
            /\ ~ In (idx_b p) (used_b (greedy pre))))
     /\ (forall pre i, In i (used_a (greedy pre)) <->
                       exists j, In (i, j) (matches (greedy pre)))
     /\ (forall pre j, In j (used_b (greedy pre)) <->
                       exists i, In (i, j) (matches (greedy pre)))
     /\ (list_a <> [] -> list_b <> [] ->
         exists i j more ra rb,
           matches (match_rows list_a list_b) = (i, j) :: more
           /\ nth_error list_a i = Some ra /\ nth_error list_b j = Some rb
           /\ forall ra' rb', In ra' list_a -> In rb' list_b ->
                (Z.abs (Z.of_nat (fst ra) - Z.of_nat (fst rb))
                 <= Z.abs (Z.of_nat (fst ra') - Z.of_nat (fst rb')))%Z))
  /\ (forall (sh : string) (c0 : nat) (r : keyed_row),
        deleted_row float_repr sh c0 r
        = map (fun cv =>
                 DiffResult_ sh (fst r) (c0 + fst cv) DELETED (snd cv) PNone None None)
            (filter (fun cv =>
                       negb (is_none (snd cv))
                       && negb (String.eqb (strip (py_str float_repr (snd cv))) ""))
               (enumerate (snd r))))
  /\ (forall k1a k2a k1b k2b options sh col_map rows_a rows_b key r0 r5 r1,
        rows_of rows_a key = [(0, r0); (5, r5)] ->
        rows_of rows_b key = [(1, r1)] ->
        key_diffs float_repr k1a k2a k1b k2b options sh col_map rows_a rows_b key
        = matched_diffs k1a k2a k1b k2b options sh col_map ((0, r0), (1, r1))
          ++ deleted_row float_repr sh 0 (5, r5))
  /\ (forall k1a k2a k1b k2b options sh col_map rows_a rows_b key r0 r5 r4,
        rows_of rows_a key = [(0, r0); (5, r5)] ->
        rows_of rows_b key = [(4, r4)] ->
        key_diffs float_repr k1a k2a k1b k2b options sh col_map rows_a rows_b key
        = matched_diffs k1a k2a k1b k2b options sh col_map ((5, r5), (4, r4))
          ++ deleted_row float_repr sh 0 (0, r0))
  /\ (forall k1 k2 options sh range_a range_b col_map rows_a rows_b key r0 r5 r1,
        rows_of rows_a key = [(0, r0); (5, r5)] ->
        rows_of rows_b key = [(1, r1)] ->
        sel_key_diffs float_repr k1 k2 options sh range_a range_b col_map rows_a rows_b key
        = sel_matched_diffs k1 k2 options sh range_a range_b col_map ((0, r0), (1, r1))
          ++ deleted_row float_repr sh (min_col range_a) (5, r5))
  /\ (forall k1 k2 options sh range_a range_b col_map rows_a rows_b key r0 r5 r4,
        rows_of rows_a key = [(0, r0); (5, r5)] ->
        rows_of rows_b key = [(4, r4)] ->
        sel_key_diffs float_repr k1 k2 options sh range_a range_b col_map rows_a rows_b key
        = sel_matched_diffs k1 k2 options sh range_a range_b col_map ((5, r5), (4, r4))
          ++ deleted_row float_repr sh (min_col range_a) (0, r0))
  /\ smart_match_sheet float_repr set_iter (Some 0%Z) (Some 1%Z) (Some 0%Z) (Some 1%Z)
       None CompareService.default_options "S" greedy_sheet_a greedy_sheet_b
     = Ok greedy_expected
  /\ _compare_selection_smart float_repr set_iter "S" greedy_sheet_a greedy_sheet_b
       (mk_rect 0 0 5 2) (mk_rect 0 0 1 2) (Some 0%Z) (Some 1%Z) None
       CompareService.default_options None
     = Ok greedy_expected
  /\ smart_match_sheet float_repr set_iter (Some 0%Z) (Some 1%Z) (Some 0%Z) (Some 1%Z)
       None CompareService.default_options "S" greedy_sheet_a greedy_sheet_near_b
     = Ok greedy_near_expected
  /\ _compare_selection_smart float_repr set_iter "S" greedy_sheet_a greedy_sheet_near_b
       (mk_rect 0 0 5 2) (mk_rect 0 0 4 2) (Some 0%Z) (Some 1%Z) None
       CompareService.default_options None
     = Ok greedy_near_expected.
Proof.
  intros float_repr set_iter Hiter.
  assert (Hkeys : set_iter (["x|1"] ++ ["x|1"]) = ["x|1"]).
  { apply (enumerates_singleton _ _ _ (Hiter _)); simpl; [tauto|].
    intros x [H|[H|[]]]; now subst. }
  assert (Hrows_a : forall rng,
            rng = mk_rect 0 0 5 2 ->
            build_rows float_repr CompareService.default_options (Some 0%Z) (Some 1%Z)
              (extract_range_data greedy_sheet_a rng)
            = Ok [("x|1", [(0, [PStr "x"; PInt 1; PStr "a0"]);
                           (5, [PStr "x"; PInt 1; PNone])])])
    by (intros rng ->; vm_compute; reflexivity).
  assert (Hdata_a :
            build_rows float_repr CompareService.default_options (Some 0%Z) (Some 1%Z)
              (data_rows greedy_sheet_a None)
            = Ok [("x|1", [(0, [PStr "x"; PInt 1; PStr "a0"]);
                           (5, [PStr "x"; PInt 1; PNone])])])
    by (vm_compute; reflexivity).
  split; [|split; [|split; [|split; [|split; [|split; [|split; [|split; [|split]]]]]]]].
  - intros list_a list_b pairs sorted. subst pairs sorted.
    split; [apply candidate_pairs_length|].
    split.
    { intro p. rewrite in_candidate_pairs.
      split; intros (ra & rb & Ha & Hb & Hd); exists ra, rb;
        (split; [exact Ha|]); (split; [exact Hb|]).
      - rewrite Hd. apply abs_diff_distance.
      - apply Nat2Z.inj. rewrite Hd. symmetry. apply abs_diff_distance. }
    split; [apply sort_pairs_perm|].
    split; [apply sort_pairs_sorted|].
    split.
    { intros pre p post H. unfold match_rows. rewrite H.
      apply (greedy_accepts pre post p). rewrite <- H. apply sort_pairs_nodup. }
    split; [apply used_a_spec|].
    split; [apply used_b_spec|].
    apply closest_pair_first.
  - intros sh c0 r. rewrite deleted_row_spec. reflexivity.
  - intros k1a k2a k1b k2b options sh col_map rows_a rows_b key r0 r5 r1 Ha Hb.
    unfold key_diffs. rewrite Ha, Hb. cbn. now rewrite !app_nil_r.
  - intros k1a k2a k1b k2b options sh col_map rows_a rows_b key r0 r5 r4 Ha Hb.
    unfold key_diffs. rewrite Ha, Hb. cbn. now rewrite !app_nil_r.
  - intros k1 k2 options sh range_a range_b col_map rows_a rows_b key r0 r5 r1 Ha Hb.
    unfold sel_key_diffs. rewrite Ha, Hb. cbn. now rewrite !app_nil_r.
  - intros k1 k2 options sh range_a range_b col_map rows_a rows_b key r0 r5 r4 Ha Hb.
    unfold sel_key_diffs. rewrite Ha, Hb. cbn. now rewrite !app_nil_r.
  - unfold smart_match_sheet. rewrite Hdata_a.
    replace (build_rows float_repr CompareService.default_options (Some 0%Z) (Some 1%Z)
               (data_rows greedy_sheet_b None))
      with (Ok [("x|1", [(1, [PStr "x"; PInt 1; PStr "b1"])])])
      by (vm_compute; reflexivity).
    cbn [bind dict_keys map fst]. rewrite Hkeys. vm_compute. reflexivity.
  - unfold _compare_selection_smart.
    replace (selection_columns float_repr greedy_sheet_a greedy_sheet_b
               (mk_rect 0 0 5 2) (mk_rect 0 0 1 2)
               (extract_range_data greedy_sheet_a (mk_rect 0 0 5 2))
               (extract_range_data greedy_sheet_b (mk_rect 0 0 1 2)) None None)
      with (@nil (nat * nat), 0) by reflexivity.
    cbn [skipn]. rewrite (Hrows_a _ eq_refl).
    replace (build_rows float_repr CompareService.default_options (Some 0%Z) (Some 1%Z)
               (extract_range_data greedy_sheet_b (mk_rect 0 0 1 2)))
      with (Ok [("x|1", [(1, [PStr "x"; PInt 1; PStr "b1"])])])
      by (vm_compute; reflexivity).
    cbn [bind dict_keys map fst]. rewrite Hkeys. vm_compute. reflexivity.
  - unfold smart_match_sheet. rewrite Hdata_a.
    replace (build_rows float_repr CompareService.default_options (Some 0%Z) (Some 1%Z)
               (data_rows greedy_sheet_near_b None))
      with (Ok [("x|1", [(4, [PStr "x"; PInt 1; PStr "b4"])])])
      by (vm_compute; reflexivity).
    cbn [bind dict_keys map fst]. rewrite Hkeys. vm_compute. reflexivity.
  - unfold _compare_selection_smart.
    replace (selection_columns float_repr greedy_sheet_a greedy_sheet_near_b
               (mk_rect 0 0 5 2) (mk_rect 0 0 4 2)
               (extract_range_data greedy_sheet_a (mk_rect 0 0 5 2))
               (extract_range_data greedy_sheet_near_b (mk_rect 0 0 4 2)) None None)
      with (@nil (nat * nat), 0) by reflexivity.
    cbn [skipn]. rewrite (Hrows_a _ eq_refl).
    replace (build_rows float_repr CompareService.default_options (Some 0%Z) (Some 1%Z)
               (extract_range_data greedy_sheet_near_b (mk_rect 0 0 4 2)))
      with (Ok [("x|1", [(4, [PStr "x"; PInt 1; PStr "b4"])])])
      by (vm_compute; reflexivity).
    cbn [bind dict_keys map fst]. rewrite Hkeys. vm_compute. reflexivity.
Qed.

Lemma first_seen_In (l : list string) (x : string) : In x (first_seen l) <-> In x l.
Proof.
  induction l as [|y l IH]; simpl; [tauto|].
  rewrite filter_In, IH. destruct (String.eqb_spec y x); simpl; intuition congruence.
Qed.

Lemma NoDup_filter {A : Type} (f : A -> bool) (l : list A) :
  NoDup l -> NoDup (filter f l).
Proof.
  induction 1 as [|x l Hx Hl IH]; simpl; [constructor|].
  destruct (f x); [constructor|]; auto.
  rewrite filter_In. tauto.
Qed.

Lemma first_seen_NoDup (l : list string) : NoDup (first_seen l).
Proof.
  induction l as [|y l IH]; simpl; constructor.
  - rewrite filter_In. rewrite String.eqb_refl. simpl. intros [_ H]. discriminate.
  - now apply NoDup_filter.
Qed.

Lemma first_seen_is_set_iter : is_set_iter first_seen.
Proof. intro l. split; [apply first_seen_NoDup | intro x; apply first_seen_In]. Qed.

(** The statement of C2 at the rows 0 and 5 against row 4. *)
Lemma C2_witness :
  matched_rows [(0, [PStr "x"]); (5, [PStr "x"])] [(4, [PStr "x"])]
    (match_rows [(0, [PStr "x"]); (5, [PStr "x"])] [(4, [PStr "x"])])
  = [((5, [PStr "x"]), (4, [PStr "x"]))]
  /\ key_diffs no_float_repr (Some 0%Z) None (Some 0%Z) None
       CompareService.default_options "S" []
       [("x", [(0, [PStr "x"]); (5, [PStr "x"])])] [("x", [(4, [PStr "x"])])] "x"
     = [DiffResult_ "S" 0 0 DELETED (PStr "x") PNone None None].
Proof.
  split; [reflexivity|].
  destruct (C2_greedy_key_matching no_float_repr first_seen first_seen_is_set_iter)
    as (_ & _ & _ & Hkey & _).
  rewrite (Hkey (Some 0%Z) None (Some 0%Z) None CompareService.default_options "S" []
             [("x", [(0, [PStr "x"]); (5, [PStr "x"])])] [("x", [(4, [PStr "x"])])] "x"
             [PStr "x"] [PStr "x"] [PStr "x"] eq_refl eq_refl).
  reflexivity.
Defined.

(** *** Enumerations *)

Lemma last_seen_first_is_set_iter : is_set_iter last_seen_first.
Proof.
  intro l. unfold last_seen_first. split.
  - apply NoDup_rev, first_seen_NoDup.
  - intro x. rewrite <- in_rev. apply first_seen_In.
Qed.

(** *** The cell-diff rule in the handlers *)

(** C1. The classification of the handlers, at an empty A side against
    the number 0: [_values_differ] reports a difference and
    [_get_diff_type] answers Modified, where the rule (and
    [_compare_cells] on the same two cells) says Added.  And at [None]
    against [""], two empty sides: the handlers record a Modified cell
    unless [ignore_empty_rows] is set, and the cell loops of
    SmartCompareService record an Added cell. *)
Theorem C1_handlers_misclassify :
  forall (options : CompareService.CompareOptions)
         (smart_options : SmartCompareService.SmartCompareOptions)
         (sh : string) (r c rb cb : nat),
    pair_diff options sh r c rb cb PNone (PInt 0)
    = [DiffResult_ sh r c MODIFIED PNone (PInt 0) (Some rb) (Some cb)]
    /\ CompareService._compare_cells sh r c None (Some (int_cell 0)) options
       = Some (DiffResult_ sh r c ADDED PNone (PInt 0) None None)
    /\ pair_diff options sh r c rb cb PNone (PStr "")
       = (if CompareService.ignore_empty_rows options then []
          else [DiffResult_ sh r c MODIFIED PNone (PStr "") (Some rb) (Some cb)])
    /\ SmartCompareService.cell_diff smart_options sh r c PNone (PStr "")
       = Some (DiffResult_ sh r c ADDED PNone (PStr "") None None)
    /\ CompareService._compare_cells sh r c None (Some (text_cell "")) options = None.
Proof.
  intros options smart_options sh r c rb cb.
  destruct options as [f er ec ic iw ih icm], smart_options as [ra rgb uh hi uk ki sic siw ser].
  repeat split.
  - unfold pair_diff, _values_differ. simpl.
    destruct ic, iw, er; reflexivity.
  - unfold CompareService._compare_cells, CompareService.normalize_pair. simpl.
    destruct ic, iw; reflexivity.
  - unfold pair_diff, _values_differ. simpl.
    destruct ic, iw, er; reflexivity.
  - unfold SmartCompareService.cell_diff, SmartCompareService.cmp_val. simpl.
    destruct sic, siw; reflexivity.
  - unfold CompareService._compare_cells, CompareService.normalize_pair. simpl.
    destruct ic, iw; reflexivity.
Qed.

(** *** The order of the keys *)

(** C3. In the handlers the keys are taken in the order in which the
    set is iterated, not sorted: on the same two sheets and the same
    configuration, two iteration orders of the key set give the records
    in two different orders. *)
Theorem C3_key_order_is_the_set_order :
  is_set_iter first_seen /\ is_set_iter last_seen_first
  /\ smart_match_sheet no_float_repr first_seen (Some 0%Z) None (Some 0%Z) None None
       CompareService.default_options "S" order_sheet_a order_sheet_b
     = Ok [order_diff_a; order_diff_b]
  /\ smart_match_sheet no_float_repr last_seen_first (Some 0%Z) None (Some 0%Z) None None
       CompareService.default_options "S" order_sheet_a order_sheet_b
     = Ok [order_diff_b; order_diff_a]
  /\ _compare_selection_smart no_float_repr first_seen "S" order_sheet_a order_sheet_b
       (mk_rect 0 0 1 1) (mk_rect 0 0 1 1) (Some 0%Z) None None
       CompareService.default_options None
     = Ok [order_diff_a; order_diff_b]
  /\ _compare_selection_smart no_float_repr last_seen_first "S" order_sheet_a order_sheet_b
       (mk_rect 0 0 1 1) (mk_rect 0 0 1 1) (Some 0%Z) None None
       CompareService.default_options None
     = Ok [order_diff_b; order_diff_a].
Proof.
  split; [apply first_seen_is_set_iter|].
  split; [apply last_seen_first_is_set_iter|].
  repeat split; vm_compute; reflexivity.
Qed.

(** *** The error monad *)

Lemma mapM_Ok_inv {A B : Type} (f : A -> result B) (x : A) (l : list A) (ys : list B) :
  mapM f (x :: l) = Ok ys ->
  exists y ys', f x = Ok y /\ mapM f l = Ok ys' /\ ys = y :: ys'.
Proof.
  simpl. destruct (f x) as [y|e]; simpl; [|discriminate].
  destruct (mapM f l) as [ys'|e]; simpl; [|discriminate].
  intro H. inversion H. now exists y, ys'.
Qed.

Lemma in_concat_mapM {A B : Type} (f : A -> result (list B)) (l : list A)
  (ys : list (list B)) (d : B) :
  mapM f l = Ok ys ->
  (In d (List.concat ys) <-> exists x y, In x l /\ f x = Ok y /\ In d y).
Proof.
  revert ys. induction l as [|x l IH]; intros ys H.
  - inversion H. simpl. split; [tauto|]. now intros (x & y & [] & _).
  - apply mapM_Ok_inv in H. destruct H as (y & ys' & Hx & Hl & ->).
    simpl. rewrite in_app_iff, (IH ys' Hl). split.
    + intros [Hd|(x' & y' & Hin & Hf & Hd)].
      * exists x, y. auto.
      * exists x', y'. auto.
    + intros (x' & y' & [<-|Hin] & Hf & Hd).
      * left. congruence.
      * right. now exists x', y'.
Qed.

Lemma mapM_Ok_In {A B : Type} (f : A -> result B) (l : list A) (ys : list B) :
  mapM f l = Ok ys -> forall x, In x l -> exists y, f x = Ok y /\ In y ys.
Proof.
  revert ys. induction l as [|a l IH]; intros ys H x Hx; [destruct Hx|].
  apply mapM_Ok_inv in H. destruct H as (y & ys' & Ha & Hl & ->).
  destruct Hx as [<-|Hx].
  - exists y. split; [assumption | now left].
  - destruct (IH ys' Hl x Hx) as (y' & Hy & Hin). exists y'. split; [assumption | now right].
Qed.


Lemma fmap_Ok_inv {A B : Type} (f : A -> B) (c : result A) (b : B) :
  fmap f c = Ok b -> exists a, c = Ok a /\ b = f a.
Proof. destruct c as [a|e]; simpl; [|discriminate]. intro H. inversion H. now exists a. Qed.

(** *** Numeric mode *)

Import CompareService.


Lemma numeric_diff_spec (sh : string) (r c : nat) (va vb : option spec_float) :
  match numeric_diff sh r c va vb with
  | None => opt_neqb SFeqb va vb = false
  | Some d =>
      opt_neqb SFeqb va vb = true
      /\ sheet d = sh /\ row d = r /\ col d = c
      /\ old_value d = num_val va /\ new_value d = num_val vb
      /\ row_b d = None /\ col_b d = None
      /\ (diff_type d = ADDED <-> va = None /\ vb <> None)
      /\ (diff_type d = DELETED <-> va <> None /\ vb = None)
      /\ (diff_type d = MODIFIED <-> va <> None /\ vb <> None)
  end.
Proof.
  unfold numeric_diff. destruct (opt_neqb SFeqb va vb) eqn:E; [|reflexivity].
  destruct va as [fa|], vb as [fb|]; simpl in *; try discriminate;
    repeat split; try reflexivity; try congruence; try tauto;
    try (intros [H1 H2]; congruence); try discriminate.
Qed.

Lemma numeric_cell_Ok (sheet_a sheet_b : SheetData) (row col : nat)
  (ds : list DiffResult) (d : DiffResult) :
  numeric_cell sheet_a sheet_b row col = Ok ds ->
  (In d ds <-> exists va vb,
      _to_numeric (cell_at sheet_a row col) = Ok va
      /\ _to_numeric (cell_at sheet_b row col) = Ok vb
      /\ numeric_diff (name sheet_a) row col va vb = Some d).
Proof.
  unfold numeric_cell.
  destruct (_to_numeric (cell_at sheet_a row col)) as [va|e]; simpl; [|discriminate].
  destruct (_to_numeric (cell_at sheet_b row col)) as [vb|e]; simpl; [|discriminate].
  intro H. inversion H; subst. clear H. split.
  - intro Hd. exists va, vb. repeat split.
    destruct (numeric_diff _ _ _ va vb); simpl in Hd; [|tauto].
    destruct Hd as [->|[]]. reflexivity.
  - intros (va' & vb' & Ha & Hb & Hd). inversion Ha; inversion Hb; subst.
    rewrite Hd. now left.
Qed.

Lemma compare_numeric_Ok (sheet_a sheet_b : SheetData) (options : CompareOptions)
  (ds : list DiffResult) (d : DiffResult) :
  _compare_numeric sheet_a sheet_b options = Ok ds ->
  (In d ds <-> exists r c va vb,
      r < Nat.max (row_count sheet_a) (row_count sheet_b)
      /\ c < Nat.max (col_count sheet_a) (col_count sheet_b)
      /\ _to_numeric (cell_at sheet_a r c) = Ok va
      /\ _to_numeric (cell_at sheet_b r c) = Ok vb
      /\ numeric_diff (name sheet_a) r c va vb = Some d).
Proof.
  unfold _compare_numeric. intro H.
  apply fmap_Ok_inv in H. destruct H as (rs & Hrows & ->).
  rewrite (in_concat_mapM _ _ _ _ Hrows). split.
  - intros (r & y & Hr & Hy & Hd).
    apply fmap_Ok_inv in Hy. destruct Hy as (cs & Hcols & ->).
    rewrite (in_concat_mapM _ _ _ _ Hcols) in Hd.
    destruct Hd as (c & y & Hc & Hy & Hd).
    apply (proj1 (numeric_cell_Ok sheet_a sheet_b r c y d Hy)) in Hd.
    destruct Hd as (va & vb & Ha & Hb & Hd).
    apply in_seq in Hr, Hc. exists r, c, va, vb. repeat split; auto; lia.
  - intros (r & c & va & vb & Hr & Hc & Ha & Hb & Hd).
    assert (Hr' : In r (range (Nat.max (row_count sheet_a) (row_count sheet_b))))
      by (apply in_seq; lia).
    assert (Hc' : In c (range (Nat.max (col_count sheet_a) (col_count sheet_b))))
      by (apply in_seq; lia).
    destruct (mapM_Ok_In _ _ _ Hrows r Hr') as (y & Hy & _).
    exists r, y. repeat split; [assumption..|].
    apply fmap_Ok_inv in Hy. destruct Hy as (cs & Hcols & ->).
    rewrite (in_concat_mapM _ _ _ _ Hcols).
    destruct (mapM_Ok_In _ _ _ Hcols c Hc') as (y & Hy & _).
    exists c, y. repeat split; [assumption..|].
    apply (numeric_cell_Ok sheet_a sheet_b r c y d Hy).
    now exists va, vb.
Qed.





(** *** Whole workbooks *)

Lemma summarize_app (s : DiffSummary) (l1 l2 : list DiffResult) :
  summarize s (l1 ++ l2) = summarize (summarize s l1) l2.
Proof. apply fold_left_app. Qed.

Lemma mem_str_In (s : string) (l : list string) : mem_str s l = true <-> In s l.
Proof.
  unfold mem_str. rewrite existsb_exists. split.
  - intros (x & Hx & He). apply String.eqb_eq in He. now subst.
  - intro H. exists s. split; [assumption | apply String.eqb_refl].
Qed.

Lemma StronglySorted_NoDup {A : Type} (R : A -> A -> Prop) (l : list A) :
  (forall x, ~ R x x) -> StronglySorted R l -> NoDup l.
Proof.
  intros Hirr H. induction H as [|x l Hs IH Hall]; constructor; [|assumption].
  intro Hin. rewrite Forall_forall in Hall. apply (Hirr x), Hall, Hin.
Qed.

Lemma in_mark_rows (nm : string) (sh : SheetData) (t : DiffType) (is_new : bool)
  (lo hi : nat) (d : DiffResult) :
  In d (mark_rows nm sh t is_new lo hi) <->
  exists r c cell,
    lo <= r < hi /\ c < col_count sh
    /\ cell_at sh r c = Some cell /\ is_empty cell = false
    /\ d = DiffResult_ nm r c t (if is_new then PNone else value cell)
             (if is_new then value cell else PNone) None None.
Proof.
  unfold mark_rows. rewrite in_flat_map. split.
  - intros (r & Hr & Hd). apply in_flat_map in Hd. destruct Hd as (c & Hc & Hd).
    apply in_seq in Hr, Hc.
    destruct (cell_at sh r c) as [cell|] eqn:E; [|destruct Hd].
    destruct (is_empty cell) eqn:Ee; simpl in Hd; [destruct Hd|].
    destruct Hd as [<-|[]]. exists r, c, cell. repeat split; auto; lia.
  - intros (r & c & cell & Hr & Hc & Hcell & He & ->).
    exists r. split; [apply in_seq; lia|].
    apply in_flat_map. exists c. split; [apply in_seq; lia|].
    rewrite Hcell, He. now left.
Qed.

Lemma mark_rows_sorted (nm : string) (sh : SheetData) (t : DiffType) (is_new : bool)
  (lo hi : nat) :
  StronglySorted pos_lex (map diff_pos (mark_rows nm sh t is_new lo hi)).
Proof.
  apply (StronglySorted_map (fun d d' => pos_lex (diff_pos d) (diff_pos d')));
    [auto|].
  unfold mark_rows.
  assert (Hcell : forall r c d,
             In d (match cell_at sh r c with
                   | Some cell =>
                       if negb (is_empty cell)
                       then [DiffResult_ nm r c t (if is_new then PNone else value cell)
                               (if is_new then value cell else PNone) None None]
                       else []
                   | None => []
                   end) -> diff_pos d = (r, c)).
  { intros r c d Hd. destruct (cell_at sh r c) as [cell|]; [|destruct Hd].
    destruct (negb (is_empty cell)); [|destruct Hd]. now destruct Hd as [<-|[]]. }
  apply (StronglySorted_flat_map lt); [apply StronglySorted_seq| |].
  - intros r _. apply (StronglySorted_flat_map lt); [apply StronglySorted_seq| |].
    + intros c _. destruct (cell_at sh r c) as [cell|]; [|constructor].
      destruct (negb (is_empty cell)); repeat constructor.
    + intros c c' u v Hlt Hu Hv. apply Hcell in Hu, Hv.
      unfold pos_lex. rewrite Hu, Hv. simpl. lia.
  - intros r r' u v Hlt Hu Hv.
    apply in_flat_map in Hu, Hv. destruct Hu as (c & _ & Hu), Hv as (c' & _ & Hv).
    apply Hcell in Hu, Hv. unfold pos_lex. rewrite Hu, Hv. simpl. lia.
Qed.

Lemma mark_rows_NoDup (nm : string) (sh : SheetData) (t : DiffType) (is_new : bool)
  (lo hi : nat) :
  NoDup (map diff_pos (mark_rows nm sh t is_new lo hi)).
Proof.
  apply (StronglySorted_NoDup pos_lex); [|apply mark_rows_sorted].
  intros x H. unfold pos_lex in H. lia.
Qed.

Section CompareFold.

Variable set_iter : list string -> list string.
Variables workbook_a workbook_b : WorkbookData.
Variable mode : CompareMode.
Variable options : CompareOptions.

Local Abbreviation body := (compare_body workbook_a workbook_b mode options).

Lemma compare_fold_Ok (names : list string) (acc res : list DiffResult * DiffSummary) :
  foldM body names acc = Ok res ->
  exists per_sheet,
    Forall2 (fun n ds => compare_sheet workbook_a workbook_b mode options n = Ok ds)
      names per_sheet
    /\ fst res = fst acc ++ List.concat per_sheet
    /\ snd res = summarize (snd acc) (List.concat per_sheet).
Proof.
  revert acc. induction names as [|n names IH]; intros acc H; simpl in H.
  - inversion H. exists []. simpl. now rewrite app_nil_r.
  - unfold compare_body at 1 in H.
    destruct (compare_sheet workbook_a workbook_b mode options n) as [ds|e] eqn:E;
      simpl in H; [|discriminate].
    apply IH in H. destruct H as (per & Hall & Hd & Hs). simpl in Hd, Hs.
    exists (ds :: per). simpl. split; [now constructor|].
    split; [now rewrite Hd, app_assoc | now rewrite Hs, summarize_app].
Qed.

Lemma compare_fold_total (names : list string) (acc : list DiffResult * DiffSummary) :
  (forall n, In n names ->
     exists ds, compare_sheet workbook_a workbook_b mode options n = Ok ds) ->
  exists res, foldM body names acc = Ok res.
Proof.
  revert acc. induction names as [|n names IH]; intros acc H; simpl; [eauto|].
  unfold compare_body at 1. destruct (H n (or_introl eq_refl)) as (ds & ->). simpl.
  apply IH. intros; apply H; now right.
Qed.

End CompareFold.

(** [compare] with the empty list as [selected_sheets] compares every
    sheet of the two workbooks, as it does without a selection: the
    record of the sheet "Extra" is returned, though "Extra" is not in
    the given list. *)
Lemma C10_empty_selection_compares_all :
  sheets_to_compare first_seen wb_old wb_new (Some []) = ["Data"; "Extra"]
  /\ compare first_seen wb_old wb_new EXACT None (Some [])
     = Ok (mk_result "old.xlsx" "new.xlsx"
             [DiffResult_ "Extra" 0 0 ADDED PNone (PStr "p") None None]
             (mk_summary 1 0 1 0 0)).
Proof. split; vm_compute; reflexivity. Qed.

(** C10 (amended). [compare] goes through each name of the union of the
    sheet names of the two workbooks once; when [selected_sheets] is a
    list that is not empty, through those names of the union that are in
    the list (a selected name that no workbook has is ignored); with
    the empty list every name of the union is compared, as with no
    list.  A sheet that only workbook B has gives exactly one Added
    record per cell that is not empty, one that only A has gives one
    Deleted record per such cell, and the summary returned is the fold
    of [add_diff] over the records returned.  Outside the numeric mode
    the comparison succeeds whenever every compared name has a sheet. *)
Theorem C10_compare_workbooks :
  forall set_iter : list string -> list string,
  is_set_iter set_iter ->
  forall (workbook_a workbook_b : WorkbookData) (mode : CompareMode)
         (options : option CompareOptions) (selected_sheets : option (list string)),
  let names := sheets_to_compare set_iter workbook_a workbook_b selected_sheets in
  let opts := options_or_default options in
  NoDup names
  /\ (selected_sheets = None \/ selected_sheets = Some [] ->
      forall n, In n names <->
        In n (sheet_names workbook_a) \/ In n (sheet_names workbook_b))
  /\ (forall s sel, selected_sheets = Some (s :: sel) ->
      forall n, In n names <->
        (In n (sheet_names workbook_a) \/ In n (sheet_names workbook_b))
        /\ In n (s :: sel))
  /\ (forall r,
        compare set_iter workbook_a workbook_b mode options selected_sheets = Ok r ->
        exists per_sheet,
          Forall2 (fun n ds => compare_sheet workbook_a workbook_b mode opts n = Ok ds)
            names per_sheet
          /\ diffs r = List.concat per_sheet
          /\ summary r
             = fold_left (fun s d => add_diff s (diff_type d)) (diffs r) empty_summary)
  /\ (forall n sheet_b,
        get_sheet workbook_a n = None -> get_sheet workbook_b n = Some sheet_b ->
        compare_sheet workbook_a workbook_b mode opts n
        = Ok (_mark_all_cells sheet_b ADDED true))
  /\ (forall n sheet_a,
        get_sheet workbook_a n = Some sheet_a -> get_sheet workbook_b n = None ->
        compare_sheet workbook_a workbook_b mode opts n
        = Ok (_mark_all_cells sheet_a DELETED false))
  /\ (forall sh d, In d (_mark_all_cells sh ADDED true) <->
        exists r c cell,
          r < row_count sh /\ c < col_count sh
          /\ cell_at sh r c = Some cell /\ is_empty cell = false
          /\ d = DiffResult_ (name sh) r c ADDED PNone (value cell) None None)
  /\ (forall sh d, In d (_mark_all_cells sh DELETED false) <->
        exists r c cell,
          r < row_count sh /\ c < col_count sh
          /\ cell_at sh r c = Some cell /\ is_empty cell = false
          /\ d = DiffResult_ (name sh) r c DELETED (value cell) PNone None None)
  /\ (forall sh t is_new, NoDup (map diff_pos (_mark_all_cells sh t is_new)))
  /\ (mode <> NUMERIC ->
      (forall n, In n names ->
         get_sheet workbook_a n <> None \/ get_sheet workbook_b n <> None) ->
      exists r,
        compare set_iter workbook_a workbook_b mode options selected_sheets = Ok r).
Proof.
  intros set_iter Hiter wa wb mode options selected names opts.
  split; [|split; [|split; [|split; [|split; [|split; [|split; [|split; [|split]]]]]]]].
  - subst names. unfold sheets_to_compare.
    destruct selected as [[|s sel]|]; apply Hiter.
  - intros Hsel n. subst names. unfold sheets_to_compare.
    destruct Hsel as [-> | ->]; rewrite (proj2 (Hiter _)), in_app_iff; tauto.
  - intros s sel -> n. subst names. unfold sheets_to_compare.
    rewrite (proj2 (Hiter _)), filter_In, mem_str_In, in_app_iff. tauto.
  - intros r H. unfold compare in H. fold opts in H. fold names in H.
    destruct (foldM _ names ([], empty_summary)) as [res|e] eqn:E; simpl in H;
      [|discriminate].
    inversion H; subst r; clear H. simpl.
    apply compare_fold_Ok in E. destruct E as (per & Hall & Hd & Hs).
    simpl in Hd, Hs. exists per. split; [exact Hall|]. split; [exact Hd|].
    rewrite Hs, Hd. reflexivity.
  - intros n sheet_b Ha Hb. unfold compare_sheet. now rewrite Ha, Hb.
  - intros n sheet_a Ha Hb. unfold compare_sheet. now rewrite Ha, Hb.
  - intros sh d. unfold _mark_all_cells. rewrite in_mark_rows. split.
    + intros (r & c & cell & Hr & H). exists r, c, cell. split; [lia | exact H].
    + intros (r & c & cell & Hr & H). exists r, c, cell. split; [lia | exact H].
  - intros sh d. unfold _mark_all_cells. rewrite in_mark_rows. split.
    + intros (r & c & cell & Hr & H). exists r, c, cell. split; [lia | exact H].
    + intros (r & c & cell & Hr & H). exists r, c, cell. split; [lia | exact H].
  - intros sh t is_new. apply mark_rows_NoDup.
  - intros Hmode Hwf. unfold compare.
    destruct (compare_fold_total wa wb mode opts names ([], empty_summary)) as (res & Hres).
    + intros n Hn. specialize (Hwf n Hn). unfold compare_sheet.
      destruct (get_sheet wa n), (get_sheet wb n); try (destruct Hwf; congruence);
        [destruct mode; eauto; congruence | eauto | eauto].
    + subst opts names. unfold options_or_default in Hres. rewrite Hres. simpl. eauto.
Qed.

(** The statement of C10 at two workbooks, one with a sheet more: the
    names compared with the selection "Extra", "Gone", and the record of
    the cell of "Extra" that is not empty. *)
Lemma C10_witness :
  (forall n,
     In n (sheets_to_compare first_seen wb_old wb_new (Some ["Extra"; "Gone"])) <->
     (In n (sheet_names wb_old) \/ In n (sheet_names wb_new)) /\ In n ["Extra"; "Gone"])
  /\ exists per_sheet,
       Forall2 (fun n ds =>
                  compare_sheet wb_old wb_new EXACT (options_or_default None) n = Ok ds)
         (sheets_to_compare first_seen wb_old wb_new None) per_sheet
       /\ [DiffResult_ "Extra" 0 0 ADDED PNone (PStr "p") None None]
          = List.concat per_sheet
       /\ mk_summary 1 0 1 0 0
          = fold_left (fun s d => add_diff s (diff_type d))
              [DiffResult_ "Extra" 0 0 ADDED PNone (PStr "p") None None] empty_summary.
Proof.
  split.
  - destruct (C10_compare_workbooks first_seen first_seen_is_set_iter
                wb_old wb_new EXACT None (Some ["Extra"; "Gone"])) as (_ & _ & H & _).
    exact (H "Extra" ["Gone"] eq_refl).
  - destruct (C10_compare_workbooks first_seen first_seen_is_set_iter
                wb_old wb_new EXACT None None) as (_ & _ & _ & H & _).
    exact (H (mk_result "old.xlsx" "new.xlsx"
                [DiffResult_ "Extra" 0 0 ADDED PNone (PStr "p") None None]
                (mk_summary 1 0 1 0 0)) eq_refl).
Defined.

(** *** Selections of unequal width *)




(** *** Header rows that give no correspondence *)

Lemma foldM_total {A B : Type} (body : B -> A -> result B) (l : list A) (acc : B) :
  (forall b x, In x l -> exists b', body b x = Ok b') ->
  exists res, foldM body l acc = Ok res.
Proof.
  revert acc. induction l as [|x l IH]; intros acc H; simpl; [eauto|].
  destruct (H acc x (or_introl eq_refl)) as (b' & ->). simpl.
  apply IH. intros; apply H; now right.
Qed.

Lemma index_or_none_total (l : list pyval) (k : Z) :
  (0 <= k)%Z -> exists v, index_or_none l k = Ok v.
Proof.
  intro Hk. unfold index_or_none, py_index.
  destruct (Z.ltb_spec k (Z.of_nat (List.length l))) as [Hlt|Hge]; [|eauto].
  destruct (Z.ltb_spec k 0) as [Hneg|_]; [lia|].
  destruct (Z.ltb_spec k 0) as [Hneg|_]; [lia|].
  destruct (nth_error l (Z.to_nat k)) as [v|] eqn:E; [eauto|].
  apply nth_error_None in E. lia.
Qed.

Section HeaderFallback.

Variable float_repr : spec_float -> string.
Variable set_iter : list string -> list string.

Lemma make_key_total (options : CompareService.CompareOptions) (row_data : list pyval)
  (col1 col2 : option Z) :
  key_cols_ok col1 col2 ->
  exists key, make_key float_repr options row_data col1 col2 = Ok key.
Proof.
  intros [H1 H2]. unfold make_key. destruct col1 as [k1|]; [|destruct H1].
  destruct (index_or_none_total row_data k1 H1) as (v1 & ->). simpl.
  destruct (is_none v1 || _); [eauto|].
  destruct col2 as [k2|]; simpl; [|eauto].
  destruct (index_or_none_total row_data k2 H2) as (v2 & ->). simpl.
  destruct (non_blank float_repr v2); simpl; eauto.
Qed.

Lemma build_rows_total (options : CompareService.CompareOptions) (col1 col2 : option Z)
  (data : list keyed_row) :
  key_cols_ok col1 col2 ->
  exists rows_map, build_rows float_repr options col1 col2 data = Ok rows_map.
Proof.
  intro Hok. unfold build_rows. apply foldM_total.
  intros b [row_idx row_data] _.
  destruct (make_key_total options row_data col1 col2 Hok) as (key & ->). simpl.
  destruct key as [k|]; [destruct (negb _)|]; eauto.
Qed.

Lemma header_map_blank (cells : list (nat * pyval)) :
  (forall c v, In (c, v) cells -> non_blank float_repr v = false) ->
  header_map float_repr cells = [].
Proof.
  unfold header_map. generalize (@nil (string * nat)) as acc.
  induction cells as [|[c v] cells IH]; intros acc H; simpl; [reflexivity|].
  rewrite (H c v (or_introl eq_refl)). apply IH. intros; eapply H; right; eauto.
Qed.

Lemma get_cell_outside (sheet : SheetData) (h col : Z) :
  (h < 0 \/ Z.of_nat (List.length (rows sheet)) <= h)%Z ->
  get_cell sheet h col = None.
Proof.
  intro H. unfold get_cell.
  destruct (Z.leb_spec 0 h); destruct (Z.ltb_spec h (Z.of_nat (List.length (rows sheet))));
    simpl; try reflexivity; lia.
Qed.

Lemma sheet_header_outside (sheet : SheetData) (h : Z) :
  (h < 0 \/ Z.of_nat (List.length (rows sheet)) <= h)%Z ->
  header_map float_repr (sheet_header_cells sheet h) = [].
Proof.
  intro H. apply header_map_blank. intros c v Hin.
  unfold sheet_header_cells in Hin. apply in_map_iff in Hin.
  destruct Hin as (col & Heq & _). inversion Heq; subst.
  now rewrite get_cell_outside.
Qed.

Lemma external_header_outside (sheet : SheetData) (span_rng rng : Rect) (ext : Z) :
  (ext < 0 \/ Z.of_nat (List.length (rows sheet)) <= ext)%Z ->
  header_map float_repr (external_header_cells sheet span_rng rng ext) = [].
Proof.
  intro H. apply header_map_blank. intros c v Hin.
  unfold external_header_cells in Hin. apply in_map_iff in Hin.
  destruct Hin as (col & Heq & _). inversion Heq; subst.
  now rewrite get_cell_outside.
Qed.

Lemma column_map_nil_r (headers_a : dict string nat) : column_map headers_a [] = [].
Proof.
  unfold column_map. generalize (@nil (nat * nat)) as acc.
  induction headers_a as [|[h c] l IH]; intro acc; simpl; [reflexivity | apply IH].
Qed.

Lemma smart_match_sheet_total (key_col1_a key_col2_a key_col1_b key_col2_b : option Z)
  (header_row : option Z) (options : CompareService.CompareOptions) (sheet_name : string)
  (sheet_a sheet_b : SheetData) :
  key_col1_a = None
  \/ (key_cols_ok key_col1_a key_col2_a /\ key_cols_ok key_col1_b key_col2_b) ->
  exists ds,
    smart_match_sheet float_repr set_iter key_col1_a key_col2_a key_col1_b key_col2_b
      header_row options sheet_name sheet_a sheet_b = Ok ds.
Proof.
  intros [->|[Ha Hb]]; unfold smart_match_sheet; [eauto|].
  destruct key_col1_a as [k|]; [|destruct Ha as [[] _]].
  destruct (build_rows_total options (Some k) key_col2_a (data_rows sheet_a header_row) Ha)
    as (rows_a & ->).
  destruct (build_rows_total options key_col1_b key_col2_b (data_rows sheet_b header_row) Hb)
    as (rows_b & ->).
  simpl. eauto.
Qed.

Lemma compare_selection_smart_total (sheet_name : string) (sheet_a sheet_b : SheetData)
  (range_a range_b : Rect) (key_col1 key_col2 : option Z) (header_row : option nat)
  (options : CompareService.CompareOptions) (external_header_row : option Z) :
  key_col1 = None \/ key_cols_ok key_col1 key_col2 ->
  exists ds,
    _compare_selection_smart float_repr set_iter sheet_name sheet_a sheet_b range_a range_b
      key_col1 key_col2 header_row options external_header_row = Ok ds.
Proof.
  intros H. unfold _compare_selection_smart.
  destruct (selection_columns _ _ _ _ _ _ _ _ _) as [col_map start].
  destruct H as [->|H]; [eauto|].
  destruct key_col1 as [k|]; [|destruct H as [[] _]].
  destruct (build_rows_total options (Some k) key_col2
              (skipn start (extract_range_data sheet_a range_a)) H) as (rows_a & ->).
  destruct (build_rows_total options (Some k) key_col2
              (skipn start (extract_range_data sheet_b range_b)) H) as (rows_b & ->).
  simpl. eauto.
Qed.

Lemma selection_external_header (wa wb : WorkbookData) (sh : string) (ra rb : Rect)
  (ka kb : option Z * option Z) (h : Z) (options : CompareService.CompareOptions)
  (r : CompareResult) :
  (h < Z.of_nat (min_row ra) \/ Z.of_nat (max_row ra) < h)%Z ->
  _compare_selection float_repr set_iter (Some wa) (Some wb) sh (Some ra) (Some rb)
    ka kb (Some h) options = Compared r ->
  exists sheet_a sheet_b,
    get_sheet wa sh = Some sheet_a /\ get_sheet wb sh = Some sheet_b
    /\ _compare_selection_smart float_repr set_iter sh sheet_a sheet_b ra rb
         (option_map (fun k => (k - Z.of_nat (min_col ra))%Z) (fst ka))
         (option_map (fun k => (k - Z.of_nat (min_col ra))%Z) (snd ka))
         None options (Some h)
       = Ok (diffs r).
Proof.
  intros Hout. unfold _compare_selection.
  destruct (negb _); [discriminate|].
  assert (Hext : (h <? Z.of_nat (min_row ra))%Z || (Z.of_nat (max_row ra) <? h)%Z = true).
  { apply orb_true_iff. destruct Hout; [left|right]; now apply Z.ltb_lt. }
  rewrite Hext.
  destruct (match option_map _ (fst ka) with Some _ => _ | None => false end);
    [discriminate|].
  destruct (match option_map _ (fst ka) with Some _ => false | None => _ end);
    [discriminate|].
  destruct (get_sheet wa sh) as [sa|]; [|discriminate].
  destruct (get_sheet wb sh) as [sb|]; [|discriminate].
  assert (Hsmart : match option_map (fun k => (k - Z.of_nat (min_col ra))%Z) (fst ka),
                         @None nat with
                   | None, None => true
                   | _, _ => true
                   end = true) by (destruct (option_map _ (fst ka)); reflexivity).
  rewrite Hsmart.
  destruct (_compare_selection_smart _ _ _ _ _ _ _ _ _ _ _ _) as [ds|e] eqn:E; [|discriminate].
  intro H. inversion H; subst r; simpl. exists sa, sb. repeat split. exact E.
Qed.

Lemma selection_inner_header (wa wb : WorkbookData) (sh : string) (ra rb : Rect)
  (ka kb : option Z * option Z) (h : Z) (options : CompareService.CompareOptions)
  (r : CompareResult) :
  (Z.of_nat (min_row ra) <= h <= Z.of_nat (max_row ra))%Z ->
  _compare_selection float_repr set_iter (Some wa) (Some wb) sh (Some ra) (Some rb)
    ka kb (Some h) options = Compared r ->
  exists sheet_a sheet_b,
    get_sheet wa sh = Some sheet_a /\ get_sheet wb sh = Some sheet_b
    /\ _compare_selection_smart float_repr set_iter sh sheet_a sheet_b ra rb
         (option_map (fun k => (k - Z.of_nat (min_col ra))%Z) (fst ka))
         (option_map (fun k => (k - Z.of_nat (min_col ra))%Z) (snd ka))
         (Some (Z.to_nat (h - Z.of_nat (min_row ra)))) options None
       = Ok (diffs r).
Proof.
  intros Hin. unfold _compare_selection.
  destruct (negb _); [discriminate|].
  assert (Hext : (h <? Z.of_nat (min_row ra))%Z || (Z.of_nat (max_row ra) <? h)%Z = false).
  { apply orb_false_iff. split; apply Z.ltb_ge; lia. }
  rewrite Hext.
  destruct (match option_map _ (fst ka) with Some _ => _ | None => false end);
    [discriminate|].
  destruct (match option_map _ (fst ka) with Some _ => false | None => _ end);
    [discriminate|].
  destruct (get_sheet wa sh) as [sa|]; [|discriminate].
  destruct (get_sheet wb sh) as [sb|]; [|discriminate].
  assert (Hsmart : match option_map (fun k => (k - Z.of_nat (min_col ra))%Z) (fst ka),
                         Some (Z.to_nat (h - Z.of_nat (min_row ra))) with
                   | None, None => false
                   | _, _ => true
                   end = true) by (destruct (option_map _ (fst ka)); reflexivity).
  rewrite Hsmart.
  destruct (_compare_selection_smart _ _ _ _ _ _ _ _ _ _ _ _) as [ds|e] eqn:E; [|discriminate].
  intro H. inversion H; subst r; simpl. exists sa, sb. repeat split. exact E.
Qed.
End HeaderFallback.

(** SmartCompareService._compare_by_header raises [ValueError] for a
    header row index beyond the data. *)
Lemma C7_header_beyond_raises :
  SmartCompareService._compare_by_header no_float_repr first_seen "S"
    [[PStr "h"]] [[PStr "h"]] header_beyond 0 0
  = Raise ValueError.
Proof. reflexivity. Qed.

(** C7 (amended). In the handlers of the window a header row gives an
    empty header map, and so an empty column correspondence, when it is
    outside one of the two sheets, when it is inside the selection of A
    but beyond the rows of the selection of B, or when its cells are all
    [None] or blank.  A header row outside the selection of A is read
    from the full sheets and pairs the columns by name all the same.
    With an empty correspondence the matched rows are compared column by
    column at equal positions; and with key columns that are configured
    and not negative (or with none at all) the comparison raises
    nothing, whatever the header row.
    SmartCompareService._compare_by_header raises [ValueError] exactly
    when the header row index is beyond one of the two blocks. *)
Theorem C7_header_fallback :
  forall (float_repr : spec_float -> string) (set_iter : list string -> list string),
  (forall cells,
     (forall c v, In (c, v) cells -> v = PNone \/ strip (py_str float_repr v) = "") ->
     header_map float_repr cells = [])
  /\ (forall sheet h,
        (h < 0 \/ Z.of_nat (List.length (rows sheet)) <= h)%Z ->
        header_map float_repr (sheet_header_cells sheet h) = [])
  /\ (forall sheet span_rng rng ext,
        (ext < 0 \/ Z.of_nat (List.length (rows sheet)) <= ext)%Z ->
        header_map float_repr (external_header_cells sheet span_rng rng ext) = [])
  /\ (forall headers_b, column_map [] headers_b = [])
  /\ (forall headers_a, column_map headers_a [] = [])
  /\ (forall sheet_a sheet_b h,
        (h < 0 \/ Z.of_nat (List.length (rows sheet_a)) <= h
         \/ Z.of_nat (List.length (rows sheet_b)) <= h)%Z ->
        sheet_columns float_repr sheet_a sheet_b (Some h) = [])
  /\ (forall sheet_a sheet_b range_a range_b data_a data_b header_row ext,
        (ext < 0 \/ Z.of_nat (List.length (rows sheet_a)) <= ext
         \/ Z.of_nat (List.length (rows sheet_b)) <= ext)%Z ->
        selection_columns float_repr sheet_a sheet_b range_a range_b data_a data_b
          header_row (Some ext) = ([], 0))
  /\ (forall sheet_a sheet_b range_a range_b data_a data_b h,
        List.length data_a <= h \/ List.length data_b <= h ->
        selection_columns float_repr sheet_a sheet_b range_a range_b data_a data_b
          (Some h) None = ([], 0))
  /\ (forall sheet_a sheet_b range_a range_b data_a data_b header_row ext,
        selection_columns float_repr sheet_a sheet_b range_a range_b data_a data_b
          header_row (Some ext)
        = (column_map
             (header_map float_repr (external_header_cells sheet_a range_a range_a ext))
             (header_map float_repr (external_header_cells sheet_b range_a range_b ext)),
           0))
  /\ (forall workbook_a workbook_b sh range_a range_b key_a key_b h options r,
        (h < Z.of_nat (min_row range_a) \/ Z.of_nat (max_row range_a) < h)%Z ->
        _compare_selection float_repr set_iter (Some workbook_a) (Some workbook_b) sh
          (Some range_a) (Some range_b) key_a key_b (Some h) options = Compared r ->
        exists sheet_a sheet_b,
          get_sheet workbook_a sh = Some sheet_a /\ get_sheet workbook_b sh = Some sheet_b
          /\ _compare_selection_smart float_repr set_iter sh sheet_a sheet_b
               range_a range_b
               (option_map (fun k => (k - Z.of_nat (min_col range_a))%Z) (fst key_a))
               (option_map (fun k => (k - Z.of_nat (min_col range_a))%Z) (snd key_a))
               None options (Some h)
             = Ok (diffs r))
  /\ (forall workbook_a workbook_b sh range_a range_b key_a key_b h options r,
        (Z.of_nat (min_row range_a) <= h <= Z.of_nat (max_row range_a))%Z ->
        _compare_selection float_repr set_iter (Some workbook_a) (Some workbook_b) sh
          (Some range_a) (Some range_b) key_a key_b (Some h) options = Compared r ->
        exists sheet_a sheet_b,
          get_sheet workbook_a sh = Some sheet_a /\ get_sheet workbook_b sh = Some sheet_b
          /\ _compare_selection_smart float_repr set_iter sh sheet_a sheet_b
               range_a range_b
               (option_map (fun k => (k - Z.of_nat (min_col range_a))%Z) (fst key_a))
               (option_map (fun k => (k - Z.of_nat (min_col range_a))%Z) (snd key_a))
               (Some (Z.to_nat (h - Z.of_nat (min_row range_a)))) options None
             = Ok (diffs r))
  /\ _compare_selection float_repr set_iter
       (Some (workbook_of "a.xlsx" [named_sheet_a]))
       (Some (workbook_of "b.xlsx" [named_sheet_b]))
       "S" (Some second_row) (Some second_row) (None, None) (None, None) (Some 0%Z)
       CompareService.default_options
     = Compared
         (mk_result "a.xlsx" "b.xlsx"
            [DiffResult_ "S" 1 1 MODIFIED (PStr "1") (PStr "2") (Some 1) (Some 0)]
            (mk_summary 1 1 0 0 0))
  /\ (forall k1a k2a k1b k2b options sh row_idx_a row_data_a row_idx_b row_data_b,
        matched_diffs k1a k2a k1b k2b options sh []
          ((row_idx_a, row_data_a), (row_idx_b, row_data_b))
        = flat_map (fun col_idx =>
            if is_key_col col_idx k1a || is_key_col col_idx k2a
               || is_key_col col_idx k1b || is_key_col col_idx k2b
            then []
            else pair_diff options sh row_idx_a col_idx row_idx_b col_idx
                   (get_or row_data_a col_idx PNone) (get_or row_data_b col_idx PNone))
            (range (Nat.max (List.length row_data_a) (List.length row_data_b))))
  /\ (forall k1 k2 options sh range_a range_b row_idx_a row_data_a row_idx_b row_data_b,
        sel_matched_diffs k1 k2 options sh range_a range_b []
          ((row_idx_a, row_data_a), (row_idx_b, row_data_b))
        = flat_map (fun col_offset =>
            if is_key_col col_offset k1 || is_key_col col_offset k2 then []
            else pair_diff options sh
                   row_idx_a (min_col range_a + col_offset)
                   row_idx_b (min_col range_b + col_offset)
                   (get_or row_data_a col_offset PNone)
                   (get_or row_data_b col_offset PNone))
            (range (Nat.max (List.length row_data_a) (List.length row_data_b))))
  /\ (forall k1a k2a k1b k2b header_row options sh sheet_a sheet_b,
        k1a = None \/ (key_cols_ok k1a k2a /\ key_cols_ok k1b k2b) ->
        exists ds,
          smart_match_sheet float_repr set_iter k1a k2a k1b k2b header_row options sh
            sheet_a sheet_b = Ok ds)
  /\ (forall sh sheet_a sheet_b range_a range_b k1 k2 header_row options ext,
        k1 = None \/ key_cols_ok k1 k2 ->
        exists ds,
          _compare_selection_smart float_repr set_iter sh sheet_a sheet_b range_a range_b
            k1 k2 header_row options ext = Ok ds)
  /\ (forall sh data_a data_b options row_offset col_offset,
        (List.length data_a <= SmartCompareService.header_row_index options
         \/ List.length data_b <= SmartCompareService.header_row_index options) <->
        SmartCompareService._compare_by_header float_repr set_iter sh data_a data_b
          options row_offset col_offset = Raise ValueError).
Proof.
  intros float_repr set_iter.
  split.
  { intros cells H. apply header_map_blank. intros c v Hin. unfold non_blank, str_strip.
    destruct (H c v Hin) as [-> | ->]; [reflexivity|].
    now rewrite andb_false_r. }
  split; [apply sheet_header_outside|].
  split; [apply external_header_outside|].
  split; [reflexivity|].
  split; [apply column_map_nil_r|].
  split.
  { intros sheet_a sheet_b h H. unfold sheet_columns.
    destruct H as [H|[H|H]].
    - rewrite (sheet_header_outside float_repr sheet_a h) by auto. reflexivity.
    - rewrite (sheet_header_outside float_repr sheet_a h) by auto. reflexivity.
    - rewrite (sheet_header_outside float_repr sheet_b h) by auto.
      apply column_map_nil_r. }
  split.
  { intros sheet_a sheet_b range_a range_b data_a data_b header_row ext H.
    unfold selection_columns. f_equal.
    destruct H as [H|[H|H]].
    - rewrite (external_header_outside float_repr sheet_a) by auto. reflexivity.
    - rewrite (external_header_outside float_repr sheet_a) by auto. reflexivity.
    - rewrite (external_header_outside float_repr sheet_b) by auto.
      apply column_map_nil_r. }
  split.
  { intros sheet_a sheet_b range_a range_b data_a data_b h H.
    unfold selection_columns.
    destruct (Nat.ltb_spec h (List.length data_a));
      destruct (Nat.ltb_spec h (List.length data_b)); simpl; try reflexivity; lia. }
  split; [reflexivity|].
  split; [apply selection_external_header|].
  split; [apply selection_inner_header|].
  split; [vm_compute; reflexivity|].
  split; [reflexivity|].
  split; [reflexivity|].
  split; [apply smart_match_sheet_total|].
  split.
  { intros. now apply compare_selection_smart_total. }
  intros sh data_a data_b options ro co.
  unfold SmartCompareService._compare_by_header.
  destruct (Nat.leb_spec (List.length data_a) (SmartCompareService.header_row_index options))
    as [Ha|Ha];
    destruct (Nat.leb_spec (List.length data_b) (SmartCompareService.header_row_index options))
      as [Hb|Hb];
    simpl; split; intro Hx; try reflexivity; try discriminate; try lia; auto.
Qed.

(** The statement of C7 at a header row below the sample sheets, and at
    the header row above the selection of the two named sheets. *)
Lemma C7_witness :
  header_map no_float_repr (sheet_header_cells greedy_sheet_a header_far) = []
  /\ (exists ds,
        smart_match_sheet no_float_repr first_seen (Some 0%Z) (Some 1%Z) (Some 0%Z)
          (Some 1%Z) (Some header_far) CompareService.default_options "S"
          greedy_sheet_a greedy_sheet_b
        = Ok ds)
  /\ exists sheet_a sheet_b,
       get_sheet (workbook_of "a.xlsx" [named_sheet_a]) "S" = Some sheet_a
       /\ get_sheet (workbook_of "b.xlsx" [named_sheet_b]) "S" = Some sheet_b
       /\ _compare_selection_smart no_float_repr first_seen "S" sheet_a sheet_b
            second_row second_row None None None CompareService.default_options
            (Some 0%Z)
          = Ok [DiffResult_ "S" 1 1 MODIFIED (PStr "1") (PStr "2") (Some 1) (Some 0)].
Proof.
  destruct (C7_header_fallback no_float_repr first_seen)
    as (_ & Hout & _ & _ & _ & _ & _ & _ & _ & Hext & _ & _ & _ & _ & Htotal & _).
  split; [|split].
  - apply Hout. right. vm_compute. discriminate.
  - apply Htotal. right. unfold key_cols_ok. repeat split; lia.
  - apply (Hext (workbook_of "a.xlsx" [named_sheet_a]) (workbook_of "b.xlsx" [named_sheet_b])
             "S" second_row second_row (None, None) (None, None) 0%Z
             CompareService.default_options
             (mk_result "a.xlsx" "b.xlsx"
                [DiffResult_ "S" 1 1 MODIFIED (PStr "1") (PStr "2") (Some 1) (Some 0)]
                (mk_summary 1 1 0 0 0))).
    + left. vm_compute. reflexivity.
    + vm_compute. reflexivity.
Defined.

(** *** Dictionaries with string keys *)

Lemma dict_get_set_str {V : Type} (d : dict string V) (k' k : string) (v : V) :
  dict_get String.eqb (dict_set String.eqb d k' v) k
  = if String.eqb k' k then Some v else dict_get String.eqb d k.
Proof.
  induction d as [|[k0 v0] d IH]; simpl; [reflexivity|].
  destruct (String.eqb_spec k0 k') as [->|Hne]; simpl.
  - destruct (String.eqb k' k); reflexivity.
  - rewrite IH. destruct (String.eqb_spec k0 k) as [->|Hne'].
    + destruct (String.eqb_spec k' k); [congruence | reflexivity].
    + reflexivity.
Qed.

Lemma in_dict_set_str {V : Type} (d : dict string V) (k' k : string) (v' v : V) :
  In (k, v) (dict_set String.eqb d k' v') -> (k = k' /\ v = v') \/ In (k, v) d.
Proof.
  induction d as [|[k0 v0] d IH]; simpl.
  - intros [H|[]]. inversion H. now left.
  - destruct (String.eqb_spec k0 k') as [->|Hne]; simpl.
    + intros [H|H]; [inversion H; now left | right; now right].
    + intros [H|H]; [right; now left|].
      destruct (IH H); [now left | right; now right].
Qed.

Lemma dict_get_In_str {V : Type} (d : dict string V) (k : string) (v : V) :
  dict_get String.eqb d k = Some v -> In (k, v) d.
Proof.
  induction d as [|[k0 v0] d IH]; simpl; [discriminate|].
  destruct (String.eqb_spec k0 k) as [->|Hne].
  - intro H. inversion H. now left.
  - intro H. right. now apply IH.
Qed.

Lemma dict_get_set_nat {V : Type} (d : dict nat V) (k' k : nat) (v : V) :
  dict_get Nat.eqb (dict_set Nat.eqb d k' v) k
  = if Nat.eqb k' k then Some v else dict_get Nat.eqb d k.
Proof.
  induction d as [|[k0 v0] d IH]; simpl; [reflexivity|].
  destruct (Nat.eqb_spec k0 k') as [->|Hne]; simpl.
  - destruct (Nat.eqb k' k); reflexivity.
  - rewrite IH. destruct (Nat.eqb_spec k0 k) as [->|Hne'].
    + destruct (Nat.eqb_spec k' k); [congruence | reflexivity].
    + reflexivity.
Qed.

(** *** Maps from names to columns *)

Section KeyedMap.

Variable keyfn : pyval -> string.
Variable ok : pyval -> bool.

Lemma keyed_fold_get (cells : list (nat * pyval)) (d : dict string nat) (k : string) :
  dict_get String.eqb
    (fold_left (fun headers '(col_idx, val) =>
       if ok val then dict_set String.eqb headers (keyfn val) col_idx else headers)
       cells d) k
  = fold_left (fun acc '(col_idx, val) =>
      if ok val && String.eqb (keyfn val) k then Some col_idx else acc)
      cells (dict_get String.eqb d k).
Proof.
  revert d. induction cells as [|[c v] cells IH]; intro d; simpl; [reflexivity|].
  rewrite IH. f_equal.
  destruct (ok v); simpl; [|reflexivity].
  apply dict_get_set_str.
Qed.

(** A header map sends a key to the column of the last cell with it. *)
Lemma keyed_map_get (cells : list (nat * pyval)) (k : string) :
  dict_get String.eqb (keyed_map keyfn ok cells) k = last_col keyfn ok cells k.
Proof. unfold keyed_map, last_col. now rewrite keyed_fold_get. Qed.

Lemma last_col_none (cells : list (nat * pyval)) (k : string) (acc : option nat) :
  (forall c v, In (c, v) cells -> ok v = true -> keyfn v <> k) ->
  fold_left (fun acc '(col_idx, val) =>
      if ok val && String.eqb (keyfn val) k then Some col_idx else acc) cells acc
  = acc.
Proof.
  revert acc. induction cells as [|[c v] cells IH]; intros acc H; simpl; [reflexivity|].
  rewrite IH by (intros; eapply H; [right|]; eauto).
  destruct (ok v) eqn:E; simpl; [|reflexivity].
  destruct (String.eqb_spec (keyfn v) k) as [Hk|]; [|reflexivity].
  exfalso. eapply H; [now left | eassumption | eassumption].
Qed.

Lemma sorted_split_gt (l1 l2 : list (nat * pyval)) (c : nat) (v : pyval) :
  StronglySorted lt (map fst (l1 ++ (c, v) :: l2)) ->
  forall c' v', In (c', v') l2 -> c < c'.
Proof.
  rewrite map_app. simpl. induction l1 as [|x l1 IH]; simpl; intros H c' v' Hin.
  - inversion H; subst. rewrite Forall_forall in H3. apply H3.
    apply in_map_iff. now exists (c', v').
  - inversion H; subst. eauto.
Qed.

(** In cells in column order, the last cell with a key is the one in the
    largest column. *)
Lemma last_col_max (cells : list (nat * pyval)) (c : nat) (v : pyval) :
  StronglySorted lt (map fst cells) ->
  In (c, v) cells -> ok v = true ->
  (forall c' v', In (c', v') cells -> ok v' = true -> keyfn v' = keyfn v -> c' <= c) ->
  last_col keyfn ok cells (keyfn v) = Some c.
Proof.
  intros Hs Hin Hok Hmax. apply in_split in Hin. destruct Hin as (l1 & l2 & ->).
  unfold last_col. rewrite fold_left_app. simpl.
  rewrite Hok, String.eqb_refl. simpl.
  apply last_col_none. intros c' v' Hin' Hok' Heq.
  assert (c < c') by (eapply sorted_split_gt; eauto).
  assert (c' <= c); [|lia].
  apply (Hmax c' v'); auto. apply in_or_app. right. now right.
Qed.

Lemma in_keyed_fold (cells : list (nat * pyval)) (d : dict string nat)
  (k : string) (c : nat) :
  In (k, c)
    (fold_left (fun headers '(col_idx, val) =>
       if ok val then dict_set String.eqb headers (keyfn val) col_idx else headers)
       cells d) ->
  In (k, c) d \/ exists v, In (c, v) cells /\ ok v = true /\ keyfn v = k.
Proof.
  revert d. induction cells as [|[c0 v0] cells IH]; intros d H; simpl in H; [now left|].
  apply IH in H. destruct H as [H|(v & Hin & Hok & Hk)].
  - destruct (ok v0) eqn:E; [|now left].
    apply in_dict_set_str in H. destruct H as [[-> ->]|H]; [|now left].
    right. exists v0. split; [now left | now split].
  - right. exists v. split; [now right | now split].
Qed.

(** Every entry of a header map comes from a cell. *)
Lemma in_keyed_map (cells : list (nat * pyval)) (k : string) (c : nat) :
  In (k, c) (keyed_map keyfn ok cells) ->
  exists v, In (c, v) cells /\ ok v = true /\ keyfn v = k.
Proof. intro H. apply in_keyed_fold in H. now destruct H as [[]|H]. Qed.

End KeyedMap.

(** *** The column correspondence *)

Lemma column_fold_get (headers_a headers_b : dict string nat) (acc : dict nat nat)
  (ca cb : nat) :
  (forall k c, In (k, c) headers_a -> c = ca ->
               dict_get String.eqb headers_b k = Some cb) ->
  (dict_get Nat.eqb acc ca = Some cb \/ exists k, In (k, ca) headers_a) ->
  dict_get Nat.eqb
    (fold_left (fun col_map '(header, col_a) =>
       match dict_get String.eqb headers_b header with
       | Some col_b => dict_set Nat.eqb col_map col_a col_b
       | None => col_map
       end) headers_a acc) ca
  = Some cb.
Proof.
  revert acc. induction headers_a as [|[k c] l IH]; intros acc Hall Hex; simpl.
  - destruct Hex as [H|(k & [])]. exact H.
  - apply IH; [intros k0 c0 Hin Hc; apply (Hall k0 c0); [now right | exact Hc]|].
    destruct (Nat.eq_dec c ca) as [->|Hne].
    + left. rewrite (Hall k ca (or_introl eq_refl) eq_refl).
      rewrite dict_get_set_nat, Nat.eqb_refl. reflexivity.
    + destruct Hex as [H|(k' & [H|H])].
      * left. destruct (dict_get String.eqb headers_b k); [|exact H].
        rewrite dict_get_set_nat. destruct (Nat.eqb_spec c ca); [contradiction | exact H].
      * inversion H. contradiction.
      * right. now exists k'.
Qed.

Lemma NoDup_fst_unique {A B : Type} (l : list (A * B)) (a : A) (b b' : B) :
  NoDup (map fst l) -> In (a, b) l -> In (a, b') l -> b = b'.
Proof.
  induction l as [|[x y] l IH]; simpl; intros Hnd H1 H2; [destruct H1|].
  inversion Hnd; subst.
  destruct H1 as [H1|H1], H2 as [H2|H2].
  - congruence.
  - inversion H1; subst. exfalso. apply H3. apply in_map_iff. now exists (a, b').
  - inversion H2; subst. exfalso. apply H3. apply in_map_iff. now exists (a, b).
  - eauto.
Qed.

Lemma sorted_lt_NoDup (l : list nat) : StronglySorted lt l -> NoDup l.
Proof. apply StronglySorted_NoDup. intros x H. lia. Qed.

(** *** Case and white space *)

Lemma is_space_lower_char (c : ascii) : is_space (lower_char c) = is_space c.
Proof.
  destruct c as [b0 b1 b2 b3 b4 b5 b6 b7].
  destruct b0, b1, b2, b3, b4, b5, b6, b7; reflexivity.
Qed.

Lemma lower_lstrip (s : string) : lower (lstrip s) = lstrip (lower s).
Proof.
  induction s as [|c s IH]; simpl; [reflexivity|].
  rewrite is_space_lower_char. destruct (is_space c); [exact IH | reflexivity].
Qed.

Lemma lower_rev_append (s acc : string) :
  lower (rev_append_string s acc) = rev_append_string (lower s) (lower acc).
Proof.
  revert acc. induction s as [|c s IH]; intro acc; simpl; [reflexivity|].
  now rewrite IH.
Qed.

Lemma lower_rev_string (s : string) : lower (rev_string s) = rev_string (lower s).
Proof. apply lower_rev_append. Qed.

(** Lower-casing and trimming commute. *)
Lemma lower_strip (s : string) : lower (strip s) = strip (lower s).
Proof.
  unfold strip, rstrip.
  now rewrite lower_rev_string, lower_lstrip, lower_rev_string, lower_lstrip.
Qed.

(** *** Header maps of the handlers and of the service *)

Lemma map_fst_enumerate {A : Type} (l : list A) :
  map fst (enumerate l) = seq 0 (List.length l).
Proof.
  destruct l as [|d l']; [reflexivity|].
  rewrite (enumerate_nth d), map_map. simpl. f_equal. apply map_id.
Qed.

Lemma header_map_keyed (float_repr : spec_float -> string) (cells : list (nat * pyval)) :
  header_map float_repr cells
  = keyed_map (header_key float_repr) (non_blank float_repr) cells.
Proof. reflexivity. Qed.

Lemma build_header_map_keyed (float_repr : spec_float -> string)
  (options : SmartCompareService.SmartCompareOptions) (headers : list pyval) :
  SmartCompareService.build_header_map float_repr options headers
  = keyed_map (smart_key float_repr options) not_empty (enumerate headers).
Proof. reflexivity. Qed.

(** Two header cells with the same key, each the last of its grid with
    that key, are sent to each other. *)
Lemma column_map_same_key (float_repr : spec_float -> string)
  (cells_a cells_b : list (nat * pyval)) (ca cb : nat) (va vb : pyval) :
  StronglySorted lt (map fst cells_a) -> StronglySorted lt (map fst cells_b) ->
  In (ca, va) cells_a -> In (cb, vb) cells_b ->
  non_blank float_repr va = true -> non_blank float_repr vb = true ->
  header_key float_repr va = header_key float_repr vb ->
  (forall c v, In (c, v) cells_a -> non_blank float_repr v = true ->
               header_key float_repr v = header_key float_repr va -> c <= ca) ->
  (forall c v, In (c, v) cells_b -> non_blank float_repr v = true ->
               header_key float_repr v = header_key float_repr vb -> c <= cb) ->
  dict_get Nat.eqb
    (column_map (header_map float_repr cells_a) (header_map float_repr cells_b)) ca
  = Some cb.
Proof.
  intros Hsa Hsb Hina Hinb Hoka Hokb Hkey Hmaxa Hmaxb.
  rewrite !header_map_keyed.
  assert (Ha : dict_get String.eqb
                 (keyed_map (header_key float_repr) (non_blank float_repr) cells_a)
                 (header_key float_repr va) = Some ca)
    by (rewrite keyed_map_get; now apply last_col_max).
  assert (Hb : dict_get String.eqb
                 (keyed_map (header_key float_repr) (non_blank float_repr) cells_b)
                 (header_key float_repr va) = Some cb)
    by (rewrite Hkey, keyed_map_get; now apply last_col_max).
  unfold column_map. apply column_fold_get.
  - intros k c Hin ->. apply in_keyed_map in Hin. destruct Hin as (v & Hv & _ & <-).
    assert (v = va); [|now subst].
    eapply NoDup_fst_unique; eauto. now apply sorted_lt_NoDup.
  - right. exists (header_key float_repr va). now apply dict_get_In_str.
Qed.

(** With the default options SmartCompareService.build_header_map keeps
    "Name" and " name " under two keys: the headers have no name in
    common and nothing is compared. *)
Lemma C4_service_keeps_case :
  SmartCompareService.build_header_map no_float_repr
    SmartCompareService.default_smart_options [PStr "Name"] = [("Name", 0)]
  /\ SmartCompareService.build_header_map no_float_repr
       SmartCompareService.default_smart_options [PStr "id"; PStr " name "]
     = [("id", 0); (" name ", 1)]
  /\ SmartCompareService._compare_by_header no_float_repr first_seen "S"
       [[PStr "Name"]; [PStr "1"]] [[PStr "id"; PStr " name "]; [PStr "7"; PStr "2"]]
       SmartCompareService.default_smart_options 0 0
     = Ok [].
Proof. repeat split; vm_compute; reflexivity. Qed.

(** C4 (amended). In the handlers of the window a header map sends the
    trimmed, lower-cased string of a header cell to the last column that
    has it, whatever the options are: two header cells whose strings
    differ only in letter case and surrounding white space, each the
    last of its grid, are paired by the column correspondence (the
    columns "Name" and " name " are, under every options value, in the
    three places that build the maps).  SmartCompareService keys its
    header map by the string lower-cased only under [ignore_case] and
    trimmed only under [ignore_whitespace]; with both set, such headers
    share their key. *)
Theorem C4_header_keys :
  forall (float_repr : spec_float -> string) (set_iter : list string -> list string),
  (forall cells k,
     dict_get String.eqb (header_map float_repr cells) k
     = last_col (fun v => lower (strip (py_str float_repr v))) (non_blank float_repr)
         cells k)
  /\ (forall cells_a cells_b ca cb va vb,
        StronglySorted lt (map fst cells_a) -> StronglySorted lt (map fst cells_b) ->
        In (ca, va) cells_a -> In (cb, vb) cells_b ->
        non_blank float_repr va = true -> non_blank float_repr vb = true ->
        lower (strip (py_str float_repr va)) = lower (strip (py_str float_repr vb)) ->
        (forall c v, In (c, v) cells_a -> non_blank float_repr v = true ->
           lower (strip (py_str float_repr v)) = lower (strip (py_str float_repr va)) ->
           c <= ca) ->
        (forall c v, In (c, v) cells_b -> non_blank float_repr v = true ->
           lower (strip (py_str float_repr v)) = lower (strip (py_str float_repr vb)) ->
           c <= cb) ->
        dict_get Nat.eqb
          (column_map (header_map float_repr cells_a) (header_map float_repr cells_b)) ca
        = Some cb)
  /\ (forall sheet h, StronglySorted lt (map fst (sheet_header_cells sheet h)))
  /\ (forall sheet span_rng rng ext,
        StronglySorted lt (map fst (external_header_cells sheet span_rng rng ext)))
  /\ (forall row : list pyval, StronglySorted lt (map fst (enumerate row)))
  /\ (forall options,
        smart_match_sheet float_repr set_iter None None None None (Some 0%Z) options "S"
          name_sheet_a name_sheet_b = Ok [name_diff])
  /\ (forall options,
        _compare_selection_smart float_repr set_iter "S" name_sheet_a name_sheet_b
          (mk_rect 0 0 1 0) (mk_rect 0 1 1 1) None None (Some 0) options None
        = Ok [name_diff])
  /\ (forall options,
        _compare_selection_smart float_repr set_iter "S" name_sheet_a name_sheet_b
          (mk_rect 1 0 1 0) (mk_rect 1 1 1 1) None None None options (Some 0%Z)
        = Ok [name_diff])
  /\ (forall options headers k,
        dict_get String.eqb
          (SmartCompareService.build_header_map float_repr options headers) k
        = last_col
            (fun h =>
               let key := py_str float_repr h in
               let key := if SmartCompareService.ignore_case options
                          then lower key else key in
               if SmartCompareService.ignore_whitespace options then strip key else key)
            not_empty (enumerate headers) k)
  /\ (forall options h1 h2,
        SmartCompareService.ignore_case options = true ->
        SmartCompareService.ignore_whitespace options = true ->
        lower (strip (py_str float_repr h1)) = lower (strip (py_str float_repr h2)) ->
        smart_key float_repr options h1 = smart_key float_repr options h2).
Proof.
  intros float_repr set_iter.
  split; [intros; rewrite header_map_keyed; apply keyed_map_get|].
  split; [apply column_map_same_key|].
  split.
  { intros sheet h. unfold sheet_header_cells. rewrite map_map. simpl. rewrite map_id.
    apply StronglySorted_seq. }
  split.
  { intros sheet sr rng ext. unfold external_header_cells. rewrite map_map. simpl.
    rewrite map_id. apply StronglySorted_seq. }
  split; [intro row; rewrite map_fst_enumerate; apply StronglySorted_seq|].
  split; [intros [f er ec [|] [|] ih icm]; destruct er; vm_compute; reflexivity|].
  split; [intros [f er ec [|] [|] ih icm]; destruct er; vm_compute; reflexivity|].
  split; [intros [f er ec [|] [|] ih icm]; destruct er; vm_compute; reflexivity|].
  split; [intros; rewrite build_header_map_keyed; apply keyed_map_get|].
  intros options h1 h2 Hic Hiw H. unfold smart_key. rewrite Hic, Hiw.
  now rewrite <- !lower_strip.
Qed.

(** The statement of C4 at the headers "Name" and " name ". *)
Lemma C4_witness :
  dict_get Nat.eqb
    (column_map (header_map no_float_repr [(0, PStr "Name")])
       (header_map no_float_repr [(0, PStr "id"); (1, PStr " name ")])) 0
  = Some 1.
Proof.
  destruct (C4_header_keys no_float_repr first_seen) as (_ & H & _).
  apply (H [(0, PStr "Name")] [(0, PStr "id"); (1, PStr " name ")] 0 1
           (PStr "Name") (PStr " name ")).
  - repeat constructor.
  - repeat constructor.
  - now left.
  - right. now left.
  - reflexivity.
  - reflexivity.
  - reflexivity.
  - intros c v [H0|[]] _ _. inversion H0. lia.
  - intros c v [H0|[H0|[]]] _ _; inversion H0; lia.
Defined.

(** *** Key maps of the handlers *)

Lemma rows_of_append (d : dict string (list keyed_row)) (k key : string) (r : keyed_row) :
  rows_of (dict_append d k r) key
  = if String.eqb k key then rows_of d key ++ [r] else rows_of d key.
Proof.
  unfold rows_of, dict_append.
  destruct (dict_get String.eqb d k) as [l|] eqn:E; rewrite dict_get_set_str;
    destruct (String.eqb_spec k key) as [<-|Hne]; try reflexivity.
  - now rewrite E.
  - now rewrite E.
Qed.

Section KeyMaps.

Variable float_repr : spec_float -> string.
Variable options : CompareService.CompareOptions.
Variables col1 col2 : option Z.

Lemma build_rows_fold (data : list keyed_row) (m m' : dict string (list keyed_row)) :
  foldM (fun rows_map '(row_idx, row_data) =>
    bind (make_key float_repr options row_data col1 col2) (fun norm_key =>
    match norm_key with
    | Some k => if negb (String.eqb k "") then Ok (dict_append rows_map k (row_idx, row_data))
                else Ok rows_map
    | None => Ok rows_map
    end)) data m = Ok m' ->
  forall key,
    rows_of m' key = rows_of m key ++ filter (has_key float_repr options col1 col2 key) data.
Proof.
  revert m. induction data as [|[i rd] data IH]; intros m H key; simpl in H.
  - inversion H. simpl. now rewrite app_nil_r.
  - simpl. unfold has_key at 1, key_of. simpl.
    destruct (make_key float_repr options rd col1 col2) as [[k|]|e]; simpl in H;
      [| |discriminate].
    + destruct (String.eqb k "") eqn:Ek; simpl in H.
      * now apply IH.
      * rewrite (IH _ H key), rows_of_append.
        destruct (String.eqb k key); [now rewrite <- app_assoc | reflexivity].
    + now apply IH.
Qed.

(** The list of a key is the list of the rows with that key, in the
    order of the rows. *)
Lemma build_rows_spec (data : list keyed_row) (m : dict string (list keyed_row)) :
  build_rows float_repr options col1 col2 data = Ok m ->
  forall key, rows_of m key = filter (has_key float_repr options col1 col2 key) data.
Proof. intros H key. apply (build_rows_fold data [] m H key). Qed.

End KeyMaps.

Lemma index_or_none_nonneg (l : list pyval) (k : Z) :
  (0 <= k)%Z -> index_or_none l k = Ok (nth (Z.to_nat k) l PNone).
Proof.
  intro Hk. unfold index_or_none, py_index.
  destruct (Z.ltb_spec k (Z.of_nat (List.length l))) as [Hlt|Hge].
  - destruct (Z.ltb_spec k 0) as [Hneg|_]; [lia|].
    destruct (Z.ltb_spec k 0) as [Hneg|_]; [lia|].
    rewrite (nth_error_nth' l PNone); [reflexivity | lia].
  - rewrite nth_overflow; [reflexivity | lia].
Qed.

Lemma lower_not_empty (s : string) : lower s = "" -> s = "".
Proof. destruct s; [reflexivity | discriminate]. Qed.

Lemma append_not_empty (s t : string) : (s ++ t)%string = "" -> s = "".
Proof. destruct s; [reflexivity | discriminate]. Qed.

Lemma blank_test (float_repr : spec_float -> string) (v : pyval) :
  is_none v || String.eqb (str_strip float_repr v) "" = negb (non_blank float_repr v).
Proof.
  unfold non_blank. destruct (is_none v), (String.eqb (str_strip float_repr v) "");
    reflexivity.
Qed.

Lemma non_blank_strip (float_repr : spec_float -> string) (v : pyval) :
  non_blank float_repr v = true -> str_strip float_repr v <> "".
Proof.
  unfold non_blank. destruct (is_none v); [discriminate|]. simpl.
  destruct (String.eqb_spec (str_strip float_repr v) ""); [discriminate | auto].
Qed.

(** With key columns that are not negative a row has a key exactly when
    its first key value is not blank. *)
Lemma key_of_non_blank (float_repr : spec_float -> string)
  (options : CompareService.CompareOptions) (c1 : Z) (col2 : option Z) (r : keyed_row) :
  key_cols_ok (Some c1) col2 ->
  (non_blank float_repr (nth (Z.to_nat c1) (snd r) PNone) = true ->
   exists k, key_of float_repr options (Some c1) col2 r = Some k)
  /\ (non_blank float_repr (nth (Z.to_nat c1) (snd r) PNone) = false ->
      key_of float_repr options (Some c1) col2 r = None).
Proof.
  intros [H1 H2]. unfold key_of, make_key.
  rewrite (index_or_none_nonneg (snd r) c1 H1). simpl.
  set (v1 := nth (Z.to_nat c1) (snd r) PNone).
  rewrite blank_test.
  destruct (non_blank float_repr v1) eqn:Hnb; simpl;
    [split; [intros _ | discriminate] | split; [discriminate | reflexivity]].
  apply non_blank_strip in Hnb.
  assert (Hlow : forall k : string,
             k <> "" ->
             exists k',
               (if String.eqb (if CompareService.ignore_case options then lower k else k) ""
                then None
                else Some (if CompareService.ignore_case options then lower k else k))
               = Some k').
  { intros k Hk.
    destruct (String.eqb_spec (if CompareService.ignore_case options then lower k else k) "")
      as [E|E]; [|eauto].
    exfalso. apply Hk. destruct (CompareService.ignore_case options);
      [now apply lower_not_empty | exact E]. }
  destruct col2 as [c2|]; simpl.
  - rewrite (index_or_none_nonneg (snd r) c2 H2). simpl.
    destruct (non_blank float_repr (nth (Z.to_nat c2) (snd r) PNone)); simpl.
    + apply Hlow. intro E. now apply append_not_empty in E.
    + now apply Hlow.
  - now apply Hlow.
Qed.

Lemma in_data_rows (sheet : SheetData) (header_row : option Z) (r : keyed_row) :
  In r (data_rows sheet header_row) <->
  fst r < row_count sheet /\ is_header_row header_row (fst r) = false
  /\ snd r = extract_row_data sheet (fst r).
Proof.
  unfold data_rows. rewrite in_flat_map. split.
  - intros (i & Hi & Hr). apply in_seq in Hi.
    destruct (is_header_row header_row i) eqn:E; [destruct Hr|].
    destruct Hr as [<-|[]]. simpl. repeat split; auto; lia.
  - intros (Hi & Hh & Hd). exists (fst r). split; [apply in_seq; lia|].
    rewrite Hh. left. destruct r. simpl in *. now subst.
Qed.

(** *** Equality of values *)

Lemma SFeqb_refl (f : spec_float) : not_nan f = true -> SFeqb f f = true.
Proof.
  destruct f as [s|s| |s m e]; simpl; try discriminate; intros _; unfold SFeqb; simpl.
  - reflexivity.
  - destruct s; reflexivity.
  - destruct s; rewrite Z.compare_refl, Pos.compare_cont_refl; reflexivity.
Qed.

Lemma datetime_eqb_refl (d : datetime) : datetime_eqb d d = true.
Proof. unfold datetime_eqb. now rewrite !Nat.eqb_refl. Qed.

Lemma SFeqb_true (f g : spec_float) :
  SFeqb f g = true ->
  (exists s s', f = S754_zero s /\ g = S754_zero s') \/ (f = g /\ not_nan f = true).
Proof.
  unfold SFeqb.
  destruct f as [s|s| |s m e], g as [s'|s'| |s' m' e']; simpl; try discriminate;
    try (now (intros _; left; eauto));
    try (destruct s; discriminate); try (destruct s'; discriminate).
  - destruct s, s'; try discriminate; intros _; right; split; reflexivity.
  - destruct s, s'; try discriminate;
      destruct (e ?= e')%Z eqn:Ee; try discriminate;
      destruct (Pos.compare_cont Eq m m') eqn:Em; try discriminate;
      intros _; right; apply Z.compare_eq in Ee; apply Pos.compare_eq in Em; subst;
      split; reflexivity.
Qed.

Lemma SFeqb_euclid (f g h : spec_float) :
  SFeqb f g = true -> SFeqb f h = true -> SFeqb g h = true.
Proof.
  intros H1 H2. apply SFeqb_true in H1. apply SFeqb_true in H2.
  destruct H1 as [(s & s' & -> & ->)|[<- Hf]].
  - destruct H2 as [(t & t' & _ & ->)|[<- _]]; reflexivity.
  - destruct H2 as [(t & t' & -> & ->)|[<- _]]; [reflexivity | now apply SFeqb_refl].
Qed.

Lemma float_eq_Z_eqb (f g : spec_float) (n : Z) :
  SFeqb f g = true -> float_eq_Z f n = float_eq_Z g n.
Proof.
  intro H. apply SFeqb_true in H.
  destruct H as [(s & s' & -> & ->)|[<- _]]; reflexivity.
Qed.

Lemma float_eq_Z_inj (f : spec_float) (n n' : Z) :
  float_eq_Z f n = true -> float_eq_Z f n' = true -> n = n'.
Proof.
  destruct f as [s|s| |s m e]; simpl; try discriminate.
  - intros H1 H2. apply Z.eqb_eq in H1, H2. congruence.
  - destruct (0 <=? e)%Z eqn:Ee; intros H1 H2; apply Z.eqb_eq in H1, H2.
    + congruence.
    + apply Z.leb_gt in Ee.
      assert (0 < 2 ^ (- e))%Z by (apply Z.pow_pos_nonneg; lia).
      apply (Z.mul_cancel_r n n' (2 ^ (- e))); [lia | congruence].
Qed.

Lemma digits2_pos_size (m : positive) : digits2_pos m = Pos.size m.
Proof. induction m; simpl; congruence. Qed.

Lemma digits2_log2 (m : positive) : Z.pos (digits2_pos m) = (Z.log2 (Z.pos m) + 1)%Z.
Proof.
  rewrite digits2_pos_size. destruct m; simpl; try reflexivity;
    rewrite Pos.add_1_r; reflexivity.
Qed.

(** What an integer equal to a finite float says of the float. *)
Lemma float_eq_Z_finite (s : bool) (m : positive) (e : Z) (n : Z) :
  float_eq_Z (S754_finite s m e) n = true ->
  s = (n <? 0)%Z
  /\ (0 < Z.abs n)%Z
  /\ (Z.pos (digits2_pos m) + e = Z.log2 (Z.abs n) + 1)%Z
  /\ (if (0 <=? e)%Z then Z.abs n = Z.pos m * 2 ^ e
      else Z.abs n * 2 ^ (- e) = Z.pos m)%Z.
Proof.
  unfold float_eq_Z. rewrite digits2_log2.
  change (Z.neg m) with (- Z.pos m)%Z.
  pose proof (Pos2Z.is_pos m) as Hm. generalize dependent (Z.pos m). intros p Hm.
  destruct (0 <=? e)%Z eqn:Ee; intro H; apply Z.eqb_eq in H.
  - apply Z.leb_le in Ee.
    assert (Hp : (0 < 2 ^ e)%Z) by (apply Z.pow_pos_nonneg; lia).
    assert (Ha : Z.abs n = (p * 2 ^ e)%Z).
    { generalize dependent (2 ^ e)%Z. intros q Hn Hq. destruct s; nia. }
    split; [generalize dependent (2 ^ e)%Z; intros q Hn Hq Ha;
            destruct s; symmetry; [apply Z.ltb_lt | apply Z.ltb_ge]; nia|].
    split; [nia|]. split; [|exact Ha].
    rewrite Ha, Z.log2_mul_pow2 by lia. lia.
  - apply Z.leb_gt in Ee.
    assert (Hp : (0 < 2 ^ (- e))%Z) by (apply Z.pow_pos_nonneg; lia).
    assert (Ha : (Z.abs n * 2 ^ (- e))%Z = p).
    { generalize dependent (2 ^ (- e))%Z. intros q Hn Hq. destruct s; nia. }
    assert (Hn : (0 < Z.abs n)%Z) by nia.
    split; [generalize dependent (2 ^ (- e))%Z; intros q Hq Hp Ha;
            destruct s; symmetry; [apply Z.ltb_lt | apply Z.ltb_ge]; nia|].
    split; [exact Hn|]. split; [|exact Ha].
    rewrite <- Ha, Z.log2_mul_pow2 by lia. lia.
Qed.

(** Two binary64 numbers equal to the same integer are equal. *)
Lemma float_eq_Z_binary64 (f g : spec_float) (n : Z) :
  binary64 f = true -> binary64 g = true ->
  float_eq_Z f n = true -> float_eq_Z g n = true -> SFeqb f g = true.
Proof.
  intros Vf Vg Hf Hg.
  destruct f as [s|s| |s m e]; try discriminate;
    destruct g as [s'|s'| |s' m' e']; try discriminate.
  - reflexivity.
  - simpl in Hf. apply Z.eqb_eq in Hf. subst n.
    apply float_eq_Z_finite in Hg. simpl in Hg. lia.
  - simpl in Hg. apply Z.eqb_eq in Hg. subst n.
    apply float_eq_Z_finite in Hf. simpl in Hf. lia.
  - apply float_eq_Z_finite in Hf, Hg.
    destruct Hf as (-> & _ & Hd & Hm), Hg as (-> & _ & Hd' & Hm').
    unfold binary64, valid_binary, bounded, canonical_mantissa in Vf, Vg.
    apply andb_prop in Vf, Vg. destruct Vf as [Vf _], Vg as [Vg _].
    apply Z.eqb_eq in Vf, Vg. rewrite Hd in Vf. rewrite Hd' in Vg.
    assert (He : e' = e) by congruence. clear Vf Vg. subst e'.
    assert (m = m').
    { destruct (0 <=? e)%Z eqn:Ee.
      - apply Z.leb_le in Ee.
        assert (0 < 2 ^ e)%Z by (apply Z.pow_pos_nonneg; lia).
        assert (Z.pos m = Z.pos m')
          by (apply (Z.mul_cancel_r _ _ (2 ^ e)); [lia | congruence]).
        congruence.
      - assert (Z.pos m = Z.pos m') by congruence. congruence. }
    subst m'. apply SFeqb_refl. reflexivity.
Qed.

Lemma datetime_eqb_eq (a b : datetime) : datetime_eqb a b = true -> a = b.
Proof.
  unfold datetime_eqb. destruct a, b; simpl. intro H.
  repeat (apply andb_prop in H; destruct H as [H ?]).
  repeat match goal with E : Nat.eqb _ _ = true |- _ => apply Nat.eqb_eq in E end.
  now subst.
Qed.

Lemma py_eqb_bool_l (c : bool) (v : pyval) : py_eqb (PBool c) v = py_eqb (PInt (Z_of_bool c)) v.
Proof. destruct v; try reflexivity. simpl. destruct c, b; reflexivity. Qed.

Lemma py_eqb_bool_r (c : bool) (v : pyval) : py_eqb v (PBool c) = py_eqb v (PInt (Z_of_bool c)).
Proof. destruct v; try reflexivity. simpl. destruct c, b; reflexivity. Qed.

(** Among values whose floats are binary64 numbers, two values equal to
    a third are equal. *)
Lemma py_eqb_euclid (a b c : pyval) :
  binary64_val b = true -> binary64_val c = true ->
  py_eqb a b = true -> py_eqb a c = true -> py_eqb b c = true.
Proof.
  intros Vb Vc.
  destruct a as [|sa|na|fa|ba|da]; rewrite ?py_eqb_bool_l;
    destruct b as [|sb|nb|fb|bb|db]; rewrite ?py_eqb_bool_l, ?py_eqb_bool_r;
    try discriminate;
    destruct c as [|sc|nc|fc|bc|dc]; rewrite ?py_eqb_bool_l, ?py_eqb_bool_r;
    try discriminate; simpl; intros H1 H2;
    try reflexivity;
    repeat match goal with
      | H : (_ =? _)%Z = true |- _ => apply Z.eqb_eq in H
      | H : String.eqb _ _ = true |- _ => apply String.eqb_eq in H
      end; subst;
    try (apply Z.eqb_refl); try (apply String.eqb_refl); try assumption.
  all: try (apply Z.eqb_eq; eapply float_eq_Z_inj; eassumption).
  all: try (eapply float_eq_Z_binary64; eassumption).
  all: try (eapply SFeqb_euclid; eassumption).
  all: try (rewrite <- (float_eq_Z_eqb _ _ _ H1); assumption).
  all: try (rewrite <- (float_eq_Z_eqb _ _ _ H2); assumption).
  all: try (apply Z.eqb_eq; congruence).
  all: try congruence.
  apply datetime_eqb_eq in H1, H2. subst. apply datetime_eqb_refl.
Qed.

(** A value that is not equal to itself is a NaN: it is equal to no
    value. *)
Lemma py_eqb_nan (k x : pyval) :
  py_eqb k k = false -> py_eqb k x = false /\ py_eqb x k = false.
Proof.
  destruct k as [|s|n|f|b|d]; simpl; intro H.
  - discriminate.
  - now rewrite String.eqb_refl in H.
  - now rewrite Z.eqb_refl in H.
  - destruct f as [s|s| |s m e];
      try (rewrite SFeqb_refl in H by reflexivity; discriminate).
    destruct x as [|s|n|g|b|d]; try (split; reflexivity).
    split; [reflexivity|]. unfold SFeqb. destruct g; reflexivity.
  - destruct b; discriminate.
  - now rewrite datetime_eqb_refl in H.
Qed.

Section DictLemmas.

Context {K V : Type}.
Variable keq : K -> K -> bool.

Lemma dict_get_set_same (d : dict K V) (k : K) (v : V) :
  keq k k = true -> dict_get keq (dict_set keq d k v) k = Some v.
Proof.
  intro Hk. induction d as [|[k0 v0] d IH]; simpl.
  - now rewrite Hk.
  - destruct (keq k0 k) eqn:E; simpl; rewrite E; [reflexivity | exact IH].
Qed.

Lemma dict_get_set_other (d : dict K V) (k' k : K) (v' : V) :
  keq k' k = false ->
  (forall k0, In k0 (dict_keys d) -> keq k0 k' = true -> keq k0 k = true ->
              keq k' k = true) ->
  dict_get keq (dict_set keq d k' v') k = dict_get keq d k.
Proof.
  intros Hne. induction d as [|[k0 v0] d IH]; simpl; intro Heu.
  - now rewrite Hne.
  - destruct (keq k0 k') eqn:E; simpl.
    + destruct (keq k0 k) eqn:E'; [|reflexivity].
      rewrite (Heu k0 (or_introl eq_refl) E E') in Hne. discriminate.
    + destruct (keq k0 k); [reflexivity|].
      apply IH. intros k1 H1. apply Heu. now right.
Qed.

(** A key with no equal in the dictionary goes last. *)
Lemma dict_set_new (d : dict K V) (k : K) (v : V) :
  (forall k0, In k0 (dict_keys d) -> keq k0 k = false) ->
  dict_set keq d k v = d ++ [(k, v)].
Proof.
  induction d as [|[k0 v0] d IH]; simpl; intro H; [reflexivity|].
  rewrite (H k0 (or_introl eq_refl)). f_equal. apply IH. intros k1 H1. apply H. now right.
Qed.

(** An entry whose key is equal to no key stays as it is. *)
Lemma dict_set_keeps (d : dict K V) (k' : K) (v' : V) (k : K) (v : V) :
  keq k k' = false -> In (k, v) d -> In (k, v) (dict_set keq d k' v').
Proof.
  intros Hne. induction d as [|[k0 v0] d IH]; simpl; [auto|].
  intros [H|H].
  - inversion H; subst. rewrite Hne. now left.
  - destruct (keq k0 k'); right; [exact H | now apply IH].
Qed.

(** A key of the dictionary that is equal to itself is found. *)
Lemma dict_get_key (d : dict K V) (k : K) :
  In k (dict_keys d) -> keq k k = true -> dict_get keq d k <> None.
Proof.
  induction d as [|[k0 v0] d IH]; simpl; [tauto|].
  intros [->|H] Hk.
  - rewrite Hk. discriminate.
  - destruct (keq k0 k); [discriminate | now apply IH].
Qed.

End DictLemmas.

Lemma in_dict_set_value {K V : Type} (keq : K -> K -> bool) (d : dict K V)
  (k : K) (v : V) (kv : K * V) :
  In kv (dict_set keq d k v) -> snd kv = v \/ In kv d.
Proof.
  induction d as [|[k0 v0] d IH]; simpl.
  - intros [<-|[]]. now left.
  - destruct (keq k0 k); simpl.
    + intros [<-|H]; [now left | right; now right].
    + intros [<-|H]; [right; now left|].
      destruct (IH H); [now left | right; now right].
Qed.

Lemma py_index_In {A : Type} (l : list A) (k : Z) (x : A) : py_index l k = Ok x -> In x l.
Proof.
  unfold py_index. destruct (_ <? 0)%Z; [discriminate|].
  destruct (nth_error l _) as [y|] eqn:E; [|discriminate].
  intro H. inversion H; subst. eapply nth_error_In; eassumption.
Qed.

Lemma in_skipn {A : Type} (n : nat) (l : list A) (x : A) : In x (skipn n l) -> In x l.
Proof.
  revert l. induction n as [|n IH]; intros [|y l]; simpl; auto.
Qed.

(** *** The key map of SmartCompareService *)

Import SmartCompareService.

Lemma py_eqb_str_r (k : pyval) (s : string) : py_eqb k (PStr s) = true -> k = PStr s.
Proof.
  destruct k; simpl; try discriminate.
  intro H. apply String.eqb_eq in H. now subst.
Qed.

Lemma py_eqb_str_l (k : pyval) (s : string) : py_eqb (PStr s) k = true -> k = PStr s.
Proof.
  destruct k; simpl; try discriminate.
  intro H. apply String.eqb_eq in H. now subst.
Qed.

Lemma py_eqb_str_refl (s : string) : py_eqb (PStr s) (PStr s) = true.
Proof. simpl. apply String.eqb_refl. Qed.

Lemma dict_get_set_pstr {V : Type} (d : dict pyval V) (k : pyval) (s : string) (v : V) :
  dict_get py_eqb (dict_set py_eqb d k v) (PStr s)
  = if py_eqb k (PStr s) then Some v else dict_get py_eqb d (PStr s).
Proof.
  induction d as [|[k0 v0] d IH]; simpl; [reflexivity|].
  destruct (py_eqb k0 k) eqn:E0; simpl.
  - destruct (py_eqb k0 (PStr s)) eqn:E1.
    + apply py_eqb_str_r in E1. subst k0. apply py_eqb_str_l in E0. subst k.
      now rewrite py_eqb_str_refl.
    + destruct (py_eqb k (PStr s)) eqn:E2; [|reflexivity].
      apply py_eqb_str_r in E2. subst k. congruence.
  - rewrite IH. destruct (py_eqb k0 (PStr s)) eqn:E1; [|reflexivity].
    apply py_eqb_str_r in E1. subst k0.
    destruct (py_eqb k (PStr s)) eqn:E2; [|reflexivity].
    apply py_eqb_str_r in E2. subst k. now rewrite py_eqb_str_refl in E0.
Qed.

Lemma foldM_app {A B : Type} (body : B -> A -> result B) (l1 l2 : list A) (acc : B) :
  foldM body (l1 ++ l2) acc = bind (foldM body l1 acc) (foldM body l2).
Proof.
  revert acc. induction l1 as [|x l1 IH]; intro acc; simpl; [reflexivity|].
  destruct (body acc x); simpl; [apply IH | reflexivity].
Qed.

Lemma foldM_ext {A B : Type} (f g : B -> A -> result B) (l : list A) (acc : B) :
  (forall b x, f b x = g b x) -> foldM f l acc = foldM g l acc.
Proof.
  intro H. revert acc. induction l as [|x l IH]; intro acc; simpl; [reflexivity|].
  rewrite H. destruct (g acc x); simpl; [apply IH | reflexivity].
Qed.

Section SmartKeyMap.

Variable options : SmartCompareOptions.

Local Abbreviation key_map_step := (key_map_step options).

Lemma build_key_map_steps (data : list (list pyval)) (skip_header : bool) :
  build_key_map options data skip_header
  = foldM key_map_step (offered options data skip_header) [].
Proof.
  unfold build_key_map, offered. apply foldM_ext.
  intros m [i row]. unfold key_map_step, smart_row_key. simpl.
  destruct (key_column_index options <? Z.of_nat (List.length row))%Z; [|reflexivity].
  destruct (py_index row (key_column_index options)) as [key|e]; simpl; [|reflexivity].
  destruct (negb (is_none key) && py_neqb key (PStr "")); reflexivity.
Qed.

Lemma key_map_other_keys (items : list (nat * list pyval))
  (m m' : dict pyval (nat * list pyval)) (s : string) :
  foldM key_map_step items m = Ok m' ->
  (forall item, In item items -> smart_row_key options (snd item) <> Ok (Some (PStr s))) ->
  dict_get py_eqb m' (PStr s) = dict_get py_eqb m (PStr s).
Proof.
  revert m. induction items as [|item items IH]; intros m H Hne; simpl in H.
  - now inversion H.
  - unfold key_map_step at 1 in H.
    destruct (smart_row_key options (snd item)) as [[k|]|e] eqn:E; simpl in H;
      [| |discriminate].
    + rewrite (IH _ H) by (intros; apply Hne; now right).
      rewrite dict_get_set_pstr.
      destruct (py_eqb k (PStr s)) eqn:Ek; [|reflexivity].
      apply py_eqb_str_r in Ek. subst k. exfalso. apply (Hne item); [now left | exact E].
    + apply (IH _ H). intros; apply Hne; now right.
Qed.

(** Of the rows with the same text key, the map keeps the last. *)
Lemma build_key_map_last (data : list (list pyval)) (skip_header : bool)
  (m : dict pyval (nat * list pyval)) (before after : list (nat * list pyval))
  (item : nat * list pyval) (s : string) :
  build_key_map options data skip_header = Ok m ->
  offered options data skip_header = before ++ item :: after ->
  smart_row_key options (snd item) = Ok (Some (PStr s)) ->
  (forall later, In later after ->
     smart_row_key options (snd later) <> Ok (Some (PStr s))) ->
  dict_get py_eqb m (PStr s) = Some item.
Proof.
  intros H Hsplit Hkey Hlater.
  rewrite build_key_map_steps, Hsplit, foldM_app in H.
  destruct (foldM key_map_step before []) as [m1|e]; simpl in H; [|discriminate].
  unfold key_map_step at 1 in H. rewrite Hkey in H. simpl in H.
  rewrite (key_map_other_keys after _ m s H Hlater).
  now rewrite dict_get_set_pstr, py_eqb_str_refl.
Qed.

End SmartKeyMap.

Section SmartKeyMapGen.

Variable options : SmartCompareOptions.

Local Abbreviation key_map_step := (key_map_step options).

(** The key of a row is a value of the row, or a text. *)
Lemma smart_row_key_value (row : list pyval) (k : pyval) :
  smart_row_key options row = Ok (Some k) -> In k row \/ is_str k = true.
Proof.
  unfold smart_row_key.
  destruct (_ <? _)%Z; [|discriminate].
  destruct (py_index row _) as [key|e] eqn:E; simpl; [|discriminate].
  destruct (negb (is_none key) && py_neqb key (PStr "")); [|discriminate].
  intro H. inversion H; subst k; clear H. apply py_index_In in E.
  destruct key; try (left; destruct (ignore_case options), (ignore_whitespace options);
                     exact E).
  right. destruct (ignore_case options), (ignore_whitespace options); reflexivity.
Qed.

Lemma smart_row_key_binary64 (row : list pyval) (k : pyval) :
  Forall (fun v => binary64_val v = true) row ->
  smart_row_key options row = Ok (Some k) -> binary64_val k = true.
Proof.
  intros Hrow H. apply smart_row_key_value in H. destruct H as [H|H].
  - rewrite Forall_forall in Hrow. now apply Hrow.
  - destruct k; try discriminate. reflexivity.
Qed.

Lemma key_map_other_keys_val (items : list (nat * list pyval))
  (m m' : dict pyval (nat * list pyval)) (k : pyval) :
  foldM key_map_step items m = Ok m' ->
  binary64_val k = true ->
  (forall item k', In item items -> smart_row_key options (snd item) = Ok (Some k') ->
                   binary64_val k' = true /\ py_eqb k' k = false) ->
  dict_get py_eqb m' k = dict_get py_eqb m k.
Proof.
  intros H Vk. revert m H. induction items as [|item items IH]; intros m H Hne; simpl in H.
  - now inversion H.
  - unfold key_map_step at 1 in H.
    destruct (smart_row_key options (snd item)) as [[k'|]|e] eqn:E; simpl in H;
      [| |discriminate].
    + rewrite (IH _ H)
        by (intros it k'' Hi Hk''; apply (Hne it k''); [now right | exact Hk'']).
      destruct (Hne item k' (or_introl eq_refl) E) as [Vk' Hk'].
      apply dict_get_set_other; [exact Hk'|].
      intros k0 _. now apply py_eqb_euclid.
    + apply (IH _ H). intros it k'' Hi Hk''. apply (Hne it k''); [now right | exact Hk''].
Qed.

(** Of the rows with equal keys, the map keeps the last. *)
Lemma build_key_map_last_val (data : list (list pyval)) (skip_header : bool)
  (m : dict pyval (nat * list pyval)) (before after : list (nat * list pyval))
  (item : nat * list pyval) (k : pyval) :
  Forall (Forall (fun v => binary64_val v = true)) data ->
  build_key_map options data skip_header = Ok m ->
  offered options data skip_header = before ++ item :: after ->
  smart_row_key options (snd item) = Ok (Some k) ->
  py_eqb k k = true ->
  (forall later k', In later after -> smart_row_key options (snd later) = Ok (Some k') ->
                    py_eqb k' k = false) ->
  dict_get py_eqb m k = Some item.
Proof.
  intros Hd H Hsplit Hkey Hrefl Hlater.
  assert (Hrow : forall it, In it (offered options data skip_header) ->
                            Forall (fun v => binary64_val v = true) (snd it)).
  { intros [i row] Hi. unfold offered in Hi. apply in_skipn in Hi.
    apply in_enumerate in Hi. rewrite Forall_forall in Hd. apply Hd.
    eapply nth_error_In. exact Hi. }
  rewrite Hsplit in Hrow.
  rewrite build_key_map_steps, Hsplit, foldM_app in H.
  destruct (foldM key_map_step before []) as [m1|e]; simpl in H; [|discriminate].
  unfold key_map_step at 1 in H. rewrite Hkey in H. simpl in H.
  rewrite (key_map_other_keys_val after _ m k H).
  - now apply dict_get_set_same.
  - apply (smart_row_key_binary64 (snd item)); [|exact Hkey].
    apply Hrow. apply in_or_app. right. now left.
  - intros later k' Hin Hk'. split; [|now apply (Hlater later)].
    apply (smart_row_key_binary64 (snd later)); [|exact Hk'].
    apply Hrow. apply in_or_app. right. now right.
Qed.

(** The entries of the map are rows that were offered. *)
Lemma key_map_items (items : list (nat * list pyval)) :
  forall m m',
    foldM key_map_step items m = Ok m' ->
    forall kv, In kv m' -> In (snd kv) items \/ In kv m.
Proof.
  induction items as [|item items IH]; intros m m' H kv Hkv; simpl in H.
  - inversion H; subst. now right.
  - unfold key_map_step at 1 in H.
    destruct (smart_row_key options (snd item)) as [[k|]|e]; simpl in H; [| |discriminate].
    + destruct (IH _ _ H kv Hkv) as [Hi|Hi]; [left; now right|].
      apply in_dict_set_value in Hi. destruct Hi as [Hi|Hi]; [left; now left | now right].
    + destruct (IH _ _ H kv Hkv) as [Hi|Hi]; [left; now right | now right].
Qed.

(** An entry with a NaN key is not touched by the rest of the loop. *)
Lemma key_map_keeps_nan (items : list (nat * list pyval)) :
  forall m m' k item,
    foldM key_map_step items m = Ok m' ->
    py_eqb k k = false -> In (k, item) m -> In (k, item) m'.
Proof.
  induction items as [|it items IH]; intros m m' k item H Hk Hin; simpl in H.
  - now inversion H; subst.
  - unfold key_map_step at 1 in H.
    destruct (smart_row_key options (snd it)) as [[k'|]|e]; simpl in H; [| |discriminate].
    + apply (IH _ _ k item H Hk). apply dict_set_keeps; [|exact Hin].
      apply (proj1 (py_eqb_nan k k' Hk)).
    + now apply (IH _ _ k item H Hk).
Qed.

Lemma key_map_nan_entry (items : list (nat * list pyval)) :
  forall m m' item k,
    foldM key_map_step items m = Ok m' ->
    In item items ->
    smart_row_key options (snd item) = Ok (Some k) ->
    py_eqb k k = false ->
    In (k, item) m'.
Proof.
  induction items as [|it items IH]; intros m m' item k H Hin Hkey Hk; [destruct Hin|].
  simpl in H. unfold key_map_step at 1 in H.
  destruct Hin as [->|Hin].
  - rewrite Hkey in H. simpl in H.
    apply (key_map_keeps_nan items _ m' k item H Hk).
    rewrite dict_set_new by (intros k0 _; apply (proj2 (py_eqb_nan k k0 Hk))).
    apply in_or_app. right. now left.
  - destruct (smart_row_key options (snd it)) as [[k'|]|e]; simpl in H; [| |discriminate];
      now apply (IH _ m' item k H).
Qed.

(** The rows offered are the rows of the block from the start row on. *)
Lemma in_offered (data : list (list pyval)) (skip_header : bool)
  (i : nat) (row : list pyval) :
  In (i, row) (offered options data skip_header) <->
  (if skip_header then header_row_index options + 1 else 0) <= i
  /\ nth_error data i = Some row.
Proof.
  unfold offered.
  set (n := if skip_header then header_row_index options + 1 else 0).
  rewrite (enumerate_nth row data), skipn_map, skipn_seq, in_map_iff. split.
  - intros (k & Hk & Hin). inversion Hk; subst. apply in_seq in Hin.
    split; [lia|]. rewrite (nth_error_nth' data row); [reflexivity | lia].
  - intros [Hn H]. exists i. split.
    + f_equal. now apply nth_error_nth.
    + apply in_seq. assert (i < List.length data) by (apply nth_error_Some; congruence).
      lia.
Qed.

Lemma offered_NoDup (data : list (list pyval)) (skip_header : bool) :
  NoDup (map fst (offered options data skip_header)).
Proof.
  unfold offered.
  set (n := if skip_header then header_row_index options + 1 else 0).
  rewrite <- skipn_map, (enumerate_nth [] data), map_map. simpl. rewrite map_id.
  rewrite skipn_seq. apply seq_NoDup.
Qed.

(** A row with a NaN as key keeps an entry of its own, found by the
    object that is its key. *)
Lemma build_key_map_nan (data : list (list pyval)) (skip_header : bool)
  (m : dict pyval (nat * list pyval)) (item : nat * list pyval) (k : pyval)
  (in_b : bool) :
  build_key_map options data skip_header = Ok m ->
  In item (offered options data skip_header) ->
  smart_row_key options (snd item) = Ok (Some k) ->
  py_eqb k k = false ->
  In (k, item) m /\ key_get in_b m (KeyNan in_b (fst item)) = Some item.
Proof.
  intros H Hin Hkey Hk. rewrite build_key_map_steps in H.
  assert (Hm : In (k, item) m) by (apply (key_map_nan_entry _ [] m item k H Hin Hkey Hk)).
  split; [exact Hm|].
  unfold key_get. rewrite Bool.eqb_reflx.
  destruct (find _ m) as [[k' [j row]]|] eqn:E.
  - apply find_some in E. destruct E as [Hin' Hp].
    apply andb_prop in Hp. destruct Hp as [_ Hj]. apply Nat.eqb_eq in Hj.
    destruct (key_map_items _ _ _ H _ Hin') as [Hi|[]]. simpl in Hi. simpl.
    f_equal. destruct item as [i r]. simpl in Hj. subst j. f_equal.
    apply (NoDup_fst_unique _ i row r (offered_NoDup data skip_header) Hi Hin).
  - exfalso. apply (find_none _ _ E) in Hm. destruct item as [i r]. simpl in Hm.
    rewrite Hk, Nat.eqb_refl in Hm. discriminate.
Qed.

End SmartKeyMapGen.

(** Every key object of a map is found in the map. *)
Lemma key_objects_found (in_b : bool) (m : dict pyval (nat * list pyval)) (key : key_obj) :
  In key (key_objects in_b m) -> key_get in_b m key <> None.
Proof.
  unfold key_objects. rewrite in_map_iff. intros ([k [i row]] & Hk & Hin).
  destruct (py_eqb k k) eqn:E; subst key; simpl.
  - apply dict_get_key; [|exact E]. apply in_map_iff. now exists (k, (i, row)).
  - rewrite Bool.eqb_reflx.
    destruct (find _ m) eqn:Ef; [discriminate|].
    apply (find_none _ _ Ef) in Hin. simpl in Hin.
    rewrite E, Nat.eqb_refl in Hin. discriminate.
Qed.

(** *** The rows offered by the handlers *)

Lemma length_extract_range_data (sheet : SheetData) (rng : Rect) :
  List.length (extract_range_data sheet rng) = max_row rng + 1 - min_row rng.
Proof. unfold extract_range_data, range2. now rewrite length_map, length_seq. Qed.

(** The rows of a selection from an offset on. *)
Lemma in_selection_rows (sheet : SheetData) (rng : Rect) (off : nat) (r : keyed_row) :
  In r (skipn off (extract_range_data sheet rng)) <->
  min_row rng + off <= fst r /\ fst r <= max_row rng
  /\ snd r = map (fun col_idx => value_of (cell_at sheet (fst r) col_idx))
               (range2 (min_col rng) (max_col rng + 1)).
Proof.
  unfold extract_range_data, range2. rewrite skipn_map, skipn_seq, in_map_iff. split.
  - intros (i & <- & Hi). apply in_seq in Hi. simpl. repeat split; lia.
  - intros (Hlo & Hhi & Hr). exists (fst r). split.
    + destruct r as [i row]. simpl in *. now subst.
    + apply in_seq. lia.
Qed.

Section SelectionRows.
Variable float_repr : spec_float -> string.
Variable set_iter : list string -> list string.

(** [data_start_offset]: the rows up to the header row are left out when
    the header row is read from the two selections. *)
Lemma selection_offset (sheet_a sheet_b : SheetData) (range_a range_b : Rect)
  (header_row : option nat) (external_header_row : option Z) :
  snd (selection_columns float_repr sheet_a sheet_b range_a range_b
         (extract_range_data sheet_a range_a) (extract_range_data sheet_b range_b)
         header_row external_header_row)
  = match external_header_row, header_row with
    | None, Some h =>
        if (h <? max_row range_a + 1 - min_row range_a)
           && (h <? max_row range_b + 1 - min_row range_b)
        then h + 1 else 0
    | _, _ => 0
    end.
Proof.
  unfold selection_columns. rewrite !length_extract_range_data.
  destruct external_header_row; [reflexivity|].
  destruct header_row as [h|]; [|reflexivity].
  destruct (_ && _); reflexivity.
Qed.

Lemma smart_match_sheet_maps (k1a : Z) (k2a k1b k2b : option Z) (header_row : option Z)
  (options : CompareService.CompareOptions) (sh : string) (sheet_a sheet_b : SheetData)
  (ds : list DiffResult) :
  smart_match_sheet float_repr set_iter (Some k1a) k2a k1b k2b header_row options sh
    sheet_a sheet_b = Ok ds ->
  exists rows_a rows_b,
    build_rows float_repr options (Some k1a) k2a (data_rows sheet_a header_row) = Ok rows_a
    /\ build_rows float_repr options k1b k2b (data_rows sheet_b header_row) = Ok rows_b
    /\ ds = flat_map
              (MainWindow.key_diffs float_repr (Some k1a) k2a k1b k2b options sh
                 (sheet_columns float_repr sheet_a sheet_b header_row) rows_a rows_b)
              (set_iter (dict_keys rows_a ++ dict_keys rows_b)).
Proof.
  unfold smart_match_sheet.
  destruct (build_rows _ _ _ _ (data_rows sheet_a header_row)) as [ma|e]; simpl;
    [|discriminate].
  destruct (build_rows _ _ _ _ (data_rows sheet_b header_row)) as [mb|e]; simpl;
    [|discriminate].
  intro H. inversion H. exists ma, mb. repeat split.
Qed.

Lemma compare_selection_smart_maps (sh : string) (sheet_a sheet_b : SheetData)
  (range_a range_b : Rect) (k1 : Z) (k2 : option Z) (header_row : option nat)
  (options : CompareService.CompareOptions) (external_header_row : option Z)
  (ds : list DiffResult) :
  _compare_selection_smart float_repr set_iter sh sheet_a sheet_b range_a range_b
    (Some k1) k2 header_row options external_header_row = Ok ds ->
  let cols :=
    selection_columns float_repr sheet_a sheet_b range_a range_b
      (extract_range_data sheet_a range_a) (extract_range_data sheet_b range_b)
      header_row external_header_row in
  exists rows_a rows_b,
    build_rows float_repr options (Some k1) k2
      (skipn (snd cols) (extract_range_data sheet_a range_a)) = Ok rows_a
    /\ build_rows float_repr options (Some k1) k2
         (skipn (snd cols) (extract_range_data sheet_b range_b)) = Ok rows_b
    /\ ds = flat_map
              (sel_key_diffs float_repr (Some k1) k2 options sh range_a range_b
                 (fst cols) rows_a rows_b)
              (set_iter (dict_keys rows_a ++ dict_keys rows_b)).
Proof.
  unfold _compare_selection_smart.
  destruct (selection_columns _ _ _ _ _ _ _ _ _) as [col_map start]. simpl.
  destruct (build_rows _ _ _ _ (skipn start (extract_range_data sheet_a range_a)))
    as [ma|e]; simpl; [|discriminate].
  destruct (build_rows _ _ _ _ (skipn start (extract_range_data sheet_b range_b)))
    as [mb|e]; simpl; [|discriminate].
  intro H. inversion H. exists ma, mb. repeat split.
Qed.

End SelectionRows.

(** SmartCompareService.build_key_map keeps one row per key: of the two
    rows of A with the key "k" the second replaces the first, which is
    then neither compared nor reported. *)
Lemma C5_service_keeps_one_row :
  SmartCompareService.build_key_map key_column_0 dup_data_a false
  = Ok [(PStr "k", (1, [PStr "k"; PStr "b"]))]
  /\ SmartCompareService._compare_by_key no_float_repr first_seen_val "S"
       dup_data_a dup_data_b key_column_0 0 0
     = Ok [DiffResult_ "S" 1 1 MODIFIED (PStr "b") (PStr "a") None None].
Proof. split; vm_compute; reflexivity. Qed.

(** C5 (amended). In the handlers of the window the key map sends a key
    to the list of all the rows offered to it that have this key, in
    row order: nothing is overwritten or dropped.  With key columns that
    are not negative the map is built without error and holds every
    offered row whose first key value is not blank, and no other.
    [_compare_with_smart_match] offers the rows of the sheet, the header
    row apart; [_compare_selection_smart] offers the rows of the
    selection from [data_start_offset] on, which is the row after the
    header row when the header row is read from the two selections and
    0 otherwise.  SmartCompareService.build_key_map goes through the
    rows of the block from the start row on and sends a key to one row:
    of the offered rows whose keys are equal, the last (the floats of
    the block being binary64 numbers); a row whose key is a NaN, equal
    to no key, keeps an entry of its own; every key of a map is found in
    it. *)
Theorem C5_key_maps :
  forall (float_repr : spec_float -> string) (set_iter : list string -> list string),
  (forall options col1 col2 data m,
     build_rows float_repr options col1 col2 data = Ok m ->
     forall key,
       rows_of m key = filter (has_key float_repr options col1 col2 key) data)
  /\ (forall options c1 col2 data,
        key_cols_ok (Some c1) col2 ->
        exists m,
          build_rows float_repr options (Some c1) col2 data = Ok m
          /\ (forall r, In r data ->
                non_blank float_repr (nth (Z.to_nat c1) (snd r) PNone) = true ->
                exists key, key_of float_repr options (Some c1) col2 r = Some key
                            /\ In r (rows_of m key))
          /\ (forall r key, In r (rows_of m key) ->
                In r data
                /\ non_blank float_repr (nth (Z.to_nat c1) (snd r) PNone) = true))
  /\ (forall sheet header_row r,
        In r (data_rows sheet header_row) <->
        fst r < row_count sheet /\ is_header_row header_row (fst r) = false
        /\ snd r = extract_row_data sheet (fst r))
  /\ (forall k1a k2a k1b k2b header_row options sh sheet_a sheet_b ds,
        smart_match_sheet float_repr set_iter (Some k1a) k2a k1b k2b header_row options sh
          sheet_a sheet_b = Ok ds ->
        exists rows_a rows_b,
          build_rows float_repr options (Some k1a) k2a (data_rows sheet_a header_row)
          = Ok rows_a
          /\ build_rows float_repr options k1b k2b (data_rows sheet_b header_row)
             = Ok rows_b
          /\ ds = flat_map
                    (MainWindow.key_diffs float_repr (Some k1a) k2a k1b k2b options sh
                       (sheet_columns float_repr sheet_a sheet_b header_row) rows_a rows_b)
                    (set_iter (dict_keys rows_a ++ dict_keys rows_b)))
  /\ (forall sheet rng off r,
        In r (skipn off (extract_range_data sheet rng)) <->
        min_row rng + off <= fst r /\ fst r <= max_row rng
        /\ snd r = map (fun col_idx => value_of (cell_at sheet (fst r) col_idx))
                     (range2 (min_col rng) (max_col rng + 1)))
  /\ (forall sheet_a sheet_b range_a range_b header_row external_header_row,
        snd (selection_columns float_repr sheet_a sheet_b range_a range_b
               (extract_range_data sheet_a range_a) (extract_range_data sheet_b range_b)
               header_row external_header_row)
        = match external_header_row, header_row with
          | None, Some h =>
              if (h <? max_row range_a + 1 - min_row range_a)
                 && (h <? max_row range_b + 1 - min_row range_b)
              then h + 1 else 0
          | _, _ => 0
          end)
  /\ (forall sh sheet_a sheet_b range_a range_b k1 k2 header_row options
             external_header_row ds,
        _compare_selection_smart float_repr set_iter sh sheet_a sheet_b range_a range_b
          (Some k1) k2 header_row options external_header_row = Ok ds ->
        let cols :=
          selection_columns float_repr sheet_a sheet_b range_a range_b
            (extract_range_data sheet_a range_a) (extract_range_data sheet_b range_b)
            header_row external_header_row in
        exists rows_a rows_b,
          build_rows float_repr options (Some k1) k2
            (skipn (snd cols) (extract_range_data sheet_a range_a)) = Ok rows_a
          /\ build_rows float_repr options (Some k1) k2
               (skipn (snd cols) (extract_range_data sheet_b range_b)) = Ok rows_b
          /\ ds = flat_map
                    (sel_key_diffs float_repr (Some k1) k2 options sh range_a range_b
                       (fst cols) rows_a rows_b)
                    (set_iter (dict_keys rows_a ++ dict_keys rows_b)))
  /\ (forall options data skip_header,
        SmartCompareService.build_key_map options data skip_header
        = foldM (key_map_step options) (offered options data skip_header) [])
  /\ (forall options data skip_header i row,
        In (i, row) (offered options data skip_header) <->
        (if skip_header then SmartCompareService.header_row_index options + 1 else 0) <= i
        /\ nth_error data i = Some row)
  /\ (forall options data skip_header m before item after k,
        Forall (Forall (fun v => binary64_val v = true)) data ->
        SmartCompareService.build_key_map options data skip_header = Ok m ->
        offered options data skip_header = before ++ item :: after ->
        smart_row_key options (snd item) = Ok (Some k) ->
        py_eqb k k = true ->
        (forall later k', In later after ->
           smart_row_key options (snd later) = Ok (Some k') -> py_eqb k' k = false) ->
        dict_get py_eqb m k = Some item)
  /\ (forall options data skip_header m item k in_b,
        SmartCompareService.build_key_map options data skip_header = Ok m ->
        In item (offered options data skip_header) ->
        smart_row_key options (snd item) = Ok (Some k) ->
        py_eqb k k = false ->
        In (k, item) m
        /\ SmartCompareService.key_get in_b m (SmartCompareService.KeyNan in_b (fst item))
           = Some item)
  /\ (forall in_b m key,
        In key (SmartCompareService.key_objects in_b m) ->
        SmartCompareService.key_get in_b m key <> None).
Proof.
  intros float_repr set_iter.
  split; [apply build_rows_spec|].
  split.
  { intros options c1 col2 data Hok.
    destruct (build_rows_total float_repr options (Some c1) col2 data Hok) as (m & Hm).
    exists m. split; [exact Hm|]. split.
    - intros r Hin Hnb.
      destruct (proj1 (key_of_non_blank float_repr options c1 col2 r Hok) Hnb) as (k & Hk).
      exists k. split; [exact Hk|].
      rewrite (build_rows_spec _ _ _ _ _ _ Hm). apply filter_In. split; [exact Hin|].
      unfold has_key. rewrite Hk. apply String.eqb_refl.
    - intros r key Hin. rewrite (build_rows_spec _ _ _ _ _ _ Hm) in Hin.
      apply filter_In in Hin. destruct Hin as [Hin Hk]. split; [exact Hin|].
      destruct (non_blank float_repr (nth (Z.to_nat c1) (snd r) PNone)) eqn:E;
        [reflexivity|].
      unfold has_key in Hk.
      rewrite (proj2 (key_of_non_blank float_repr options c1 col2 r Hok) E) in Hk.
      discriminate. }
  split; [apply in_data_rows|].
  split; [intros; eapply smart_match_sheet_maps; eassumption|].
  split; [apply in_selection_rows|].
  split; [apply selection_offset|].
  split; [intros; eapply compare_selection_smart_maps; eassumption|].
  split; [apply build_key_map_steps|].
  split; [apply in_offered|].
  split; [intros; eapply build_key_map_last_val; eassumption|].
  split; [intros; eapply build_key_map_nan; eassumption|].
  apply key_objects_found.
Qed.

(** The statement of C5 at two rows with the key "k" in the window, and
    at two rows with the keys 1 and 1.0 in SmartCompareService. *)
Lemma C5_witness :
  (exists m,
     build_rows no_float_repr CompareService.default_options (Some 0%Z) None
       [(0, [PStr "k"; PStr "a"]); (1, [PStr "k"; PStr "b"])] = Ok m
     /\ rows_of m "k" = [(0, [PStr "k"; PStr "a"]); (1, [PStr "k"; PStr "b"])])
  /\ (exists m,
        SmartCompareService.build_key_map key_column_0 num_key_data false = Ok m
        /\ dict_get py_eqb m (PFloat one_float)
           = Some (1, [PFloat one_float; PStr "b"])).
Proof.
  destruct (C5_key_maps no_float_repr first_seen)
    as (H & _ & _ & _ & _ & _ & _ & _ & _ & Hlast & _).
  split.
  - exists [("k", [(0, [PStr "k"; PStr "a"]); (1, [PStr "k"; PStr "b"])])].
    split; [reflexivity|].
    rewrite (H CompareService.default_options (Some 0%Z) None
               [(0, [PStr "k"; PStr "a"]); (1, [PStr "k"; PStr "b"])]
               [("k", [(0, [PStr "k"; PStr "a"]); (1, [PStr "k"; PStr "b"])])]
               eq_refl "k").
    reflexivity.
  - exists [(PInt 1, (1, [PFloat one_float; PStr "b"]))].
    split; [reflexivity|].
    apply (Hlast key_column_0 num_key_data false
             [(PInt 1, (1, [PFloat one_float; PStr "b"]))]
             [(0, [PInt 1; PStr "a"])] (1, [PFloat one_float; PStr "b"]) []
             (PFloat one_float)).
    + apply Forall_forall. intros row [<-|[<-|[]]]; apply Forall_forall;
        intros v [<-|[<-|[]]]; reflexivity.
    + reflexivity.
    + reflexivity.
    + reflexivity.
    + reflexivity.
    + intros later k' [].
Defined.

(** *** What the records carry *)


Lemma in_opt_list {A : Type} (o : option A) (x : A) : In x (opt_list o) <-> o = Some x.
Proof.
  destruct o; simpl; split; try tauto; try discriminate.
  - intros [->|[]]. reflexivity.
  - intro H. inversion H. now left.
Qed.



Lemma strip_empty : strip "" = "".
Proof. reflexivity. Qed.



(** *** Records of [_compare_cells] *)







(** *** Records of CompareService *)










(** *** Records made from a formula *)






(** *** Records of SmartCompareService *)





Section SmartRecords.

Variable float_repr : spec_float -> string.
Variable set_iter : list string -> list string.
Variable set_iter_val :
  list SmartCompareService.key_obj -> list SmartCompareService.key_obj.





End SmartRecords.

(** *** Records of the handlers *)

Import MainWindow.



Section HandlerRecords.

Variable float_repr : spec_float -> string.
Variable set_iter : list string -> list string.














End HandlerRecords.

(** *** The four entry points *)




(** *** The cell-diff rule in CompareService *)

(** X1. [_compare_cells] follows the cell-diff rule on the two values left
    by the ignore options: two empty values give no record; two unequal
    values that are not both empty give a record with the values of the
    cells, Added when the A side is empty, Deleted when the B side is,
    Modified otherwise; two equal values that are not empty give a
    FormatChanged record when formats are compared and the styles
    differ, and nothing otherwise. *)
Theorem compare_cells_rule :
  forall (sh : string) (r c : nat) (cell_a cell_b : option CellData)
         (options : CompareService.CompareOptions),
    let val_a :=
      fst (CompareService.normalize_pair options (value_of cell_a) (value_of cell_b)) in
    let val_b :=
      snd (CompareService.normalize_pair options (value_of cell_a) (value_of cell_b)) in
    (empty val_a = true /\ empty val_b = true ->
     CompareService._compare_cells sh r c cell_a cell_b options = None)
    /\ (py_eqb val_a val_b = false -> empty val_a && empty val_b = false ->
        CompareService._compare_cells sh r c cell_a cell_b options
        = Some (DiffResult_ sh r c
                  (if empty val_a then ADDED
                   else if empty val_b then DELETED else MODIFIED)
                  (value_of cell_a) (value_of cell_b) None None))
    /\ (py_eqb val_a val_b = true -> empty val_a = false ->
        CompareService._compare_cells sh r c cell_a cell_b options
        = if negb (CompareService.ignore_format options)
             && CompareService._compare_styles cell_a cell_b
          then Some (DiffResult_ sh r c FORMAT_CHANGED val_a val_b None None)
          else None).
Proof.
  intros sh r c cell_a cell_b options val_a val_b.
  unfold CompareService._compare_cells. subst val_a val_b.
  destruct (CompareService.normalize_pair options (value_of cell_a) (value_of cell_b))
    as [va vb]. simpl. unfold empty.
  repeat split.
  - intros [-> ->]. reflexivity.
  - intros Hne Hnb. rewrite Hnb, Hne. unfold CompareService.classify.
    destruct (CompareService.empty_val va), (CompareService.empty_val vb);
      try discriminate; reflexivity.
  - intros Heq Ha. rewrite Ha, Heq. reflexivity.
Qed.

(** *** Sorting by a total order *)

Lemma ascii_compare_lt_trans (a b c : ascii) :
  Ascii.compare a b = Lt -> Ascii.compare b c = Lt -> Ascii.compare a c = Lt.
Proof.
  unfold Ascii.compare. rewrite !N.compare_lt_iff. apply N.lt_trans.
Qed.

Lemma string_compare_lt_trans (s1 : string) :
  forall s2 s3,
    String.compare s1 s2 = Lt -> String.compare s2 s3 = Lt -> String.compare s1 s3 = Lt.
Proof.
  induction s1 as [|a s1 IH]; intros [|b s2] [|c s3]; simpl; try discriminate;
    try reflexivity.
  destruct (Ascii.compare a b) eqn:Eab; try discriminate;
    destruct (Ascii.compare b c) eqn:Ebc; try discriminate; intros H1 H2.
  - apply Ascii.compare_eq_iff in Eab, Ebc. subst b c.
    assert (E : Ascii.compare a a = Eq)
      by (unfold Ascii.compare; apply N.compare_refl).
    rewrite E. now apply (IH s2).
  - apply Ascii.compare_eq_iff in Eab. subst b. now rewrite Ebc.
  - apply Ascii.compare_eq_iff in Ebc. subst c. now rewrite Eab.
  - now rewrite (ascii_compare_lt_trans a b c).
Qed.

Lemma string_leb_trans (s1 s2 s3 : string) :
  String.leb s1 s2 = true -> String.leb s2 s3 = true -> String.leb s1 s3 = true.
Proof.
  unfold String.leb.
  destruct (String.compare s1 s2) eqn:E12; try discriminate;
    destruct (String.compare s2 s3) eqn:E23; try discriminate; intros _ _.
  - apply String.compare_eq_iff in E12. subst s2. now rewrite E23.
  - apply String.compare_eq_iff in E12. subst s2. now rewrite E23.
  - apply String.compare_eq_iff in E23. subst s3. now rewrite E12.
  - now rewrite (string_compare_lt_trans s1 s2 s3).
Qed.

Section SortedBy.

Variable A : Type.
Variable leb : A -> A -> bool.
Hypothesis leb_total : forall x y, leb x y = true \/ leb y x = true.
Hypothesis leb_trans : forall x y z, leb x y = true -> leb y z = true -> leb x z = true.

Local Abbreviation leq := (fun x y => leb x y = true).

Lemma insert_sorted_permutation (x : A) (l : list A) :
  Permutation (insert_sorted leb x l) (x :: l).
Proof.
  induction l as [|y l IH]; simpl; [reflexivity|].
  destruct (leb x y); [reflexivity|].
  rewrite IH. apply perm_swap.
Qed.

Lemma sorted_by_permutation (l : list A) : Permutation (sorted_by leb l) l.
Proof.
  induction l as [|x l IH]; simpl; [reflexivity|].
  rewrite insert_sorted_permutation. now constructor.
Qed.

Lemma insert_sorted_sorted (x : A) (l : list A) :
  StronglySorted leq l -> StronglySorted leq (insert_sorted leb x l).
Proof.
  induction 1 as [|y l Hs IH Hall]; simpl.
  - repeat constructor.
  - destruct (leb x y) eqn:E.
    + constructor; [now constructor|].
      constructor; [exact E|].
      rewrite Forall_forall in *. intros z Hz. apply (leb_trans x y z E). now apply Hall.
    + constructor; [exact IH|].
      apply Forall_forall. intros z Hz.
      apply (Permutation_in _ (insert_sorted_permutation x l)) in Hz.
      destruct Hz as [<-|Hz].
      * destruct (leb_total x y) as [H|H]; [congruence | exact H].
      * rewrite Forall_forall in Hall. now apply Hall.
Qed.

Lemma sorted_by_sorted (l : list A) : StronglySorted leq (sorted_by leb l).
Proof.
  induction l as [|x l IH]; simpl; [constructor | now apply insert_sorted_sorted].
Qed.

(** Two sorted lists with the same elements are the same list when the
    order tells their elements apart. *)
Lemma sorted_unique (l1 : list A) :
  forall l2,
    StronglySorted leq l1 -> StronglySorted leq l2 -> Permutation l1 l2 ->
    (forall x y, In x l1 -> In y l1 -> leb x y = true -> leb y x = true -> x = y) ->
    l1 = l2.
Proof.
  induction l1 as [|x l1 IH]; intros l2 H1 H2 Hp Hanti.
  - apply Permutation_nil in Hp. now subst.
  - destruct l2 as [|y l2]; [apply Permutation_sym, Permutation_nil in Hp; discriminate|].
    inversion H1 as [|? ? Hs1 Hall1]; subst. inversion H2 as [|? ? Hs2 Hall2]; subst.
    rewrite Forall_forall in Hall1, Hall2.
    assert (Hxy : x = y).
    { assert (Hx : In x (y :: l2)) by (apply (Permutation_in _ Hp); now left).
      assert (Hy : In y (x :: l1))
        by (apply (Permutation_in _ (Permutation_sym Hp)); now left).
      destruct Hx as [Hx|Hx]; [now subst|].
      destruct Hy as [Hy|Hy]; [now subst|].
      apply Hanti; [now left | now right | now apply Hall1 | now apply Hall2]. }
    subst y. f_equal.
    apply IH; try assumption.
    + now apply Permutation_cons_inv in Hp.
    + intros a b Ha Hb. apply Hanti; now right.
Qed.

Lemma sorted_by_unique (l1 l2 : list A) :
  Permutation l1 l2 ->
  (forall x y, In x l1 -> In y l1 -> leb x y = true -> leb y x = true -> x = y) ->
  sorted_by leb l1 = sorted_by leb l2.
Proof.
  intros Hp Hanti. apply sorted_unique; try apply sorted_by_sorted.
  - rewrite !sorted_by_permutation. exact Hp.
  - intros x y Hx Hy. apply Hanti; apply (Permutation_in _ (sorted_by_permutation l1));
      assumption.
Qed.

End SortedBy.

(** *** The keys of SmartCompareService *)

Lemma in_dict_keys_set {V : Type} (d : dict pyval V) (k' k : pyval) (v : V) :
  In k (dict_keys (dict_set py_eqb d k' v)) -> k = k' \/ In k (dict_keys d).
Proof.
  unfold dict_keys. induction d as [|[k0 v0] d IH]; simpl.
  - intros [H|[]]. now left.
  - destruct (py_eqb k0 k'); simpl.
    + intros [H|H]; right; [now left | now right].
    + intros [H|H]; [right; now left|].
      destruct (IH H); [now left | right; now right].
Qed.

Lemma text_data_In (data : list (list pyval)) (row : list pyval) (v : pyval) :
  text_data data = true -> In row data -> In v row -> is_str v = true \/ v = PNone.
Proof.
  unfold text_data. rewrite forallb_forall. intros H Hrow Hv.
  specialize (H row Hrow). rewrite forallb_forall in H. specialize (H v Hv).
  apply orb_true_iff in H. destruct H as [H|H]; [now left | right].
  destruct v; try discriminate. reflexivity.
Qed.

Lemma smart_row_key_text (options : SmartCompareService.SmartCompareOptions)
  (row : list pyval) (k : pyval) :
  (forall v, In v row -> is_str v = true \/ v = PNone) ->
  smart_row_key options row = Ok (Some k) -> is_str k = true.
Proof.
  intros Hrow. unfold smart_row_key.
  destruct (_ <? _)%Z; [|discriminate].
  destruct (py_index row _) as [key|e] eqn:E; simpl; [|discriminate].
  destruct (negb (is_none key) && py_neqb key (PStr "")) eqn:Ek; [|discriminate].
  intro H. inversion H; subst k; clear H.
  apply py_index_In in E. destruct (Hrow key E) as [Hs| ->]; [|discriminate].
  destruct key; try discriminate.
  destruct (SmartCompareService.ignore_case options),
    (SmartCompareService.ignore_whitespace options); reflexivity.
Qed.

Lemma key_map_text_keys (options : SmartCompareService.SmartCompareOptions)
  (items : list (nat * list pyval)) :
  forall m m',
    (forall item v, In item items -> In v (snd item) -> is_str v = true \/ v = PNone) ->
    Forall (fun k => is_str k = true) (dict_keys m) ->
    foldM (key_map_step options) items m = Ok m' ->
    Forall (fun k => is_str k = true) (dict_keys m').
Proof.
  induction items as [|item items IH]; intros m m' Hitems Hm H; simpl in H.
  - now inversion H; subst.
  - unfold key_map_step at 1 in H.
    destruct (smart_row_key options (snd item)) as [[k|]|e] eqn:E; simpl in H;
      [| |discriminate].
    + apply (IH _ _ (fun i v Hi => Hitems i v (or_intror Hi)) ) in H; [exact H|].
      apply Forall_forall. intros k' Hk'. apply in_dict_keys_set in Hk'.
      destruct Hk' as [->|Hk'].
      * eapply smart_row_key_text; [|exact E]. intros v. apply Hitems. now left.
      * rewrite Forall_forall in Hm. now apply Hm.
    + apply (IH _ _ (fun i v Hi => Hitems i v (or_intror Hi)) Hm H).
Qed.

Lemma build_key_map_text_keys (options : SmartCompareService.SmartCompareOptions)
  (data : list (list pyval)) (skip_header : bool) (m : dict pyval (nat * list pyval)) :
  text_data data = true ->
  SmartCompareService.build_key_map options data skip_header = Ok m ->
  Forall (fun k => is_str k = true) (dict_keys m).
Proof.
  intros Ht H. rewrite build_key_map_steps in H.
  eapply key_map_text_keys; [| |exact H]; [|constructor].
  intros [i row] v Hi Hv. unfold offered in Hi. apply in_skipn in Hi.
  apply in_enumerate in Hi. simpl in *.
  eapply text_data_In; [exact Ht | | exact Hv].
  eapply nth_error_In. exact Hi.
Qed.

Lemma key_objects_text (in_b : bool) (m : dict pyval (nat * list pyval)) :
  Forall (fun k => is_str k = true) (dict_keys m) ->
  Forall (fun k => is_text_key k = true) (key_objects in_b m).
Proof.
  unfold dict_keys, key_objects. induction m as [|[k [i row]] m IH]; simpl; intro H.
  - constructor.
  - inversion H; subst. constructor; [|now apply IH].
    destruct k; try discriminate. now rewrite py_eqb_str_refl.
Qed.

Lemma key_eqb_text (x y : key_obj) :
  is_text_key x = true -> key_eqb x y = true -> y = x.
Proof.
  destruct x as [v|b i]; [|discriminate]. destruct v; try discriminate. intros _.
  destruct y as [w|b j]; [|discriminate]. simpl. intro H.
  apply py_eqb_str_l in H. now subst.
Qed.

Lemma key_eqb_text_refl (x : key_obj) : is_text_key x = true -> key_eqb x x = true.
Proof.
  destruct x as [v|b i]; [|discriminate]. destruct v; try discriminate. intros _.
  apply py_eqb_str_refl.
Qed.

Lemma first_seen_val_In (l : list key_obj) (x : key_obj) :
  Forall (fun k => is_text_key k = true) l -> In x (first_seen_val l) <-> In x l.
Proof.
  induction 1 as [|y l Hy Hl IH]; simpl; [tauto|].
  rewrite filter_In, IH. split.
  - intros [H|[H _]]; [now left | now right].
  - intros [H|H]; [now left|].
    destruct (key_eqb y x) eqn:E.
    + left. symmetry. now apply key_eqb_text.
    + right. now split.
Qed.

Lemma first_seen_val_NoDup (l : list key_obj) :
  Forall (fun k => is_text_key k = true) l -> NoDup (first_seen_val l).
Proof.
  induction 1 as [|y l Hy Hl IH]; simpl; constructor.
  - rewrite filter_In. intros [_ H].
    rewrite (key_eqb_text_refl y Hy) in H. discriminate.
  - now apply NoDup_filter.
Qed.

Lemma first_seen_val_is_set_iter : is_text_set_iter first_seen_val.
Proof.
  intros l Hl. split; [now apply first_seen_val_NoDup|].
  intro x. now apply first_seen_val_In.
Qed.

Lemma last_seen_first_val_is_set_iter : is_text_set_iter last_seen_first_val.
Proof.
  intros l Hl. unfold last_seen_first_val. split.
  - apply NoDup_rev. now apply first_seen_val_NoDup.
  - intro x. rewrite <- in_rev. now apply first_seen_val_In.
Qed.

(** X2. In SmartCompareService._compare_by_key the keys of the two maps are
    processed in ascending order of their string form: the records are
    those of the keys taken in a sorted arrangement of the key set.
    When the cells of the two blocks are texts (or [None]) the result is
    the same whatever the order in which the key set is iterated. *)
Theorem compare_by_key_sorted_order :
  forall (float_repr : spec_float -> string)
         (set_iter_val other_iter_val :
            list SmartCompareService.key_obj -> list SmartCompareService.key_obj)
         (sh : string) (data_a data_b : list (list pyval))
         (options : SmartCompareService.SmartCompareOptions) (ro co : nat),
  (forall ds,
     SmartCompareService._compare_by_key float_repr set_iter_val sh data_a data_b
       options ro co = Ok ds ->
     exists map_a map_b keys,
       SmartCompareService.build_key_map options data_a
         (SmartCompareService.use_header_row options) = Ok map_a
       /\ SmartCompareService.build_key_map options data_b
            (SmartCompareService.use_header_row options) = Ok map_b
       /\ Permutation keys
            (set_iter_val (SmartCompareService.key_objects false map_a
                           ++ SmartCompareService.key_objects true map_b))
       /\ StronglySorted (str_le float_repr) keys
       /\ ds = flat_map (SmartCompareService.key_diffs options sh ro co map_a map_b) keys)
  /\ (is_text_set_iter set_iter_val -> is_text_set_iter other_iter_val ->
      text_data data_a = true -> text_data data_b = true ->
      SmartCompareService._compare_by_key float_repr set_iter_val sh data_a data_b
        options ro co
      = SmartCompareService._compare_by_key float_repr other_iter_val sh data_a data_b
          options ro co).
Proof.
  intros float_repr siv1 siv2 sh data_a data_b options ro co.
  unfold SmartCompareService._compare_by_key. split.
  - intros ds H.
    destruct (SmartCompareService.build_key_map options data_a _) as [ma|e]; simpl in H;
      [|discriminate].
    destruct (SmartCompareService.build_key_map options data_b _) as [mb|e]; simpl in H;
      [|discriminate].
    inversion H; subst ds; clear H.
    exists ma, mb,
      (SmartCompareService.sorted_keys float_repr
         (siv1 (key_objects false ma ++ key_objects true mb))).
    repeat split.
    + apply sorted_by_permutation.
    + apply (sorted_by_sorted key_obj
               (fun x y => String.leb (py_str float_repr (key_value x))
                             (py_str float_repr (key_value y)))).
      * intros x y. apply String.leb_total.
      * intros x y z. apply string_leb_trans.
  - intros H1 H2 Ha Hb.
    destruct (SmartCompareService.build_key_map options data_a _) as [ma|e] eqn:Ea; simpl;
      [|reflexivity].
    destruct (SmartCompareService.build_key_map options data_b _) as [mb|e] eqn:Eb; simpl;
      [|reflexivity].
    assert (Hkeys : Forall (fun k => is_text_key k = true)
                      (key_objects false ma ++ key_objects true mb)).
    { apply Forall_app. split; apply key_objects_text.
      - exact (build_key_map_text_keys options data_a _ ma Ha Ea).
      - exact (build_key_map_text_keys options data_b _ mb Hb Eb). }
    destruct (H1 _ Hkeys) as [Hnd1 Hin1]. destruct (H2 _ Hkeys) as [Hnd2 Hin2].
    do 2 f_equal. unfold SmartCompareService.sorted_keys.
    apply sorted_by_unique.
    + intros x y. apply String.leb_total.
    + intros x y z. apply string_leb_trans.
    + apply NoDup_Permutation; try assumption.
      intro x. now rewrite Hin1, Hin2.
    + intros x y Hx Hy Hxy Hyx.
      apply Hin1 in Hx, Hy. rewrite Forall_forall in Hkeys.
      apply Hkeys in Hx, Hy.
      destruct x as [x|? ?], y as [y|? ?]; try discriminate.
      destruct x, y; try discriminate. simpl in Hxy, Hyx.
      do 2 f_equal. exact (String.leb_antisym _ _ Hxy Hyx).
Qed.

(** The statement at two blocks keyed by "a" and "b", for the set
    iterated in the order of insertion and in the reverse of it. *)
Lemma compare_by_key_sorted_order_witness :
  SmartCompareService._compare_by_key no_float_repr first_seen_val "S"
    [[PStr "b"; PStr "2"]; [PStr "a"; PStr "1"]] [[PStr "a"; PStr "9"]; [PStr "b"; PStr "8"]]
    key_column_0 0 0
  = SmartCompareService._compare_by_key no_float_repr last_seen_first_val "S"
      [[PStr "b"; PStr "2"]; [PStr "a"; PStr "1"]] [[PStr "a"; PStr "9"]; [PStr "b"; PStr "8"]]
      key_column_0 0 0.
Proof.
  apply (proj2 (compare_by_key_sorted_order no_float_repr first_seen_val last_seen_first_val
                  "S" _ _ key_column_0 0 0)).
  - apply first_seen_val_is_set_iter.
  - apply last_seen_first_val_is_set_iter.
  - reflexivity.
  - reflexivity.
Defined.

(** ** Part VIII. Further properties of the code *)

(** *** The counts of a summary *)

Lemma count_type_cons (t : DiffType) (d : DiffResult) (ds : list DiffResult) :
  count_type t (d :: ds)
  = (if DiffType_eqb (diff_type d) t then 1 else 0) + count_type t ds.
Proof.
  unfold count_type. simpl. destruct (DiffType_eqb (diff_type d) t); reflexivity.
Qed.

Lemma summarize_counts (ds : list DiffResult) (s : DiffSummary) :
  summarize s ds
  = mk_summary (total s + List.length ds) (modified s + count_type MODIFIED ds)
      (added s + count_type ADDED ds) (deleted s + count_type DELETED ds)
      (format_changed s + count_type FORMAT_CHANGED ds).
Proof.
  revert s. induction ds as [|d ds IH]; intro s.
  - destruct s. unfold count_type. simpl. f_equal; lia.
  - change (summarize s (d :: ds)) with (summarize (add_diff s (diff_type d)) ds).
    rewrite IH, !count_type_cons. simpl List.length.
    destruct (diff_type d); simpl; f_equal; lia.
Qed.

Lemma summarize_counted (ds : list DiffResult) : summarize empty_summary ds = counted ds.
Proof. rewrite summarize_counts. reflexivity. Qed.

Lemma counted_total (ds : list DiffResult) :
  total (counted ds)
  = modified (counted ds) + added (counted ds) + deleted (counted ds)
    + format_changed (counted ds).
Proof.
  unfold counted, count_type. simpl. induction ds as [|d ds IH]; simpl; [reflexivity|].
  destruct (diff_type d); simpl; lia.
Qed.

Lemma compare_summary (set_iter : list string -> list string)
  (workbook_a workbook_b : WorkbookData) (mode : CompareService.CompareMode)
  (options : option CompareService.CompareOptions) (selected_sheets : option (list string))
  (r : CompareResult) :
  CompareService.compare set_iter workbook_a workbook_b mode options selected_sheets = Ok r ->
  summary r = summarize empty_summary (diffs r).
Proof.
  unfold CompareService.compare. intro H.
  destruct (foldM _ _ ([], empty_summary)) as [res|e] eqn:E; simpl in H; [|discriminate].
  inversion H; subst r; clear H. simpl.
  apply compare_fold_Ok in E. destruct E as (per & _ & Hd & Hs). simpl in Hd, Hs.
  now rewrite Hs, Hd.
Qed.

(** X3. The summary of a result counts its records: [total] is the
    number of records, each of the four other fields the number of
    records of its kind, and [total] is their sum.  This holds for the
    results of CompareService.compare, of
    SmartCompareService.compare_with_range and of the two handlers of
    the window. *)
Theorem summary_counts_the_records :
  forall (float_repr : spec_float -> string) (set_iter : list string -> list string)
         (set_iter_val :
            list SmartCompareService.key_obj -> list SmartCompareService.key_obj),
  (forall workbook_a workbook_b mode options selected_sheets r,
     CompareService.compare set_iter workbook_a workbook_b mode options selected_sheets
     = Ok r ->
     summary r = counted (diffs r))
  /\ (forall workbook_a workbook_b sheet_name options r,
        SmartCompareService.compare_with_range float_repr set_iter set_iter_val
          workbook_a workbook_b sheet_name options = Ok r ->
        summary r = counted (diffs r))
  /\ (forall workbook_a workbook_b k1a k2a k1b k2b header_row options selected_sheets r,
        MainWindow._compare_with_smart_match float_repr set_iter workbook_a workbook_b
          k1a k2a k1b k2b header_row options selected_sheets = Ok r ->
        summary r = counted (diffs r))
  /\ (forall workbook_a workbook_b sheet_name sel_a sel_b key_a key_b header_row_abs
             options r,
        MainWindow._compare_selection float_repr set_iter workbook_a workbook_b sheet_name
          sel_a sel_b key_a key_b header_row_abs options = MainWindow.Compared r ->
        summary r = counted (diffs r))
  /\ (forall ds,
        total (counted ds) = List.length ds
        /\ total (counted ds)
           = modified (counted ds) + added (counted ds) + deleted (counted ds)
             + format_changed (counted ds)).
Proof.
  intros float_repr set_iter set_iter_val. repeat split.
  - intros wa wb mode options sel r H. apply compare_summary in H.
    now rewrite H, summarize_counted.
  - intros wa wb sh options r. unfold SmartCompareService.compare_with_range.
    destruct (get_sheet wa sh); [|discriminate].
    destruct (get_sheet wb sh); [|discriminate].
    destruct (SmartCompareService.use_key_column options);
      [|destruct (SmartCompareService.use_header_row options)];
      try (destruct (SmartCompareService._compare_by_key _ _ _ _ _ _ _ _); simpl;
           [|discriminate]);
      try (destruct (SmartCompareService._compare_by_header _ _ _ _ _ _ _ _); simpl;
           [|discriminate]);
      simpl; intro H; inversion H; simpl; apply summarize_counted.
  - intros wa wb k1a k2a k1b k2b h options sel r.
    unfold MainWindow._compare_with_smart_match.
    destruct (mapM _ _); simpl; [|discriminate].
    intro H. inversion H. simpl. apply summarize_counted.
  - intros wa wb sh sa sb ka kb h options r. unfold MainWindow._compare_selection.
    destruct wa, wb; try discriminate. destruct sa, sb; try discriminate.
    repeat match goal with
           | |- (if ?c then _ else _) = _ -> _ => destruct c; try discriminate
           end.
    destruct (get_sheet _ sh); [|discriminate].
    destruct (get_sheet _ sh); [|discriminate].
    match goal with |- match ?c with Ok _ => _ | Raise _ => _ end = _ -> _ =>
      destruct c; [|discriminate] end.
    intro H. inversion H. simpl. apply summarize_counted.
  - apply counted_total.
Qed.

(** *** A sheet against itself *)

Lemma SFeqb_nan (f : spec_float) : SFeqb f f = false -> f = S754_nan.
Proof.
  destruct f as [s|s| |s m e]; try reflexivity; intro H; exfalso;
    rewrite SFeqb_refl in H by reflexivity; discriminate.
Qed.

Lemma py_eqb_refl (v : pyval) : no_nan_val v = true -> py_eqb v v = true.
Proof.
  destruct v; simpl; intro H.
  - reflexivity.
  - apply String.eqb_refl.
  - apply Z.eqb_refl.
  - now apply SFeqb_refl.
  - destruct b; reflexivity.
  - apply datetime_eqb_refl.
Qed.

Lemma no_nan_lower (v : pyval) : no_nan_val (CompareService.lower_val v) = no_nan_val v.
Proof. destruct v; reflexivity. Qed.

Lemma no_nan_strip (v : pyval) : no_nan_val (CompareService.strip_val v) = no_nan_val v.
Proof. destruct v; reflexivity. Qed.

Lemma normalize_pair_same (options : CompareService.CompareOptions) (v : pyval) :
  exists w, CompareService.normalize_pair options v v = (w, w)
            /\ no_nan_val w = no_nan_val v.
Proof.
  unfold CompareService.normalize_pair.
  destruct (CompareService.ignore_case options && is_str v && is_str v);
    destruct (CompareService.ignore_whitespace options); eexists; split;
    try reflexivity; now rewrite ?no_nan_strip, ?no_nan_lower.
Qed.

Lemma compare_styles_same (c : CellData) :
  no_nan_cell c = true -> CompareService._compare_styles (Some c) (Some c) = false.
Proof.
  unfold no_nan_cell, CompareService._compare_styles. intro H.
  apply andb_true_iff in H. destruct H as [_ H].
  destruct (style c) as [s|]; [|reflexivity].
  assert (Hs : forall o : option string, CompareService.opt_neqb String.eqb o o = false).
  { intros [x|]; simpl; [now rewrite String.eqb_refl | reflexivity]. }
  rewrite !Hs. simpl.
  destruct (font_size s) as [f|]; simpl.
  - rewrite (SFeqb_refl f H). simpl. now rewrite Bool.eqb_reflx.
  - now rewrite Bool.eqb_reflx.
Qed.

Lemma compare_cells_same (sh : string) (r c : nat) (cell : option CellData)
  (options : CompareService.CompareOptions) :
  match cell with Some x => no_nan_cell x = true | None => True end ->
  CompareService._compare_cells sh r c cell cell options = None.
Proof.
  intro H. unfold CompareService._compare_cells.
  destruct (normalize_pair_same options (value_of cell)) as (w & -> & Hw).
  destruct (CompareService.empty_val w); simpl; [reflexivity|].
  assert (Hv : no_nan_val (value_of cell) = true).
  { destruct cell as [x|]; [|reflexivity]. simpl.
    unfold no_nan_cell in H. now apply andb_true_iff in H. }
  rewrite py_eqb_refl by congruence.
  destruct cell as [x|].
  - rewrite (compare_styles_same x H). now rewrite andb_false_r.
  - simpl. now rewrite andb_false_r.
Qed.

Lemma get_cell_In (sheet : SheetData) (row col : Z) (cell : CellData) :
  get_cell sheet row col = Some cell ->
  exists cells, In cells (rows sheet) /\ In cell cells
                /\ nth_error (rows sheet) (Z.to_nat row) = Some cells.
Proof.
  unfold get_cell.
  destruct ((0 <=? row)%Z && (row <? Z.of_nat (List.length (rows sheet)))%Z) eqn:Er;
    [|discriminate].
  destruct ((0 <=? col)%Z && _) eqn:Ec; [|discriminate].
  intro H. apply andb_true_iff in Er. destruct Er as [Er0 Er1].
  apply Z.leb_le in Er0. apply Z.ltb_lt in Er1.
  exists (nth (Z.to_nat row) (rows sheet) []).
  assert (Hlt : Z.to_nat row < List.length (rows sheet)) by lia.
  repeat split.
  - now apply nth_In.
  - eapply nth_error_In. exact H.
  - now apply nth_error_nth'.
Qed.

Lemma no_nan_cell_at (sheet : SheetData) (r c : nat) :
  no_nan_sheet sheet = true ->
  match cell_at sheet r c with Some x => no_nan_cell x = true | None => True end.
Proof.
  intro H. destruct (cell_at sheet r c) as [x|] eqn:E; [|exact I].
  apply get_cell_In in E. destruct E as (cells & Hrow & Hcell & _).
  unfold no_nan_sheet in H. rewrite forallb_forall in H. specialize (H _ Hrow).
  rewrite forallb_forall in H. now apply H.
Qed.

Lemma flat_map_nil {A B : Type} (f : A -> list B) (l : list A) :
  (forall x, In x l -> f x = []) -> flat_map f l = [].
Proof.
  induction l as [|x l IH]; intro H; simpl; [reflexivity|].
  rewrite (H x) by now left. apply IH. intros y Hy. apply H. now right.
Qed.

Lemma compare_exact_same (sheet : SheetData) (options : CompareService.CompareOptions) :
  no_nan_sheet sheet = true -> CompareService._compare_exact sheet sheet options = [].
Proof.
  intro H. unfold CompareService._compare_exact.
  apply flat_map_nil. intros r _.
  destruct (_ && _); [reflexivity|].
  apply flat_map_nil. intros c _.
  rewrite compare_cells_same; [reflexivity | now apply no_nan_cell_at].
Qed.

Lemma compare_structure_same (sheet : SheetData) (options : CompareService.CompareOptions) :
  no_nan_sheet sheet = true -> CompareService._compare_structure sheet sheet options = [].
Proof.
  intro H. unfold CompareService._compare_structure.
  rewrite Nat.ltb_irrefl. simpl.
  apply flat_map_nil. intros r _. apply flat_map_nil. intros c _.
  rewrite compare_cells_same; [reflexivity | now apply no_nan_cell_at].
Qed.

Lemma compare_formula_same (sheet : SheetData) (options : CompareService.CompareOptions) :
  no_nan_sheet sheet = true -> CompareService._compare_formula sheet sheet options = [].
Proof.
  intro H. unfold CompareService._compare_formula.
  apply flat_map_nil. intros r _. apply flat_map_nil. intros c _.
  pose proof (no_nan_cell_at sheet r c H) as Hc.
  destruct (cell_at sheet r c) as [x|].
  - destruct (formula x) as [f|].
    + simpl. now rewrite String.eqb_refl.
    + rewrite compare_cells_same; [reflexivity | exact Hc].
  - rewrite compare_cells_same; [reflexivity | exact I].
Qed.

Lemma numeric_diff_same (sh : string) (r c : nat) (v : option spec_float) (d : DiffResult) :
  CompareService.numeric_diff sh r c v v = Some d ->
  d = DiffResult_ sh r c MODIFIED (PFloat S754_nan) (PFloat S754_nan) None None.
Proof.
  unfold CompareService.numeric_diff. destruct v as [f|]; simpl; [|discriminate].
  destruct (SFeqb f f) eqn:E; simpl; [discriminate|].
  apply SFeqb_nan in E. subst f. intro H. now inversion H.
Qed.

Lemma get_sheet_In (wb : WorkbookData) (n : string) (s : SheetData) :
  get_sheet wb n = Some s -> In s (sheets wb) /\ name s = n.
Proof.
  unfold get_sheet. intro H. apply find_some in H. destruct H as [Hin He].
  split; [assumption | now apply String.eqb_eq].
Qed.

(** X4. A sheet compared with itself gives no record in the exact, the
    structure and the formula mode, provided no value and no font size
    of the sheet is a NaN; in the numeric mode it gives records only at
    cells that convert to NaN (a NaN differs from itself), each
    Modified from NaN to NaN.  A workbook without NaN compared with
    itself in one of the three modes has an empty result. *)
Theorem compare_with_itself :
  (forall sheet options,
     no_nan_sheet sheet = true ->
     CompareService._compare_exact sheet sheet options = []
     /\ CompareService._compare_structure sheet sheet options = []
     /\ CompareService._compare_formula sheet sheet options = [])
  /\ (forall sheet options ds d,
        CompareService._compare_numeric sheet sheet options = Ok ds -> In d ds ->
        exists r c,
          CompareService._to_numeric (cell_at sheet r c) = Ok (Some S754_nan)
          /\ d = DiffResult_ (name sheet) r c MODIFIED (PFloat S754_nan) (PFloat S754_nan)
                   None None)
  /\ (forall set_iter workbook mode options selected_sheets r,
        mode <> CompareService.NUMERIC ->
        (forall s, In s (sheets workbook) -> no_nan_sheet s = true) ->
        CompareService.compare set_iter workbook workbook mode options selected_sheets
        = Ok r ->
        diffs r = [] /\ summary r = empty_summary).
Proof.
  split; [|split].
  - intros sheet options H. repeat split.
    + now apply compare_exact_same.
    + now apply compare_structure_same.
    + now apply compare_formula_same.
  - intros sheet options ds d H Hd.
    apply (proj1 (compare_numeric_Ok _ _ _ _ d H)) in Hd.
    destruct Hd as (r & c & va & vb & _ & _ & Ha & Hb & Hn).
    rewrite Ha in Hb. inversion Hb; subst vb.
    pose proof (numeric_diff_same _ _ _ _ _ Hn) as Hd. exists r, c. split; [|exact Hd].
    unfold CompareService.numeric_diff in Hn. destruct va as [f|]; [|discriminate].
    simpl in Hn. destruct (SFeqb f f) eqn:E; [discriminate|].
    apply SFeqb_nan in E. now subst f.
  - intros set_iter wb mode options sel r Hmode Hclean H.
    pose proof (compare_summary _ _ _ _ _ _ _ H) as Hs.
    assert (Hd : diffs r = []).
    { unfold CompareService.compare in H.
      destruct (foldM _ _ ([], empty_summary)) as [res|e] eqn:E; simpl in H;
        [|discriminate].
      inversion H; subst r; clear H. simpl.
      apply compare_fold_Ok in E. destruct E as (per & Hall & Hd & _). simpl in Hd.
      rewrite Hd. clear Hd.
      induction Hall as [|n ds names per Hn Hall IH]; [reflexivity|].
      simpl. rewrite IH, app_nil_r.
      unfold CompareService.compare_sheet in Hn.
      destruct (get_sheet wb n) as [s|] eqn:Es; [|discriminate].
      apply get_sheet_In in Es. destruct Es as [Hin _]. apply Hclean in Hin.
      destruct mode; try congruence; inversion Hn.
      - now apply compare_exact_same.
      - now apply compare_structure_same.
      - now apply compare_formula_same. }
    split; [exact Hd|]. now rewrite Hs, Hd.
Qed.

(** The statement at a sheet of one text cell. *)
Lemma compare_with_itself_witness :
  CompareService._compare_exact (sheet_of "Data" 1 [[text_cell "v"]])
    (sheet_of "Data" 1 [[text_cell "v"]]) CompareService.default_options = []
  /\ CompareService._compare_structure (sheet_of "Data" 1 [[text_cell "v"]])
       (sheet_of "Data" 1 [[text_cell "v"]]) CompareService.default_options = []
  /\ CompareService._compare_formula (sheet_of "Data" 1 [[text_cell "v"]])
       (sheet_of "Data" 1 [[text_cell "v"]]) CompareService.default_options = [].
Proof.
  apply (proj1 compare_with_itself). reflexivity.
Defined.

(** *** The options that are not read *)

Lemma cell_at_row (sheet : SheetData) (r c : nat) (cell : CellData) :
  cell_at sheet r c = Some cell ->
  r < List.length (rows sheet) /\ In cell (nth r (rows sheet) []).
Proof.
  intro H. apply get_cell_In in H. destruct H as (cells & _ & Hcell & Hnth).
  rewrite Nat2Z.id in Hnth. split.
  - apply nth_error_Some. congruence.
  - now rewrite (nth_error_nth _ _ _ Hnth).
Qed.

Lemma empty_row_value (sheet : SheetData) (r c : nat) :
  CompareService._is_row_empty sheet r = true ->
  CompareService.empty_val (value_of (cell_at sheet r c)) = true.
Proof.
  unfold CompareService._is_row_empty. intro H.
  destruct (cell_at sheet r c) as [cell|] eqn:E; [|reflexivity].
  apply cell_at_row in E. destruct E as [Hlt Hin].
  destruct (Nat.leb_spec (List.length (rows sheet)) r) as [Hle|_]; [lia|].
  rewrite forallb_forall in H. exact (H _ Hin).
Qed.

Lemma empty_val_cases (v : pyval) :
  CompareService.empty_val v = true -> v = PNone \/ v = PStr "".
Proof.
  destruct v; simpl; try discriminate; [now left|].
  intro H. right. destruct s; [reflexivity | discriminate].
Qed.

Lemma compare_cells_empty (sh : string) (r c : nat) (cell_a cell_b : option CellData)
  (options : CompareService.CompareOptions) :
  CompareService.empty_val (value_of cell_a) = true ->
  CompareService.empty_val (value_of cell_b) = true ->
  CompareService._compare_cells sh r c cell_a cell_b options = None.
Proof.
  intros Ha Hb. unfold CompareService._compare_cells, CompareService.normalize_pair.
  apply empty_val_cases in Ha, Hb.
  destruct Ha as [-> | ->], Hb as [-> | ->];
    destruct (CompareService.ignore_case options),
      (CompareService.ignore_whitespace options); reflexivity.
Qed.

Lemma compare_cells_options (sh : string) (r c : nat) (cell_a cell_b : option CellData)
  (o o' : CompareService.CompareOptions) :
  same_cell_options o o' ->
  CompareService._compare_cells sh r c cell_a cell_b o
  = CompareService._compare_cells sh r c cell_a cell_b o'.
Proof.
  intros (Hf & Hc & Hw).
  unfold CompareService._compare_cells, CompareService.normalize_pair.
  now rewrite Hf, Hc, Hw.
Qed.

Lemma compare_exact_no_skip (sheet_a sheet_b : SheetData)
  (o : CompareService.CompareOptions) :
  CompareService._compare_exact sheet_a sheet_b o
  = flat_map (fun row =>
      flat_map (fun col =>
        opt_list (CompareService._compare_cells (name sheet_a) row col
                    (cell_at sheet_a row col) (cell_at sheet_b row col) o))
        (range (Nat.max (col_count sheet_a) (col_count sheet_b))))
      (range (Nat.max (row_count sheet_a) (row_count sheet_b))).
Proof.
  unfold CompareService._compare_exact. apply flat_map_ext. intro r.
  destruct (CompareService.ignore_empty_rows o); [|reflexivity]. simpl.
  destruct (CompareService._is_row_empty sheet_a r) eqn:Ea; [|reflexivity].
  destruct (CompareService._is_row_empty sheet_b r) eqn:Eb; [|reflexivity].
  simpl. symmetry. apply flat_map_nil. intros c _.
  rewrite compare_cells_empty; [reflexivity | |]; now apply empty_row_value.
Qed.

Lemma compare_sheet_options (workbook_a workbook_b : WorkbookData)
  (mode : CompareService.CompareMode) (o o' : CompareService.CompareOptions)
  (n : string) :
  same_cell_options o o' ->
  CompareService.compare_sheet workbook_a workbook_b mode o n
  = CompareService.compare_sheet workbook_a workbook_b mode o' n.
Proof.
  intro H. unfold CompareService.compare_sheet.
  destruct (get_sheet workbook_a n) as [sa|], (get_sheet workbook_b n) as [sb|];
    try reflexivity.
  destruct mode.
  - rewrite !compare_exact_no_skip. f_equal.
    apply flat_map_ext. intro r. apply flat_map_ext. intro c.
    now rewrite (compare_cells_options _ _ _ _ _ o o').
  - reflexivity.
  - unfold CompareService._compare_structure. do 2 f_equal.
    apply flat_map_ext. intro r. apply flat_map_ext. intro c.
    now rewrite (compare_cells_options _ _ _ _ _ o o').
  - unfold CompareService._compare_formula. f_equal.
    apply flat_map_ext. intro r. apply flat_map_ext. intro c.
    destruct (match cell_at sa r c with Some c0 => formula c0 | None => None end),
      (match cell_at sb r c with Some c0 => formula c0 | None => None end);
      try reflexivity.
    now rewrite (compare_cells_options _ _ _ _ _ o o').
Qed.

(** X5. CompareService.compare reads three options only: two option
    sets with the same [ignore_format], [ignore_case] and
    [ignore_whitespace] give the same result in every mode.  In
    particular [ignore_empty_rows] changes nothing: a row that it skips
    in the exact mode is one whose cells are all empty on both sides,
    and such a row gives no record when it is compared. *)
Theorem unread_options_change_nothing :
  forall (set_iter : list string -> list string) (workbook_a workbook_b : WorkbookData)
         (mode : CompareService.CompareMode) (o o' : CompareService.CompareOptions)
         (selected_sheets : option (list string)),
    same_cell_options o o' ->
    CompareService.compare set_iter workbook_a workbook_b mode (Some o) selected_sheets
    = CompareService.compare set_iter workbook_a workbook_b mode (Some o') selected_sheets.
Proof.
  intros set_iter wa wb mode o o' sel H. unfold CompareService.compare. f_equal.
  apply foldM_ext. intros acc n. unfold CompareService.compare_body.
  now rewrite (compare_sheet_options wa wb mode o o' n H).
Qed.

(** The statement at the default options with and without
    [ignore_empty_rows], on two sheets with an empty row each. *)
Lemma unread_options_witness :
  CompareService.compare first_seen
    (workbook_of "a.xlsx" [sheet_of "S" 1 [[blank_cell]; [text_cell "x"]]])
    (workbook_of "b.xlsx" [sheet_of "S" 1 [[text_cell ""]; [text_cell "y"]]])
    CompareService.EXACT
    (Some (CompareService.mk_options true true false false false false true)) None
  = CompareService.compare first_seen
      (workbook_of "a.xlsx" [sheet_of "S" 1 [[blank_cell]; [text_cell "x"]]])
      (workbook_of "b.xlsx" [sheet_of "S" 1 [[text_cell ""]; [text_cell "y"]]])
      CompareService.EXACT (Some CompareService.default_options) None.
Proof.
  apply unread_options_change_nothing. repeat split.
Defined.

(** *** Where the records of a sheet lie *)

Lemma compare_cells_pos (sh : string) (r c : nat) (cell_a cell_b : option CellData)
  (options : CompareService.CompareOptions) (d : DiffResult) :
  CompareService._compare_cells sh r c cell_a cell_b options = Some d ->
  sheet d = sh /\ row d = r /\ col d = c.
Proof.
  unfold CompareService._compare_cells.
  destruct (CompareService.normalize_pair _ _ _) as [va vb].
  destruct (_ && _); [discriminate|].
  destruct (py_eqb va vb).
  - destruct (_ && _); [|discriminate]. intro H. inversion H. now subst.
  - intro H. inversion H. now subst.
Qed.

(** X6. The structure mode says nothing of the columns that only one
    sheet has: each of its records lies either in a row that only one
    sheet has, or in the block of the rows and the columns that both
    sheets have.  With equal row counts a column added to B is not
    reported at all. *)
Theorem structure_mode_skips_columns :
  forall (sheet_a sheet_b : SheetData) (options : CompareService.CompareOptions)
         (d : DiffResult),
    In d (CompareService._compare_structure sheet_a sheet_b options) ->
    (Nat.min (row_count sheet_a) (row_count sheet_b) <= row d
       < Nat.max (row_count sheet_a) (row_count sheet_b)
     /\ (diff_type d = ADDED \/ diff_type d = DELETED))
    \/ (row d < Nat.min (row_count sheet_a) (row_count sheet_b)
        /\ col d < Nat.min (col_count sheet_a) (col_count sheet_b)).
Proof.
  intros sa sb options d. unfold CompareService._compare_structure.
  rewrite in_app_iff. intros [H|H].
  - left. destruct (Nat.ltb_spec (row_count sa) (row_count sb)) as [Hlt|Hge].
    + apply in_mark_rows in H. destruct H as (r & c & cell & Hr & _ & _ & _ & ->).
      simpl. split; [lia | now left].
    + destruct (Nat.ltb_spec (row_count sb) (row_count sa)) as [Hlt|Hge'];
        [|destruct H].
      apply in_mark_rows in H. destruct H as (r & c & cell & Hr & _ & _ & _ & ->).
      simpl. split; [lia | now right].
  - right. apply in_flat_map in H. destruct H as (r & Hr & H).
    apply in_flat_map in H. destruct H as (c & Hc & H).
    apply in_seq in Hr, Hc.
    destruct (CompareService._compare_cells _ _ _ _ _ _) as [d'|] eqn:E; [|destruct H].
    destruct H as [<-|[]]. apply compare_cells_pos in E.
    destruct E as (_ & -> & ->). lia.
Qed.

(** The statement at a record of a row that B has and A has not. *)
Lemma structure_mode_skips_columns_witness :
  (1 <= 1 < 2 /\ (ADDED = ADDED \/ ADDED = DELETED)) \/ (1 < 1 /\ 0 < 1).
Proof.
  apply (structure_mode_skips_columns
           (sheet_of "S" 1 [[text_cell "x"]])
           (sheet_of "S" 2 [[text_cell "x"; text_cell "y"]; [text_cell "z"; blank_cell]])
           CompareService.default_options
           (DiffResult_ "S" 1 0 ADDED PNone (PStr "z") None None)).
  vm_compute. left. reflexivity.
Defined.

(** *** The order of the records of a sheet *)

Lemma grid_sorted (f : nat -> nat -> list DiffResult) (n_rows n_cols : nat) :
  (forall r c d, In d (f r c) -> row d = r /\ col d = c) ->
  (forall r c, List.length (f r c) <= 1) ->
  StronglySorted pos_lex
    (map diff_pos (flat_map (fun r => flat_map (f r) (range n_cols)) (range n_rows))).
Proof.
  intros Hpos Hone.
  apply (StronglySorted_map (fun d d' => pos_lex (diff_pos d) (diff_pos d'))); [auto|].
  apply (StronglySorted_flat_map lt); [apply StronglySorted_seq | |].
  - intros r _. apply (StronglySorted_flat_map lt); [apply StronglySorted_seq | |].
    + intros c _. specialize (Hone r c).
      destruct (f r c) as [|d [|d' l]]; simpl in Hone; try lia; repeat constructor.
    + intros c c' u v Hlt Hu Hv. apply Hpos in Hu, Hv. unfold pos_lex, diff_pos. simpl.
      right. lia.
  - intros r r' u v Hlt Hu Hv.
    apply in_flat_map in Hu, Hv. destruct Hu as (c & _ & Hu), Hv as (c' & _ & Hv).
    apply Hpos in Hu, Hv. unfold pos_lex, diff_pos. simpl. left. lia.
Qed.

Lemma opt_list_length {A : Type} (o : option A) : List.length (opt_list o) <= 1.
Proof. destruct o; simpl; lia. Qed.

Lemma compare_exact_sorted (sheet_a sheet_b : SheetData)
  (options : CompareService.CompareOptions) :
  StronglySorted pos_lex
    (map diff_pos (CompareService._compare_exact sheet_a sheet_b options)).
Proof.
  rewrite compare_exact_no_skip.
  apply (grid_sorted (fun r c =>
           opt_list (CompareService._compare_cells (name sheet_a) r c
                       (cell_at sheet_a r c) (cell_at sheet_b r c) options))).
  - intros r c d H. apply in_opt_list in H. apply compare_cells_pos in H. tauto.
  - intros r c. apply opt_list_length.
Qed.

Lemma compare_formula_sorted (sheet_a sheet_b : SheetData)
  (options : CompareService.CompareOptions) :
  StronglySorted pos_lex
    (map diff_pos (CompareService._compare_formula sheet_a sheet_b options)).
Proof.
  unfold CompareService._compare_formula. cbv zeta.
  match goal with
  | |- StronglySorted _
         (map _ (flat_map (fun r => flat_map (fun c => @?g r c) _) _)) =>
      apply (grid_sorted g)
  end; intros r c; cbv beta;
    destruct (match cell_at sheet_a r c with Some c0 => formula c0 | None => None end)
      as [fa|];
    destruct (match cell_at sheet_b r c with Some c0 => formula c0 | None => None end)
      as [fb|];
    try (destruct (CompareService.opt_neqb _ _ _); simpl; [|tauto];
         intros d [<-|[]]; split; reflexivity);
    try (destruct (CompareService.opt_neqb _ _ _); simpl; lia).
  - intros d H. apply in_opt_list in H. apply compare_cells_pos in H. tauto.
  - apply opt_list_length.
Qed.

Lemma mapM_pure {A B : Type} (f : A -> result B) (l : list A) (ys : list B) (d : B) :
  mapM f l = Ok ys -> ys = map (fun x => match f x with Ok y => y | Raise _ => d end) l.
Proof.
  revert ys. induction l as [|x l IH]; intros ys H.
  - now inversion H.
  - apply mapM_Ok_inv in H. destruct H as (y & ys' & Hx & Hl & ->).
    simpl. rewrite Hx. f_equal. now apply IH.
Qed.

Lemma flat_map_ext_on {A B : Type} (f g : A -> list B) (l : list A) :
  (forall x, In x l -> f x = g x) -> flat_map f l = flat_map g l.
Proof.
  induction l as [|x l IH]; intro H; simpl; [reflexivity|].
  rewrite (H x) by now left. f_equal. apply IH. intros y Hy. apply H. now right.
Qed.

Lemma concat_map_flat_map {A B : Type} (f : A -> list B) (l : list A) :
  List.concat (map f l) = flat_map f l.
Proof. symmetry. apply flat_map_concat_map. Qed.

Lemma compare_numeric_sorted (sheet_a sheet_b : SheetData)
  (options : CompareService.CompareOptions) (ds : list DiffResult) :
  CompareService._compare_numeric sheet_a sheet_b options = Ok ds ->
  StronglySorted pos_lex (map diff_pos ds).
Proof.
  unfold CompareService._compare_numeric. intro H.
  apply fmap_Ok_inv in H. destruct H as (rs & Hrows & ->).
  rewrite (mapM_pure _ _ _ [] Hrows), concat_map_flat_map.
  set (cell := fun r c =>
         match
           bind (CompareService._to_numeric (cell_at sheet_a r c)) (fun val_a =>
           bind (CompareService._to_numeric (cell_at sheet_b r c)) (fun val_b =>
           Ok (opt_list (CompareService.numeric_diff (name sheet_a) r c val_a val_b))))
         with Ok y => y | Raise _ => [] end).
  assert (Hrow : forall r, In r (range (Nat.max (row_count sheet_a) (row_count sheet_b))) ->
            match fmap (@List.concat _)
                    (mapM (fun col =>
                       bind (CompareService._to_numeric (cell_at sheet_a r col))
                         (fun val_a =>
                       bind (CompareService._to_numeric (cell_at sheet_b r col))
                         (fun val_b =>
                       Ok (opt_list (CompareService.numeric_diff (name sheet_a) r col
                                       val_a val_b)))))
                       (range (Nat.max (col_count sheet_a) (col_count sheet_b))))
            with Ok y => y | Raise _ => [] end
            = flat_map (cell r) (range (Nat.max (col_count sheet_a) (col_count sheet_b)))).
  { intros r Hr. destruct (mapM_Ok_In _ _ _ Hrows r Hr) as (y & Hy & _).
    rewrite Hy. apply fmap_Ok_inv in Hy. destruct Hy as (cs & Hcols & ->).
    rewrite (mapM_pure _ _ _ [] Hcols), concat_map_flat_map. reflexivity. }
  rewrite (flat_map_ext_on _ _ _ Hrow).
  apply (grid_sorted cell).
  - intros r c d. unfold cell.
    destruct (CompareService._to_numeric (cell_at sheet_a r c)) as [va|]; simpl; [|tauto].
    destruct (CompareService._to_numeric (cell_at sheet_b r c)) as [vb|]; simpl; [|tauto].
    intro H. apply in_opt_list in H.
    pose proof (numeric_diff_spec (name sheet_a) r c va vb) as Hs. rewrite H in Hs. tauto.
  - intros r c. unfold cell.
    destruct (CompareService._to_numeric (cell_at sheet_a r c)) as [va|]; simpl; [|lia].
    destruct (CompareService._to_numeric (cell_at sheet_b r c)) as [vb|]; simpl; [|lia].
    apply opt_list_length.
Qed.

Lemma grid_bounds (n_rows n_cols : nat) (f : nat -> nat -> list DiffResult) :
  (forall r c d, In d (f r c) -> row d = r /\ col d = c) ->
  forall d, In d (flat_map (fun r => flat_map (f r) (range n_cols)) (range n_rows)) ->
            row d < n_rows /\ col d < n_cols.
Proof.
  intros Hpos d H. apply in_flat_map in H. destruct H as (r & Hr & H).
  apply in_flat_map in H. destruct H as (c & Hc & H).
  apply in_seq in Hr, Hc. apply Hpos in H. lia.
Qed.

(** X7. In the exact, the formula and the numeric mode the records of a
    pair of sheets come in row-major order of their cell, with at most
    one record for a cell; the structure mode has at most one record for
    a cell too, but lists the rows that only one sheet has before the
    common rows. *)
Theorem sheet_records_in_cell_order :
  forall (sheet_a sheet_b : SheetData) (options : CompareService.CompareOptions),
    StronglySorted pos_lex
      (map diff_pos (CompareService._compare_exact sheet_a sheet_b options))
    /\ StronglySorted pos_lex
         (map diff_pos (CompareService._compare_formula sheet_a sheet_b options))
    /\ (forall ds,
          CompareService._compare_numeric sheet_a sheet_b options = Ok ds ->
          StronglySorted pos_lex (map diff_pos ds))
    /\ NoDup (map diff_pos (CompareService._compare_structure sheet_a sheet_b options))
    /\ NoDup (map diff_pos (CompareService._compare_exact sheet_a sheet_b options)).
Proof.
  intros sa sb options.
  assert (Hirr : forall x, ~ pos_lex x x) by (intros x H; unfold pos_lex in H; lia).
  repeat split.
  - apply compare_exact_sorted.
  - apply compare_formula_sorted.
  - apply compare_numeric_sorted.
  - unfold CompareService._compare_structure. rewrite map_app.
    apply NoDup_app.
    + destruct (_ <? _); [apply mark_rows_NoDup|].
      destruct (_ <? _); [apply mark_rows_NoDup | constructor].
    + apply (StronglySorted_NoDup pos_lex _ Hirr).
      apply (grid_sorted (fun r c =>
               opt_list (CompareService._compare_cells (name sa) r c
                           (cell_at sa r c) (cell_at sb r c) options))).
      * intros r c d H. apply in_opt_list in H. apply compare_cells_pos in H. tauto.
      * intros r c. apply opt_list_length.
    + intros p H1 H2. apply in_map_iff in H1, H2.
      destruct H1 as (d1 & <- & H1), H2 as (d2 & He & H2).
      assert (Hr1 : Nat.min (row_count sa) (row_count sb) <= row d1).
      { destruct (Nat.ltb_spec (row_count sa) (row_count sb)) as [Hlt|Hge].
        - apply in_mark_rows in H1. destruct H1 as (r & c & cell & Hr & _ & _ & _ & ->).
          simpl. lia.
        - destruct (Nat.ltb_spec (row_count sb) (row_count sa)) as [Hlt|Hge'];
            [|destruct H1].
          apply in_mark_rows in H1. destruct H1 as (r & c & cell & Hr & _ & _ & _ & ->).
          simpl. lia. }
      apply (grid_bounds _ _ (fun r c =>
               opt_list (CompareService._compare_cells (name sa) r c
                           (cell_at sa r c) (cell_at sb r c) options))) in H2.
      * unfold diff_pos in He. inversion He. lia.
      * intros r c d H. apply in_opt_list in H. apply compare_cells_pos in H. tauto.
  - apply (StronglySorted_NoDup pos_lex _ Hirr). apply compare_exact_sorted.
Qed.

(** *** A range against itself *)

Lemma smart_cmp_no_nan (options : SmartCompareService.SmartCompareOptions) (v : pyval) :
  no_nan_val (SmartCompareService.cmp_val options v) = no_nan_val v.
Proof.
  unfold SmartCompareService.cmp_val.
  destruct (SmartCompareService.ignore_case options),
    (SmartCompareService.ignore_whitespace options); destruct v; reflexivity.
Qed.

Lemma cell_diff_same (options : SmartCompareService.SmartCompareOptions) (sh : string)
  (r c : nat) (v : pyval) :
  no_nan_val v = true -> SmartCompareService.cell_diff options sh r c v v = None.
Proof.
  intro H. unfold SmartCompareService.cell_diff, py_neqb.
  rewrite py_eqb_refl; [reflexivity | now rewrite smart_cmp_no_nan].
Qed.

(** Every value of the block is free of NaN. *)
Lemma no_nan_nth (data : list (list pyval)) (i j : nat) :
  Forall (Forall (fun v => no_nan_val v = true)) data ->
  no_nan_val (get_or (nth i data []) j PNone) = true.
Proof.
  intro H. unfold get_or.
  destruct (nth_in_or_default i data []) as [Hin | ->].
  - rewrite Forall_forall in H. specialize (H _ Hin).
    destruct (nth_in_or_default j (nth i data []) PNone) as [Hj | ->]; [|reflexivity].
    rewrite Forall_forall in H. now apply H.
  - destruct j; reflexivity.
Qed.

Lemma no_nan_row (row : list pyval) (j : nat) :
  Forall (fun v => no_nan_val v = true) row -> no_nan_val (get_or row j PNone) = true.
Proof.
  intro H. unfold get_or.
  destruct (nth_in_or_default j row PNone) as [Hj | ->]; [|reflexivity].
  rewrite Forall_forall in H. now apply H.
Qed.

Lemma extract_no_nan (sheet : SheetData) (rng : option SmartCompareService.CellRange) :
  no_nan_sheet sheet = true ->
  Forall (Forall (fun v => no_nan_val v = true))
    (SmartCompareService._extract_range_data sheet rng).
Proof.
  intro H. unfold SmartCompareService._extract_range_data. destruct rng as [r|].
  - apply Forall_map. apply Forall_forall. intros i _.
    apply Forall_map. apply Forall_forall. intros j _.
    pose proof (no_nan_cell_at sheet i j H) as Hc.
    destruct (cell_at sheet i j) as [x|]; [|reflexivity].
    simpl. unfold no_nan_cell in Hc. now apply andb_true_iff in Hc.
  - unfold no_nan_sheet in H. rewrite forallb_forall in H.
    apply Forall_map. apply Forall_forall. intros row Hrow.
    specialize (H _ Hrow). rewrite forallb_forall in H.
    apply Forall_map. apply Forall_forall. intros x Hx.
    specialize (H _ Hx). unfold no_nan_cell in H. now apply andb_true_iff in H.
Qed.

Lemma compare_by_position_same (sh : string) (data : list (list pyval))
  (options : SmartCompareService.SmartCompareOptions) (ro co : nat) :
  Forall (Forall (fun v => no_nan_val v = true)) data ->
  SmartCompareService._compare_by_position sh data data options ro co = [].
Proof.
  intro H. unfold SmartCompareService._compare_by_position.
  apply flat_map_nil. intros i _. apply flat_map_nil. intros j _.
  destruct (_ && _); [reflexivity|].
  rewrite cell_diff_same; [reflexivity | now apply no_nan_nth].
Qed.

Lemma compare_by_header_same (float_repr : spec_float -> string)
  (set_iter : list string -> list string) (sh : string) (data : list (list pyval))
  (options : SmartCompareService.SmartCompareOptions) (ro co : nat)
  (ds : list DiffResult) :
  Forall (Forall (fun v => no_nan_val v = true)) data ->
  SmartCompareService._compare_by_header float_repr set_iter sh data data options ro co
  = Ok ds ->
  ds = [].
Proof.
  intros H. unfold SmartCompareService._compare_by_header.
  destruct (_ || _); [discriminate|].
  intro E. inversion E. apply flat_map_nil. intros header _.
  destruct (dict_get String.eqb _ header) as [ca|]; [|reflexivity].
  apply flat_map_nil. intros i _.
  destruct (_ && _); [reflexivity|].
  rewrite cell_diff_same; [reflexivity|].
  unfold SmartCompareService.data_at. now apply no_nan_nth.
Qed.

Lemma dict_get_In {K V : Type} (keq : K -> K -> bool) (d : dict K V) (k : K) (v : V) :
  dict_get keq d k = Some v -> exists k', In (k', v) d.
Proof.
  induction d as [|[k0 v0] d IH]; simpl; [discriminate|].
  destruct (keq k0 k).
  - intro H. inversion H; subst. exists k0. now left.
  - intro H. destruct (IH H) as (k' & Hk). exists k'. now right.
Qed.

Lemma key_map_rows (options : SmartCompareService.SmartCompareOptions)
  (P : list pyval -> Prop) (items : list (nat * list pyval)) :
  forall m m',
    (forall item, In item items -> P (snd item)) ->
    (forall kv, In kv m -> P (snd (snd kv))) ->
    foldM (key_map_step options) items m = Ok m' ->
    forall kv, In kv m' -> P (snd (snd kv)).
Proof.
  induction items as [|item items IH]; intros m m' Hitems Hm H; simpl in H.
  - now inversion H; subst.
  - unfold key_map_step at 1 in H.
    destruct (smart_row_key options (snd item)) as [[k|]|e]; simpl in H; [| |discriminate].
    + apply (IH (dict_set py_eqb m k item) m'); [| |exact H].
      * intros i Hi. apply Hitems. now right.
      * intros kv Hkv. apply in_dict_set_value in Hkv. destruct Hkv as [->|Hkv].
        -- apply Hitems. now left.
        -- now apply Hm.
    + apply (IH m m'); [|exact Hm|exact H].
      intros i Hi. apply Hitems. now right.
Qed.

Lemma build_key_map_rows (options : SmartCompareService.SmartCompareOptions)
  (data : list (list pyval)) (skip_header : bool) (m : dict pyval (nat * list pyval))
  (kv : pyval * (nat * list pyval)) :
  SmartCompareService.build_key_map options data skip_header = Ok m ->
  In kv m -> In (snd (snd kv)) data.
Proof.
  intros H. rewrite build_key_map_steps in H. revert kv.
  apply (key_map_rows options (fun row => In row data)
           (offered options data skip_header) [] m); [| |exact H].
  - intros [i row] Hi. unfold offered in Hi. apply in_skipn in Hi.
    apply in_enumerate in Hi. simpl. eapply nth_error_In. exact Hi.
  - intros ? [].
Qed.

Lemma key_map_keys (options : SmartCompareService.SmartCompareOptions)
  (P : pyval -> Prop) (items : list (nat * list pyval)) :
  forall m m',
    (forall item k, In item items -> smart_row_key options (snd item) = Ok (Some k) -> P k) ->
    Forall P (dict_keys m) ->
    foldM (key_map_step options) items m = Ok m' ->
    Forall P (dict_keys m').
Proof.
  induction items as [|item items IH]; intros m m' Hitems Hm H; simpl in H.
  - now inversion H; subst.
  - unfold key_map_step at 1 in H.
    destruct (smart_row_key options (snd item)) as [[k|]|e] eqn:E; simpl in H;
      [| |discriminate].
    + apply (IH (dict_set py_eqb m k item) m'); [| |exact H].
      * intros i k' Hi. apply Hitems. now right.
      * apply Forall_forall. intros k' Hk'. apply in_dict_keys_set in Hk'.
        destruct Hk' as [->|Hk'].
        -- apply (Hitems item); [now left | exact E].
        -- rewrite Forall_forall in Hm. now apply Hm.
    + apply (IH m m'); [|exact Hm|exact H].
      intros i k' Hi. apply Hitems. now right.
Qed.

Lemma smart_row_key_no_nan (options : SmartCompareService.SmartCompareOptions)
  (row : list pyval) (k : pyval) :
  Forall (fun v => no_nan_val v = true) row ->
  smart_row_key options row = Ok (Some k) -> no_nan_val k = true.
Proof.
  intros Hrow. unfold smart_row_key.
  destruct (_ <? _)%Z; [|discriminate].
  destruct (py_index row _) as [key|e] eqn:E; simpl; [|discriminate].
  destruct (negb (is_none key) && py_neqb key (PStr "")); [|discriminate].
  intro H. inversion H; subst k; clear H.
  apply py_index_In in E. rewrite Forall_forall in Hrow. specialize (Hrow key E).
  destruct (SmartCompareService.ignore_case options),
    (SmartCompareService.ignore_whitespace options); destruct key; assumption.
Qed.

Lemma build_key_map_no_nan (options : SmartCompareService.SmartCompareOptions)
  (data : list (list pyval)) (skip_header : bool) (m : dict pyval (nat * list pyval)) :
  Forall (Forall (fun v => no_nan_val v = true)) data ->
  SmartCompareService.build_key_map options data skip_header = Ok m ->
  Forall (fun k => py_eqb k k = true) (dict_keys m).
Proof.
  intros Hd H. rewrite build_key_map_steps in H.
  apply (key_map_keys options (fun k => py_eqb k k = true)
           (offered options data skip_header) [] m); [|constructor|exact H].
  intros [i row] k Hi Hk. apply py_eqb_refl.
  apply (smart_row_key_no_nan options row); [|exact Hk].
  unfold offered in Hi. apply in_skipn in Hi. apply in_enumerate in Hi.
  rewrite Forall_forall in Hd. apply Hd. eapply nth_error_In. exact Hi.
Qed.

(** A map without NaN key holds no NaN object. *)
Lemma key_get_no_nan (in_b : bool) (m : dict pyval (nat * list pyval))
  (b : bool) (i : nat) :
  Forall (fun k => py_eqb k k = true) (dict_keys m) ->
  SmartCompareService.key_get in_b m (SmartCompareService.KeyNan b i) = None.
Proof.
  intro H. unfold SmartCompareService.key_get.
  destruct (Bool.eqb b in_b); [|reflexivity].
  replace (find _ m) with (@None (pyval * (nat * list pyval))); [reflexivity|].
  symmetry. unfold dict_keys in H.
  induction m as [|[k [j row]] m IH]; simpl; [reflexivity|].
  inversion H; subst. simpl in *.
  match goal with Hk : py_eqb k k = true |- _ => rewrite Hk end. simpl.
  now apply IH.
Qed.

Lemma compare_by_key_same (float_repr : spec_float -> string)
  (set_iter_val : list SmartCompareService.key_obj -> list SmartCompareService.key_obj)
  (sh : string) (data : list (list pyval))
  (options : SmartCompareService.SmartCompareOptions) (ro co : nat)
  (ds : list DiffResult) :
  Forall (Forall (fun v => no_nan_val v = true)) data ->
  SmartCompareService._compare_by_key float_repr set_iter_val sh data data options ro co
  = Ok ds ->
  ds = [].
Proof.
  intros H. unfold SmartCompareService._compare_by_key.
  destruct (SmartCompareService.build_key_map options data _) as [m|e] eqn:Em; simpl;
    [|discriminate].
  intro E. inversion E. apply flat_map_nil. intros key _.
  unfold SmartCompareService.key_diffs.
  destruct key as [key|b i];
    [|now rewrite !(key_get_no_nan _ m b i (build_key_map_no_nan _ _ _ _ H Em))].
  simpl SmartCompareService.key_get.
  destruct (dict_get py_eqb m key) as [[i row]|] eqn:Eg; [|reflexivity].
  apply flat_map_nil. intros j _.
  rewrite cell_diff_same; [reflexivity|].
  apply no_nan_row. apply dict_get_In in Eg. destruct Eg as (k' & Hin).
  apply (build_key_map_rows _ _ _ _ _ Em) in Hin. simpl in Hin.
  rewrite Forall_forall in H. now apply H.
Qed.

(** X8. SmartCompareService.compare_with_range on a workbook against
    itself, with the same range on both sides, finds no difference
    whichever way rows and columns are paired (by key column, by header
    row or by position), provided the sheet holds no NaN. *)
Theorem range_compare_with_itself :
  forall (float_repr : spec_float -> string) (set_iter : list string -> list string)
         (set_iter_val : list SmartCompareService.key_obj -> list SmartCompareService.key_obj)
         (workbook : WorkbookData)
         (sheet_name : string) (options : SmartCompareService.SmartCompareOptions)
         (r : CompareResult),
    SmartCompareService.range_a options = SmartCompareService.range_b options ->
    (forall s, In s (sheets workbook) -> no_nan_sheet s = true) ->
    SmartCompareService.compare_with_range float_repr set_iter set_iter_val
      workbook workbook sheet_name options = Ok r ->
    diffs r = [] /\ summary r = empty_summary.
Proof.
  intros float_repr set_iter set_iter_val wb sh options r Hrange Hclean.
  unfold SmartCompareService.compare_with_range.
  destruct (get_sheet wb sh) as [s|] eqn:Es; [|discriminate].
  apply get_sheet_In in Es. destruct Es as [Hin _]. apply Hclean in Hin.
  rewrite <- Hrange.
  pose proof (extract_no_nan s (SmartCompareService.range_a options) Hin) as Hdata.
  destruct (SmartCompareService.use_key_column options).
  - destruct (SmartCompareService._compare_by_key _ _ _ _ _ _ _ _) as [ds|e] eqn:E;
      simpl; [|discriminate].
    apply compare_by_key_same in E; [|exact Hdata]. subst ds.
    intro H. inversion H. split; reflexivity.
  - destruct (SmartCompareService.use_header_row options).
    + destruct (SmartCompareService._compare_by_header _ _ _ _ _ _ _ _) as [ds|e] eqn:E;
        simpl; [|discriminate].
      apply compare_by_header_same in E; [|exact Hdata]. subst ds.
      intro H. inversion H. split; reflexivity.
    + simpl. rewrite compare_by_position_same by exact Hdata.
      intro H. inversion H. split; reflexivity.
Qed.

(** The statement at a keyed sheet compared with itself. *)
Lemma range_compare_with_itself_witness :
  diffs (mk_result "a.xlsx" "a.xlsx" [] empty_summary) = []
  /\ summary (mk_result "a.xlsx" "a.xlsx" [] empty_summary) = empty_summary.
Proof.
  apply (range_compare_with_itself no_float_repr first_seen first_seen_val
           (workbook_of "a.xlsx" [sheet_of "S" 2 [[text_cell "k"; text_cell "a"];
                                                 [text_cell "k"; text_cell "b"]]])
           "S" key_column_0).
  - reflexivity.
  - intros s [<-|[]]. reflexivity.
  - vm_compute. reflexivity.
Defined.

(** *** Column letters *)

Import PyText Columns.

Lemma string_app_assoc (s1 s2 s3 : string) :
  ((s1 ++ s2) ++ s3 = s1 ++ (s2 ++ s3))%string.
Proof. induction s1 as [|c s1 IH]; simpl; [reflexivity | now rewrite IH]. Qed.

Lemma string_app_nil_r (s : string) : (s ++ "")%string = s.
Proof. induction s as [|c s IH]; simpl; [reflexivity | now rewrite IH]. Qed.

Lemma letters_loop_app (fuel : nat) :
  forall (col : Z) (result : string),
    letters_loop fuel col result = (letters_loop fuel col "" ++ result)%string.
Proof.
  induction fuel as [|fuel IH]; intros col result; simpl; [reflexivity|].
  destruct (0 <=? col)%Z; [|reflexivity].
  rewrite IH. rewrite (IH _ (String _ "")).
  rewrite string_app_assoc. reflexivity.
Qed.

Lemma letters_loop_enough (fuel1 : nat) :
  forall (fuel2 : nat) (col : Z) (result : string),
    (col < Z.of_nat fuel1)%Z -> (col < Z.of_nat fuel2)%Z ->
    letters_loop fuel1 col result = letters_loop fuel2 col result.
Proof.
  induction fuel1 as [|fuel1 IH]; intros fuel2 col result H1 H2.
  - destruct fuel2 as [|fuel2]; [reflexivity|]. simpl.
    destruct (Z.leb_spec 0 col); [lia | reflexivity].
  - simpl. destruct (Z.leb_spec 0 col) as [Hc|Hc].
    + destruct fuel2 as [|fuel2]; [lia|]. simpl.
      destruct (Z.leb_spec 0 col); [|lia].
      assert (col / 26 <= col)%Z by (apply Z.div_le_upper_bound; lia).
      apply IH; lia.
    + destruct fuel2 as [|fuel2]; [reflexivity|]. simpl.
      destruct (Z.leb_spec 0 col); [lia | reflexivity].
Qed.

(** The loop, one turn at a time. *)
Lemma col_to_letter_step (col : Z) :
  (0 <= col)%Z ->
  _col_to_letter col
  = (_col_to_letter (col / 26 - 1) ++ String (chr (col mod 26 + ord "A")) "")%string.
Proof.
  intro H. unfold _col_to_letter.
  replace (Z.to_nat (col + 1)) with (S (Z.to_nat col)) by lia. simpl.
  destruct (Z.leb_spec 0 col); [|lia].
  rewrite letters_loop_app. f_equal.
  assert (col / 26 <= col)%Z by (apply Z.div_le_upper_bound; lia).
  apply letters_loop_enough; lia.
Qed.

Lemma col_to_letter_neg (col : Z) : (col < 0)%Z -> _col_to_letter col = "".
Proof.
  intro H. unfold _col_to_letter. replace (Z.to_nat (col + 1)) with 0 by lia. reflexivity.
Qed.

(** Induction along the loop. *)
Lemma col_induction (P : Z -> Prop) :
  (forall col, (col < 0)%Z -> P col) ->
  (forall col, (0 <= col)%Z -> P (col / 26 - 1)%Z -> P col) ->
  forall col, P col.
Proof.
  intros Hneg Hstep col.
  assert (H : forall n col, (col < Z.of_nat n)%Z -> P col).
  { induction n as [|n IH]; intros c Hc.
    - apply Hneg. lia.
    - destruct (Z.lt_ge_cases c 0) as [Hlt|Hge]; [now apply Hneg|].
      apply Hstep; [assumption|]. apply IH.
      assert (c / 26 <= c)%Z by (apply Z.div_le_upper_bound; lia). lia. }
  apply (H (Z.to_nat (col + 1))). lia.
Qed.

Lemma col_to_index_loop (s : string) : _col_to_index s = (index_loop s 0 - 1)%Z.
Proof. reflexivity. Qed.

Lemma index_loop_app (s1 s2 : string) (acc : Z) :
  index_loop (s1 ++ s2) acc = index_loop s2 (index_loop s1 acc).
Proof.
  revert acc. induction s1 as [|c s1 IH]; intro acc; simpl; [reflexivity | apply IH].
Qed.

Lemma ord_chr (n : Z) : (0 <= n < 256)%Z -> ord (chr n) = n.
Proof.
  intro H. unfold ord, chr, code.
  rewrite N_ascii_embedding; lia.
Qed.

Lemma index_of_letters (col : Z) :
  (-1 <= col)%Z -> index_loop (_col_to_letter col) 0 = (col + 1)%Z.
Proof.
  revert col. apply (col_induction (fun col =>
    (-1 <= col)%Z -> index_loop (_col_to_letter col) 0 = (col + 1)%Z)).
  - intros col Hneg H. rewrite col_to_letter_neg by assumption. simpl. lia.
  - intros col Hc IH _. rewrite col_to_letter_step by assumption.
    rewrite index_loop_app. simpl.
    assert (Hdiv : (0 <= col / 26)%Z) by (apply Z.div_pos; lia).
    rewrite IH by lia.
    pose proof (Z.mod_pos_bound col 26 ltac:(lia)) as Hm.
    rewrite ord_chr by (change (ord "A") with 65%Z; lia).
    pose proof (Z.div_mod col 26 ltac:(lia)). lia.
Qed.

Lemma all_chars_app (p : ascii -> bool) (s1 s2 : string) :
  all_chars p (s1 ++ s2) = all_chars p s1 && all_chars p s2.
Proof.
  induction s1 as [|c s1 IH]; simpl; [reflexivity|]. now rewrite IH, andb_assoc.
Qed.

Lemma letters_are_capitals (col : Z) : all_chars is_capital (_col_to_letter col) = true.
Proof.
  revert col. apply col_induction.
  - intros col H. now rewrite col_to_letter_neg.
  - intros col Hc IH. rewrite col_to_letter_step by assumption.
    rewrite all_chars_app, IH. simpl. rewrite andb_true_r.
    pose proof (Z.mod_pos_bound col 26 ltac:(lia)) as Hm.
    unfold is_capital.
    assert (Hcode : Z.of_N (code (chr (col mod 26 + ord "A"))) = (col mod 26 + 65)%Z).
    { apply (ord_chr (col mod 26 + ord "A")). change (ord "A") with 65%Z. lia. }
    apply andb_true_iff. split; apply N.leb_le; lia.
Qed.

Lemma letters_not_empty (col : Z) : (0 <= col)%Z -> _col_to_letter col <> "".
Proof.
  intros H E. rewrite col_to_letter_step in E by assumption.
  destruct (_col_to_letter (col / 26 - 1)); discriminate.
Qed.

(** *** Decimal numbers *)

Lemma digits_value_uint_acc (d : Decimal.uint) :
  forall a : positive,
    digits_value (Z.pos a) (NilEmpty.string_of_uint d) = Z.pos (Pos.of_uint_acc d a).
Proof.
  induction d; intro a; cbn [NilEmpty.string_of_uint digits_value Pos.of_uint_acc];
    try reflexivity; rewrite <- IHd; f_equal;
    match goal with
    | |- context [digit_val ?c] =>
        let v := eval vm_compute in (digit_val c) in change (digit_val c) with v
    end; lia.
Qed.

Lemma digits_value_uint (d : Decimal.uint) :
  digits_value 0 (NilEmpty.string_of_uint d) = Z.of_N (Pos.of_uint d).
Proof.
  induction d; simpl; try reflexivity;
    match goal with
    | |- digits_value ?a _ = _ => let v := eval vm_compute in a in change a with v
    end;
    first [exact IHd | apply digits_value_uint_acc].
Qed.

Lemma uint_digits (d : Decimal.uint) :
  all_chars is_digit (NilEmpty.string_of_uint d) = true.
Proof. induction d; simpl; try reflexivity; exact IHd. Qed.

(** [str(n)] of a number that is not negative is a run of digits that
    reads back as [n]. *)
Lemma str_of_Z_digits (n : Z) :
  (0 <= n)%Z ->
  str_of_Z n <> "" /\ all_chars is_digit (str_of_Z n) = true
  /\ digits_value 0 (str_of_Z n) = n.
Proof.
  intro H. unfold str_of_Z. destruct n as [|p|p]; [| |lia].
  - simpl. repeat split. discriminate.
  - simpl. pose proof (DecimalPos.Unsigned.to_uint_nonnil p) as Hnil.
    assert (E : NilZero.string_of_uint (Pos.to_uint p)
                = NilEmpty.string_of_uint (Pos.to_uint p))
      by (destruct (Pos.to_uint p); [congruence | reflexivity ..]).
    rewrite E. repeat split.
    + destruct (Pos.to_uint p); [congruence | discriminate ..].
    + apply uint_digits.
    + rewrite digits_value_uint, DecimalPos.Unsigned.of_to. reflexivity.
Qed.

Lemma int_of_str (n : Z) : (0 <= n)%Z -> int_of_digits (str_of_Z n) = Ok n.
Proof.
  intro H. destruct (str_of_Z_digits n H) as (Hne & Hd & Hv).
  unfold int_of_digits. destruct (str_of_Z n) as [|c s]; [congruence|].
  now rewrite Hd, Hv.
Qed.

(** *** Runs of characters *)

Lemma split_run_app (p : ascii -> bool) (a b : string) :
  all_chars p a = true ->
  match b with String c _ => p c = false | EmptyString => True end ->
  split_run p (a ++ b) = (a, b).
Proof.
  intros Ha Hb. induction a as [|c a IH]; simpl.
  - destruct b as [|c b]; [reflexivity|]. simpl. now rewrite Hb.
  - simpl in Ha. apply andb_true_iff in Ha. destruct Ha as [Hc Ha].
    rewrite Hc, (IH Ha). reflexivity.
Qed.

Lemma split_run_all (p : ascii -> bool) (s a b : string) :
  split_run p s = (a, b) -> s = (a ++ b)%string /\ all_chars p a = true.
Proof.
  revert a b. induction s as [|c s IH]; intros a b; simpl.
  - intro H. inversion H. now split.
  - destruct (p c) eqn:Ec.
    + destruct (split_run p s) as [a' b'] eqn:Es. intro H. inversion H; subst.
      destruct (IH a' b eq_refl) as [-> Ha]. simpl. now rewrite Ec.
    + intro H. inversion H. now split.
Qed.

Lemma digit_not_capital (c : ascii) : is_digit c = true -> is_capital c = false.
Proof.
  unfold is_digit, is_capital. intro H. apply andb_true_iff in H. destruct H as [_ H].
  apply N.leb_le in H. apply andb_false_iff. left. apply N.leb_gt. lia.
Qed.

Lemma capital_not_digit (c : ascii) : is_capital c = true -> is_digit c = false.
Proof.
  unfold is_digit, is_capital. intro H. apply andb_true_iff in H. destruct H as [H _].
  apply N.leb_le in H. apply andb_false_iff. right. apply N.leb_gt. lia.
Qed.

(** *** Texts that [strip] and [upper] leave as they are *)

Lemma plain_char_cases (c : ascii) :
  plain_char c = true -> is_space c = false /\ upper_char c = String c "".
Proof.
  unfold plain_char, is_capital, is_digit, is_space, upper_char. intro H.
  assert (Hc : (48 <= code c <= 58 \/ 65 <= code c <= 90)%N).
  { apply orb_true_iff in H. destruct H as [H|H].
    - apply orb_true_iff in H. destruct H as [H|H];
        apply andb_true_iff in H; destruct H as [H1 H2];
        apply N.leb_le in H1, H2; lia.
    - apply Ascii.eqb_eq in H. subst c. left. vm_compute. split; discriminate. }
  split.
  - repeat (apply orb_false_iff; split);
      try (apply andb_false_iff);
      try (apply N.eqb_neq; lia);
      first [left; apply N.leb_gt; lia | right; apply N.leb_gt; lia].
  - destruct ((97 <=? code c)%N && (code c <=? 122)%N
              || (224 <=? code c)%N && (code c <=? 254)%N && negb (code c =? 247)%N)
      eqn:E1.
    + exfalso. apply orb_true_iff in E1. destruct E1 as [E|E].
      * apply andb_true_iff in E. destruct E as [E _]. apply N.leb_le in E. lia.
      * apply andb_true_iff in E. destruct E as [E _].
        apply andb_true_iff in E. destruct E as [E _]. apply N.leb_le in E. lia.
    + destruct (N.eqb_spec (code c) 223); [lia | reflexivity].
Qed.

Lemma upper_plain (s : string) : all_chars plain_char s = true -> upper s = s.
Proof.
  induction s as [|c s IH]; simpl; [reflexivity|]. intro H.
  apply andb_true_iff in H. destruct H as [Hc Hs].
  rewrite (proj2 (plain_char_cases c Hc)), (IH Hs). reflexivity.
Qed.

Lemma all_chars_impl (p q : ascii -> bool) (s : string) :
  (forall c, p c = true -> q c = true) -> all_chars p s = true -> all_chars q s = true.
Proof.
  intro H. induction s as [|c s IH]; simpl; [reflexivity|]. intro Hs.
  apply andb_true_iff in Hs. destruct Hs as [Hc Hs]. now rewrite (H c Hc), (IH Hs).
Qed.

Lemma lstrip_no_space (s : string) :
  all_chars (fun c => negb (is_space c)) s = true -> lstrip s = s.
Proof.
  destruct s as [|c s]; simpl; [reflexivity|]. intro H.
  apply andb_true_iff in H. destruct H as [Hc _].
  destruct (is_space c); [discriminate | reflexivity].
Qed.

Lemma all_chars_rev_append (p : ascii -> bool) (s acc : string) :
  all_chars p (rev_append_string s acc) = all_chars p s && all_chars p acc.
Proof.
  revert acc. induction s as [|c s IH]; intro acc; simpl; [reflexivity|].
  rewrite IH. simpl. destruct (p c), (all_chars p s); reflexivity.
Qed.

Lemma rev_append_rev_append (s acc : string) :
  rev_append_string (rev_append_string s acc) ""
  = rev_append_string acc s.
Proof.
  revert acc. induction s as [|c s IH]; intro acc; simpl.
  - reflexivity.
  - rewrite IH. reflexivity.
Qed.

Lemma rev_string_involutive (s : string) : rev_string (rev_string s) = s.
Proof. unfold rev_string. now rewrite rev_append_rev_append. Qed.

Lemma strip_no_space (s : string) :
  all_chars (fun c => negb (is_space c)) s = true -> strip s = s.
Proof.
  intro H. unfold strip, rstrip. rewrite (lstrip_no_space s H).
  rewrite lstrip_no_space.
  - apply rev_string_involutive.
  - unfold rev_string. rewrite all_chars_rev_append, H. reflexivity.
Qed.

Lemma strip_upper_plain (s : string) :
  all_chars plain_char s = true -> upper (strip s) = s.
Proof.
  intro H. rewrite strip_no_space.
  - now apply upper_plain.
  - apply (all_chars_impl plain_char); [|exact H].
    intros c Hc. now rewrite (proj1 (plain_char_cases c Hc)).
Qed.

(** *** Letters and indices *)

Lemma string_snoc_ind (P : string -> Prop) :
  P "" -> (forall s c, P s -> P (s ++ String c "")%string) -> forall s, P s.
Proof.
  intros Hnil Hsnoc s.
  assert (H : forall n s, String.length s = n -> P s).
  { induction n as [|n IH]; intros t Ht.
    - destruct t; [exact Hnil | discriminate].
    - assert (Hex : exists t' c, t = (t' ++ String c "")%string /\ String.length t' = n).
      { clear IH. revert n Ht. induction t as [|a t IHt]; intros n Ht; [discriminate|].
        simpl in Ht. injection Ht as Ht. destruct t as [|b t].
        - exists "", a. simpl in *. now split.
        - destruct n as [|n]; [discriminate|].
          destruct (IHt n Ht) as (t' & c & -> & Hl).
          exists (String a t'), c. simpl. split; [reflexivity | now rewrite Hl]. }
      destruct Hex as (t' & c & -> & Hl). apply Hsnoc. now apply IH. }
  now apply (H (String.length s)).
Qed.

Lemma index_loop_capitals (s : string) :
  all_chars is_capital s = true ->
  (0 <= index_loop s 0)%Z /\ (s <> "" -> 1 <= index_loop s 0)%Z.
Proof.
  revert s. apply (string_snoc_ind (fun s =>
    all_chars is_capital s = true ->
    (0 <= index_loop s 0)%Z /\ (s <> "" -> 1 <= index_loop s 0)%Z)).
  - intros _. simpl. split; [lia | congruence].
  - intros s c IH H. rewrite all_chars_app in H. apply andb_true_iff in H.
    destruct H as [Hs Hc]. simpl in Hc. rewrite andb_true_r in Hc.
    destruct (IH Hs) as [H0 _]. rewrite index_loop_app. simpl.
    unfold is_capital in Hc. apply andb_true_iff in Hc. destruct Hc as [H1 H2].
    apply N.leb_le in H1, H2. unfold ord. change (Z.of_N (code "A")) with 65%Z.
    split; [lia | intros _; lia].
Qed.

Lemma chr_ord (c : ascii) : chr (ord c) = c.
Proof. unfold chr, ord, code. rewrite N2Z.id. apply ascii_N_embedding. Qed.

Lemma letters_of_index (s : string) :
  all_chars is_capital s = true -> _col_to_letter (index_loop s 0 - 1) = s.
Proof.
  revert s. apply (string_snoc_ind (fun s =>
    all_chars is_capital s = true -> _col_to_letter (index_loop s 0 - 1) = s)).
  - intros _. reflexivity.
  - intros s c IH H. rewrite all_chars_app in H. apply andb_true_iff in H.
    destruct H as [Hs Hc]. simpl in Hc. rewrite andb_true_r in Hc.
    destruct (index_loop_capitals s Hs) as [H0 _].
    rewrite index_loop_app. simpl.
    unfold is_capital in Hc. apply andb_true_iff in Hc. destruct Hc as [H1 H2].
    apply N.leb_le in H1, H2.
    set (v := index_loop s 0) in *.
    assert (Ho : (65 <= ord c <= 90)%Z) by (unfold ord; lia).
    change (ord "A") with 65%Z.
    assert (Hq : ((v * 26 + (ord c - 65 + 1) - 1) / 26 = v)%Z).
    { symmetry. apply (Z.div_unique _ 26 v (ord c - 65)); lia. }
    assert (Hm : ((v * 26 + (ord c - 65 + 1) - 1) mod 26 = ord c - 65)%Z).
    { symmetry. apply (Z.mod_unique _ 26 v (ord c - 65)); lia. }
    rewrite col_to_letter_step by lia.
    rewrite Hq, Hm, (IH Hs). change (ord "A") with 65%Z.
    replace (ord c - 65 + 65)%Z with (ord c) by lia. now rewrite chr_ord.
Qed.

(** X9. The column letters and the column index are inverse to each
    other: [_col_to_index] reads back the letters that [_index_to_col]
    (the same loop as [DiffResult._col_to_letter]) gives to an index
    that is not negative, and [_index_to_col] gives back every
    non-empty text of capitals from its index.  The letters are
    capitals only, at least one; a negative index has no letter. *)
Theorem column_letters_round_trip :
  (forall index,
     (0 <= index)%Z ->
     _col_to_index (_index_to_col index) = index
     /\ _index_to_col index <> ""
     /\ all_chars is_capital (_index_to_col index) = true
     /\ _index_to_col index
        = (_index_to_col (index / 26 - 1)
           ++ String (chr (index mod 26 + ord "A")) "")%string)
  /\ (forall index, (index < 0)%Z -> _index_to_col index = "")
  /\ (forall col_str,
        col_str <> "" -> all_chars is_capital col_str = true ->
        (0 <= _col_to_index col_str)%Z
        /\ _index_to_col (_col_to_index col_str) = col_str)
  /\ _col_to_index "" = (-1)%Z.
Proof.
  repeat split.
  - rewrite col_to_index_loop. unfold _index_to_col. rewrite index_of_letters; lia.
  - now apply letters_not_empty.
  - apply letters_are_capitals.
  - now apply col_to_letter_step.
  - intros index H. now apply col_to_letter_neg.
  - rewrite col_to_index_loop.
    destruct (index_loop_capitals col_str H0) as [_ Hpos]. specialize (Hpos H). lia.
  - rewrite col_to_index_loop. now apply letters_of_index.
Qed.

(** The statement at the column AB, the 28th. *)
Lemma column_letters_round_trip_witness :
  _col_to_index (_index_to_col 27) = 27%Z
  /\ _index_to_col 27 = "AB"
  /\ _index_to_col (_col_to_index "ZZ") = "ZZ".
Proof.
  destruct column_letters_round_trip as (Hto & _ & Hfrom & _).
  split; [apply (Hto 27%Z); lia|].
  split; [reflexivity|].
  apply (Hfrom "ZZ"); [discriminate | reflexivity].
Defined.

(** *** The text of a range *)

Import Range.

Lemma match_range_text (c1 d1 c2 d2 : string) :
  c1 <> "" -> d1 <> "" -> c2 <> "" -> d2 <> "" ->
  all_chars is_capital c1 = true -> all_chars is_digit d1 = true ->
  all_chars is_capital c2 = true -> all_chars is_digit d2 = true ->
  match_range (c1 ++ d1 ++ ":" ++ c2 ++ d2) = Some (c1, d1, c2, d2).
Proof.
  intros N1 N2 N3 N4 H1 H2 H3 H4. unfold match_range.
  rewrite (split_run_app is_capital c1); [|assumption|].
  2:{ destruct d1 as [|c d1]; [congruence|]. simpl in *.
      apply andb_true_iff in H2. destruct H2 as [H2 _]. now apply digit_not_capital. }
  rewrite (split_run_app is_digit d1); [|assumption | reflexivity].
  simpl.
  rewrite (split_run_app is_capital c2); [|assumption|].
  2:{ destruct d2 as [|c d2]; [congruence|]. simpl in *.
      apply andb_true_iff in H4. destruct H4 as [H4 _]. now apply digit_not_capital. }
  rewrite <- (string_app_nil_r d2) at 1.
  rewrite (split_run_app is_digit d2); [|assumption | exact I].
  destruct c1, d1, c2, d2; try congruence. reflexivity.
Qed.

Lemma match_range_inv (s c1 d1 c2 d2 : string) :
  match_range s = Some (c1, d1, c2, d2) ->
  c1 <> "" /\ d1 <> "" /\ c2 <> "" /\ d2 <> ""
  /\ all_chars is_capital c1 = true /\ all_chars is_digit d1 = true
  /\ all_chars is_capital c2 = true /\ all_chars is_digit d2 = true
  /\ s = (c1 ++ d1 ++ ":" ++ c2 ++ d2)%string.
Proof.
  unfold match_range.
  destruct (split_run is_capital s) as [a s1] eqn:E1.
  destruct (split_run is_digit s1) as [b s2] eqn:E2.
  destruct s2 as [|c s3]; [discriminate|].
  destruct (Ascii.eqb_spec c ":") as [->|]; [|discriminate].
  destruct (split_run is_capital s3) as [a' s4] eqn:E3.
  destruct (split_run is_digit s4) as [b' s5] eqn:E4.
  destruct (nonempty a && nonempty b && nonempty a' && nonempty b'
            && negb (nonempty s5)) eqn:E; [|discriminate].
  intro H. inversion H; subst; clear H.
  repeat (apply andb_true_iff in E; destruct E as [E ?]).
  apply split_run_all in E1, E2, E3, E4.
  destruct E1 as [-> Ha], E2 as [-> Hb], E3 as [-> Ha'], E4 as [-> Hb'].
  destruct s5; [|discriminate]. rewrite string_app_nil_r.
  repeat split; try assumption;
    match goal with |- ?x <> "" => destruct x; [discriminate | congruence] end.
Qed.

Lemma all_digits_plain (s : string) :
  all_chars is_digit s = true -> all_chars plain_char s = true.
Proof.
  apply all_chars_impl. intros c H. unfold plain_char. rewrite H, orb_true_r. reflexivity.
Qed.

Lemma all_capitals_plain (s : string) :
  all_chars is_capital s = true -> all_chars plain_char s = true.
Proof. apply all_chars_impl. intros c H. unfold plain_char. now rewrite H. Qed.

Lemma int_of_digits_value (s : string) :
  s <> "" -> all_chars is_digit s = true ->
  int_of_digits s = Ok (digits_value 0 s).
Proof.
  intros Hne H. unfold int_of_digits. destruct s; [congruence|]. now rewrite H.
Qed.

Lemma digits_value_bound (s : string) (acc : Z) :
  all_chars is_digit s = true -> (0 <= acc)%Z -> (0 <= digits_value acc s)%Z.
Proof.
  revert acc. induction s as [|c s IH]; intros acc H Hacc; simpl; [assumption|].
  simpl in H. apply andb_true_iff in H. destruct H as [Hc Hs].
  apply IH; [assumption|].
  unfold is_digit in Hc. apply andb_true_iff in Hc. destruct Hc as [H1 _].
  apply N.leb_le in H1. unfold digit_val. lia.
Qed.

Lemma from_string_text (c1 d1 c2 d2 : string) :
  c1 <> "" -> d1 <> "" -> c2 <> "" -> d2 <> "" ->
  all_chars is_capital c1 = true -> all_chars is_digit d1 = true ->
  all_chars is_capital c2 = true -> all_chars is_digit d2 = true ->
  from_string (c1 ++ d1 ++ ":" ++ c2 ++ d2)
  = if ((digits_value 0 d2 - 1 <? digits_value 0 d1 - 1)
        || (_col_to_index c2 <? _col_to_index c1))%Z
    then Raise ValueError
    else Ok (mk (digits_value 0 d1 - 1) (_col_to_index c1)
               (digits_value 0 d2 - 1) (_col_to_index c2)).
Proof.
  intros N1 N2 N3 N4 H1 H2 H3 H4. unfold from_string.
  rewrite strip_upper_plain.
  - rewrite match_range_text by assumption.
    rewrite !int_of_digits_value by assumption. reflexivity.
  - rewrite !all_chars_app. simpl.
    now rewrite (all_capitals_plain c1), (all_digits_plain d1), (all_capitals_plain c2),
      (all_digits_plain d2).
Qed.

Lemma to_string_from_string (r : t) :
  (-1 <= start_row r <= end_row r)%Z -> (0 <= start_col r <= end_col r)%Z ->
  from_string (to_string r) = Ok r.
Proof.
  intros Hr Hc. unfold to_string.
  destruct (str_of_Z_digits (start_row r + 1) ltac:(lia)) as (N1 & D1 & V1).
  destruct (str_of_Z_digits (end_row r + 1) ltac:(lia)) as (N2 & D2 & V2).
  rewrite from_string_text; try assumption;
    try (apply letters_not_empty; lia); try apply letters_are_capitals.
  rewrite V1, V2, !col_to_index_loop. unfold _index_to_col.
  rewrite !index_of_letters by lia.
  destruct (Z.ltb_spec (end_row r + 1 - 1) (start_row r + 1 - 1)); [lia|].
  destruct (Z.ltb_spec (end_col r + 1 - 1) (start_col r + 1 - 1)); [lia|].
  simpl. destruct r. simpl. f_equal. f_equal; lia.
Qed.

Lemma from_string_inv (s : string) (r : t) :
  from_string s = Ok r ->
  (-1 <= start_row r <= end_row r)%Z /\ (0 <= start_col r <= end_col r)%Z.
Proof.
  unfold from_string.
  destruct (match_range (upper (strip s))) as [[[[c1 d1] c2] d2]|] eqn:E; [|discriminate].
  apply match_range_inv in E.
  destruct E as (N1 & N2 & N3 & N4 & H1 & H2 & H3 & H4 & _).
  rewrite !int_of_digits_value by assumption. simpl.
  destruct (_ || _) eqn:Eo; [discriminate|].
  intro H. inversion H; subst; clear H. simpl.
  apply orb_false_iff in Eo. destruct Eo as [Er Ec].
  apply Z.ltb_ge in Er, Ec.
  pose proof (digits_value_bound d1 0 H2 ltac:(lia)).
  rewrite !col_to_index_loop in *.
  destruct (index_loop_capitals c1 H1) as [_ Hp]. specialize (Hp N1). lia.
Qed.

(** X10. [CellRange.from_string] reads back the text that
    [CellRange.__str__] makes of a range (and the text that
    [_format_range] makes of a selection): the same four fields.  A range
    it returns is never inverted, its columns are not negative and its
    rows not below -1 (the row number 0 of a text gives the index -1), so
    its [row_count] and [col_count] are at least 1 and its own text
    reads back as itself. *)
Theorem range_text_round_trip :
  (forall r : Range.t,
     (-1 <= start_row r <= end_row r)%Z -> (0 <= start_col r <= end_col r)%Z ->
     from_string (to_string r) = Ok r)
  /\ (forall sel : MainWindow.Rect,
        MainWindow.min_row sel <= MainWindow.max_row sel ->
        MainWindow.min_col sel <= MainWindow.max_col sel ->
        from_string (_format_range sel)
        = Ok (mk (Z.of_nat (MainWindow.min_row sel)) (Z.of_nat (MainWindow.min_col sel))
                (Z.of_nat (MainWindow.max_row sel)) (Z.of_nat (MainWindow.max_col sel))))
  /\ (forall range_str r,
        from_string range_str = Ok r ->
        (-1 <= start_row r <= end_row r)%Z /\ (0 <= start_col r <= end_col r)%Z
        /\ (1 <= row_count r)%Z /\ (1 <= col_count r)%Z
        /\ from_string (to_string r) = Ok r)
  /\ from_string "a0:b1" = Ok (mk (-1) 0 0 1).
Proof.
  split; [|split; [|split]].
  - apply to_string_from_string.
  - intros sel Hr Hc.
    apply (to_string_from_string
             (mk (Z.of_nat (MainWindow.min_row sel)) (Z.of_nat (MainWindow.min_col sel))
                (Z.of_nat (MainWindow.max_row sel)) (Z.of_nat (MainWindow.max_col sel))));
      simpl; lia.
  - intros s r H. apply from_string_inv in H. destruct H as [Hr Hc].
    unfold row_count, col_count. repeat split; try lia.
    now apply to_string_from_string.
  - reflexivity.
Qed.

(** The statement at the range B2:D10. *)
Lemma range_text_round_trip_witness :
  from_string (to_string (mk 1 1 9 3)) = Ok (mk 1 1 9 3)
  /\ to_string (mk 1 1 9 3) = "B2:D10".
Proof.
  split; [|reflexivity].
  apply (proj1 range_text_round_trip); simpl; lia.
Defined.

(** *** Cell positions *)

Lemma position_parts (d : DiffResult) :
  split_run is_capital (position d)
  = (_col_to_letter (Z.of_nat (col d)), str_of_Z (Z.of_nat (row d) + 1)).
Proof.
  unfold position. apply split_run_app; [apply letters_are_capitals|].
  destruct (str_of_Z_digits (Z.of_nat (row d) + 1) ltac:(lia)) as (Hne & Hd & _).
  destruct (str_of_Z (Z.of_nat (row d) + 1)) as [|c s]; [congruence|].
  simpl in Hd. apply andb_true_iff in Hd. destruct Hd as [Hc _].
  now apply digit_not_capital.
Qed.

(** X11. [DiffResult.position] names the cell of a record: the letters
    of its column followed by its row number counted from 1, and two
    records have the same position text only when they point to the
    same cell. *)
Theorem position_names_the_cell :
  forall d d' : DiffResult,
    (position d = position d' -> row d = row d' /\ col d = col d')
    /\ split_run is_capital (position d)
       = (_col_to_letter (Z.of_nat (col d)), str_of_Z (Z.of_nat (row d) + 1))
    /\ _col_to_index (_col_to_letter (Z.of_nat (col d))) = Z.of_nat (col d)
    /\ int_of_digits (str_of_Z (Z.of_nat (row d) + 1)) = Ok (Z.of_nat (row d) + 1)%Z.
Proof.
  intros d d'.
  assert (Hcol : _col_to_index (_col_to_letter (Z.of_nat (col d))) = Z.of_nat (col d)).
  { rewrite col_to_index_loop, index_of_letters; lia. }
  assert (Hrow : int_of_digits (str_of_Z (Z.of_nat (row d) + 1))
                 = Ok (Z.of_nat (row d) + 1)%Z) by (apply int_of_str; lia).
  repeat split; try assumption; try apply position_parts.
  - pose proof (position_parts d) as P. pose proof (position_parts d') as P'.
    rewrite H in P. rewrite P in P'. inversion P' as [[Hc Hr]].
    assert (E : int_of_digits (str_of_Z (Z.of_nat (row d') + 1))
                = Ok (Z.of_nat (row d') + 1)%Z) by (apply int_of_str; lia).
    rewrite <- Hr, Hrow in E. inversion E. lia.
  - pose proof (position_parts d) as P. pose proof (position_parts d') as P'.
    rewrite H in P. rewrite P in P'. inversion P' as [[Hc Hr]].
    assert (E : index_loop (_col_to_letter (Z.of_nat (col d'))) 0
                = (Z.of_nat (col d') + 1)%Z) by (apply index_of_letters; lia).
    rewrite <- Hc, index_of_letters in E by lia. lia.
Qed.

(** The statement at two records of the cell AB3. *)
Lemma position_names_the_cell_witness :
  row (DiffResult_ "S" 2 27 MODIFIED PNone PNone None None)
  = row (DiffResult_ "T" 2 27 ADDED PNone (PStr "x") None None)
  /\ col (DiffResult_ "S" 2 27 MODIFIED PNone PNone None None)
     = col (DiffResult_ "T" 2 27 ADDED PNone (PStr "x") None None).
Proof.
  apply (proj1 (position_names_the_cell
                  (DiffResult_ "S" 2 27 MODIFIED PNone PNone None None)
                  (DiffResult_ "T" 2 27 ADDED PNone (PStr "x") None None))).
  reflexivity.
Defined.

(** *** The key column texts *)

Import ConfigPanel.

Lemma filter_loop_capitals (s : string) (acc : Z) :
  all_chars is_capital s = true -> filter_loop s acc = index_loop s acc.
Proof.
  revert acc. induction s as [|c s IH]; intros acc H; simpl; [reflexivity|].
  simpl in H. apply andb_true_iff in H. destruct H as [Hc Hs].
  rewrite Hc. now apply IH.
Qed.

Lemma filter_loop_bound (s : string) (acc : Z) :
  (0 <= acc)%Z -> (acc <= filter_loop s acc)%Z.
Proof.
  revert acc. induction s as [|c s IH]; intros acc H; simpl; [lia|].
  destruct (is_capital c) eqn:Ec.
  - unfold is_capital in Ec. apply andb_true_iff in Ec. destruct Ec as [H1 _].
    apply N.leb_le in H1. unfold ord. change (Z.of_N (code "A")) with 65%Z.
    etransitivity; [|apply IH; lia]. lia.
  - now apply IH.
Qed.

Lemma parse_col_letters (s : string) :
  s <> "" -> all_chars is_capital s = true ->
  parse_col s = Ok (Some (_col_to_index s)).
Proof.
  intros Hne H. unfold parse_col.
  rewrite (strip_upper_plain s (all_capitals_plain s H)).
  destruct s as [|c s]; [congruence|].
  assert (Hd : isdigit (String c s) = false).
  { simpl. simpl in H. apply andb_true_iff in H. destruct H as [Hc _].
    unfold isdigit_char. rewrite (capital_not_digit c Hc).
    unfold is_capital in Hc. apply andb_true_iff in Hc. destruct Hc as [H1 H2].
    apply N.leb_le in H1, H2.
    destruct (N.eqb_spec (code c) 178); [lia|].
    destruct (N.eqb_spec (code c) 179); [lia|].
    destruct (N.eqb_spec (code c) 185); [lia|]. reflexivity. }
  rewrite Hd.
  change (Ok (if (0 <? filter_loop (String c s) 0)%Z
              then Some (filter_loop (String c s) 0 - 1)%Z else None)
          = Ok (Some (_col_to_index (String c s)))).
  rewrite filter_loop_capitals by assumption.
  destruct (index_loop_capitals (String c s) H) as [_ Hp].
  specialize (Hp ltac:(discriminate)).
  destruct (Z.ltb_spec 0 (index_loop (String c s) 0)); [|lia].
  now rewrite col_to_index_loop.
Qed.

Lemma isdigit_digits (s : string) :
  s <> "" -> all_chars is_digit s = true -> isdigit s = true.
Proof.
  intros Hne H. unfold isdigit. destruct s; [congruence|].
  apply (all_chars_impl is_digit); [|exact H].
  intros c Hc. unfold isdigit_char. now rewrite Hc.
Qed.

Lemma parse_col_digits (s : string) :
  s <> "" -> all_chars is_digit s = true ->
  parse_col s = Ok (Some (digits_value 0 s - 1)%Z).
Proof.
  intros Hne H. unfold parse_col.
  rewrite (strip_upper_plain s (all_digits_plain s H)).
  rewrite (isdigit_digits s Hne H), (int_of_digits_value s Hne H).
  destruct s; [congruence | reflexivity].
Qed.

Lemma int_of_digits_bound (s : string) (n : Z) : int_of_digits s = Ok n -> (0 <= n)%Z.
Proof.
  unfold int_of_digits. destruct s as [|c s]; [discriminate|].
  destruct (all_chars is_digit (String c s)) eqn:E; [|discriminate].
  pose proof (digits_value_bound (String c s) 0 E ltac:(lia)) as Hb.
  intro H. injection H as <-. exact Hb.
Qed.

Lemma parse_col_bound (text : string) (k : Z) :
  parse_col text = Ok (Some k) -> (-1 <= k)%Z.
Proof.
  unfold parse_col. destruct (upper (strip text)) as [|c s]; [discriminate|].
  destruct (isdigit (String c s)).
  - destruct (int_of_digits (String c s)) as [n|e] eqn:E; simpl; [|discriminate].
    intro H. inversion H. apply int_of_digits_bound in E. lia.
  - change (Ok (if (0 <? filter_loop (String c s) 0)%Z
                then Some (filter_loop (String c s) 0 - 1)%Z else None)
            = Ok (Some k) -> (-1 <= k)%Z).
    remember (filter_loop (String c s) 0) as v.
    destruct (Z.ltb_spec 0 v); intro Hk; inversion Hk. lia.
Qed.

Lemma nth_last {A : Type} (l : list A) (d : A) :
  nth (List.length l - 1) l d = last l d.
Proof.
  induction l as [|x l IH]; [reflexivity|].
  destruct l as [|y l]; [reflexivity|].
  replace (List.length (x :: y :: l) - 1) with (S (List.length (y :: l) - 1))
    by (simpl; lia).
  change (nth (S (List.length (y :: l) - 1)) (x :: y :: l) d)
    with (nth (List.length (y :: l) - 1) (y :: l) d).
  rewrite IH. reflexivity.
Qed.

Lemma last_index (row : list pyval) :
  row <> [] -> index_or_none row (-1) = Ok (last row PNone).
Proof.
  intro H. unfold index_or_none, py_index.
  destruct (Z.ltb_spec (-1) (Z.of_nat (List.length row))); [|lia].
  change (-1 <? 0)%Z with true. cbv iota.
  assert (Hlen : 0 < List.length row) by (destruct row; [congruence | simpl; lia]).
  destruct (Z.ltb_spec (Z.of_nat (List.length row) + -1) 0); [lia|].
  replace (Z.to_nat (Z.of_nat (List.length row) + -1)) with (List.length row - 1) by lia.
  rewrite (nth_error_nth' row PNone) by lia.
  now rewrite nth_last.
Qed.

(** X12. [parse_col] reads a key column text: the letters that
    [_col_to_letter] gives to a column read back as the index of that
    column, and a number [n] as the index [n - 1]; whatever the text,
    the index is never below -1, and the number 0 gives -1.  With the
    key column -1 the key of a row is read from its last cell.  A blank
    text means no key column, and B takes the key columns of A when its
    own two texts are blank. *)
Theorem key_column_texts :
  (forall index, (0 <= index)%Z -> parse_col (_col_to_letter index) = Ok (Some index))
  /\ (forall n, (0 <= n)%Z -> parse_col (str_of_Z n) = Ok (Some (n - 1)%Z))
  /\ (forall text k, parse_col text = Ok (Some k) -> (-1 <= k)%Z)
  /\ (forall text, strip text = "" -> parse_col text = Ok None)
  /\ (forall float_repr options row_data,
        row_data <> [] ->
        MainWindow.make_key float_repr options row_data (Some (-1)%Z) None
        = MainWindow.make_key float_repr options row_data
            (Some (Z.of_nat (List.length row_data) - 1)%Z) None)
  /\ (forall col1_a col2_a col1_b col2_b,
        strip col1_b = "" -> strip col2_b = "" ->
        get_key_column_config true col1_a col2_a col1_b col2_b
        = bind (parse_col col1_a) (fun k1 =>
          bind (parse_col col2_a) (fun k2 => Ok ((k1, k2), (k1, k2)))))
  /\ (forall col1_a col2_a col1_b col2_b,
        get_key_column_config false col1_a col2_a col1_b col2_b
        = Ok ((None, None), (None, None))).
Proof.
  split; [|split; [|split; [|split; [|split; [|split]]]]].
  - intros index H.
    rewrite parse_col_letters;
      [|now apply letters_not_empty | apply letters_are_capitals].
    rewrite col_to_index_loop, index_of_letters by lia. do 2 f_equal. lia.
  - intros n H. destruct (str_of_Z_digits n H) as (Hne & Hd & Hv).
    now rewrite parse_col_digits, Hv.
  - apply parse_col_bound.
  - intros text H. unfold parse_col. now rewrite H.
  - intros float_repr options row H. unfold MainWindow.make_key.
    rewrite (last_index row H).
    assert (Hlen : 0 < List.length row) by (destruct row; [congruence | simpl; lia]).
    rewrite index_or_none_nonneg by lia.
    replace (Z.to_nat (Z.of_nat (List.length row) - 1)) with (List.length row - 1) by lia.
    now rewrite nth_last.
  - intros a1 a2 b1 b2 H1 H2. unfold get_key_column_config. simpl.
    rewrite H1, H2. reflexivity.
  - reflexivity.
Qed.

(** The statement at the column C and at the number 0. *)
Lemma key_column_texts_witness :
  parse_col (_col_to_letter 2) = Ok (Some 2%Z)
  /\ parse_col (str_of_Z 0) = Ok (Some (0 - 1)%Z)
  /\ MainWindow.make_key no_float_repr CompareService.default_options
       [PStr "a"; PStr "k"] (Some (-1)%Z) None
     = MainWindow.make_key no_float_repr CompareService.default_options
         [PStr "a"; PStr "k"] (Some (Z.of_nat 2 - 1)%Z) None.
Proof.
  destruct key_column_texts as (H1 & H2 & _ & _ & H5 & _).
  split; [apply H1; lia|]. split; [apply H2; lia|].
  apply (H5 no_float_repr CompareService.default_options [PStr "a"; PStr "k"]).
  discriminate.
Defined.

(** *** The header row text *)

Lemma mapM_const {A B : Type} (f : A -> result B) (y : B) (l : list A) :
  (forall x, In x l -> f x = Ok y) -> mapM f l = Ok (map (fun _ => y) l).
Proof.
  induction l as [|x l IH]; intro H; simpl; [reflexivity|].
  rewrite (H x) by now left. simpl. rewrite IH by (intros; apply H; now right).
  reflexivity.
Qed.

Lemma concat_nils {A B : Type} (l : list A) :
  List.concat (map (fun _ => @nil B) l) = [].
Proof. induction l as [|x l IH]; simpl; [reflexivity | exact IH]. Qed.

Lemma header_only_no_columns (options : CompareService.CompareOptions) (sh : string)
  (sheet_a sheet_b : SheetData) (header_row : option Z) :
  MainWindow.header_only_diffs options sh [] sheet_a sheet_b header_row = [].
Proof.
  unfold MainWindow.header_only_diffs. apply flat_map_nil. intros r _.
  destruct (MainWindow.is_header_row header_row r); reflexivity.
Qed.

Lemma sheet_columns_outside (float_repr : spec_float -> string)
  (sheet_a sheet_b : SheetData) (h : Z) :
  (h < 0 \/ Z.of_nat (List.length (rows sheet_a)) <= h
   \/ Z.of_nat (List.length (rows sheet_b)) <= h)%Z ->
  MainWindow.sheet_columns float_repr sheet_a sheet_b (Some h) = [].
Proof.
  intro H. unfold MainWindow.sheet_columns.
  destruct H as [H|[H|H]].
  - rewrite (sheet_header_outside float_repr sheet_a h) by now left. reflexivity.
  - rewrite (sheet_header_outside float_repr sheet_a h) by now right. reflexivity.
  - rewrite (sheet_header_outside float_repr sheet_b h) by now right.
    apply column_map_nil_r.
Qed.

(** X13. The header row text is a row number counted from 1
    ([get_header_row_config] gives [n - 1] for the number [n], and the
    first row for a text that is no number), so the text 0 gives the
    row -1.  Without a first key column, a header row outside one of
    the two sheets leaves no column to compare: the comparison of the
    window then returns no record at all, whatever the sheets hold. *)
Theorem header_row_outside_compares_nothing :
  (forall n, (0 <= n)%Z ->
     get_header_row_config true (str_of_Z n) = Ok (Some (n - 1)%Z))
  /\ (forall text, isdigit (strip text) = false ->
        get_header_row_config true text = Ok (Some 0%Z))
  /\ (forall text, get_header_row_config false text = Ok None)
  /\ (forall float_repr set_iter k2a k1b k2b h options sh sheet_a sheet_b,
        (h < 0 \/ Z.of_nat (List.length (rows sheet_a)) <= h
         \/ Z.of_nat (List.length (rows sheet_b)) <= h)%Z ->
        MainWindow.smart_match_sheet float_repr set_iter None k2a k1b k2b (Some h)
          options sh sheet_a sheet_b = Ok [])
  /\ (forall float_repr set_iter workbook_a workbook_b k2a k1b k2b h options
             selected_sheets,
        (h < 0)%Z ->
        MainWindow._compare_with_smart_match float_repr set_iter workbook_a workbook_b
          None k2a k1b k2b (Some h) options selected_sheets
        = Ok (mk_result (file_name workbook_a) (file_name workbook_b) [] empty_summary)).
Proof.
  split; [|split; [|split; [|split]]].
  - intros n H. destruct (str_of_Z_digits n H) as (Hne & Hd & Hv).
    unfold get_header_row_config. simpl negb at 1. cbv iota.
    rewrite (strip_no_space (str_of_Z n)).
    + rewrite (isdigit_digits _ Hne Hd), (int_of_digits_value _ Hne Hd), Hv.
      destruct (str_of_Z n); [congruence | reflexivity].
    + apply (all_chars_impl plain_char); [|now apply all_digits_plain].
      intros c Hc. now rewrite (proj1 (plain_char_cases c Hc)).
  - intros text H. unfold get_header_row_config. simpl negb at 1. cbv iota.
    rewrite H. simpl. now rewrite orb_true_r.
  - reflexivity.
  - intros float_repr set_iter k2a k1b k2b h options sh sa sb H.
    unfold MainWindow.smart_match_sheet.
    rewrite (sheet_columns_outside float_repr sa sb h H).
    now rewrite header_only_no_columns.
  - intros float_repr set_iter wa wb k2a k1b k2b h options sel H.
    unfold MainWindow._compare_with_smart_match.
    rewrite (mapM_const _ []).
    + simpl. now rewrite concat_nils.
    + intros n _. destruct (get_sheet wa n) as [sa|]; [|reflexivity].
      destruct (get_sheet wb n) as [sb|]; [|reflexivity].
      unfold MainWindow.smart_match_sheet.
      rewrite (sheet_columns_outside float_repr sa sb h) by now left.
      now rewrite header_only_no_columns.
Qed.

(** The statement at the header row text 0 and two sheets that differ. *)
Lemma header_row_outside_witness :
  get_header_row_config true (str_of_Z 0) = Ok (Some (0 - 1)%Z)
  /\ MainWindow._compare_with_smart_match no_float_repr first_seen
       (workbook_of "a.xlsx" [sheet_of "S" 1 [[text_cell "h"]; [text_cell "1"]]])
       (workbook_of "b.xlsx" [sheet_of "S" 1 [[text_cell "h"]; [text_cell "2"]]])
       None None None None (Some (-1)%Z) CompareService.default_options None
     = Ok (mk_result "a.xlsx" "b.xlsx" [] empty_summary).
Proof.
  destruct header_row_outside_compares_nothing as (H1 & _ & _ & _ & H5).
  split; [apply H1; lia|].
  apply (H5 no_float_repr first_seen
           (workbook_of "a.xlsx" [sheet_of "S" 1 [[text_cell "h"]; [text_cell "1"]]])
           (workbook_of "b.xlsx" [sheet_of "S" 1 [[text_cell "h"]; [text_cell "2"]]])).
  lia.
Defined.

(** *** The records by sheet *)

Import DiffModel.

Lemma on_sheet_snoc (sh : string) (ds : list DiffResult) (d : DiffResult) :
  on_sheet sh (ds ++ [d])
  = on_sheet sh ds ++ (if String.eqb (sheet d) sh then [d] else []).
Proof. unfold on_sheet. rewrite filter_app. reflexivity. Qed.

Lemma group_append_get (m : dict string (list DiffResult)) (ds : list DiffResult)
  (d : DiffResult) :
  (forall sh, dict_get String.eqb m sh = group_of sh ds) ->
  forall sh, dict_get String.eqb (group_append m d) sh = group_of sh (ds ++ [d]).
Proof.
  intros Hm sh. unfold group_append, group_of. rewrite on_sheet_snoc.
  pose proof (Hm (sheet d)) as Hd. unfold group_of in Hd.
  destruct (dict_get String.eqb m (sheet d)) as [l|] eqn:E; rewrite dict_get_set_str;
    destruct (String.eqb_spec (sheet d) sh) as [<-|Hne];
    try (rewrite Hm; unfold group_of; now rewrite app_nil_r).
  - destruct (on_sheet (sheet d) ds) as [|x l']; [discriminate|]. now inversion Hd.
  - destruct (on_sheet (sheet d) ds) as [|x l']; [reflexivity | discriminate].
Qed.

Lemma fold_group_get (ds : list DiffResult) :
  forall (m : dict string (list DiffResult)) (prefix : list DiffResult),
    (forall sh, dict_get String.eqb m sh = group_of sh prefix) ->
    forall sh, dict_get String.eqb (fold_left group_append ds m) sh
               = group_of sh (prefix ++ ds).
Proof.
  induction ds as [|d ds IH]; intros m prefix Hm sh; simpl.
  - now rewrite app_nil_r.
  - rewrite (IH (group_append m d) (prefix ++ [d])).
    + now rewrite <- app_assoc.
    + now apply group_append_get.
Qed.

Lemma dict_set_keys_str {V : Type} (d : dict string V) (k : string) (v : V) :
  dict_keys (dict_set String.eqb d k v)
  = if CompareService.mem_str k (dict_keys d) then dict_keys d else dict_keys d ++ [k].
Proof.
  unfold dict_keys, CompareService.mem_str. induction d as [|[k0 v0] d IH]; simpl; [reflexivity|].
  rewrite (String.eqb_sym k k0).
  destruct (String.eqb_spec k0 k) as [->|Hne]; simpl; [reflexivity|].
  rewrite IH. destruct (existsb (String.eqb k) (map fst d)); reflexivity.
Qed.

Lemma dict_mem_keys {V : Type} (d : dict string V) (k : string) :
  CompareService.mem_str k (dict_keys d)
  = match dict_get String.eqb d k with Some _ => true | None => false end.
Proof.
  unfold dict_keys, CompareService.mem_str. induction d as [|[k0 v0] d IH]; simpl; [reflexivity|].
  rewrite (String.eqb_sym k k0). destruct (String.eqb k0 k); [reflexivity | exact IH].
Qed.

Lemma group_append_keys (m : dict string (list DiffResult)) (d : DiffResult) :
  dict_keys (group_append m d)
  = if CompareService.mem_str (sheet d) (dict_keys m) then dict_keys m
    else dict_keys m ++ [sheet d].
Proof.
  unfold group_append.
  destruct (dict_get String.eqb m (sheet d)); apply dict_set_keys_str.
Qed.

Lemma filter_filter {A : Type} (p q : A -> bool) (l : list A) :
  filter p (filter q l) = filter (fun x => q x && p x) l.
Proof.
  induction l as [|x l IH]; simpl; [reflexivity|].
  destruct (q x); simpl; [destruct (p x); now rewrite IH | exact IH].
Qed.

Lemma fold_group_keys (ds : list DiffResult) :
  forall m : dict string (list DiffResult),
    dict_keys (fold_left group_append ds m)
    = dict_keys m
      ++ filter (fun k => negb (CompareService.mem_str k (dict_keys m)))
           (first_seen (map sheet ds)).
Proof.
  induction ds as [|d ds IH]; intro m; simpl; [now rewrite app_nil_r|].
  rewrite IH, group_append_keys, filter_filter.
  destruct (CompareService.mem_str (sheet d) (dict_keys m)) eqn:E; simpl.
  - f_equal. apply filter_ext_in. intros k _.
    destruct (String.eqb_spec (sheet d) k) as [<-|Hne]; simpl; [now rewrite E | reflexivity].
  - rewrite <- app_assoc. simpl. do 2 f_equal. apply filter_ext_in. intros k _.
    unfold CompareService.mem_str. rewrite existsb_app. simpl. rewrite orb_false_r.
    rewrite (String.eqb_sym k (sheet d)).
    destruct (String.eqb (sheet d) k), (existsb (String.eqb k) (dict_keys m)); reflexivity.
Qed.

Lemma filter_all {A : Type} (p : A -> bool) (l : list A) :
  (forall x, In x l -> p x = true) -> filter p l = l.
Proof.
  induction l as [|x l IH]; intro H; simpl; [reflexivity|].
  rewrite (H x) by now left. f_equal. apply IH. intros y Hy. apply H. now right.
Qed.

(** X14. [CompareResult.__post_init__] groups the records by sheet
    without losing or reordering any: under the name of a sheet
    [diffs_by_sheet] holds exactly the records of that sheet, in the
    order of the list; a sheet without record has no entry; and the
    sheets come in the order in which they first appear among the
    records, each once. *)
Theorem diffs_by_sheet_groups :
  forall (diffs : list DiffResult),
    (forall sh,
       dict_get String.eqb (diffs_by_sheet diffs) sh
       = match on_sheet sh diffs with [] => None | l => Some l end)
    /\ (forall sh, In sh (dict_keys (diffs_by_sheet diffs)) <-> In sh (map sheet diffs))
    /\ dict_keys (diffs_by_sheet diffs) = first_seen (map sheet diffs)
    /\ NoDup (dict_keys (diffs_by_sheet diffs)).
Proof.
  intro diffs.
  assert (Hkeys : dict_keys (diffs_by_sheet diffs) = first_seen (map sheet diffs)).
  { unfold diffs_by_sheet. rewrite fold_group_keys. simpl.
    apply filter_all. intros k _. reflexivity. }
  repeat split.
  - intro sh. unfold diffs_by_sheet.
    apply (fold_group_get diffs [] [] (fun _ => eq_refl)).
  - rewrite Hkeys. apply first_seen_In.
  - rewrite Hkeys. intro H. now apply first_seen_In.
  - exact Hkeys.
  - rewrite Hkeys. apply first_seen_NoDup.
Qed.

(** *** Stepping through the records *)

Import Navigation.

Lemma navigate_in_range (diffs : list DiffResult) (i : Z) :
  (0 <= i < Z.of_nat (List.length diffs))%Z ->
  _navigate_to_current_diff (mk_state (Some diffs) i)
  = Ok (nth_error diffs (Z.to_nat i)).
Proof.
  intro H. unfold _navigate_to_current_diff. simpl.
  destruct (Z.ltb_spec i 0); [lia|].
  destruct (nth_error diffs (Z.to_nat i)) as [d|] eqn:E; [reflexivity|].
  apply nth_error_None in E. lia.
Qed.

Lemma next_in_range (d : DiffResult) (l : list DiffResult) (i : Z) :
  (-1 <= i < Z.of_nat (List.length (d :: l)))%Z ->
  let j := (if (Z.of_nat (List.length (d :: l)) <=? i + 1)%Z then 0 else i + 1)%Z in
  _next_diff (mk_state (Some (d :: l)) i)
  = Ok (mk_state (Some (d :: l)) j, nth_error (d :: l) (Z.to_nat j))
  /\ (0 <= j < Z.of_nat (List.length (d :: l)))%Z.
Proof.
  intros H j. assert (Hj : (0 <= j < Z.of_nat (List.length (d :: l)))%Z).
  { subst j. destruct (Z.leb_spec (Z.of_nat (List.length (d :: l))) (i + 1));
      simpl List.length in *; lia. }
  split; [|exact Hj].
  unfold _next_diff. cbn [nothing_to_show _compare_result n_diffs _current_diff_index].
  fold j. now rewrite navigate_in_range.
Qed.

Lemma prev_in_range (d : DiffResult) (l : list DiffResult) (i : Z) :
  (-1 <= i < Z.of_nat (List.length (d :: l)))%Z ->
  let j := (if (i - 1 <? 0)%Z then Z.of_nat (List.length (d :: l)) - 1 else i - 1)%Z in
  _prev_diff (mk_state (Some (d :: l)) i)
  = Ok (mk_state (Some (d :: l)) j, nth_error (d :: l) (Z.to_nat j))
  /\ (0 <= j < Z.of_nat (List.length (d :: l)))%Z.
Proof.
  intros H j. assert (Hj : (0 <= j < Z.of_nat (List.length (d :: l)))%Z).
  { subst j. destruct (Z.ltb_spec (i - 1) 0); simpl List.length in *; lia. }
  split; [|exact Hj].
  unfold _prev_diff. cbn [nothing_to_show _compare_result n_diffs _current_diff_index].
  fold j. now rewrite navigate_in_range.
Qed.

(** X15. Stepping through the records never leaves the list: from the
    state in which a comparison leaves the window, and from every state
    reached from it, [_next_diff] and [_prev_diff] raise nothing, show a
    record of the list (the next one, or the first after the last; the
    one before, or the last before the first) and keep the index inside
    the list; each undoes the other; the label counts from 1 to the
    number of records.  With no record both do nothing. *)
Theorem stepping_stays_in_the_list :
  (forall diffs, nav_ok (compared diffs))
  /\ (forall st,
        nav_ok st ->
        exists st' shown,
          _next_diff st = Ok (st', shown) /\ nav_ok st'
          /\ _compare_result st' = _compare_result st
          /\ (nothing_to_show st = true -> st' = st /\ shown = None)
          /\ (nothing_to_show st = false ->
              exists diffs d,
                _compare_result st = Some diffs
                /\ shown = Some d
                /\ nth_error diffs (Z.to_nat (_current_diff_index st')) = Some d
                /\ _current_diff_index st'
                   = (if (n_diffs st <=? _current_diff_index st + 1)%Z then 0
                      else _current_diff_index st + 1)%Z))
  /\ (forall st,
        nav_ok st ->
        exists st' shown,
          _prev_diff st = Ok (st', shown) /\ nav_ok st'
          /\ _compare_result st' = _compare_result st
          /\ (nothing_to_show st = true -> st' = st /\ shown = None)
          /\ (nothing_to_show st = false ->
              exists diffs d,
                _compare_result st = Some diffs
                /\ shown = Some d
                /\ nth_error diffs (Z.to_nat (_current_diff_index st')) = Some d
                /\ _current_diff_index st'
                   = (if (_current_diff_index st - 1 <? 0)%Z then n_diffs st - 1
                      else _current_diff_index st - 1)%Z))
  /\ (forall st st1 st2 s1 s2,
        nav_ok st -> _next_diff st = Ok (st1, s1) -> _prev_diff st1 = Ok (st2, s2) ->
        st2 = st)
  /\ (forall st st1 st2 s1 s2,
        nav_ok st -> _prev_diff st = Ok (st1, s1) -> _next_diff st1 = Ok (st2, s2) ->
        st2 = st)
  /\ (forall st,
        nav_ok st -> nothing_to_show st = false ->
        (1 <= fst (_update_diff_position st) <= snd (_update_diff_position st))%Z
        /\ snd (_update_diff_position st) = n_diffs st).
Proof.
  split; [|split; [|split; [|split; [|split]]]].
  - intros [|d l]; unfold nav_ok, compared; simpl; [reflexivity | lia].
  - intros [[[|d l]|] i] H; unfold nav_ok in H;
      cbn [_compare_result _current_diff_index] in H; [| |destruct H].
    + exists (mk_state (Some []) i), None. repeat split; try assumption; try reflexivity;
        try discriminate.
    + destruct (next_in_range d l i ltac:(lia)) as [E Hj].
      eexists _, _. split; [exact E|]. split; [exact Hj|]. split; [reflexivity|].
      split; [discriminate|]. intros _.
      destruct (nth_error (d :: l) _) as [x|] eqn:Ex.
      * exists (d :: l), x. repeat split. exact Ex.
      * apply nth_error_None in Ex. lia.
  - intros [[[|d l]|] i] H; unfold nav_ok in H;
      cbn [_compare_result _current_diff_index] in H; [| |destruct H].
    + exists (mk_state (Some []) i), None. repeat split; try assumption; try reflexivity;
        try discriminate.
    + destruct (prev_in_range d l i ltac:(lia)) as [E Hj].
      eexists _, _. split; [exact E|]. split; [exact Hj|]. split; [reflexivity|].
      split; [discriminate|]. intros _.
      destruct (nth_error (d :: l) _) as [x|] eqn:Ex.
      * exists (d :: l), x. repeat split. exact Ex.
      * apply nth_error_None in Ex. lia.
  - intros [[[|d l]|] i] st1 st2 s1 s2 H H1 H2;
      unfold nav_ok in H; cbn [_compare_result _current_diff_index] in H;
      [| |destruct H].
    + inversion H1; subst. now inversion H2.
    + pose proof (next_in_range d l i ltac:(lia)) as HE. cbv zeta in HE.
      set (j := (if (Z.of_nat (List.length (d :: l)) <=? i + 1)%Z then 0 else i + 1)%Z)
        in HE.
      destruct HE as [E Hj]. rewrite E in H1.
      assert (Hst1 : st1 = mk_state (Some (d :: l)) j) by congruence. subst st1.
      pose proof (prev_in_range d l j ltac:(lia)) as HE'. cbv zeta in HE'.
      destruct HE' as [E' _]. rewrite E' in H2.
      assert (Hst2 : st2 = mk_state (Some (d :: l))
                (if (j - 1 <? 0)%Z then Z.of_nat (List.length (d :: l)) - 1
                 else j - 1)%Z) by congruence.
      rewrite Hst2. f_equal.
      subst j. destruct (Z.leb_spec (Z.of_nat (List.length (d :: l))) (i + 1));
        match goal with |- (if (?x <? 0)%Z then _ else _) = _ =>
          destruct (Z.ltb_spec x 0) end; simpl List.length in *; lia.
  - intros [[[|d l]|] i] st1 st2 s1 s2 H H1 H2;
      unfold nav_ok in H; cbn [_compare_result _current_diff_index] in H;
      [| |destruct H].
    + inversion H1; subst. now inversion H2.
    + pose proof (prev_in_range d l i ltac:(lia)) as HE. cbv zeta in HE.
      set (j := (if (i - 1 <? 0)%Z then Z.of_nat (List.length (d :: l)) - 1
                 else i - 1)%Z) in HE.
      destruct HE as [E Hj]. rewrite E in H1.
      assert (Hst1 : st1 = mk_state (Some (d :: l)) j) by congruence. subst st1.
      pose proof (next_in_range d l j ltac:(lia)) as HE'. cbv zeta in HE'.
      destruct HE' as [E' _]. rewrite E' in H2.
      assert (Hst2 : st2 = mk_state (Some (d :: l))
                (if (Z.of_nat (List.length (d :: l)) <=? j + 1)%Z then 0
                 else j + 1)%Z) by congruence.
      rewrite Hst2. f_equal.
      subst j. destruct (Z.ltb_spec (i - 1) 0);
        match goal with |- (if (_ <=? ?x)%Z then _ else _) = _ =>
          destruct (Z.leb_spec (Z.of_nat (List.length (d :: l))) x) end;
        simpl List.length in *; lia.
  - intros [[[|d l]|] i] H Hn; unfold nav_ok in H;
      cbn [_compare_result _current_diff_index] in H; try discriminate.
    unfold _update_diff_position. rewrite Hn.
    cbn [_current_diff_index n_diffs _compare_result fst snd].
    destruct (Z.leb_spec 0 i); [|lia]. split; [lia | reflexivity].
Qed.

(** The statement at a list of two records, from the last one. *)
Lemma stepping_witness :
  exists st' shown,
    _next_diff (mk_state (Some [changed_cell; changed_in_place]) 1) = Ok (st', shown)
    /\ nav_ok st'.
Proof.
  destruct (proj1 (proj2 stepping_stays_in_the_list)
              (mk_state (Some [changed_cell; changed_in_place]) 1))
    as (st' & shown & E & Hok & _).
  - unfold nav_ok. simpl. lia.
  - now exists st', shown.
Defined.

(** *** Escaping for HTML *)

Lemma replace_char_app (old : ascii) (new s1 s2 : string) :
  replace_char old new (s1 ++ s2)
  = (replace_char old new s1 ++ replace_char old new s2)%string.
Proof.
  induction s1 as [|c s1 IH]; simpl; [reflexivity|].
  rewrite IH. now rewrite string_app_assoc.
Qed.

Lemma escape_html_cons (c : ascii) (s : string) :
  ReportService._escape_html (String c s)
  = (html_entity c ++ ReportService._escape_html s)%string.
Proof.
  unfold ReportService._escape_html, html_entity.
  change (String c s) with (String c "" ++ s)%string.
  rewrite !replace_char_app. f_equal.
  destruct (Ascii.eqb_spec c "&") as [->|H1]; [reflexivity|].
  destruct (Ascii.eqb_spec c "<") as [->|H2]; [reflexivity|].
  destruct (Ascii.eqb_spec c ">") as [->|H3]; [reflexivity|].
  destruct (Ascii.eqb_spec c ReportService.dquote) as [->|H4]; [reflexivity|].
  destruct (Ascii.eqb_spec c "'") as [->|H5]; [reflexivity|].
  simpl.
  apply Ascii.eqb_neq in H1, H2, H3, H4, H5.
  rewrite H1. simpl. rewrite H2. simpl. rewrite H3. simpl. rewrite H4. simpl.
  now rewrite H5.
Qed.

Lemma escape_html_escaped (s : string) : ReportService._escape_html s = escaped s.
Proof.
  induction s as [|c s IH]; [reflexivity|].
  rewrite escape_html_cons, IH. reflexivity.
Qed.

Lemma entity_not_special (c : ascii) :
  all_chars (fun x => negb (html_special x)) (html_entity c) = true.
Proof.
  unfold html_entity.
  destruct (Ascii.eqb_spec c "&"); [reflexivity|].
  destruct (Ascii.eqb_spec c "<") as [|H2]; [reflexivity|].
  destruct (Ascii.eqb_spec c ">") as [|H3]; [reflexivity|].
  destruct (Ascii.eqb_spec c ReportService.dquote) as [|H4]; [reflexivity|].
  destruct (Ascii.eqb_spec c "'") as [|H5]; [reflexivity|].
  simpl. unfold html_special.
  apply Ascii.eqb_neq in H2, H3, H4, H5. now rewrite H2, H3, H4, H5.
Qed.

Lemma escaped_inj (s1 : string) : forall s2, escaped s1 = escaped s2 -> s1 = s2.
Proof.
  induction s1 as [|c1 s1 IH]; intros [|c2 s2] H; simpl in H.
  - reflexivity.
  - exfalso. unfold html_entity in H.
    repeat match type of H with
           | context [if ?b then _ else _] => destruct b
           end; discriminate.
  - exfalso. unfold html_entity in H.
    repeat match type of H with
           | context [if ?b then _ else _] => destruct b
           end; discriminate.
  - unfold html_entity in H.
    destruct (Ascii.eqb_spec c1 "&"); destruct (Ascii.eqb_spec c2 "&");
      [subst; f_equal; apply IH; now inversion H | | |];
      destruct (Ascii.eqb_spec c1 "<"); destruct (Ascii.eqb_spec c2 "<");
      try (subst; f_equal; apply IH; now inversion H);
      destruct (Ascii.eqb_spec c1 ">"); destruct (Ascii.eqb_spec c2 ">");
      try (subst; f_equal; apply IH; now inversion H);
      destruct (Ascii.eqb_spec c1 ReportService.dquote);
      destruct (Ascii.eqb_spec c2 ReportService.dquote);
      try (subst; f_equal; apply IH; now inversion H);
      destruct (Ascii.eqb_spec c1 "'"); destruct (Ascii.eqb_spec c2 "'");
      try (subst; f_equal; apply IH; now inversion H);
      try (subst; simpl in H; inversion H; congruence).
    simpl in H. inversion H. subst. f_equal. now apply IH.
Qed.

(** X16. [_escape_html] replaces each of the five characters ampersand,
    less-than, greater-than, double quote and apostrophe by its entity
    and leaves the others: the five replacements made one after the
    other never touch an entity already put in.  The escaped text holds
    none of the last four characters, and two texts with the same
    escaped text are the same. *)
Theorem escape_html_is_faithful :
  forall text : string,
    ReportService._escape_html text = escaped text
    /\ all_chars (fun c => negb (html_special c)) (ReportService._escape_html text) = true
    /\ (forall text',
          ReportService._escape_html text = ReportService._escape_html text' ->
          text = text').
Proof.
  intro text. split; [apply escape_html_escaped|]. split.
  - rewrite escape_html_escaped. induction text as [|c s IH]; simpl; [reflexivity|].
    now rewrite all_chars_app, entity_not_special, IH.
  - intros text' H. rewrite !escape_html_escaped in H. now apply escaped_inj.
Qed.

(** *** The two files exchanged *)

Lemma SFeqb_sym (f g : spec_float) : SFeqb f g = SFeqb g f.
Proof.
  unfold SFeqb.
  destruct f as [s|s| |s m e], g as [s'|s'| |s' m' e']; simpl; try reflexivity;
    try (destruct s, s'; reflexivity); try (destruct s; reflexivity);
    try (destruct s'; reflexivity).
  destruct s, s'; try reflexivity; rewrite (Z.compare_antisym e e');
    destruct (e ?= e')%Z; simpl; try reflexivity;
    change Eq with (CompOpp Eq) at 2;
    rewrite <- (Pos.compare_cont_antisym m m' Eq);
    destruct (Pos.compare_cont Eq m m'); reflexivity.
Qed.

Lemma datetime_eqb_sym (a b : datetime) : datetime_eqb a b = datetime_eqb b a.
Proof.
  unfold datetime_eqb.
  now rewrite (Nat.eqb_sym (year a)), (Nat.eqb_sym (month a)), (Nat.eqb_sym (day a)),
    (Nat.eqb_sym (hour a)), (Nat.eqb_sym (minute a)), (Nat.eqb_sym (second a)),
    (Nat.eqb_sym (microsecond a)).
Qed.

Lemma py_eqb_sym (a b : pyval) : py_eqb a b = py_eqb b a.
Proof.
  destruct a, b; simpl; try reflexivity.
  - apply String.eqb_sym.
  - apply Z.eqb_sym.
  - apply Z.eqb_sym.
  - apply SFeqb_sym.
  - apply Z.eqb_sym.
  - destruct b, b0; reflexivity.
  - apply datetime_eqb_sym.
Qed.

Lemma opt_neqb_sym {A : Type} (eqb : A -> A -> bool) (a b : option A) :
  (forall x y, eqb x y = eqb y x) ->
  CompareService.opt_neqb eqb a b = CompareService.opt_neqb eqb b a.
Proof. intro H. destruct a, b; simpl; try reflexivity. now rewrite H. Qed.

Lemma compare_styles_sym (a b : option CellData) :
  CompareService._compare_styles a b = CompareService._compare_styles b a.
Proof.
  unfold CompareService._compare_styles.
  destruct (match a with Some c => style c | None => None end) as [sa|],
    (match b with Some c => style c | None => None end) as [sb|]; try reflexivity.
  rewrite (opt_neqb_sym String.eqb (font_name sa)) by apply String.eqb_sym.
  rewrite (opt_neqb_sym SFeqb (font_size sa)) by apply SFeqb_sym.
  rewrite (opt_neqb_sym String.eqb (bg_color sa)) by apply String.eqb_sym.
  destruct (font_bold sa), (font_bold sb); reflexivity.
Qed.

Lemma normalize_pair_swap (o : CompareService.CompareOptions) (a b : pyval) :
  CompareService.normalize_pair o b a
  = (snd (CompareService.normalize_pair o a b), fst (CompareService.normalize_pair o a b)).
Proof.
  unfold CompareService.normalize_pair.
  rewrite <- (andb_assoc _ (is_str b)), (andb_comm (is_str b)), andb_assoc.
  destruct (CompareService.ignore_case o && is_str a && is_str b);
    destruct (CompareService.ignore_whitespace o); reflexivity.
Qed.

Lemma compare_cells_swap (sh : string) (r c : nat) (cell_a cell_b : option CellData)
  (o : CompareService.CompareOptions) :
  CompareService._compare_cells sh r c cell_b cell_a o
  = option_map mirror (CompareService._compare_cells sh r c cell_a cell_b o).
Proof.
  unfold CompareService._compare_cells. rewrite normalize_pair_swap.
  destruct (CompareService.normalize_pair o (value_of cell_a) (value_of cell_b))
    as [va vb]. simpl fst. simpl snd.
  rewrite (py_eqb_sym vb va), (compare_styles_sym cell_b cell_a).
  rewrite (andb_comm (CompareService.empty_val vb)).
  destruct (CompareService.empty_val va), (CompareService.empty_val vb); simpl;
    try reflexivity;
    destruct (py_eqb va vb); simpl;
    try (destruct (negb _ && _); reflexivity); reflexivity.
Qed.

Lemma map_flat_map {A B C : Type} (g : B -> C) (f : A -> list B) (l : list A) :
  map g (flat_map f l) = flat_map (fun x => map g (f x)) l.
Proof.
  induction l as [|x l IH]; simpl; [reflexivity|]. now rewrite map_app, IH.
Qed.

Lemma opt_list_map {A B : Type} (g : A -> B) (o : option A) :
  map g (opt_list o) = opt_list (option_map g o).
Proof. destruct o; reflexivity. Qed.

Lemma compare_exact_swap (a b : SheetData) (o : CompareService.CompareOptions) :
  name a = name b ->
  CompareService._compare_exact b a o = map mirror (CompareService._compare_exact a b o).
Proof.
  intro Hn. rewrite !compare_exact_no_skip, map_flat_map.
  rewrite (Nat.max_comm (Model.row_count b)), (Nat.max_comm (Model.col_count b)).
  apply flat_map_ext. intro r. rewrite map_flat_map. apply flat_map_ext. intro c.
  now rewrite opt_list_map, <- compare_cells_swap, Hn.
Qed.

Lemma mark_rows_mirror (nm : string) (sh : SheetData) (lo hi : nat) :
  map mirror (CompareService.mark_rows nm sh ADDED true lo hi)
  = CompareService.mark_rows nm sh DELETED false lo hi
  /\ map mirror (CompareService.mark_rows nm sh DELETED false lo hi)
     = CompareService.mark_rows nm sh ADDED true lo hi.
Proof.
  unfold CompareService.mark_rows. split; rewrite map_flat_map;
    apply flat_map_ext; intro r; rewrite map_flat_map; apply flat_map_ext; intro c;
    destruct (cell_at sh r c) as [cell|]; try reflexivity;
    destruct (negb (is_empty cell)); reflexivity.
Qed.

Lemma compare_structure_swap (a b : SheetData) (o : CompareService.CompareOptions) :
  name a = name b ->
  CompareService._compare_structure b a o
  = map mirror (CompareService._compare_structure a b o).
Proof.
  intro Hn. unfold CompareService._compare_structure.
  rewrite map_app, map_flat_map.
  rewrite (Nat.min_comm (Model.row_count b)), (Nat.min_comm (Model.col_count b)). f_equal.
  - destruct (Nat.ltb_spec (Model.row_count b) (Model.row_count a)) as [H1|H1];
      destruct (Nat.ltb_spec (Model.row_count a) (Model.row_count b)) as [H2|H2]; try lia.
    + rewrite Hn. symmetry. apply mark_rows_mirror.
    + rewrite Hn. symmetry. apply mark_rows_mirror.
    + reflexivity.
  - apply flat_map_ext. intro r. rewrite map_flat_map. apply flat_map_ext. intro c.
    now rewrite opt_list_map, <- compare_cells_swap, Hn.
Qed.

Lemma compare_formula_swap (a b : SheetData) (o : CompareService.CompareOptions) :
  name a = name b ->
  CompareService._compare_formula b a o
  = map mirror (CompareService._compare_formula a b o).
Proof.
  intro Hn. unfold CompareService._compare_formula. rewrite map_flat_map.
  rewrite (Nat.max_comm (Model.row_count b)), (Nat.max_comm (Model.col_count b)).
  apply flat_map_ext. intro r. rewrite map_flat_map. apply flat_map_ext. intro c.
  destruct (match cell_at a r c with Some c0 => formula c0 | None => None end) as [fa|];
    destruct (match cell_at b r c with Some c0 => formula c0 | None => None end) as [fb|];
    simpl.
  - rewrite (String.eqb_sym fb fa). destruct (String.eqb fa fb); simpl; [reflexivity|].
    now rewrite Hn.
  - now rewrite Hn.
  - now rewrite Hn.
  - now rewrite opt_list_map, <- compare_cells_swap, Hn.
Qed.

Lemma numeric_diff_swap (sh : string) (r c : nat) (va vb : option spec_float) :
  CompareService.numeric_diff sh r c vb va
  = option_map mirror (CompareService.numeric_diff sh r c va vb).
Proof.
  unfold CompareService.numeric_diff.
  rewrite (opt_neqb_sym SFeqb vb va) by apply SFeqb_sym.
  destruct (CompareService.opt_neqb SFeqb va vb); [|reflexivity].
  destruct va, vb; reflexivity.
Qed.

Lemma mapM_Ok_map {A B C : Type} (f : A -> result B) (g : A -> result C) (h : B -> C)
  (l : list A) (ys : list B) :
  (forall x y, f x = Ok y -> g x = Ok (h y)) ->
  mapM f l = Ok ys -> mapM g l = Ok (map h ys).
Proof.
  intro Hfg. revert ys. induction l as [|x l IH]; intros ys H.
  - inversion H. reflexivity.
  - apply mapM_Ok_inv in H. destruct H as (y & ys' & Hx & Hl & ->).
    simpl. rewrite (Hfg x y Hx). simpl. rewrite (IH ys' Hl). reflexivity.
Qed.

Lemma compare_numeric_swap (a b : SheetData) (o : CompareService.CompareOptions)
  (ds : list DiffResult) :
  name a = name b ->
  CompareService._compare_numeric a b o = Ok ds ->
  CompareService._compare_numeric b a o = Ok (map mirror ds).
Proof.
  intros Hn H. unfold CompareService._compare_numeric in *.
  rewrite (Nat.max_comm (Model.row_count b)), (Nat.max_comm (Model.col_count b)).
  apply fmap_Ok_inv in H. destruct H as (per & Hper & ->).
  rewrite (mapM_Ok_map _ _ (map mirror) _ per) with (2 := Hper).
  - simpl. now rewrite concat_map.
  - intros r y Hy. apply fmap_Ok_inv in Hy. destruct Hy as (cells & Hcells & ->).
    rewrite (mapM_Ok_map _ _ (map mirror) _ cells) with (2 := Hcells).
    + simpl. now rewrite concat_map.
    + intros c z Hz.
      destruct (CompareService._to_numeric (cell_at a r c)) as [va|e]; [|discriminate].
      destruct (CompareService._to_numeric (cell_at b r c)) as [vb|e]; [|discriminate].
      simpl in Hz. inversion Hz. simpl.
      now rewrite opt_list_map, <- numeric_diff_swap, Hn.
Qed.

Lemma mark_all_cells_mirror (sh : SheetData) :
  CompareService._mark_all_cells sh DELETED false
  = map mirror (CompareService._mark_all_cells sh ADDED true)
  /\ CompareService._mark_all_cells sh ADDED true
     = map mirror (CompareService._mark_all_cells sh DELETED false).
Proof.
  unfold CompareService._mark_all_cells.
  split; symmetry; apply mark_rows_mirror.
Qed.

(** X17. Exchanging the two workbooks mirrors the records of every
    sheet: the same cells are reported, Added and Deleted exchanged and
    the old and the new value and formula exchanged.  In the exact, the
    structure and the formula mode the two results are equal up to this
    exchange; in the numeric mode, where a conversion can raise, a
    comparison that returns gives the mirrored list the other way round. *)
Theorem exchanged_files_mirror_the_records :
  forall workbook_a workbook_b mode options sheet_name,
    (mode <> CompareService.NUMERIC ->
     CompareService.compare_sheet workbook_b workbook_a mode options sheet_name
     = fmap (map mirror)
         (CompareService.compare_sheet workbook_a workbook_b mode options sheet_name))
    /\ (forall ds,
          CompareService.compare_sheet workbook_a workbook_b mode options sheet_name
          = Ok ds ->
          CompareService.compare_sheet workbook_b workbook_a mode options sheet_name
          = Ok (map mirror ds)).
Proof.
  intros wa wb mode o n.
  assert (Hrest : mode <> CompareService.NUMERIC ->
    CompareService.compare_sheet wb wa mode o n
    = fmap (map mirror) (CompareService.compare_sheet wa wb mode o n)).
  { intro Hmode. unfold CompareService.compare_sheet.
    destruct (get_sheet wa n) as [a|] eqn:Ea, (get_sheet wb n) as [b|] eqn:Eb; simpl.
    - assert (Hn : name a = name b).
      { apply get_sheet_In in Ea, Eb. destruct Ea as [_ ->], Eb as [_ ->]. reflexivity. }
      destruct mode; simpl.
      + now rewrite compare_exact_swap.
      + now contradiction Hmode.
      + now rewrite compare_structure_swap.
      + now rewrite compare_formula_swap.
    - now rewrite (proj2 (mark_all_cells_mirror a)).
    - now rewrite (proj1 (mark_all_cells_mirror b)).
    - reflexivity. }
  split; [exact Hrest|].
  intros ds H.
  assert (Hm : mode = CompareService.NUMERIC \/ mode <> CompareService.NUMERIC)
    by (destruct mode; (now left) || (right; discriminate)).
  destruct Hm as [->|Hm].
  - unfold CompareService.compare_sheet in *.
    destruct (get_sheet wa n) as [a|] eqn:Ea, (get_sheet wb n) as [b|] eqn:Eb.
    + apply compare_numeric_swap; [|exact H].
      apply get_sheet_In in Ea, Eb. destruct Ea as [_ ->], Eb as [_ ->]. reflexivity.
    + inversion H. now rewrite (proj2 (mark_all_cells_mirror a)).
    + inversion H. now rewrite (proj1 (mark_all_cells_mirror b)).
    + discriminate.
  - rewrite (Hrest Hm), H. reflexivity.
Qed.

(** The statement at the sheet that only the new workbook has: Added
    one way, Deleted the other way. *)
Lemma exchanged_files_witness :
  CompareService.compare_sheet wb_new wb_old CompareService.NUMERIC
    CompareService.default_options "Extra"
  = Ok [DiffResult_ "Extra" 0 0 DELETED (PStr "p") PNone None None].
Proof.
  exact (proj2 (exchanged_files_mirror_the_records wb_old wb_new CompareService.NUMERIC
                  CompareService.default_options "Extra")
           [DiffResult_ "Extra" 0 0 ADDED PNone (PStr "p") None None] eq_refl).
Defined.
